(** * ip_vs_proto_tcp.c : TCP load balancing support for IPVS

    A shallow embedding of [net/netfilter/ipvs/ip_vs_proto_tcp.c] (the
    FullNAT / SYN-proxy variant of the IPVS TCP protocol module) and the
    properties of it that the design document states.  The code is taken
    as compiled with [CONFIG_IP_VS_IPV6]; a flow whose address family is
    not [AF_INET6] runs the same statements in both builds.

    Conventions of the embedding.
    - Machine integers are [Z] with the wrap-around written out ([u8],
      [u16], [u32], [u64], [s32]).
    - Header fields that the C code keeps in network byte order are kept
      here as the number they denote, so [ntohl]/[htonl] and
      [ntohs]/[htons] are the identity on the model and a field that is
      only copied is copied.  The one place where the code computes with
      the raw bits of such a field, [tcp_app_hashkey], swaps the bytes as
      the little-endian host does.  Where the code looks at the bytes of the
      packet (the option area) the bytes are modelled as such and 16/32-bit
      values are read and written big-endian, which is what
      [ntohl( *(__u32 * ) p)] computes on any host.
    - The bytes that follow the fixed 20-byte TCP header in the skb are a
      [list Z]; every access of an option walker is logged, and an access
      outside the list is a [Fault].
    - Functions of the kernel that are not part of this file are either
      fields of the class [Framework] (hooks, lookups, the secure sequence
      generator, patch-specific constants) or are modelled under a doc
      comment that says so. *)

From Stdlib Require Import ZArith List Bool Lia.
From Stdlib Require String.
Import ListNotations.
Local Open Scope Z_scope.

(* ===================================================================== *)
(** ** Machine arithmetic                                                 *)
(* ===================================================================== *)

Definition u8 (x : Z) : Z := x mod 2 ^ 8.
Definition u16 (x : Z) : Z := x mod 2 ^ 16.
Definition u32 (x : Z) : Z := x mod 2 ^ 32.
Definition u64 (x : Z) : Z := x mod 2 ^ 64.

(** The cast [(__s32) x] of a 32-bit unsigned value. *)
Definition s32 (x : Z) : Z :=
  let y := u32 x in if y <? 2 ^ 31 then y else y - 2 ^ 32.

(** Modelled from the spec: [before]/[after] of include/net/tcp.h, which is
    not under src/: the comparison of two sequence numbers in mod-2^32
    order, [(__s32)(seq1 - seq2) < 0]. *)
Definition before (seq1 seq2 : Z) : bool := s32 (seq1 - seq2) <? 0.
Definition after (seq2 seq1 : Z) : bool := before seq1 seq2.

(* ===================================================================== *)
(** ** Constants of the kernel headers                                    *)
(* ===================================================================== *)

(** Modelled from the spec: the TCP option kinds and lengths of
    include/net/tcp.h (not under src/): EOL=0, NOP=1, the 4-byte MSS
    option, the 10-byte timestamp option, SACK with a 2-byte base and
    8-byte blocks, and the 8-byte client-address option. *)
Definition TCPOPT_EOL : Z := 0.
Definition TCPOPT_NOP : Z := 1.
Definition TCPOPT_MSS : Z := 2.
Definition TCPOPT_SACK : Z := 5.
Definition TCPOPT_TIMESTAMP : Z := 8.
Definition TCPOLEN_MSS : Z := 4.
Definition TCPOLEN_TIMESTAMP : Z := 10.
Definition TCPOLEN_SACK_BASE : Z := 2.
Definition TCPOLEN_SACK_PERBLOCK : Z := 8.
Definition TCPOLEN_ADDR : Z := 8.

(** [sizeof(struct tcphdr)], [sizeof(struct iphdr)], [sizeof(struct ipv6hdr)],
    [sizeof(struct ip_vs_tcpo_addr)]. *)
Definition sizeof_tcphdr : Z := 20.
Definition sizeof_iphdr : Z := 20.
Definition sizeof_ipv6hdr : Z := 40.
Definition sizeof_ip_vs_tcpo_addr : Z := 8.

(** Modelled from the spec: address families, protocol numbers, netfilter
    verdicts, errno and checksum markers of the kernel ABI (not under
    src/). *)
Definition AF_INET : Z := 2.
Definition AF_INET6 : Z := 10.
Definition IPPROTO_TCP : Z := 6.
Definition NEXTHDR_TCP : Z := 6.
Definition IP_DF : Z := 0x4000.
Definition IPDEFTTL : Z := 64.
Definition IPV6_DEFAULT_HOPLIMIT : Z := 64.
Definition NF_DROP : Z := 0.
Definition NF_ACCEPT : Z := 1.
Definition EEXIST : Z := 17.
Definition CHECKSUM_NONE : Z := 0.
Definition CHECKSUM_UNNECESSARY : Z := 1.
Definition CHECKSUM_COMPLETE : Z := 2.
Definition CHECKSUM_PARTIAL : Z := 3.

(** Modelled from the spec: connection flags of include/linux/ip_vs.h that
    mainline IPVS defines (not under src/).  The flags this patch adds are
    fields of [Framework]. *)
Definition IP_VS_CONN_F_MASQ : Z := 0x0000.
Definition IP_VS_CONN_F_FWD_MASK : Z := 0x0007.
Definition IP_VS_CONN_F_NOOUTPUT : Z := 0x0080.
Definition IP_VS_CONN_F_INACTIVE : Z := 0x0100.

(* ===================================================================== *)
(** ** Data model                                                         *)
(* ===================================================================== *)

(** [struct tcphdr]: the fixed 20-byte TCP header. *)
Record tcphdr := mk_tcphdr {
  source : Z;
  dest : Z;
  seq : Z;
  ack_seq : Z;
  res1 : Z;
  doff : Z;
  fin : bool;
  syn : bool;
  rst : bool;
  psh : bool;
  ack : bool;
  urg : bool;
  ece : bool;
  cwr : bool;
  window : Z;
  check : Z;
  urg_ptr : Z
}.

Definition set_source (v : Z) (h : tcphdr) : tcphdr :=
  mk_tcphdr v (dest h) (seq h) (ack_seq h) (res1 h) (doff h) (fin h) (syn h)
    (rst h) (psh h) (ack h) (urg h) (ece h) (cwr h) (window h) (check h)
    (urg_ptr h).
Definition set_dest (v : Z) (h : tcphdr) : tcphdr :=
  mk_tcphdr (source h) v (seq h) (ack_seq h) (res1 h) (doff h) (fin h) (syn h)
    (rst h) (psh h) (ack h) (urg h) (ece h) (cwr h) (window h) (check h)
    (urg_ptr h).
Definition set_seq (v : Z) (h : tcphdr) : tcphdr :=
  mk_tcphdr (source h) (dest h) v (ack_seq h) (res1 h) (doff h) (fin h) (syn h)
    (rst h) (psh h) (ack h) (urg h) (ece h) (cwr h) (window h) (check h)
    (urg_ptr h).
Definition set_ack_seq (v : Z) (h : tcphdr) : tcphdr :=
  mk_tcphdr (source h) (dest h) (seq h) v (res1 h) (doff h) (fin h) (syn h)
    (rst h) (psh h) (ack h) (urg h) (ece h) (cwr h) (window h) (check h)
    (urg_ptr h).
Definition set_doff (v : Z) (h : tcphdr) : tcphdr :=
  mk_tcphdr (source h) (dest h) (seq h) (ack_seq h) (res1 h) v (fin h) (syn h)
    (rst h) (psh h) (ack h) (urg h) (ece h) (cwr h) (window h) (check h)
    (urg_ptr h).
Definition set_rst (v : bool) (h : tcphdr) : tcphdr :=
  mk_tcphdr (source h) (dest h) (seq h) (ack_seq h) (res1 h) (doff h) (fin h)
    (syn h) v (psh h) (ack h) (urg h) (ece h) (cwr h) (window h) (check h)
    (urg_ptr h).
Definition set_check (v : Z) (h : tcphdr) : tcphdr :=
  mk_tcphdr (source h) (dest h) (seq h) (ack_seq h) (res1 h) (doff h) (fin h)
    (syn h) (rst h) (psh h) (ack h) (urg h) (ece h) (cwr h) (window h) v
    (urg_ptr h).

(** [memset(th, 0, sizeof(struct tcphdr))]. *)
Definition tcphdr_zero : tcphdr :=
  mk_tcphdr 0 0 0 0 0 0 false false false false false false false false 0 0 0.

(** The sysctl switches the module reads. *)
Record sysctl := mk_sysctl {
  sysctl_ip_vs_tcp_drop_entry : Z;
  sysctl_ip_vs_mss_adjust_entry : Z;
  sysctl_ip_vs_timestamp_remove_entry : Z;
  sysctl_ip_vs_toa_entry : Z;
  sysctl_ip_vs_conn_expire_tcp_rst : Z;
  sysctl_ip_vs_conn_reused_entry : Z
}.

(* ===================================================================== *)
(** ** Memory of the option area, with an access log                      *)
(* ===================================================================== *)

(** One byte access at an offset counted from [tcph + 1]. *)
Inductive access := Rd (off : Z) | Wr (off : Z).

Definition access_off (a : access) : Z :=
  match a with Rd o => o | Wr o => o end.

(** The bytes after the fixed header (options, then payload, up to the end
    of the buffer) and the accesses made so far, oldest first. *)
Record optmem := mk_optmem { bytes : list Z; trace : list access }.

(** Outcome of a computation: a value, an access outside the buffer (with
    the log up to and including it), or an exhausted loop budget. *)
Inductive res (A : Type) :=
| Ok (a : A)
| Fault (t : list access)
| Fuel.
Arguments Ok {A} a.
Arguments Fault {A} t.
Arguments Fuel {A}.

(** Computations on the bytes that log their accesses. *)
Definition M (A : Type) : Type := optmem -> res (A * optmem).

Definition ret {A} (a : A) : M A := fun m => Ok (a, m).
Definition bind {A B} (c : M A) (k : A -> M B) : M B :=
  fun m => match c m with
           | Ok (a, m') => k a m'
           | Fault t => Fault t
           | Fuel => Fuel
           end.
Definition out_of_fuel {A} : M A := fun _ => Fuel.

Declare Scope walk_scope.
Delimit Scope walk_scope with walk.
Notation "x <- c ;; k" := (bind c (fun x => k))
  (at level 61, c at next level, right associativity) : walk_scope.
Notation "c ;;; k" := (bind c (fun _ => k))
  (at level 61, right associativity) : walk_scope.
Local Open Scope walk_scope.

(** [l] with its element [n] replaced by [v]; [l] itself when it has none. *)
Fixpoint set_nth (n : nat) (v : Z) (l : list Z) : list Z :=
  match l, n with
  | [], _ => []
  | _ :: t, O => v :: t
  | h :: t, S n' => h :: set_nth n' v t
  end.

Definition in_buf (off : Z) (l : list Z) : bool :=
  (0 <=? off) && (off <? Z.of_nat (length l)).

(** [*p] for a byte pointer [p = (unsigned char * )(tcph + 1) + off]; what
    is read is an [unsigned char]. *)
Definition rd8 (off : Z) : M Z := fun m =>
  let t := trace m ++ [Rd off] in
  if in_buf off (bytes m)
  then Ok (u8 (nth (Z.to_nat off) (bytes m) 0), mk_optmem (bytes m) t)
  else Fault t.

(** [*p = v]. *)
Definition wr8 (off v : Z) : M unit := fun m =>
  let t := trace m ++ [Wr off] in
  if in_buf off (bytes m)
  then Ok (tt, mk_optmem (set_nth (Z.to_nat off) (u8 v) (bytes m)) t)
  else Fault t.

(** [ntohs( *(__u16 * ) p)] and [*(__u16 * ) p = htons(v)]. *)
Definition rd16 (off : Z) : M Z :=
  b0 <- rd8 off ;; b1 <- rd8 (off + 1) ;; ret (b0 * 2 ^ 8 + b1).
Definition wr16 (off v : Z) : M unit :=
  wr8 off (v / 2 ^ 8) ;;; wr8 (off + 1) v.

(** [ntohl( *(__u32 * ) p)] and [*(__u32 * ) p = htonl(v)]. *)
Definition rd32 (off : Z) : M Z :=
  b0 <- rd8 off ;; b1 <- rd8 (off + 1) ;;
  b2 <- rd8 (off + 2) ;; b3 <- rd8 (off + 3) ;;
  ret (b0 * 2 ^ 24 + b1 * 2 ^ 16 + b2 * 2 ^ 8 + b3).
Definition wr32 (off v : Z) : M unit :=
  wr8 off (v / 2 ^ 24) ;;; wr8 (off + 1) (v / 2 ^ 16) ;;;
  wr8 (off + 2) (v / 2 ^ 8) ;;; wr8 (off + 3) v.

(** Run a walker on a buffer with an empty log. *)
Definition run {A} (c : M A) (buf : list Z) : res (A * optmem) :=
  c (mk_optmem buf []).

(* ===================================================================== *)
(** ** Option walkers                                                     *)
(* ===================================================================== *)

(** The [while (length > 0)] loop of [tcp_opt_adjust_mss].  [ptr] is the
    offset of the C pointer from [tcph + 1]; the budget counts iterations. *)
Fixpoint adjust_mss_loop (fuel : nat) (ptr length : Z) : M unit :=
  if length <=? 0 then ret tt else
  match fuel with
  | O => out_of_fuel
  | S fuel' =>
    opcode <- rd8 ptr ;;
    let ptr := ptr + 1 in
    if opcode =? TCPOPT_EOL then ret tt
    else if opcode =? TCPOPT_NOP then adjust_mss_loop fuel' ptr (length - 1)
    else
      opsize <- rd8 ptr ;;
      let ptr := ptr + 1 in
      if opsize <? 2 then ret tt
      else if opsize >? length then ret tt
      else if (opcode =? TCPOPT_MSS) && (opsize =? TCPOLEN_MSS) then
        in_mss <- rd16 ptr ;;
        let in_mss := u16 (in_mss - TCPOLEN_ADDR) in
        wr16 ptr in_mss
      else adjust_mss_loop fuel' (ptr + (opsize - 2)) (length - opsize)
  end.

(** [tcp_opt_adjust_mss]: adjust tcp opt mss, sub TCPOLEN_CIP. *)
Definition tcp_opt_adjust_mss (cfg : sysctl) (tcph : tcphdr) : M unit :=
  if sysctl_ip_vs_mss_adjust_entry cfg =? 0 then ret tt
  else
    let length := doff tcph * 4 - sizeof_tcphdr in
    adjust_mss_loop (Z.to_nat length) 0 length.

(** The [for (i = 0; i < TCPOLEN_TIMESTAMP; i++)] loop that overwrites the
    option, [opt] being the offset of its kind byte ([ptr - 2]). *)
Fixpoint nop_fill (n : nat) (opt i : Z) : M unit :=
  match n with
  | O => ret tt
  | S n' => wr8 (opt + i) TCPOPT_NOP ;;; nop_fill n' opt (i + 1)
  end.

(** The [while (length > 0)] loop of [tcp_opt_remove_timestamp]. *)
Fixpoint remove_timestamp_loop (fuel : nat) (ptr length : Z) : M unit :=
  if length <=? 0 then ret tt else
  match fuel with
  | O => out_of_fuel
  | S fuel' =>
    opcode <- rd8 ptr ;;
    let ptr := ptr + 1 in
    if opcode =? TCPOPT_EOL then ret tt
    else if opcode =? TCPOPT_NOP
    then remove_timestamp_loop fuel' ptr (length - 1)
    else
      opsize <- rd8 ptr ;;
      let ptr := ptr + 1 in
      if opsize <? 2 then ret tt
      else if opsize >? length then ret tt
      else if (opcode =? TCPOPT_TIMESTAMP) && (opsize =? TCPOLEN_TIMESTAMP)
      then nop_fill (Z.to_nat TCPOLEN_TIMESTAMP) (ptr - 2) 0
      else remove_timestamp_loop fuel' (ptr + (opsize - 2)) (length - opsize)
  end.

(** [tcp_opt_remove_timestamp]: remove tcp timestamp opt in one packet,
    just set it to TCPOPT_NOP. *)
Definition tcp_opt_remove_timestamp (cfg : sysctl) (tcph : tcphdr) : M unit :=
  if sysctl_ip_vs_timestamp_remove_entry cfg =? 0 then ret tt
  else
    let length := doff tcph * 4 - sizeof_tcphdr in
    remove_timestamp_loop (Z.to_nat length) 0 length.

(** The SACK loop of [tcp_out_adjust_seq]:
    [for (i = 0; i < opsize - TCPOLEN_SACK_BASE; i += 4)
       *((__u32 * ) ptr + i) = htonl(ntohl( *((__u32 * ) ptr + i)) - delta);]
    [i] is a [__u8]; the cast binds tighter than [+], so [i] counts 32-bit
    words from [ptr] and the byte offset of the word is [ptr + 4 * i]. *)
Fixpoint sack_loop (fuel : nat) (ptr opsize delta i : Z) : M unit :=
  if i <? opsize - TCPOLEN_SACK_BASE then
    match fuel with
    | O => out_of_fuel
    | S fuel' =>
      v <- rd32 (ptr + 4 * i) ;;
      wr32 (ptr + 4 * i) (u32 (v - delta)) ;;;
      sack_loop fuel' ptr opsize delta (u8 (i + 4))
    end
  else ret tt.

(** The [while (length > 0)] loop of [tcp_out_adjust_seq]. *)
Fixpoint out_adjust_loop (fuel : nat) (delta ptr length : Z) : M unit :=
  if length <=? 0 then ret tt else
  match fuel with
  | O => out_of_fuel
  | S fuel' =>
    opcode <- rd8 ptr ;;
    let ptr := ptr + 1 in
    if opcode =? TCPOPT_EOL then ret tt
    else if opcode =? TCPOPT_NOP
    then out_adjust_loop fuel' delta ptr (length - 1)
    else
      opsize <- rd8 ptr ;;
      let ptr := ptr + 1 in
      if opsize <? 2 then ret tt
      else if opsize >? length then ret tt
      else if (opcode =? TCPOPT_SACK)
              && (opsize >=? TCPOLEN_SACK_BASE + TCPOLEN_SACK_PERBLOCK)
              && ((opsize - TCPOLEN_SACK_BASE) mod TCPOLEN_SACK_PERBLOCK =? 0)
      then sack_loop (Z.to_nat opsize) ptr opsize delta 0
      else out_adjust_loop fuel' delta (ptr + (opsize - 2)) (length - opsize)
  end.

(* ===================================================================== *)
(** ** Flows, buffers and the surrounding framework                       *)
(* ===================================================================== *)

(** [union nf_inet_addr]: four 32-bit words; the member [ip] is the first. *)
Definition nf_inet_addr : Type := list Z.
Definition ip (a : nf_inet_addr) : Z := nth 0%nat a 0.
Definition ip6 (a : nf_inet_addr) : list Z := firstn 4 (a ++ [0; 0; 0; 0]).

(** The IPVS TCP pseudo-states, in the order of the enum (the column order
    of the transition tables). *)
Inductive tcp_state :=
| IP_VS_TCP_S_NONE
| IP_VS_TCP_S_ESTABLISHED
| IP_VS_TCP_S_SYN_SENT
| IP_VS_TCP_S_SYN_RECV
| IP_VS_TCP_S_FIN_WAIT
| IP_VS_TCP_S_TIME_WAIT
| IP_VS_TCP_S_CLOSE
| IP_VS_TCP_S_CLOSE_WAIT
| IP_VS_TCP_S_LAST_ACK
| IP_VS_TCP_S_LISTEN
| IP_VS_TCP_S_SYNACK.

Definition state_index (s : tcp_state) : nat :=
  match s with
  | IP_VS_TCP_S_NONE => 0
  | IP_VS_TCP_S_ESTABLISHED => 1
  | IP_VS_TCP_S_SYN_SENT => 2
  | IP_VS_TCP_S_SYN_RECV => 3
  | IP_VS_TCP_S_FIN_WAIT => 4
  | IP_VS_TCP_S_TIME_WAIT => 5
  | IP_VS_TCP_S_CLOSE => 6
  | IP_VS_TCP_S_CLOSE_WAIT => 7
  | IP_VS_TCP_S_LAST_ACK => 8
  | IP_VS_TCP_S_LISTEN => 9
  | IP_VS_TCP_S_SYNACK => 10
  end%nat.

Definition tcp_state_eqb (a b : tcp_state) : bool :=
  Nat.eqb (state_index a) (state_index b).

(** [IP_VS_DIR_INPUT], [IP_VS_DIR_OUTPUT], [IP_VS_DIR_INPUT_ONLY]. *)
Inductive direction := IP_VS_DIR_INPUT | IP_VS_DIR_OUTPUT | IP_VS_DIR_INPUT_ONLY.

(** [struct ip_vs_seq]: the fields this file uses. *)
Record ip_vs_seq := mk_seq {
  init_seq : Z;
  delta : Z;
  fdata_seq : Z
}.

(** The network header as far as the module reads or writes it: the IPv4
    header fields, with the addresses wide enough for IPv6. *)
Record iphdr := mk_iphdr {
  version : Z;
  ihl : Z;
  tos : Z;
  tot_len : Z;
  id : Z;
  frag_off : Z;
  ttl : Z;
  protocol : Z;
  ip_check : Z;
  saddr : nf_inet_addr;
  daddr : nf_inet_addr
}.

(** [struct sk_buff], linear: network header, TCP header, and the bytes
    after the fixed TCP header. *)
Record sk_buff := mk_skb {
  iph : iphdr;
  tcp_hdr : tcphdr;
  data : list Z;
  len : Z;
  ip_summed : Z;
  csum : Z;
  mark : Z;
  dst_mtu : Z
}.

(** [struct ip_vs_app]: an application helper; [app_ptr] stands for the
    address of the object. *)
Record ip_vs_app := mk_app {
  app_ptr : Z;
  app_port : Z
}.

(** [struct ip_vs_dest]: the two connection counters. *)
Record ip_vs_dest := mk_dest {
  activeconns : Z;
  inactconns : Z
}.

(** [struct ip_vs_conn]: the fields this file reads or writes. *)
Record ip_vs_conn := mk_conn {
  af : Z;
  conn_protocol : Z;
  caddr : nf_inet_addr;
  vaddr : nf_inet_addr;
  laddr : nf_inet_addr;
  daddr_rs : nf_inet_addr;
  cport : Z;
  vport : Z;
  lport : Z;
  dport : Z;
  flags : Z;
  state : tcp_state;
  old_state : tcp_state;
  timeout : Z;
  fnat_seq : ip_vs_seq;
  syn_proxy_seq : ip_vs_seq;
  rs_end_seq : Z;
  rs_ack_seq : Z;
  ack_skb : list sk_buff;
  app : option ip_vs_app;
  conn_dest : option ip_vs_dest
}.

Definition set_flags (v : Z) (c : ip_vs_conn) : ip_vs_conn :=
  mk_conn (af c) (conn_protocol c) (caddr c) (vaddr c) (laddr c) (daddr_rs c)
    (cport c) (vport c) (lport c) (dport c) v (state c) (old_state c)
    (timeout c) (fnat_seq c) (syn_proxy_seq c) (rs_end_seq c) (rs_ack_seq c)
    (ack_skb c) (app c) (conn_dest c).
Definition set_fnat_seq (v : ip_vs_seq) (c : ip_vs_conn) : ip_vs_conn :=
  mk_conn (af c) (conn_protocol c) (caddr c) (vaddr c) (laddr c) (daddr_rs c)
    (cport c) (vport c) (lport c) (dport c) (flags c) (state c) (old_state c)
    (timeout c) v (syn_proxy_seq c) (rs_end_seq c) (rs_ack_seq c)
    (ack_skb c) (app c) (conn_dest c).
Definition set_rs_seq (e a : Z) (c : ip_vs_conn) : ip_vs_conn :=
  mk_conn (af c) (conn_protocol c) (caddr c) (vaddr c) (laddr c) (daddr_rs c)
    (cport c) (vport c) (lport c) (dport c) (flags c) (state c) (old_state c)
    (timeout c) (fnat_seq c) (syn_proxy_seq c) e a
    (ack_skb c) (app c) (conn_dest c).
Definition set_state (s o : tcp_state) (t : Z) (c : ip_vs_conn) : ip_vs_conn :=
  mk_conn (af c) (conn_protocol c) (caddr c) (vaddr c) (laddr c) (daddr_rs c)
    (cport c) (vport c) (lport c) (dport c) (flags c) s o
    t (fnat_seq c) (syn_proxy_seq c) (rs_end_seq c) (rs_ack_seq c)
    (ack_skb c) (app c) (conn_dest c).
Definition set_conn_dest (d : option ip_vs_dest) (c : ip_vs_conn) : ip_vs_conn :=
  mk_conn (af c) (conn_protocol c) (caddr c) (vaddr c) (laddr c) (daddr_rs c)
    (cport c) (vport c) (lport c) (dport c) (flags c) (state c) (old_state c)
    (timeout c) (fnat_seq c) (syn_proxy_seq c) (rs_end_seq c) (rs_ack_seq c)
    (ack_skb c) (app c) d.

(** The counters of [ip_vs_esmib] this file increments. *)
Inductive estat :=
| DEFENCE_TCP_DROP
| FULLNAT_ADD_TOA_OK
| FULLNAT_ADD_TOA_FAIL_LEN
| FULLNAT_ADD_TOA_FAIL_MEM
| FULLNAT_ADD_TOA_FAIL_PROTO
| FULLNAT_CONN_REUSED
| FULLNAT_CONN_REUSED_CLOSE
| FULLNAT_CONN_REUSED_TIMEWAIT
| FULLNAT_CONN_REUSED_FINWAIT
| FULLNAT_CONN_REUSED_CLOSEWAIT
| FULLNAT_CONN_REUSED_LASTACK
| FULLNAT_CONN_REUSED_ESTAB.

(** [struct ip_vs_service], as an opaque handle. *)
Definition ip_vs_service : Type := Z.

(** What the module consumes from the rest of IPVS and the kernel: the
    flags and the option kind that the FullNAT patch adds to the headers,
    the secure sequence generators, the three SYN-proxy hooks, the service
    and scheduler interface and the helper callbacks.  None of them is
    defined in ip_vs_proto_tcp.c.  The SYN-proxy hooks get the header and
    the bytes after it, since they are handed a [struct tcphdr *]. *)
Class Framework := {
  IP_VS_CONN_F_FULLNAT : Z;
  IP_VS_CONN_F_CIP_INSERTED : Z;
  TCPOPT_ADDR : Z;
  secure_tcp_sequence_number : Z -> Z -> Z -> Z -> Z;
  secure_tcpv6_sequence_number : list Z -> list Z -> Z -> Z -> Z;
  ip_vs_synproxy_snat_handler :
    tcphdr -> list Z -> ip_vs_conn -> Z * (tcphdr * list Z);
  ip_vs_synproxy_dnat_handler :
    tcphdr -> list Z -> ip_vs_seq -> tcphdr * list Z;
  ip_vs_synproxy_ack_rcv :
    Z -> sk_buff -> option ip_vs_conn -> Z -> Z * option ip_vs_conn * Z;
  ip_vs_service_get :
    Z -> Z -> Z -> nf_inet_addr -> Z -> option ip_vs_service;
  ip_vs_lookup_vip : Z -> Z -> nf_inet_addr -> option ip_vs_service;
  ip_vs_todrop : bool;
  ip_vs_schedule : ip_vs_service -> sk_buff -> Z -> option ip_vs_conn;
  ip_vs_leave : ip_vs_service -> sk_buff -> Z;
  ip_vs_app_pkt_in : ip_vs_conn -> sk_buff -> Z * ip_vs_conn * sk_buff;
  ip_vs_app_pkt_out : ip_vs_conn -> sk_buff -> Z * ip_vs_conn * sk_buff
}.

(* ===================================================================== *)
(** ** Checksum engine                                                    *)
(* ===================================================================== *)

(** The bytes of a 16-bit and of a 32-bit value, most significant first. *)
Definition be16_bytes (v : Z) : list Z := [u8 (v / 2 ^ 8); u8 v].
Definition be32_bytes (v : Z) : list Z :=
  [u8 (v / 2 ^ 24); u8 (v / 2 ^ 16); u8 (v / 2 ^ 8); u8 v].

Definition b2z (b : bool) : Z := if b then 1 else 0.

(** The 20 bytes of a [struct tcphdr] as they lie in the packet. *)
Definition tcphdr_bytes (h : tcphdr) : list Z :=
  be16_bytes (source h) ++ be16_bytes (dest h) ++
  be32_bytes (seq h) ++ be32_bytes (ack_seq h) ++
  [u8 (doff h mod 16 * 16 + res1 h mod 16);
   b2z (cwr h) * 128 + b2z (ece h) * 64 + b2z (urg h) * 32 + b2z (ack h) * 16
   + b2z (psh h) * 8 + b2z (rst h) * 4 + b2z (syn h) * 2 + b2z (fin h)] ++
  be16_bytes (window h) ++ be16_bytes (check h) ++ be16_bytes (urg_ptr h).

(** The 20 bytes of a [struct iphdr]. *)
Definition iphdr_bytes (h : iphdr) : list Z :=
  [u8 (version h mod 16 * 16 + ihl h mod 16); u8 (tos h)] ++
  be16_bytes (tot_len h) ++ be16_bytes (id h) ++ be16_bytes (frag_off h) ++
  [u8 (ttl h); u8 (protocol h)] ++ be16_bytes (ip_check h) ++
  be32_bytes (ip (saddr h)) ++ be32_bytes (ip (daddr h)).

(** Modelled from the spec: the Internet-checksum helpers of the kernel
    ([csum_partial], [csum_fold], [csum_tcpudp_magic], [csum_ipv6_magic],
    [ip_fast_csum], [ip_send_check], [skb_checksum]), which are not under
    src/: a 32-bit one's-complement sum of the 16-bit words of the data,
    folded to 16 bits and complemented.  The words are taken big-endian;
    the checksum does not depend on the byte order in which it is summed. *)
Definition csum_add (a b : Z) : Z :=
  let s := a + b in u32 s + s / 2 ^ 32.

Fixpoint be16_words (l : list Z) : list Z :=
  match l with
  | b0 :: b1 :: t => (b0 * 2 ^ 8 + b1) :: be16_words t
  | [b0] => [b0 * 2 ^ 8]
  | [] => []
  end.

Definition csum_partial (buff : list Z) (sum : Z) : Z :=
  fold_left csum_add (be16_words buff) sum.

Definition csum_fold (csum : Z) : Z :=
  let sum := u32 csum in
  let sum := Z.land sum 0xffff + Z.shiftr sum 16 in
  let sum := Z.land sum 0xffff + Z.shiftr sum 16 in
  u16 (Z.lnot sum).

Definition csum_tcpudp_nofold (saddr daddr len proto sum : Z) : Z :=
  csum_add (csum_add (csum_add sum (u32 saddr)) (u32 daddr))
           (u32 (proto + len)).

Definition csum_tcpudp_magic (saddr daddr len proto sum : Z) : Z :=
  csum_fold (csum_tcpudp_nofold saddr daddr len proto sum).

Definition csum_ipv6_magic (saddr daddr : list Z) (len proto sum : Z) : Z :=
  csum_fold (fold_left csum_add
               (map u32 saddr ++ map u32 daddr ++ [u32 len; u32 proto]) sum).

Definition ip_fast_csum (h : iphdr) : Z :=
  csum_fold (csum_partial (firstn (Z.to_nat (ihl h * 4)) (iphdr_bytes h)) 0).

Definition set_ip_check (v : Z) (h : iphdr) : iphdr :=
  mk_iphdr (version h) (ihl h) (tos h) (tot_len h) (id h) (frag_off h)
    (ttl h) (protocol h) v (saddr h) (daddr h).
Definition set_tot_len (v : Z) (h : iphdr) : iphdr :=
  mk_iphdr (version h) (ihl h) (tos h) v (id h) (frag_off h)
    (ttl h) (protocol h) (ip_check h) (saddr h) (daddr h).

Definition ip_send_check (h : iphdr) : iphdr :=
  let h := set_ip_check 0 h in
  set_ip_check (ip_fast_csum h) h.

(** [skb_checksum(skb, tcphoff, skb->len - tcphoff, 0)]: the sum over the
    TCP header and what follows it. *)
Definition skb_checksum (skb : sk_buff) (tcphoff : Z) : Z :=
  csum_partial
    (firstn (Z.to_nat (len skb - tcphoff)) (tcphdr_bytes (tcp_hdr skb) ++ data skb))
    0.

Definition ip_hdrlen (skb : sk_buff) : Z := ihl (iph skb) * 4.

Definition set_th (h : tcphdr) (s : sk_buff) : sk_buff :=
  mk_skb (iph s) h (data s) (len s) (ip_summed s) (csum s) (mark s) (dst_mtu s).
Definition set_data (d : list Z) (s : sk_buff) : sk_buff :=
  mk_skb (iph s) (tcp_hdr s) d (len s) (ip_summed s) (csum s) (mark s) (dst_mtu s).
Definition set_csum (v : Z) (s : sk_buff) : sk_buff :=
  mk_skb (iph s) (tcp_hdr s) (data s) (len s) (ip_summed s) v (mark s) (dst_mtu s).
Definition set_ip_summed (v : Z) (s : sk_buff) : sk_buff :=
  mk_skb (iph s) (tcp_hdr s) (data s) (len s) v (csum s) (mark s) (dst_mtu s).

(** [tcp_csum_check]; the [CHECKSUM_NONE] case falls through into
    [CHECKSUM_COMPLETE]. *)
Definition tcp_csum_check (af : Z) (skb : sk_buff) : Z * sk_buff :=
  let tcphoff := if af =? AF_INET6 then sizeof_ipv6hdr else ip_hdrlen skb in
  let verify (skb : sk_buff) : Z * sk_buff :=
    let bad :=
      if af =? AF_INET6
      then csum_ipv6_magic (ip6 (saddr (iph skb))) (ip6 (daddr (iph skb)))
             (len skb - tcphoff) (protocol (iph skb)) (csum skb)
      else csum_tcpudp_magic (ip (saddr (iph skb))) (ip (daddr (iph skb)))
             (len skb - tcphoff) (protocol (iph skb)) (csum skb) in
    if negb (bad =? 0) then (0, skb) else (1, skb) in
  if ip_summed skb =? CHECKSUM_NONE
  then verify (set_csum (skb_checksum skb tcphoff) skb)
  else if ip_summed skb =? CHECKSUM_COMPLETE then verify skb
  else (1, skb).

(** The "full checksum calculation" that ends both FullNAT handlers. *)
Definition full_csum (af : Z) (s d : nf_inet_addr) (proto tcphoff : Z)
    (skb : sk_buff) : sk_buff :=
  let skb := set_th (set_check 0 (tcp_hdr skb)) skb in
  let skb := set_csum (skb_checksum skb tcphoff) skb in
  let c :=
    if af =? AF_INET6
    then csum_ipv6_magic (ip6 s) (ip6 d) (len skb - tcphoff) proto (csum skb)
    else csum_tcpudp_magic (ip s) (ip d) (len skb - tcphoff) proto (csum skb) in
  set_th (set_check c (tcp_hdr skb)) skb.

(* ===================================================================== *)
(** ** Sequence translator                                                *)
(* ===================================================================== *)

Section Translator.
Context `{Framework}.

(** [tcp_save_out_seq]: save tcp sequence for fullnat/nat, inside to
    outside.  The three pointers are never NULL at its two call sites. *)
Definition tcp_save_out_seq (cfg : sysctl) (skb : sk_buff) (cp : ip_vs_conn)
    (th : tcphdr) (ihl : Z) : ip_vs_conn :=
  if negb (sysctl_ip_vs_conn_expire_tcp_rst cfg =? 0) && negb (rst th) then
    if before (ack_seq th) (rs_ack_seq cp) && negb (rs_ack_seq cp =? 0)
    then cp
    else
      let e := if syn th && ack th
               then u32 (seq th + 1)
               else u32 (seq th + len skb - ihl - doff th * 4) in
      set_rs_seq e (ack_seq th) cp
  else cp.

(** [tcp_out_adjust_seq]: the SYN-proxy egress hook, then the FullNAT
    change of [ack_seq], then the SACK walk. *)
Definition tcp_out_adjust_seq (cp : ip_vs_conn) (tcph : tcphdr)
    : M (Z * tcphdr) := fun m =>
  let '(r, (tcph, bs)) := ip_vs_synproxy_snat_handler tcph (bytes m) cp in
  let m := mk_optmem bs (trace m) in
  if r =? 0 then Ok ((0, tcph), m)
  else
    let tcph := set_ack_seq (u32 (ack_seq tcph - delta (fnat_seq cp))) tcph in
    let length := doff tcph * 4 - sizeof_tcphdr in
    (out_adjust_loop (Z.to_nat length) (delta (fnat_seq cp)) 0 length ;;;
     ret (1, tcph)) m.

(** The [switch (cp->old_state)] of [tcp_in_init_seq]: the counter of the
    state the flow was in before, if that state has one. *)
Definition reused_category (s : tcp_state) : list estat :=
  match s with
  | IP_VS_TCP_S_CLOSE => [FULLNAT_CONN_REUSED_CLOSE]
  | IP_VS_TCP_S_TIME_WAIT => [FULLNAT_CONN_REUSED_TIMEWAIT]
  | IP_VS_TCP_S_FIN_WAIT => [FULLNAT_CONN_REUSED_FINWAIT]
  | IP_VS_TCP_S_CLOSE_WAIT => [FULLNAT_CONN_REUSED_CLOSEWAIT]
  | IP_VS_TCP_S_LAST_ACK => [FULLNAT_CONN_REUSED_LASTACK]
  | IP_VS_TCP_S_ESTABLISHED => [FULLNAT_CONN_REUSED_ESTAB]
  | _ => []
  end.

(** [tcp_in_init_seq]: recompute tcp sequence, outside to inside, and init
    the first data sequence.  Returns the flow and the counters bumped. *)
Definition tcp_in_init_seq (cfg : sysctl) (cp : ip_vs_conn) (tcph : tcphdr)
    : ip_vs_conn * list estat :=
  let fseq := fnat_seq cp in
  let seq := seq tcph in
  let fseq := mk_seq (init_seq fseq) (delta fseq) (u32 (seq + 1)) in
  let cp := set_flags (Z.land (flags cp) (Z.lnot IP_VS_CONN_F_CIP_INSERTED)) cp in
  let conn_reused_entry :=
    (sysctl_ip_vs_conn_reused_entry cfg =? 1)
    && negb (init_seq fseq =? 0)
    && (tcp_state_eqb (state cp) IP_VS_TCP_S_SYN_RECV
        || tcp_state_eqb (state cp) IP_VS_TCP_S_SYN_SENT) in
  if (init_seq fseq =? 0) || conn_reused_entry then
    let i :=
      if af cp =? AF_INET6
      then u32 (secure_tcpv6_sequence_number (ip6 (laddr cp))
                  (ip6 (daddr_rs cp)) (lport cp) (dport cp))
      else u32 (secure_tcp_sequence_number (ip (laddr cp))
                  (ip (daddr_rs cp)) (lport cp) (dport cp)) in
    let fseq := mk_seq i (u32 (i - seq)) (fdata_seq fseq) in
    (set_fnat_seq fseq cp,
     if conn_reused_entry
     then FULLNAT_CONN_REUSED :: reused_category (old_state cp)
     else [])
  else (set_fnat_seq fseq cp, []).

(** [tcp_in_adjust_seq]: adjust tcp sequence, outside to inside. *)
Definition tcp_in_adjust_seq (cp : ip_vs_conn) (tcph : tcphdr) (bs : list Z)
    : tcphdr * list Z :=
  let tcph := set_seq (u32 (seq tcph + delta (fnat_seq cp))) tcph in
  ip_vs_synproxy_dnat_handler tcph bs (syn_proxy_seq cp).

(** The eight bytes of [struct ip_vs_tcpo_addr] as [tcp_opt_add_toa] fills
    them in: [opcode], [opsize], [port], [addr]. *)
Definition toa_option (cp : ip_vs_conn) : list Z :=
  [u8 TCPOPT_ADDR; u8 TCPOLEN_ADDR]
  ++ be16_bytes (cport cp) ++ be32_bytes (ip (caddr cp)).

(** [tcp_opt_add_toa]: add the client address in a tcp option.  [copy_ok]
    says whether [skb_copy_expand] returned a buffer.  The header it works
    on is the one of [old_skb]. *)
Definition tcp_opt_add_toa (cp : ip_vs_conn) (old_skb : sk_buff)
    (copy_ok : bool) : ip_vs_conn * sk_buff * list estat :=
  let fseq := fnat_seq cp in
  let seq := seq (tcp_hdr old_skb) in
  if negb (af cp =? AF_INET) then (cp, old_skb, [FULLNAT_ADD_TOA_FAIL_PROTO])
  else if after seq (fdata_seq fseq) then
    (set_flags (Z.lor (flags cp) IP_VS_CONN_F_CIP_INSERTED) cp, old_skb, [])
  else
    let mtu := u32 (dst_mtu old_skb) in
    if len old_skb >? u64 (mtu - sizeof_ip_vs_tcpo_addr)
    then (cp, old_skb, [FULLNAT_ADD_TOA_FAIL_LEN])
    else if negb copy_ok then (cp, old_skb, [FULLNAT_ADD_TOA_FAIL_MEM])
    else
      let toa := toa_option cp in
      let th := set_doff ((doff (tcp_hdr old_skb) + sizeof_ip_vs_tcpo_addr / 4)
                          mod 16) (tcp_hdr old_skb) in
      let ih := set_tot_len (u16 (tot_len (iph old_skb)
                                  + sizeof_ip_vs_tcpo_addr)) (iph old_skb) in
      let ih := ip_send_check ih in
      (cp,
       mk_skb ih th (toa ++ data old_skb)
         (len old_skb + sizeof_ip_vs_tcpo_addr)
         (ip_summed old_skb) (csum old_skb) (mark old_skb) (dst_mtu old_skb),
       [FULLNAT_ADD_TOA_OK]).

End Translator.

(* ===================================================================== *)
(** ** FullNAT rewrite handlers                                           *)
(* ===================================================================== *)

Section Handlers.
Context `{Framework}.

(** What the kernel answers during one ingress packet: whether
    [skb_make_writable] succeeds and whether [skb_copy_expand] returns a
    buffer. *)
Record in_oracle := mk_in_oracle { writable : bool; copy_ok : bool }.

(** Result of a handler: its return value, the flow, the buffer the caller
    is left with, and the counters bumped. *)
Definition handled : Type := Z * ip_vs_conn * sk_buff * list estat.

(** The helper stage shared by the handlers:
    [if (cp->app != NULL) { csum_check; ip_vs_app_pkt_in/out }].
    [None] is "return 0". *)
Definition app_stage (pkt : ip_vs_conn -> sk_buff -> Z * ip_vs_conn * sk_buff)
    (cp : ip_vs_conn) (skb : sk_buff) : option (ip_vs_conn * sk_buff) :=
  match app cp with
  | None => Some (cp, skb)
  | Some _ =>
    let '(ok, skb) := tcp_csum_check (af cp) skb in
    if ok =? 0 then None
    else
      let '(r, cp, skb) := pkt cp skb in
      if r =? 0 then None else Some (cp, skb)
  end.

(** [tcp_fnat_in_handler]. *)
Definition tcp_fnat_in_handler (cfg : sysctl) (skb : sk_buff)
    (cp : ip_vs_conn) (o : in_oracle) : res handled :=
  let tcphoff := if af cp =? AF_INET6 then sizeof_ipv6hdr else ip_hdrlen skb in
  if negb (writable o) then Ok (0, cp, skb, [])
  else
    match app_stage ip_vs_app_pkt_in cp skb with
    | None => Ok (0, cp, skb, [])
    | Some (cp, skb) =>
      let skb := set_th (set_dest (dport cp) (set_source (lport cp) (tcp_hdr skb))) skb in
      (* for syn packet: remove the timestamp option, recompute sequence *)
      let r1 : res (ip_vs_conn * sk_buff * list estat) :=
        if syn (tcp_hdr skb) && negb (ack (tcp_hdr skb)) then
          match run (tcp_opt_remove_timestamp cfg (tcp_hdr skb)) (data skb) with
          | Ok (_, m) =>
            let skb := set_data (bytes m) skb in
            let '(cp, ev) := tcp_in_init_seq cfg cp (tcp_hdr skb) in
            Ok (cp, skb, ev)
          | Fault t => Fault t
          | Fuel => Fuel
          end
        else Ok (cp, skb, []) in
      match r1 with
      | Fault t => Fault t
      | Fuel => Fuel
      | Ok (cp, skb, ev1) =>
        (* TOA: add client ip *)
        let '(cp, skb, ev2) :=
          if (sysctl_ip_vs_toa_entry cfg =? 1)
             && (Z.land (flags cp) IP_VS_CONN_F_CIP_INSERTED =? 0)
             && negb (rst (tcp_hdr skb)) && negb (fin (tcp_hdr skb))
          then tcp_opt_add_toa cp skb (copy_ok o)
          else (cp, skb, []) in
        let '(tcph, bs) := tcp_in_adjust_seq cp (tcp_hdr skb) (data skb) in
        let skb := set_data bs (set_th tcph skb) in
        let skb := full_csum (af cp) (laddr cp) (daddr_rs cp)
                     (conn_protocol cp) tcphoff skb in
        let skb := set_ip_summed CHECKSUM_UNNECESSARY skb in
        Ok (1, cp, skb, ev1 ++ ev2)
      end
    end.

(** [tcp_fnat_out_handler]. *)
Definition tcp_fnat_out_handler (cfg : sysctl) (skb : sk_buff)
    (cp : ip_vs_conn) (writable : bool) : res handled :=
  let tcphoff := if af cp =? AF_INET6 then sizeof_ipv6hdr else ip_hdrlen skb in
  if negb writable then Ok (0, cp, skb, [])
  else
    match app_stage ip_vs_app_pkt_out cp skb with
    | None => Ok (0, cp, skb, [])
    | Some (cp, skb) =>
      let cp := tcp_save_out_seq cfg skb cp (tcp_hdr skb) tcphoff in
      let skb := set_th (set_dest (cport cp) (set_source (vport cp) (tcp_hdr skb))) skb in
      (* adjust tcp opt mss in rs->client syn_ack packet *)
      let r1 : res (unit * optmem) :=
        if syn (tcp_hdr skb) && ack (tcp_hdr skb)
        then run (tcp_opt_adjust_mss cfg (tcp_hdr skb)) (data skb)
        else Ok (tt, mk_optmem (data skb) []) in
      match r1 with
      | Fault t => Fault t
      | Fuel => Fuel
      | Ok (_, m) =>
        (* adjust tcp ack/sack sequence *)
        match tcp_out_adjust_seq cp (tcp_hdr skb) m with
        | Fault t => Fault t
        | Fuel => Fuel
        | Ok ((r, tcph), m) =>
          let skb := set_data (bytes m) (set_th tcph skb) in
          if r =? 0 then Ok (0, cp, skb, [])
          else
            let skb := full_csum (af cp) (vaddr cp) (caddr cp)
                         (conn_protocol cp) tcphoff skb in
            Ok (1, cp, skb, [])
        end
      end
    end.

End Handlers.

(* ===================================================================== *)
(** ** State machine                                                      *)
(* ===================================================================== *)

Definition TCP_DIR_INPUT : Z := 0.
Definition TCP_DIR_OUTPUT : Z := 4.
Definition TCP_DIR_INPUT_ONLY : Z := 8.

Definition tcp_state_off (d : direction) : Z :=
  match d with
  | IP_VS_DIR_INPUT => TCP_DIR_INPUT
  | IP_VS_DIR_OUTPUT => TCP_DIR_OUTPUT
  | IP_VS_DIR_INPUT_ONLY => TCP_DIR_INPUT_ONLY
  end.

(** [sysctl_ip_vs_tcp_timeouts], indexed by state, the last entry being
    the one of [IP_VS_TCP_S_LAST]; [HZ] is the tick rate of the kernel. *)
Definition sysctl_ip_vs_tcp_timeouts (HZ : Z) : list Z :=
  [2 * HZ; 90 * HZ; 3 * HZ; 30 * HZ; 3 * HZ; 3 * HZ; 3 * HZ; 3 * HZ; 3 * HZ;
   2 * 60 * HZ; 30 * HZ; 2 * HZ].

Abbreviation sNO := IP_VS_TCP_S_NONE (only parsing).
Abbreviation sES := IP_VS_TCP_S_ESTABLISHED (only parsing).
Abbreviation sSS := IP_VS_TCP_S_SYN_SENT (only parsing).
Abbreviation sSR := IP_VS_TCP_S_SYN_RECV (only parsing).
Abbreviation sFW := IP_VS_TCP_S_FIN_WAIT (only parsing).
Abbreviation sTW := IP_VS_TCP_S_TIME_WAIT (only parsing).
Abbreviation sCL := IP_VS_TCP_S_CLOSE (only parsing).
Abbreviation sCW := IP_VS_TCP_S_CLOSE_WAIT (only parsing).
Abbreviation sLA := IP_VS_TCP_S_LAST_ACK (only parsing).
Abbreviation sLI := IP_VS_TCP_S_LISTEN (only parsing).
Abbreviation sSA := IP_VS_TCP_S_SYNACK (only parsing).

(** [struct tcp_states_t]: one row, [next_state[IP_VS_TCP_S_LAST]]. *)
Definition tcp_states_t : Type := list tcp_state.

(** The normal table [tcp_states]. *)
Definition tcp_states : list tcp_states_t := [
(*      INPUT *)
(*       sNO, sES, sSS, sSR, sFW, sTW, sCL, sCW, sLA, sLI, sSA *)
(*syn*) [sSR; sES; sES; sSR; sSR; sSR; sSR; sSR; sSR; sSR; sSR];
(*fin*) [sCL; sCW; sSS; sTW; sTW; sTW; sCL; sCW; sLA; sLI; sTW];
(*ack*) [sCL; sES; sSS; sES; sFW; sTW; sCL; sCW; sCL; sLI; sES];
(*rst*) [sCL; sCL; sCL; sSR; sCL; sCL; sCL; sCL; sLA; sLI; sSR];
(*      OUTPUT *)
(*syn*) [sSS; sES; sSS; sSR; sSS; sSS; sSS; sSS; sSS; sLI; sSR];
(*fin*) [sTW; sFW; sSS; sTW; sFW; sTW; sCL; sTW; sLA; sLI; sTW];
(*ack*) [sES; sES; sSS; sES; sFW; sTW; sCL; sCW; sLA; sES; sES];
(*rst*) [sCL; sCL; sSS; sCL; sCL; sTW; sCL; sCL; sCL; sCL; sCL];
(*      INPUT-ONLY *)
(*syn*) [sSR; sES; sES; sSR; sSR; sSR; sSR; sSR; sSR; sSR; sSR];
(*fin*) [sCL; sFW; sSS; sTW; sFW; sTW; sCL; sCW; sLA; sLI; sTW];
(*ack*) [sCL; sES; sSS; sES; sFW; sTW; sCL; sCW; sCL; sLI; sES];
(*rst*) [sCL; sCL; sCL; sSR; sCL; sCL; sCL; sCL; sLA; sLI; sCL]
].

(** The secure table [tcp_states_dos]. *)
Definition tcp_states_dos : list tcp_states_t := [
(*      INPUT *)
(*       sNO, sES, sSS, sSR, sFW, sTW, sCL, sCW, sLA, sLI, sSA *)
(*syn*) [sSR; sES; sES; sSR; sSR; sSR; sSR; sSR; sSR; sSR; sSA];
(*fin*) [sCL; sCW; sSS; sTW; sTW; sTW; sCL; sCW; sLA; sLI; sSA];
(*ack*) [sCL; sES; sSS; sSR; sFW; sTW; sCL; sCW; sCL; sLI; sSA];
(*rst*) [sCL; sCL; sCL; sSR; sCL; sCL; sCL; sCL; sLA; sLI; sCL];
(*      OUTPUT *)
(*syn*) [sSS; sES; sSS; sSA; sSS; sSS; sSS; sSS; sSS; sLI; sSA];
(*fin*) [sTW; sFW; sSS; sTW; sFW; sTW; sCL; sTW; sLA; sLI; sTW];
(*ack*) [sES; sES; sSS; sES; sFW; sTW; sCL; sCW; sLA; sES; sES];
(*rst*) [sCL; sCL; sSS; sCL; sCL; sTW; sCL; sCL; sCL; sCL; sCL];
(*      INPUT-ONLY *)
(*syn*) [sSA; sES; sES; sSR; sSA; sSA; sSA; sSA; sSA; sSA; sSA];
(*fin*) [sCL; sFW; sSS; sTW; sFW; sTW; sCL; sCW; sLA; sLI; sTW];
(*ack*) [sCL; sES; sSS; sES; sFW; sTW; sCL; sCW; sCL; sLI; sES];
(*rst*) [sCL; sCL; sCL; sSR; sCL; sCL; sCL; sCL; sLA; sLI; sCL]
].

(** [tcp_timeout_change]: bit 0 of [flags] selects the table that
    [tcp_state_table] points to. *)
Definition tcp_timeout_change (flags : Z) : list tcp_states_t :=
  let on := Z.land flags 1 in
  if negb (on =? 0) then tcp_states_dos else tcp_states.

(** [tcp_state_idx]. *)
Definition tcp_state_idx (th : tcphdr) : Z :=
  if rst th then 3
  else if syn th then 0
  else if fin th then 1
  else if ack th then 2
  else -1.

(** [tcp_state_table[row].next_state[col]]. *)
Definition next_state (tbl : list tcp_states_t) (row : Z) (col : tcp_state)
    : tcp_state :=
  nth (state_index col) (nth (Z.to_nat row) tbl []) IP_VS_TCP_S_CLOSE.

(** [set_tcp_state], with [tcp_state_table] and [pp->timeout_table] as
    arguments. *)
Definition set_tcp_state (tcp_state_table : list tcp_states_t)
    (timeout_table : list Z) (cp : ip_vs_conn) (d : direction) (th : tcphdr)
    : ip_vs_conn :=
  let new_state := IP_VS_TCP_S_CLOSE in
  let state_off := tcp_state_off d in
  (* Update state offset to INPUT_ONLY if necessary
     or delete NO_OUTPUT flag if output packet detected *)
  let '(cp, state_off) :=
    if negb (Z.land (flags cp) IP_VS_CONN_F_NOOUTPUT =? 0) then
      if state_off =? TCP_DIR_OUTPUT
      then (set_flags (Z.land (flags cp) (Z.lnot IP_VS_CONN_F_NOOUTPUT)) cp,
            state_off)
      else (cp, TCP_DIR_INPUT_ONLY)
    else (cp, state_off) in
  let state_idx := tcp_state_idx th in
  let new_state :=
    if state_idx <? 0 then new_state
    else next_state tcp_state_table (state_off + state_idx) (state cp) in
  let cp :=
    if negb (tcp_state_eqb new_state (state cp)) then
      match conn_dest cp with
      | Some dest =>
        if (Z.land (flags cp) IP_VS_CONN_F_INACTIVE =? 0)
           && negb (tcp_state_eqb new_state IP_VS_TCP_S_ESTABLISHED)
        then set_conn_dest
               (Some (mk_dest (activeconns dest - 1) (inactconns dest + 1)))
               (set_flags (Z.lor (flags cp) IP_VS_CONN_F_INACTIVE) cp)
        else if negb (Z.land (flags cp) IP_VS_CONN_F_INACTIVE =? 0)
                && tcp_state_eqb new_state IP_VS_TCP_S_ESTABLISHED
        then set_conn_dest
               (Some (mk_dest (activeconns dest + 1) (inactconns dest - 1)))
               (set_flags (Z.land (flags cp) (Z.lnot IP_VS_CONN_F_INACTIVE)) cp)
        else cp
      | None => cp
      end
    else cp in
  set_state new_state (state cp)
    (nth (state_index new_state) timeout_table 0) cp.

(* ===================================================================== *)
(** ** Scheduling gate                                                    *)
(* ===================================================================== *)

(** The calls into the framework that [tcp_conn_schedule] makes, in order. *)
Inductive gate_event :=
| Service_get (svc : option ip_vs_service)
| Service_put (svc : ip_vs_service)
| Schedule (svc : ip_vs_service) (created : option ip_vs_conn)
| Leave (svc : ip_vs_service)
| Lookup_vip (svc : option ip_vs_service)
| Inc_estats (c : estat).

(** What the caller sees after [tcp_conn_schedule]: the return value,
    [*verdict], [*cpp], and the calls made. *)
Record scheduled := mk_scheduled {
  sched_ret : Z;
  sched_verdict : Z;
  sched_cpp : option ip_vs_conn;
  sched_calls : list gate_event
}.

Section Gate.
Context `{Framework}.

(** [tcp_conn_schedule].  [verdict] and [cpp] are the values behind the two
    out-pointers on entry.  [skb_header_pointer] fails when fewer than 20
    bytes follow the network header. *)
Definition tcp_conn_schedule (cfg : sysctl) (af : Z) (skb : sk_buff)
    (verdict : Z) (cpp : option ip_vs_conn) : scheduled :=
  let iph_len := if af =? AF_INET6 then sizeof_ipv6hdr else ip_hdrlen skb in
  if len skb - iph_len <? sizeof_tcphdr then mk_scheduled 0 NF_DROP cpp []
  else
    let th := tcp_hdr skb in
    (* Syn-proxy step 2 logic: receive client's 3-handshake Ack packet *)
    let '(r, cpp, verdict) := ip_vs_synproxy_ack_rcv af skb cpp verdict in
    if r =? 0 then mk_scheduled 0 verdict cpp []
    else
      let pure_syn := syn th && negb (ack th) && negb (fin th) && negb (rst th) in
      let svc :=
        if pure_syn
        then ip_vs_service_get af (mark skb) (protocol (iph skb))
               (daddr (iph skb)) (dest th)
        else None in
      let ev0 := if pure_syn then [Service_get svc] else [] in
      match svc with
      | Some svc =>
        if ip_vs_todrop
        then mk_scheduled 0 NF_DROP cpp (ev0 ++ [Service_put svc])
        else
          let c := ip_vs_schedule svc skb 0 in
          match c with
          | None =>
            mk_scheduled 0 (ip_vs_leave svc skb) None
              (ev0 ++ [Schedule svc c; Leave svc])
          | Some _ =>
            mk_scheduled 1 verdict c (ev0 ++ [Schedule svc c; Service_put svc])
          end
      | None =>
        (* drop tcp packet which send to vip and !vport *)
        if negb (sysctl_ip_vs_tcp_drop_entry cfg =? 0) then
          let v := ip_vs_lookup_vip af (protocol (iph skb)) (daddr (iph skb)) in
          match v with
          | Some _ =>
            mk_scheduled 0 NF_DROP cpp
              (ev0 ++ [Lookup_vip v; Inc_estats DEFENCE_TCP_DROP])
          | None => mk_scheduled 1 verdict cpp (ev0 ++ [Lookup_vip v])
          end
        else mk_scheduled 1 verdict cpp ev0
      end.

End Gate.

(* ===================================================================== *)
(** ** RST synthesiser                                                    *)
(* ===================================================================== *)

(** The transmit routine a synthesised segment is handed to. *)
Inductive xmit_fn :=
| Packet_xmit
| Fnat_response_xmit
| Normal_response_xmit
| Fnat_response_xmit_v6
| Normal_response_xmit_v6.

(** A synthesised segment.  The IPv4 one is an IP header followed by a TCP
    header.  The IPv6 one is kept as the 40 bytes between [skb->data] and
    [skb->tail]: the code pushes [sizeof(struct iphdr)] bytes for a
    [struct ipv6hdr], so the header it fills in lies over the TCP header. *)
Inductive rst_pkt :=
| Rst4 (ih : iphdr) (th : tcphdr)
| Rst6 (buf : list Z).

Definition emitted : Type := xmit_fn * rst_pkt.

(** Write the bytes [v] into [buf] from offset [off] on. *)
Fixpoint blit (off : nat) (v : list Z) (buf : list Z) : list Z :=
  match v with
  | [] => buf
  | b :: v' => blit (S off) v' (set_nth off b buf)
  end.

Definition addr_bytes (a : nf_inet_addr) : list Z := flat_map be32_bytes (ip6 a).

Fixpoint be32_words (l : list Z) : list Z :=
  match l with
  | b0 :: b1 :: b2 :: b3 :: t =>
    (b0 * 2 ^ 24 + b1 * 2 ^ 16 + b2 * 2 ^ 8 + b3) :: be32_words t
  | _ => []
  end.

Section Rst.
Context `{Framework}.

(** The IPv4 tail of both functions: push and fill a [struct iphdr], then
    the two checksums.  [g] is what [alloc_skb] left in the 20 bytes the
    header is pushed into; [tos] and [id] are never written. *)
Definition rst_build_v4 (g : list Z) (s d : nf_inet_addr) (th : tcphdr)
    : rst_pkt :=
  let skb_len := sizeof_tcphdr + sizeof_iphdr in
  let tcphoff := sizeof_iphdr in
  let ih := mk_iphdr 4 5 (nth 1%nat g 0) (u16 skb_len)
              (nth 4%nat g 0 * 2 ^ 8 + nth 5%nat g 0)
              IP_DF IPDEFTTL IPPROTO_TCP
              (nth 10%nat g 0 * 2 ^ 8 + nth 11%nat g 0)
              [ip s] [ip d] in
  let ih := ip_send_check ih in
  let th := set_check 0 th in
  let csum := csum_partial (firstn (Z.to_nat (skb_len - tcphoff))
                              (tcphdr_bytes th)) 0 in
  let th := set_check (csum_tcpudp_magic (ip (saddr ih)) (ip (daddr ih))
                         (skb_len - tcphoff) IPPROTO_TCP csum) th in
  Rst4 ih th.

(** The IPv6 tail of both functions, on the bytes of the buffer.  Only 20
    bytes are pushed, [tcphoff] is 40 and [skb->len] is 40, so the sum runs
    over no byte at all, and the addresses land on the TCP header. *)
Definition rst_build_v6 (g : list Z) (s d : nf_inet_addr) (th : tcphdr)
    : rst_pkt :=
  let buf := firstn 20 (g ++ repeat 0 20) ++ tcphdr_bytes th in
  let skb_len := sizeof_tcphdr + sizeof_iphdr in
  let tcphoff := sizeof_ipv6hdr in
  let buf := blit 8 (addr_bytes s) buf in
  let buf := blit 24 (addr_bytes d) buf in
  let buf := set_nth 0 (6 * 16 + nth 0%nat buf 0 mod 16) buf in
  let buf := set_nth 6 NEXTHDR_TCP buf in
  let buf := set_nth 7 IPV6_DEFAULT_HOPLIMIT buf in
  let buf := blit 36 (be16_bytes 0) buf in
  let csum := csum_partial (firstn (Z.to_nat (skb_len - tcphoff))
                              (skipn (Z.to_nat tcphoff) buf)) 0 in
  let c := csum_ipv6_magic (be32_words (firstn 16 (skipn 8 buf)))
             (be32_words (firstn 16 (skipn 24 buf)))
             (skb_len - tcphoff) IPPROTO_TCP csum in
  Rst6 (blit 36 (be16_bytes c) buf).

(** The part of both functions that sets [ack_seq], [doff] and [rst]. *)
Definition rst_header (th : tcphdr) : tcphdr :=
  set_rst true (set_doff (sizeof_tcphdr / 4) (set_ack_seq 0 th)).

(** [tcp_send_rst_in]: send reset packet to RS.  [alloc] is the answer of
    [alloc_skb]: [None] for failure, otherwise the uninitialised bytes of
    the headroom.  The queued ACK is dequeued, read and put back, so the
    flow is left as it was. *)
Definition tcp_send_rst_in (cp : ip_vs_conn) (alloc : option (list Z))
    : list emitted :=
  match alloc with
  | None => []
  | Some g =>
    let th := set_dest (vport cp) (set_source (cport cp) tcphdr_zero) in
    let seq_opt :=
      match tcp_state_eqb (state cp) IP_VS_TCP_S_SYN_SENT, ack_skb cp with
      | true, tmp_skb :: _ => Some (seq (tcp_hdr tmp_skb))
      | _, _ =>
        if tcp_state_eqb (state cp) IP_VS_TCP_S_ESTABLISHED then
          let s := rs_ack_seq cp in
          (* Be careful! fullnat *)
          if negb (Z.land (flags cp) IP_VS_CONN_F_FULLNAT =? 0)
          then Some (u32 (s - delta (fnat_seq cp)))
          else Some s
        else None
      end in
    match seq_opt with
    | None => []
    | Some s =>
      let th := rst_header (set_seq s th) in
      if af cp =? AF_INET6
      then [(Packet_xmit, rst_build_v6 g (caddr cp) (vaddr cp) th)]
      else [(Packet_xmit, rst_build_v4 g (caddr cp) (vaddr cp) th)]
    end
  end.

(** [tcp_send_rst_out]: send reset packet to client. *)
Definition tcp_send_rst_out (cp : ip_vs_conn) (alloc : option (list Z))
    : list emitted :=
  match alloc with
  | None => []
  | Some g =>
    let fullnat := negb (Z.land (flags cp) IP_VS_CONN_F_FULLNAT =? 0) in
    let th := set_source (dport cp) tcphdr_zero in
    let th := if fullnat then set_dest (lport cp) th
              else set_dest (cport cp) th in
    let seq_opt :=
      match tcp_state_eqb (state cp) IP_VS_TCP_S_SYN_SENT, ack_skb cp with
      | true, tmp_skb :: _ =>
        (* Perhaps delta is 0 *)
        Some (u32 (ack_seq (tcp_hdr tmp_skb) - delta (syn_proxy_seq cp)))
      | _, _ =>
        if tcp_state_eqb (state cp) IP_VS_TCP_S_ESTABLISHED
        then Some (rs_end_seq cp)
        else None
      end in
    match seq_opt with
    | None => []
    | Some s =>
      let th := rst_header (set_seq s th) in
      if af cp =? AF_INET6
      then [(if fullnat then Fnat_response_xmit_v6 else Normal_response_xmit_v6,
             rst_build_v6 g (daddr_rs cp) (laddr cp) th)]
      else [(if fullnat then Fnat_response_xmit else Normal_response_xmit,
             rst_build_v4 g (daddr_rs cp) (laddr cp) th)]
    end
  end.

(** [tcp_conn_expire_handler]; [alloc_in] and [alloc_out] are the answers
    of the two [alloc_skb] calls. *)
Definition tcp_conn_expire_handler (cfg : sysctl) (cp : ip_vs_conn)
    (alloc_in alloc_out : option (list Z)) : list emitted :=
  (* support fullnat and nat *)
  if negb (sysctl_ip_vs_conn_expire_tcp_rst cfg =? 0)
     && negb (Z.land (flags cp)
                (Z.lor IP_VS_CONN_F_FULLNAT IP_VS_CONN_F_MASQ) =? 0)
  then tcp_send_rst_in cp alloc_in ++ tcp_send_rst_out cp alloc_out
  else [].

End Rst.

(* ===================================================================== *)
(** ** Application binding                                                *)
(* ===================================================================== *)

Definition TCP_APP_TAB_BITS : Z := 4.
Definition TCP_APP_TAB_SIZE : Z := Z.shiftl 1 TCP_APP_TAB_BITS.
Definition TCP_APP_TAB_MASK : Z := TCP_APP_TAB_SIZE - 1.

(** The table [tcp_apps] and the counter [ip_vs_protocol_tcp.appcnt]. *)
Record app_table := mk_app_table {
  tcp_apps : list (list ip_vs_app);
  appcnt : Z
}.

(** [(__force u16)port] for a [__be16 port]: the 16 bits as the host reads
    them.  The module is built for x86_64, a little-endian host, on which
    the two bytes of the port number change places. *)
Definition force_u16 (port : Z) : Z :=
  Z.lor (Z.shiftl (Z.land (u16 port) 0xff) 8) (Z.shiftr (u16 port) 8).

(** [tcp_app_hashkey]. *)
Definition tcp_app_hashkey (port : Z) : Z :=
  Z.land (Z.lxor (Z.shiftr (force_u16 port) TCP_APP_TAB_BITS) (force_u16 port))
         TCP_APP_TAB_MASK.

(** [ip_vs_tcp_init]: [IP_VS_INIT_HASH_TABLE(tcp_apps)]; [appcnt] starts at
    [ATOMIC_INIT(0)]. *)
Definition ip_vs_tcp_init : app_table :=
  mk_app_table (repeat [] (Z.to_nat TCP_APP_TAB_SIZE)) 0.

(** [tcp_apps[hash]], and the table with that list replaced. *)
Definition bucket (t : app_table) (hash : Z) : list ip_vs_app :=
  nth (Z.to_nat hash) (tcp_apps t) [].

Fixpoint set_bucket (n : nat) (b : list ip_vs_app)
    (l : list (list ip_vs_app)) : list (list ip_vs_app) :=
  match l, n with
  | [], _ => []
  | _ :: t, O => b :: t
  | h :: t, S n' => h :: set_bucket n' b t
  end.

(** [tcp_register_app]: the list walk, then [list_add] at the head. *)
Definition tcp_register_app (t : app_table) (inc : ip_vs_app)
    : Z * app_table :=
  let port := app_port inc in
  let hash := tcp_app_hashkey port in
  if existsb (fun i => app_port i =? port) (bucket t hash)
  then (- EEXIST, t)
  else (0, mk_app_table
             (set_bucket (Z.to_nat hash) (inc :: bucket t hash) (tcp_apps t))
             (appcnt t + 1)).

(** [tcp_unregister_app]: [list_del] unlinks the object from the list it
    is on, whichever it is. *)
Definition tcp_unregister_app (t : app_table) (inc : ip_vs_app) : app_table :=
  mk_app_table
    (map (filter (fun i => negb (app_ptr i =? app_ptr inc))) (tcp_apps t))
    (appcnt t - 1).

(* ===================================================================== *)
(** ** Incremental checksum updates                                       *)
(* ===================================================================== *)

(** Modelled from the spec: [csum_unfold] of the kernel's checksum headers
    and the [ip_vs_check_diff2], [ip_vs_check_diff4], [ip_vs_check_diff16]
    helpers of include/net/ip_vs.h, which are not under src/: the sum of
    the complemented old value and of the new value, added to [oldsum]
    with [csum_partial].  The 16-byte variant lays the words out last
    first, [{ ~old[3], ~old[2], ~old[1], ~old[0], new[3], ..., new[0] }]. *)
Definition csum_unfold (n : Z) : Z := u16 n.

Definition ip_vs_check_diff4 (old new oldsum : Z) : Z :=
  csum_partial (be32_bytes (Z.lnot old) ++ be32_bytes new) oldsum.

Definition ip_vs_check_diff2 (old new oldsum : Z) : Z :=
  csum_partial (be16_bytes (Z.lnot old) ++ be16_bytes new) oldsum.

Definition ip_vs_check_diff16 (old new : list Z) (oldsum : Z) : Z :=
  csum_partial
    (flat_map be32_bytes (map Z.lnot (rev old)) ++ flat_map be32_bytes (rev new))
    oldsum.

(** [tcp_fast_csum_update]: the checksum after an address and a port have
    been replaced, from the old checksum alone. *)
Definition tcp_fast_csum_update (af : Z) (tcph : tcphdr)
    (oldip newip : nf_inet_addr) (oldport newport : Z) : tcphdr :=
  if af =? AF_INET6 then
    set_check
      (csum_fold (ip_vs_check_diff16 (ip6 oldip) (ip6 newip)
                    (ip_vs_check_diff2 oldport newport
                       (u32 (Z.lnot (csum_unfold (check tcph)))))))
      tcph
  else
    set_check
      (csum_fold (ip_vs_check_diff4 (ip oldip) (ip newip)
                    (ip_vs_check_diff2 oldport newport
                       (u32 (Z.lnot (csum_unfold (check tcph)))))))
      tcph.

(** [tcp_partial_csum_update]: the same for a [CHECKSUM_PARTIAL] buffer,
    whose check field holds the sum over the pseudo-header, not
    complemented; what changes there is an address and the length. *)
Definition tcp_partial_csum_update (af : Z) (tcph : tcphdr)
    (oldip newip : nf_inet_addr) (oldlen newlen : Z) : tcphdr :=
  if af =? AF_INET6 then
    set_check
      (u16 (Z.lnot
              (csum_fold (ip_vs_check_diff16 (ip6 oldip) (ip6 newip)
                            (ip_vs_check_diff2 oldlen newlen
                               (csum_unfold (check tcph)))))))
      tcph
  else
    set_check
      (u16 (Z.lnot
              (csum_fold (ip_vs_check_diff4 (ip oldip) (ip newip)
                            (ip_vs_check_diff2 oldlen newlen
                               (csum_unfold (check tcph)))))))
      tcph.

(* ===================================================================== *)
(** ** NAT rewrite handlers                                               *)
(* ===================================================================== *)

Section NatHandlers.
Context `{Framework}.

(** [tcp_snat_handler]: a segment from the real server on its way to the
    client.  [writable] is the answer of [skb_make_writable].  The result
    is the return value, the flow and the buffer. *)
Definition tcp_snat_handler (cfg : sysctl) (skb : sk_buff) (cp : ip_vs_conn)
    (writable : bool) : Z * ip_vs_conn * sk_buff :=
  let tcphoff := if af cp =? AF_INET6 then sizeof_ipv6hdr else ip_hdrlen skb in
  let oldlen := len skb - tcphoff in
  if negb writable then (0, cp, skb)
  else
    match app_stage ip_vs_app_pkt_out cp skb with
    | None => (0, cp, skb)
    | Some (cp, skb) =>
      let cp := tcp_save_out_seq cfg skb cp (tcp_hdr skb) tcphoff in
      let tcph := set_source (vport cp) (tcp_hdr skb) in
      (* Syn-proxy seq change, include tcp hdr and check ack storm *)
      let '(r, (tcph, bs)) := ip_vs_synproxy_snat_handler tcph (data skb) cp in
      let skb := set_data bs (set_th tcph skb) in
      if r =? 0 then (0, cp, skb)
      else
        (* Adjust TCP checksums *)
        if ip_summed skb =? CHECKSUM_PARTIAL then
          (1, cp,
           set_th (tcp_partial_csum_update (af cp) (tcp_hdr skb)
                     (daddr_rs cp) (vaddr cp)
                     (u16 oldlen) (u16 (len skb - tcphoff))) skb)
        else
          match app cp with
          | None =>
            (* Only port and addr are changed, do fast csum update *)
            let skb :=
              set_th (tcp_fast_csum_update (af cp) (tcp_hdr skb)
                        (daddr_rs cp) (vaddr cp) (dport cp) (vport cp)) skb in
            (1, cp,
             if ip_summed skb =? CHECKSUM_COMPLETE
             then set_ip_summed CHECKSUM_NONE skb else skb)
          | Some _ =>
            (* full checksum calculation *)
            (1, cp,
             full_csum (af cp) (vaddr cp) (caddr cp) (conn_protocol cp)
               tcphoff skb)
          end
    end.

(** [tcp_dnat_handler]: a segment from the client on its way to the real
    server. *)
Definition tcp_dnat_handler (skb : sk_buff) (cp : ip_vs_conn)
    (writable : bool) : Z * ip_vs_conn * sk_buff :=
  let tcphoff := if af cp =? AF_INET6 then sizeof_ipv6hdr else ip_hdrlen skb in
  let oldlen := len skb - tcphoff in
  if negb writable then (0, cp, skb)
  else
    match app_stage ip_vs_app_pkt_in cp skb with
    | None => (0, cp, skb)
    | Some (cp, skb) =>
      let tcph := set_dest (dport cp) (tcp_hdr skb) in
      (* Syn-proxy ack_seq change, include tcp hdr and sack opt *)
      let '(tcph, bs) :=
        ip_vs_synproxy_dnat_handler tcph (data skb) (syn_proxy_seq cp) in
      let skb := set_data bs (set_th tcph skb) in
      (* Adjust TCP checksums *)
      if ip_summed skb =? CHECKSUM_PARTIAL then
        (1, cp,
         set_th (tcp_partial_csum_update (af cp) (tcp_hdr skb)
                   (vaddr cp) (daddr_rs cp)
                   (u16 oldlen) (u16 (len skb - tcphoff))) skb)
      else
        match app cp with
        | None =>
          (* Only port and addr are changed, do fast csum update *)
          let skb :=
            set_th (tcp_fast_csum_update (af cp) (tcp_hdr skb)
                      (vaddr cp) (daddr_rs cp) (vport cp) (dport cp)) skb in
          (1, cp,
           if ip_summed skb =? CHECKSUM_COMPLETE
           then set_ip_summed CHECKSUM_NONE skb else skb)
        | Some _ =>
          (* full checksum calculation *)
          (1, cp,
           set_ip_summed CHECKSUM_UNNECESSARY
             (full_csum (af cp) (caddr cp) (daddr_rs cp) (conn_protocol cp)
                tcphoff skb))
        end
    end.

End NatHandlers.

(* ===================================================================== *)
(** ** State transitions on a buffer, LISTEN, state names                 *)
(* ===================================================================== *)

(** [tcp_state_transition]: [skb_header_pointer] fails when fewer than 20
    bytes follow the network header; the flow is then left alone. *)
Definition tcp_state_transition (tcp_state_table : list tcp_states_t)
    (timeout_table : list Z) (cp : ip_vs_conn) (d : direction)
    (skb : sk_buff) : Z * ip_vs_conn :=
  let ihl := if af cp =? AF_INET then ip_hdrlen skb else sizeof_ipv6hdr in
  if len skb - ihl <? sizeof_tcphdr then (0, cp)
  else (1, set_tcp_state tcp_state_table timeout_table cp d (tcp_hdr skb)).

(** [ip_vs_tcp_conn_listen]: set LISTEN timeout. *)
Definition ip_vs_tcp_conn_listen (timeout_table : list Z) (cp : ip_vs_conn)
    : ip_vs_conn :=
  set_state IP_VS_TCP_S_LISTEN (old_state cp)
    (nth (state_index IP_VS_TCP_S_LISTEN) timeout_table 0) cp.

(** [IP_VS_TCP_S_LAST], the number of states. *)
Definition IP_VS_TCP_S_LAST : Z := 11.

Module StateNames.
Import String.

(** [tcp_state_name_table]: the designated initialisers, in index order. *)
Definition tcp_state_name_table : list (option string) :=
  [ Some "NONE"%string; Some "ESTABLISHED"%string; Some "SYN_SENT"%string;
    Some "SYN_RECV"%string; Some "FIN_WAIT"%string; Some "TIME_WAIT"%string;
    Some "CLOSE"%string; Some "CLOSE_WAIT"%string; Some "LAST_ACK"%string;
    Some "LISTEN"%string; Some "SYNACK"%string; Some "BUG!"%string ].

(** [tcp_state_name]; [state] is taken as not negative. *)
Definition tcp_state_name (state : Z) : string :=
  if state >=? IP_VS_TCP_S_LAST then "ERR!"%string
  else
    match nth (Z.to_nat state) tcp_state_name_table None with
    | Some s => s
    | None => "?"%string
    end.

End StateNames.

(* ===================================================================== *)
(** ** Binding a flow to its helper                                       *)
(* ===================================================================== *)

(** [IP_VS_FWD_METHOD(cp)]. *)
Definition IP_VS_FWD_METHOD (cp : ip_vs_conn) : Z :=
  Z.land (flags cp) IP_VS_CONN_F_FWD_MASK.

Definition set_app (a : option ip_vs_app) (c : ip_vs_conn) : ip_vs_conn :=
  mk_conn (af c) (conn_protocol c) (caddr c) (vaddr c) (laddr c) (daddr_rs c)
    (cport c) (vport c) (lport c) (dport c) (flags c) (state c) (old_state c)
    (timeout c) (fnat_seq c) (syn_proxy_seq c) (rs_end_seq c) (rs_ack_seq c)
    (ack_skb c) a (conn_dest c).

(** The [list_for_each_entry] walk of [tcp_app_conn_bind] over one bucket.
    [inc_get] is the answer of [ip_vs_app_inc_get] for a helper, and
    [init_conn] the callback of a helper, if it has one. *)
Fixpoint app_bind_walk (inc_get : ip_vs_app -> bool)
    (init_conn : ip_vs_app -> option (ip_vs_conn -> Z * ip_vs_conn))
    (cp : ip_vs_conn) (l : list ip_vs_app) : Z * ip_vs_conn :=
  match l with
  | [] => (0, cp)
  | inc :: rest =>
    if app_port inc =? vport cp then
      if negb (inc_get inc) then (0, cp)
      else
        let cp := set_app (Some inc) cp in
        match init_conn inc with
        | Some f => f cp
        | None => (0, cp)
        end
    else app_bind_walk inc_get init_conn cp rest
  end.

(** [tcp_app_conn_bind]: default binding, bind app only for NAT. *)
Definition tcp_app_conn_bind (t : app_table) (inc_get : ip_vs_app -> bool)
    (init_conn : ip_vs_app -> option (ip_vs_conn -> Z * ip_vs_conn))
    (cp : ip_vs_conn) : Z * ip_vs_conn :=
  if negb (IP_VS_FWD_METHOD cp =? IP_VS_CONN_F_MASQ) then (0, cp)
  else
    (* Lookup application incarnations and bind the right one *)
    let hash := tcp_app_hashkey (vport cp) in
    app_bind_walk inc_get init_conn cp (bucket t hash).

(* ===================================================================== *)
(** ** A framework instance for concrete runs                             *)
(* ===================================================================== *)

(** SYN-proxy not in use (its hooks leave the segment alone and claim
    nothing), no service configured, a secure sequence generator that
    answers 1000, and example values for the constants of the patch. *)
Definition plain_framework : Framework := {|
  IP_VS_CONN_F_FULLNAT := 0x0005;
  IP_VS_CONN_F_CIP_INSERTED := 0x2000;
  TCPOPT_ADDR := 200;
  secure_tcp_sequence_number := fun _ _ _ _ => 1000;
  secure_tcpv6_sequence_number := fun _ _ _ _ => 1000;
  ip_vs_synproxy_snat_handler := fun th bs _ => (1, (th, bs));
  ip_vs_synproxy_dnat_handler := fun th bs _ => (th, bs);
  ip_vs_synproxy_ack_rcv := fun _ _ cpp v => (1, cpp, v);
  ip_vs_service_get := fun _ _ _ _ _ => None;
  ip_vs_lookup_vip := fun _ _ _ => None;
  ip_vs_todrop := false;
  ip_vs_schedule := fun _ _ _ => None;
  ip_vs_leave := fun _ _ => NF_ACCEPT;
  ip_vs_app_pkt_in := fun cp skb => (1, cp, skb);
  ip_vs_app_pkt_out := fun cp skb => (1, cp, skb)
|}.

(** An IPv4 FullNAT flow, client 1.1.1.1:5000, VIP 10.0.0.1:80, local
    10.0.2.1:40000, backend 10.0.1.1:80, in the given state and with the
    given FullNAT sequence record. *)
Definition flow4 (fl : Z) (s : tcp_state) (fs : ip_vs_seq) : ip_vs_conn :=
  mk_conn AF_INET IPPROTO_TCP [0x01010101] [0x0a000001] [0x0a000201]
    [0x0a000101] 5000 80 40000 80 fl s IP_VS_TCP_S_NONE 0 fs (mk_seq 0 0 0)
    0 0 [] None None.

(** A TCP header with the given sequence numbers, data offset and
    FIN/SYN/RST/ACK flags, client port 5000 to port 80. *)
Definition hdr (sq aq df : Z) (f s r a : bool) : tcphdr :=
  mk_tcphdr 5000 80 sq aq 0 df f s r false a false false false 8192 0 0.

(** An IPv4 buffer around a header and the bytes after it. *)
Definition skb4 (h : tcphdr) (d : list Z) : sk_buff :=
  let l := 20 + 20 + Z.of_nat (length d) in
  mk_skb (mk_iphdr 4 5 0 l 0 IP_DF 64 IPPROTO_TCP 0 [0x01010101] [0x0a000001])
    h d l CHECKSUM_UNNECESSARY 0 0 1500.

(** Every sysctl switch set to 1. *)
Definition all_on : sysctl := mk_sysctl 1 1 1 1 1 1.

(* ===================================================================== *)
(** * Notions used in the statements                                      *)
(* ===================================================================== *)

(** ** State machine *)

(** The row offset [set_tcp_state] ends up using: INPUT is remapped to
    INPUT_ONLY while [IP_VS_CONN_F_NOOUTPUT] is set. *)
Definition effective_off (cp : ip_vs_conn) (d : direction) : Z :=
  if negb (Z.land (flags cp) IP_VS_CONN_F_NOOUTPUT =? 0) then
    if tcp_state_off d =? TCP_DIR_OUTPUT then TCP_DIR_OUTPUT
    else TCP_DIR_INPUT_ONLY
  else tcp_state_off d.

(** ** Sequence translator *)

(** The value [tcp_in_init_seq] draws from the secure sequence generator
    for a flow. *)
Definition fresh_init_seq `{Framework} (cp : ip_vs_conn) : Z :=
  if af cp =? AF_INET6
  then u32 (secure_tcpv6_sequence_number (ip6 (laddr cp)) (ip6 (daddr_rs cp))
              (lport cp) (dport cp))
  else u32 (secure_tcp_sequence_number (ip (laddr cp)) (ip (daddr_rs cp))
              (lport cp) (dport cp)).

(** Whether the flow may be re-initialised in place. *)
Definition reuse_allowed (cfg : sysctl) (cp : ip_vs_conn) : bool :=
  (sysctl_ip_vs_conn_reused_entry cfg =? 1)
  && (tcp_state_eqb (state cp) IP_VS_TCP_S_SYN_SENT
      || tcp_state_eqb (state cp) IP_VS_TCP_S_SYN_RECV).

(** The flows a sequence of egress segments leaves behind, one per
    segment; a segment is the buffer, its TCP header and the IP header
    length. *)
Fixpoint save_out_run (cfg : sysctl) (cp : ip_vs_conn)
    (pkts : list (sk_buff * tcphdr * Z)) : list ip_vs_conn :=
  match pkts with
  | [] => []
  | (skb, th, ihl) :: rest =>
    let cp' := tcp_save_out_seq cfg skb cp th ihl in
    cp' :: save_out_run cfg cp' rest
  end.

(** A step of [rs_ack_seq] from [a] to [b] that is forward, or starts at
    zero: [b] is not before [a] in the order modulo 2^32, or [a] is 0. *)
Definition forward_or_from_zero (a b : Z) : Prop :=
  a = 0 \/ before b a = false.

(** Every flow of [l], started from [cp], is such a step away from the one
    before it. *)
Fixpoint forward_or_from_zero_run (cp : ip_vs_conn) (l : list ip_vs_conn)
    : Prop :=
  match l with
  | [] => True
  | cp' :: rest =>
    forward_or_from_zero (rs_ack_seq cp) (rs_ack_seq cp')
    /\ forward_or_from_zero_run cp' rest
  end.

(** ** Option walkers *)

(** A computation that never exhausts its loop budget. *)
Definition terminates {A} (c : M A) : Prop := forall m, c m <> Fuel.

(** The offsets a walker touched. *)
Definition touched {A} (r : res (A * optmem)) : list Z :=
  match r with
  | Ok (_, m) => map access_off (trace m)
  | Fault t => map access_off t
  | Fuel => []
  end.

(** A log that ends with an access outside a buffer of [n] bytes. *)
Definition left_buffer (n : nat) (t : list access) : Prop :=
  exists t0 a,
    t = t0 ++ [a] /\ (access_off a < 0 \/ Z.of_nat n <= access_off a).

(** A computation that keeps the length of the buffer and has no result
    only when it has just accessed a byte outside the buffer (or when its
    loop budget is used up). *)
Definition faults_outside {A} (c : M A) : Prop :=
  forall m,
    match c m with
    | Ok (_, m') => length (bytes m') = length (bytes m)
    | Fault t => left_buffer (length (bytes m)) t
    | Fuel => True
    end.

(** A SYN-ACK header whose data offset announces [n] bytes of options. *)
Definition synack_with_options (n : Z) : tcphdr :=
  hdr 900 1001 (5 + n / 4) false true false true.

(** An established FullNAT flow with the given delta. *)
Definition established (d : Z) : ip_vs_conn :=
  flow4 0x0005 IP_VS_TCP_S_ESTABLISHED (mk_seq 1000 d 101).

(** A computation all of whose accesses, like those logged before it, are
    at offsets up to [L]. *)
Definition within {A} (L : Z) (c : M A) : Prop :=
  forall m,
    Forall (fun a => access_off a <= L) (trace m) ->
    match c m with
    | Ok (_, m') => Forall (fun a => access_off a <= L) (trace m')
    | Fault t => Forall (fun a => access_off a <= L) t
    | Fuel => True
    end.

(** ** Scheduling gate *)

(** A segment with SYN set and ACK, FIN and RST clear. *)
Definition pure_syn (th : tcphdr) : bool :=
  syn th && negb (ack th) && negb (fin th) && negb (rst th).

(** The service lookup the gate makes for a buffer: by address family,
    mark, protocol, destination address and destination port. *)
Definition matching_service `{Framework} (af : Z) (skb : sk_buff)
    : option ip_vs_service :=
  ip_vs_service_get af (mark skb) (protocol (iph skb)) (daddr (iph skb))
    (dest (tcp_hdr skb)).

(** A framework with one virtual service, number 7, on 10.0.0.1:80, whose
    scheduler makes a FullNAT flow; SYN-proxy not in use. *)
Definition serving_framework : Framework := {|
  IP_VS_CONN_F_FULLNAT := 0x0005;
  IP_VS_CONN_F_CIP_INSERTED := 0x2000;
  TCPOPT_ADDR := 200;
  secure_tcp_sequence_number := fun _ _ _ _ => 1000;
  secure_tcpv6_sequence_number := fun _ _ _ _ => 1000;
  ip_vs_synproxy_snat_handler := fun th bs _ => (1, (th, bs));
  ip_vs_synproxy_dnat_handler := fun th bs _ => (th, bs);
  ip_vs_synproxy_ack_rcv := fun _ _ cpp v => (1, cpp, v);
  ip_vs_service_get := fun _ _ proto a p =>
    if (proto =? IPPROTO_TCP) && (ip a =? 0x0a000001) && (p =? 80)
    then Some 7 else None;
  ip_vs_lookup_vip := fun _ _ a => if ip a =? 0x0a000001 then Some 7 else None;
  ip_vs_todrop := false;
  ip_vs_schedule := fun _ _ _ =>
    Some (flow4 0x0005 IP_VS_TCP_S_NONE (mk_seq 0 0 0));
  ip_vs_leave := fun _ _ => NF_ACCEPT;
  ip_vs_app_pkt_in := fun cp skb => (1, cp, skb);
  ip_vs_app_pkt_out := fun cp skb => (1, cp, skb)
|}.

(** ** Application helpers *)

(** The tables the module can be in: the empty one of [ip_vs_tcp_init],
    and what registrations and unregistrations make of it. *)
Inductive reachable : app_table -> Prop :=
| reach_init : reachable ip_vs_tcp_init
| reach_register t inc :
    reachable t -> reachable (snd (tcp_register_app t inc))
| reach_unregister t inc :
    reachable t -> reachable (tcp_unregister_app t inc).

(** The helpers of the table that sit on port [p]. *)
Definition helpers_on (p : Z) (t : app_table) : list ip_vs_app :=
  filter (fun a => app_port a =? p) (concat (tcp_apps t)).

(** Every helper is in the bucket of its port. *)
Definition placed (l : list (list ip_vs_app)) : Prop :=
  forall n a, In a (nth n l []) -> tcp_app_hashkey (app_port a) = Z.of_nat n.

(** What holds of every reachable table: 16 buckets, every helper in the
    bucket of its port, at most one helper on a port. *)
Definition table_inv (t : app_table) : Prop :=
  length (tcp_apps t) = 16%nat
  /\ placed (tcp_apps t)
  /\ forall p, (length (helpers_on p t) <= 1)%nat.

(** ** The client-address option *)

(** The conditions under which [tcp_opt_add_toa] appends the option. *)
Definition toa_fits (cp : ip_vs_conn) (skb : sk_buff) (copy_ok : bool) : bool :=
  (af cp =? AF_INET)
  && negb (after (seq (tcp_hdr skb)) (fdata_seq (fnat_seq cp)))
  && (len skb <=? u64 (u32 (dst_mtu skb) - sizeof_ip_vs_tcpo_addr))
  && copy_ok.

(** The test in front of the call in [tcp_fnat_in_handler]. *)
Definition toa_tried `{Framework} (cfg : sysctl) (cp : ip_vs_conn)
    (th : tcphdr) : bool :=
  (sysctl_ip_vs_toa_entry cfg =? 1)
  && (Z.land (flags cp) IP_VS_CONN_F_CIP_INSERTED =? 0)
  && negb (rst th) && negb (fin th).

(** The results of the ingress handler over the segments of a flow, one
    per segment, each segment with what the kernel answers during it; the
    run stops where the handler has no result. *)
Fixpoint fnat_in_run `{Framework} (cfg : sysctl) (cp : ip_vs_conn)
    (pkts : list (sk_buff * in_oracle)) : list (res handled) :=
  match pkts with
  | [] => []
  | (skb, o) :: rest =>
    let r := tcp_fnat_in_handler cfg skb cp o in
    r :: match r with
         | Ok (_, cp', _, _) => fnat_in_run cfg cp' rest
         | _ => []
         end
  end.

(** A segment that is not a SYN without ACK. *)
Definition later_segment (p : sk_buff * in_oracle) : Prop :=
  syn (tcp_hdr (fst p)) && negb (ack (tcp_hdr (fst p))) = false.

(** A result of the handler for the segment [p] that appended nothing:
    the flow is [cp] as before, the counter of appended options is not
    bumped and the buffer is as long as it came. *)
Definition left_without_option (cp : ip_vs_conn) (p : sk_buff * in_oracle)
    (r : res handled) : Prop :=
  exists ret skb' ev,
    r = Ok (ret, cp, skb', ev)
    /\ ~ In FULLNAT_ADD_TOA_OK ev
    /\ len skb' = len (fst p).

(** The flow as the option code of [tcp_fnat_in_handler] finds it: what
    [tcp_in_init_seq] made of it for a SYN without ACK, the flow as it
    came for any other segment. *)
Definition flow_at_toa `{Framework} (cfg : sysctl) (cp : ip_vs_conn)
    (th : tcphdr) : ip_vs_conn :=
  if syn th && negb (ack th) then fst (tcp_in_init_seq cfg cp th) else cp.

(** ** Checksums and the synthesised RST *)

(** Congruence modulo 0xffff, the modulus of one's-complement sums. *)
Definition cong (a b : Z) : Prop := exists k, a - b = 65535 * k.

(** The plain sum of a list of words. *)
Definition wsum (l : list Z) : Z := fold_right Z.add 0 l.

(** A synthesised IPv4 segment as the buffer a receiver is handed, with no
    checksum verified yet. *)
Definition rst_skb (ih : iphdr) (th : tcphdr) : sk_buff :=
  mk_skb ih th [] (sizeof_iphdr + sizeof_tcphdr) CHECKSUM_NONE 0 0 0.

(** What the claim asks of an emitted segment: [rst] set, [ack_seq] zero,
    [doff] 5, an IP header checksum that verifies ([ip_fast_csum] is zero)
    and a TCP checksum that [tcp_csum_check] accepts. *)
Definition rst_well_formed (ih : iphdr) (th : tcphdr) : Prop :=
  rst th = true /\ ack_seq th = 0 /\ doff th = 5
  /\ ip_fast_csum ih = 0
  /\ fst (tcp_csum_check AF_INET (rst_skb ih th)) = 1.

(** One for an [alloc_skb] that returned a buffer, zero for one that
    failed. *)
Definition allocated (a : option (list Z)) : nat :=
  match a with Some _ => 1 | None => 0 end.

(** Whether the state of the flow lets the two functions choose a sequence
    number: ESTABLISHED, or SYN_SENT with a queued ACK. *)
Definition rst_seq_known (cp : ip_vs_conn) : bool :=
  tcp_state_eqb (state cp) IP_VS_TCP_S_ESTABLISHED
  || (tcp_state_eqb (state cp) IP_VS_TCP_S_SYN_SENT
      && match ack_skb cp with [] => false | _ :: _ => true end).

(** Whether the expiry handler gets to emit anything: the switch is on,
    the flags pass its test, and a sequence number can be chosen. *)
Definition rst_wanted `{Framework} (cfg : sysctl) (cp : ip_vs_conn) : bool :=
  negb (sysctl_ip_vs_conn_expire_tcp_rst cfg =? 0)
  && negb (Z.land (flags cp)
             (Z.lor IP_VS_CONN_F_FULLNAT IP_VS_CONN_F_MASQ) =? 0)
  && rst_seq_known cp.

(** An emitted segment is as the claim asks, or it is the IPv6 buffer of
    an IPv6 flow. *)
Definition emitted_ok (cp : ip_vs_conn) (e : emitted) : Prop :=
  match snd e with
  | Rst4 ih th => rst_well_formed ih th
  | Rst6 _ => af cp = AF_INET6
  end.

(** ** Checksums of rewritten segments *)

(** A list of bytes. *)
Definition is_bytes (l : list Z) : Prop := Forall (fun b => 0 <= b < 256) l.

(** A linear IPv4 TCP segment: an IP header of 5 to 15 words, [skb->len]
    covering it, the 20-byte TCP header and the bytes kept after it, the
    IP header naming TCP, and a length that fits the 16 bits of [tot_len]. *)
Definition segment4 (skb : sk_buff) : Prop :=
  5 <= ihl (iph skb) <= 15
  /\ len skb = ip_hdrlen skb + sizeof_tcphdr + Z.of_nat (length (data skb))
  /\ len skb < 2 ^ 16
  /\ protocol (iph skb) = IPPROTO_TCP
  /\ is_bytes (data skb).

(** What a receiver finds that verifies the TCP checksum in software:
    [tcp_csum_check] on the buffer marked [CHECKSUM_NONE]. *)
Definition csum_verifies (af : Z) (skb : sk_buff) : bool :=
  fst (tcp_csum_check af (set_ip_summed CHECKSUM_NONE skb)) =? 1.

(** The buffer with the addresses the transmit path writes into the IP
    header after the handler has run. *)
Definition with_addrs (s d : nf_inet_addr) (skb : sk_buff) : sk_buff :=
  mk_skb
    (mk_iphdr (version (iph skb)) (ihl (iph skb)) (tos (iph skb))
       (tot_len (iph skb)) (id (iph skb)) (frag_off (iph skb)) (ttl (iph skb))
       (protocol (iph skb)) (ip_check (iph skb)) s d)
    (tcp_hdr skb) (data skb) (len skb) (ip_summed skb) (csum skb) (mark skb)
    (dst_mtu skb).

(** The sum a verifier takes over an IPv4 segment: the words of the TCP
    header and of what follows, and the pseudo-header. *)
Definition total4 (skb : sk_buff) : Z :=
  wsum (be16_words (tcphdr_bytes (tcp_hdr skb) ++ data skb))
  + u32 (ip (saddr (iph skb))) + u32 (ip (daddr (iph skb)))
  + u32 (protocol (iph skb) + (len skb - ip_hdrlen skb)).

(** The pseudo-header sum that the check field of a [CHECKSUM_PARTIAL]
    buffer stands for. *)
Definition pseudo4 (s d : nf_inet_addr) (proto len : Z) : Z :=
  u32 (ip s) + u32 (ip d) + u32 (proto + len).

(** A computation that leaves a buffer of bytes a buffer of bytes of the
    same length. *)
Definition keeps_shape {A} (c : M A) : Prop :=
  forall m, is_bytes (bytes m) ->
    match c m with
    | Ok (_, m') =>
      length (bytes m') = length (bytes m) /\ is_bytes (bytes m')
    | Fault _ => True
    | Fuel => True
    end.

(** ** State machine, further notions *)

(** What a flow contributes to [activeconns] of its destination: 1 while
    [IP_VS_CONN_F_INACTIVE] is clear, 0 while it is set. *)
Definition active_share (cp : ip_vs_conn) : Z :=
  if Z.land (flags cp) IP_VS_CONN_F_INACTIVE =? 0 then 1 else 0.

(** The flows [tcp_state_transition] leaves behind over a sequence of
    buffers that all travel in direction [d], one per buffer. *)
Fixpoint transition_run (tbl : list tcp_states_t) (timeout_table : list Z)
    (d : direction) (cp : ip_vs_conn) (skbs : list sk_buff)
    : list ip_vs_conn :=
  match skbs with
  | [] => []
  | skb :: rest =>
    let cp' := snd (tcp_state_transition tbl timeout_table cp d skb) in
    cp' :: transition_run tbl timeout_table d cp' rest
  end.

(** The states a flow can be in when only the client has been heard
    under the secure table. *)
Definition unanswered (s : tcp_state) : bool :=
  match s with
  | IP_VS_TCP_S_NONE | IP_VS_TCP_S_SYN_RECV | IP_VS_TCP_S_TIME_WAIT
  | IP_VS_TCP_S_CLOSE => true
  | _ => false
  end.

(** ** Scheduling gate, further notions *)

(** The services [ip_vs_service_get] handed out during a call, and the
    services handed back, to [ip_vs_service_put] or to [ip_vs_leave]. *)
Fixpoint acquired (l : list gate_event) : list ip_vs_service :=
  match l with
  | [] => []
  | Service_get (Some svc) :: rest => svc :: acquired rest
  | _ :: rest => acquired rest
  end.

Fixpoint handed_back (l : list gate_event) : list ip_vs_service :=
  match l with
  | [] => []
  | Service_put svc :: rest => svc :: handed_back rest
  | Leave svc :: rest => svc :: handed_back rest
  | _ :: rest => handed_back rest
  end.

(** ** Well-formed option areas *)

(** A TCP option as it is laid out in the header: the one-byte NOP, or a
    kind, a size that counts kind and size byte too, and a body. *)
Inductive tcp_option :=
| Opt_nop
| Opt (kind : Z) (body : list Z).

Definition opt_size (o : tcp_option) : Z :=
  match o with
  | Opt_nop => 1
  | Opt _ b => 2 + Z.of_nat (length b)
  end.

Definition opt_bytes (o : tcp_option) : list Z :=
  match o with
  | Opt_nop => [TCPOPT_NOP]
  | Opt k b => k :: opt_size o :: b
  end.

Definition opts_bytes (l : list tcp_option) : list Z := flat_map opt_bytes l.

(** An option whose kind is neither EOL nor NOP and whose size fits a
    byte. *)
Definition opt_wf (o : tcp_option) : Prop :=
  match o with
  | Opt_nop => True
  | Opt k b => 2 <= k < 256 /\ opt_size o < 256
  end.

(** The options the three walks look for. *)
Definition is_timestamp (o : tcp_option) : bool :=
  match o with
  | Opt_nop => false
  | Opt k _ => (k =? TCPOPT_TIMESTAMP) && (opt_size o =? TCPOLEN_TIMESTAMP)
  end.

Definition is_mss (o : tcp_option) : bool :=
  match o with
  | Opt_nop => false
  | Opt k _ => (k =? TCPOPT_MSS) && (opt_size o =? TCPOLEN_MSS)
  end.

(** A SACK option that the egress walk rewrites: kind 5 with one or more
    whole blocks. *)
Definition is_sack (o : tcp_option) : bool :=
  match o with
  | Opt_nop => false
  | Opt k _ =>
    (k =? TCPOPT_SACK)
    && (opt_size o >=? TCPOLEN_SACK_BASE + TCPOLEN_SACK_PERBLOCK)
    && ((opt_size o - TCPOLEN_SACK_BASE) mod TCPOLEN_SACK_PERBLOCK =? 0)
  end.

(** ** Concrete segments and flows for the NAT path *)

(** An IPv4 NAT flow, client 1.1.1.1:5000, VIP 10.0.0.1:80, backend
    10.0.1.1:8080, in the given state. *)
Definition nat_flow (s : tcp_state) : ip_vs_conn :=
  mk_conn AF_INET IPPROTO_TCP [0x01010101] [0x0a000001] [0x0a000201]
    [0x0a000101] 5000 80 40000 8080 IP_VS_CONN_F_MASQ s IP_VS_TCP_S_NONE 0
    (mk_seq 0 0 0) (mk_seq 0 0 0) 0 0 [] None None.

(** A segment of the backend on its way to the client, 10.0.1.1:8080 to
    1.1.1.1:5000, carrying the bytes [d] behind the header, with the
    check field given. *)
Definition from_backend (c : Z) (d : list Z) : sk_buff :=
  let l := 20 + 20 + Z.of_nat (length d) in
  mk_skb (mk_iphdr 4 5 0 l 0 IP_DF 64 IPPROTO_TCP 0 [0x0a000101] [0x01010101])
    (mk_tcphdr 8080 5000 900 101 0 5 false false false false true false false
       false 8192 c 0)
    d l CHECKSUM_NONE 0 0 1500.

(* ===================================================================== *)
(** * Properties                                                          *)
(* ===================================================================== *)

(** ** Machine arithmetic *)

Lemma u32_range x : 0 <= u32 x < 2 ^ 32.
Proof. unfold u32. apply Z.mod_pos_bound. lia. Qed.

Lemma u16_range x : 0 <= u16 x < 2 ^ 16.
Proof. unfold u16. apply Z.mod_pos_bound. lia. Qed.

Lemma u8_range x : 0 <= u8 x < 2 ^ 8.
Proof. unfold u8. apply Z.mod_pos_bound. lia. Qed.

Lemma before_refl x : before x x = false.
Proof.
  unfold before, s32, u32. rewrite Z.sub_diag. reflexivity.
Qed.

(** A sequence number is not after the one that follows it. *)
Lemma after_next x : after x (u32 (x + 1)) = false.
Proof.
  unfold after, before, s32, u32. rewrite Zminus_mod_idemp_l.
  replace (x + 1 - x) with 1 by lia. reflexivity.
Qed.

Lemma tcp_state_eqb_eq a b : tcp_state_eqb a b = true <-> a = b.
Proof.
  split.
  - destruct a, b; simpl; intro E; try reflexivity; discriminate E.
  - intros ->. destruct b; reflexivity.
Qed.

Lemma tcp_state_eqb_refl a : tcp_state_eqb a a = true.
Proof. apply tcp_state_eqb_eq. reflexivity. Qed.

(* ===================================================================== *)
(** ** State machine: the flag class                                      *)
(* ===================================================================== *)

Lemma set_tcp_state_state tbl tt cp d th :
  state (set_tcp_state tbl tt cp d th) =
  if tcp_state_idx th <? 0 then IP_VS_TCP_S_CLOSE
  else next_state tbl (effective_off cp d + tcp_state_idx th) (state cp).
Proof.
  unfold set_tcp_state, effective_off.
  destruct (negb (Z.land (flags cp) IP_VS_CONN_F_NOOUTPUT =? 0));
    [ destruct (Z.eqb_spec (tcp_state_off d) TCP_DIR_OUTPUT) as [E | E];
      [ rewrite E | ] | ]; reflexivity.
Qed.

Lemma set_tcp_state_old_state tbl tt cp d th :
  old_state (set_tcp_state tbl tt cp d th) = state cp.
Proof.
  unfold set_tcp_state.
  destruct (negb (Z.land (flags cp) IP_VS_CONN_F_NOOUTPUT =? 0));
    destruct (tcp_state_off d =? TCP_DIR_OUTPUT); simpl;
    repeat match goal with
           | |- context [match ?x with _ => _ end] => destruct x; simpl
           end; reflexivity.
Qed.

(** C3, as the claim states it, fails: a segment with SYN and RST both set
    is put in the RST class (index 3), not in the SYN class (index 0); in
    ESTABLISHED on INPUT the normal table then answers CLOSE where the SYN
    row would have answered ESTABLISHED. *)
Lemma C3_syn_is_not_highest :
  let th := hdr 100 0 5 false true true false in
  let cp := flow4 0 IP_VS_TCP_S_ESTABLISHED (mk_seq 0 0 0) in
  syn th = true
  /\ tcp_state_idx th = 3
  /\ tcp_state_idx th <> 0
  /\ state (set_tcp_state tcp_states (sysctl_ip_vs_tcp_timeouts 1000) cp
              IP_VS_DIR_INPUT th) = IP_VS_TCP_S_CLOSE
  /\ next_state tcp_states (TCP_DIR_INPUT + 0) (state cp)
     = IP_VS_TCP_S_ESTABLISHED.
Proof.
  cbv zeta. repeat split; try reflexivity. vm_compute. discriminate.
Qed.

(** C3, amended: the flag class is chosen in the priority order RST, SYN,
    FIN, ACK (a segment with RST set is classified RST whatever else is
    set), the class indexes the row of the active table next to the
    direction offset, and a segment with none of the four flags moves the
    flow to CLOSE. *)
Theorem C3_flag_class_priority
    (tbl : list tcp_states_t) (tt : list Z) (cp : ip_vs_conn)
    (d : direction) (th : tcphdr) :
  let st := state (set_tcp_state tbl tt cp d th) in
  let row i := next_state tbl (effective_off cp d + i) (state cp) in
  match rst th, syn th, fin th, ack th with
  | true, _, _, _ => tcp_state_idx th = 3 /\ st = row 3
  | false, true, _, _ => tcp_state_idx th = 0 /\ st = row 0
  | false, false, true, _ => tcp_state_idx th = 1 /\ st = row 1
  | false, false, false, true => tcp_state_idx th = 2 /\ st = row 2
  | false, false, false, false =>
    tcp_state_idx th = -1 /\ st = IP_VS_TCP_S_CLOSE
  end.
Proof.
  cbv zeta. rewrite set_tcp_state_state. unfold tcp_state_idx.
  destruct (rst th), (syn th), (fin th), (ack th); split; reflexivity.
Qed.

(* ===================================================================== *)
(** ** Sequence translator                                                *)
(* ===================================================================== *)

Section TranslatorFacts.
Context `{Framework}.

Lemma tcp_in_init_seq_fdata cfg cp tcph :
  fdata_seq (fnat_seq (fst (tcp_in_init_seq cfg cp tcph))) = u32 (seq tcph + 1).
Proof.
  unfold tcp_in_init_seq. simpl.
  destruct ((init_seq (fnat_seq cp) =? 0) || _); reflexivity.
Qed.

Lemma tcp_in_init_seq_flags cfg cp tcph :
  flags (fst (tcp_in_init_seq cfg cp tcph)) =
  Z.land (flags cp) (Z.lnot IP_VS_CONN_F_CIP_INSERTED).
Proof.
  unfold tcp_in_init_seq. simpl.
  destruct ((init_seq (fnat_seq cp) =? 0) || _); reflexivity.
Qed.

(** [tcp_in_init_seq] reads nothing of the header but [seq]. *)
Lemma tcp_in_init_seq_seq_only cfg cp th1 th2 :
  seq th1 = seq th2 -> tcp_in_init_seq cfg cp th1 = tcp_in_init_seq cfg cp th2.
Proof. intros E. unfold tcp_in_init_seq. rewrite E. reflexivity. Qed.

(** The first SYN of a flow ([init_seq] still zero) always draws a fresh
    [init_seq]. *)
Lemma tcp_in_init_seq_first cfg cp tcph :
  init_seq (fnat_seq cp) = 0 ->
  tcp_in_init_seq cfg cp tcph =
  (set_fnat_seq (mk_seq (fresh_init_seq cp)
                   (u32 (fresh_init_seq cp - seq tcph)) (u32 (seq tcph + 1)))
     (set_flags (Z.land (flags cp) (Z.lnot IP_VS_CONN_F_CIP_INSERTED)) cp),
   []).
Proof.
  intros E. unfold tcp_in_init_seq, fresh_init_seq. simpl. rewrite E. simpl.
  rewrite andb_false_r. reflexivity.
Qed.


(** One step of the reverse-path record: either [rs_ack_seq] stays, or it
    becomes the [ack_seq] of a non-RST segment that is not before the
    stored value, or that found the stored value zero. *)
Lemma tcp_save_out_seq_step cfg skb cp th ihl :
  let cp' := tcp_save_out_seq cfg skb cp th ihl in
  rs_ack_seq cp' = rs_ack_seq cp
  \/ (rs_ack_seq cp' = ack_seq th
      /\ rst th = false
      /\ sysctl_ip_vs_conn_expire_tcp_rst cfg <> 0
      /\ (before (ack_seq th) (rs_ack_seq cp) = false \/ rs_ack_seq cp = 0)).
Proof.
  cbv zeta. unfold tcp_save_out_seq.
  destruct (Z.eqb_spec (sysctl_ip_vs_conn_expire_tcp_rst cfg) 0) as [E | E];
    simpl; [ left; reflexivity | ].
  destruct (rst th) eqn:R; simpl; [ left; reflexivity | ].
  destruct (before (ack_seq th) (rs_ack_seq cp)) eqn:B; simpl.
  - destruct (Z.eqb_spec (rs_ack_seq cp) 0) as [Z0 | Z0]; simpl.
    + right. repeat split; auto.
    + left. reflexivity.
  - right. repeat split; auto.
Qed.

(** C8, as the claim states it, fails: its premise holds of the code, its
    conclusion does not.  A flow has stored 0xFFFFFFF0.  A segment of the
    real server acknowledges 0, which is 16 further on modulo 2^32 and is
    stored; the next one acknowledges 0xFFFFFFF8, which is 8 before 0, and
    is stored as well, because a stored 0 is taken for "nothing stored":
    [rs_ack_seq] has moved backward. *)
Lemma C8_rs_ack_seq_moves_backward_from_zero :
  let th a := hdr 900 a 5 false false false true in
  let cp := set_rs_seq 0 0xFFFFFFF0 (established 900) in
  map rs_ack_seq
    (save_out_run all_on cp
       [ (skb4 (th 0) [], th 0, 20);
         (skb4 (th 0xFFFFFFF8) [], th 0xFFFFFFF8, 20) ])
  = [0; 0xFFFFFFF8]
  /\ before 0 0xFFFFFFF0 = false
  /\ before 0xFFFFFFF8 0 = true.
Proof. cbv zeta. repeat split; reflexivity. Qed.

(** C8, amended: [tcp_save_out_seq] writes [rs_ack_seq] only for a non-RST
    segment, only while [conn_expire_tcp_rst] is on, and only when the
    segment's [ack_seq] is not before the stored value or the stored value
    is zero, and then it does write it; so over any sequence of egress
    segments of a flow every step of [rs_ack_seq] is forward or starts at
    a stored zero. *)
Theorem C8_rs_ack_seq_moves_backward_only_from_zero
    (cfg : sysctl) (cp : ip_vs_conn) (pkts : list (sk_buff * tcphdr * Z)) :
  (forall skb th ihl,
      let cp' := tcp_save_out_seq cfg skb cp th ihl in
      rs_ack_seq cp' = rs_ack_seq cp
      \/ (rs_ack_seq cp' = ack_seq th
          /\ rst th = false
          /\ sysctl_ip_vs_conn_expire_tcp_rst cfg <> 0
          /\ (before (ack_seq th) (rs_ack_seq cp) = false
              \/ rs_ack_seq cp = 0)))
  /\ (forall skb th ihl,
        rst th = false ->
        sysctl_ip_vs_conn_expire_tcp_rst cfg <> 0 ->
        before (ack_seq th) (rs_ack_seq cp) = false \/ rs_ack_seq cp = 0 ->
        rs_ack_seq (tcp_save_out_seq cfg skb cp th ihl) = ack_seq th)
  /\ forward_or_from_zero_run cp (save_out_run cfg cp pkts).
Proof.
  split; [ | split ].
  - intros skb th ihl. apply tcp_save_out_seq_step.
  - intros skb th ihl R E C. unfold tcp_save_out_seq.
    apply Z.eqb_neq in E. rewrite E, R. cbn [negb andb].
    destruct C as [B | Z0].
    + rewrite B. reflexivity.
    + rewrite Z0. rewrite andb_false_r. reflexivity.
  - revert cp. induction pkts as [| [[skb th] ihl] rest IH]; intros cp; simpl.
    + exact I.
    + split; [ | apply IH ].
      destruct (tcp_save_out_seq_step cfg skb cp th ihl) as [E | (E & _ & _ & [B | Z0])].
      * rewrite E. right. apply before_refl.
      * rewrite E. right. exact B.
      * left. exact Z0.
Qed.

End TranslatorFacts.


(* ===================================================================== *)
(** ** Option walkers: the loops end                                      *)
(* ===================================================================== *)

Lemma terminates_ret {A} (a : A) : terminates (ret a).
Proof. intros m. discriminate. Qed.

Lemma terminates_bind {A B} (c : M A) (k : A -> M B) :
  terminates c -> (forall a, terminates (k a)) -> terminates (bind c k).
Proof.
  intros Hc Hk m. unfold bind. specialize (Hc m).
  destruct (c m) as [[a m'] | t |]; [ apply Hk | discriminate | congruence ].
Qed.

Lemma terminates_rd8 off : terminates (rd8 off).
Proof. intros m. unfold rd8. destruct (in_buf off (bytes m)); discriminate. Qed.

Lemma terminates_wr8 off v : terminates (wr8 off v).
Proof. intros m. unfold wr8. destruct (in_buf off (bytes m)); discriminate. Qed.

Create HintDb walk.
#[local] Hint Resolve terminates_ret terminates_rd8 terminates_wr8 : walk.

(** Go through a straight-line computation, bind by bind. *)
Ltac walk_step :=
  repeat first
    [ solve [ auto with walk ]
    | apply terminates_bind; [ | intro ] ].

Lemma terminates_rd16 off : terminates (rd16 off).
Proof. unfold rd16. walk_step. Qed.

Lemma terminates_wr16 off v : terminates (wr16 off v).
Proof. unfold wr16. walk_step. Qed.

Lemma terminates_rd32 off : terminates (rd32 off).
Proof. unfold rd32. walk_step. Qed.

Lemma terminates_wr32 off v : terminates (wr32 off v).
Proof. unfold wr32. walk_step. Qed.

(** What [rd8] hands to its continuation is a byte. *)
Lemma bind_rd8_terminates {B} off (k : Z -> M B) :
  (forall b, 0 <= b < 256 -> terminates (k b)) -> terminates (bind (rd8 off) k).
Proof.
  intros Hk m. unfold bind, rd8.
  destruct (in_buf off (bytes m)); [ | discriminate ].
  apply Hk. apply u8_range.
Qed.

Lemma nop_fill_terminates n opt i : terminates (nop_fill n opt i).
Proof.
  revert i. induction n as [| n IH]; intros i; simpl.
  - apply terminates_ret.
  - apply terminates_bind; [ apply terminates_wr8 | intros _; apply IH ].
Qed.

Lemma adjust_mss_loop_terminates fuel ptr length :
  length <= Z.of_nat fuel -> terminates (adjust_mss_loop fuel ptr length).
Proof.
  revert ptr length. induction fuel as [| fuel IH]; intros ptr length Hl.
  - simpl. destruct (Z.leb_spec length 0); [ apply terminates_ret | lia ].
  - simpl. destruct (Z.leb_spec length 0); [ apply terminates_ret | ].
    apply bind_rd8_terminates. intros opcode _.
    destruct (opcode =? TCPOPT_EOL); [ apply terminates_ret | ].
    destruct (opcode =? TCPOPT_NOP); [ apply IH; lia | ].
    apply bind_rd8_terminates. intros opsize _.
    destruct (Z.ltb_spec opsize 2); [ apply terminates_ret | ].
    destruct (opsize >? length); [ apply terminates_ret | ].
    destruct ((opcode =? TCPOPT_MSS) && (opsize =? TCPOLEN_MSS)).
    + apply terminates_bind; [ apply terminates_rd16 | intro; apply terminates_wr16 ].
    + apply IH. lia.
Qed.

Lemma remove_timestamp_loop_terminates fuel ptr length :
  length <= Z.of_nat fuel -> terminates (remove_timestamp_loop fuel ptr length).
Proof.
  revert ptr length. induction fuel as [| fuel IH]; intros ptr length Hl.
  - simpl. destruct (Z.leb_spec length 0); [ apply terminates_ret | lia ].
  - simpl. destruct (Z.leb_spec length 0); [ apply terminates_ret | ].
    apply bind_rd8_terminates. intros opcode _.
    destruct (opcode =? TCPOPT_EOL); [ apply terminates_ret | ].
    destruct (opcode =? TCPOPT_NOP); [ apply IH; lia | ].
    apply bind_rd8_terminates. intros opsize _.
    destruct (Z.ltb_spec opsize 2); [ apply terminates_ret | ].
    destruct (opsize >? length); [ apply terminates_ret | ].
    destruct ((opcode =? TCPOPT_TIMESTAMP) && (opsize =? TCPOLEN_TIMESTAMP)).
    + walk_step.
    + apply IH. lia.
Qed.

(** The [__u8] counter of the SACK loop does not wrap: it stays a multiple
    of four below [opsize - 2 <= 253]. *)
Lemma sack_loop_terminates fuel ptr opsize delta i :
  0 <= i -> i mod 4 = 0 -> (opsize - TCPOLEN_SACK_BASE) mod 4 = 0 ->
  opsize < 256 ->
  opsize - TCPOLEN_SACK_BASE - i <= 4 * Z.of_nat fuel ->
  terminates (sack_loop fuel ptr opsize delta i).
Proof.
  unfold TCPOLEN_SACK_BASE.
  revert i. induction fuel as [| fuel IH]; intros i Hi Hi4 Ho4 Ho Hf.
  - simpl. unfold TCPOLEN_SACK_BASE.
    destruct (Z.ltb_spec i (opsize - 2)); [ lia | apply terminates_ret ].
  - simpl. unfold TCPOLEN_SACK_BASE.
    destruct (Z.ltb_spec i (opsize - 2)); [ | apply terminates_ret ].
    apply terminates_bind; [ apply terminates_rd32 | intros v ].
    apply terminates_bind; [ apply terminates_wr32 | intros _ ].
    assert (Hstep : i + 4 <= opsize - 2).
    { apply Z.mod_divide in Hi4; [ | lia ]. apply Z.mod_divide in Ho4; [ | lia ].
      destruct Hi4 as [a Ha]. destruct Ho4 as [b Hb]. lia. }
    assert (Hu : u8 (i + 4) = i + 4).
    { unfold u8. apply Z.mod_small. lia. }
    rewrite Hu. apply IH; try lia.
    rewrite <- Zplus_mod_idemp_l, Hi4. reflexivity.
Qed.

Lemma out_adjust_loop_terminates fuel delta ptr length :
  length <= Z.of_nat fuel -> terminates (out_adjust_loop fuel delta ptr length).
Proof.
  revert ptr length. induction fuel as [| fuel IH]; intros ptr length Hl.
  - simpl. destruct (Z.leb_spec length 0); [ apply terminates_ret | lia ].
  - simpl. destruct (Z.leb_spec length 0); [ apply terminates_ret | ].
    apply bind_rd8_terminates. intros opcode _.
    destruct (opcode =? TCPOPT_EOL); [ apply terminates_ret | ].
    destruct (opcode =? TCPOPT_NOP); [ apply IH; lia | ].
    apply bind_rd8_terminates. intros opsize Hb.
    destruct (Z.ltb_spec opsize 2); [ apply terminates_ret | ].
    destruct (opsize >? length); [ apply terminates_ret | ].
    match goal with
    | |- terminates (if ?c then _ else _) => destruct c eqn:E
    end.
    + apply andb_prop in E. destruct E as [_ E]. apply Z.eqb_eq in E.
      unfold TCPOLEN_SACK_BASE, TCPOLEN_SACK_PERBLOCK in E.
      apply sack_loop_terminates; unfold TCPOLEN_SACK_BASE; try lia.
      * reflexivity.
      * apply Z.mod_divide in E; [ | lia ]. destruct E as [b Hb8].
        apply Z.mod_divide; [ lia | ]. exists (2 * b). lia.
    + apply IH. lia.
Qed.

(** The three option walkers always come to an end, whatever the bytes and
    whatever the data offset: each turn of the loop takes at least one
    from [length]. *)
Lemma tcp_opt_adjust_mss_terminates cfg tcph :
  terminates (tcp_opt_adjust_mss cfg tcph).
Proof.
  unfold tcp_opt_adjust_mss.
  destruct (sysctl_ip_vs_mss_adjust_entry cfg =? 0); [ apply terminates_ret | ].
  apply adjust_mss_loop_terminates. lia.
Qed.

Lemma tcp_opt_remove_timestamp_terminates cfg tcph :
  terminates (tcp_opt_remove_timestamp cfg tcph).
Proof.
  unfold tcp_opt_remove_timestamp.
  destruct (sysctl_ip_vs_timestamp_remove_entry cfg =? 0);
    [ apply terminates_ret | ].
  apply remove_timestamp_loop_terminates. lia.
Qed.

Lemma tcp_out_adjust_seq_terminates `{Framework} cp tcph :
  terminates (tcp_out_adjust_seq cp tcph).
Proof.
  intros m. unfold tcp_out_adjust_seq.
  destruct (ip_vs_synproxy_snat_handler tcph (bytes m) cp) as [r [th' bs]].
  destruct (r =? 0); [ discriminate | ].
  apply terminates_bind; [ | intros _; apply terminates_ret ].
  apply out_adjust_loop_terminates. lia.
Qed.

(* ===================================================================== *)
(** ** Option walkers: how far the two in-place mutators reach            *)
(* ===================================================================== *)

Lemma within_ret {A} L (a : A) : within L (ret a).
Proof. intros m Hm. exact Hm. Qed.

Lemma within_bind {A B} L (c : M A) (k : A -> M B) :
  within L c -> (forall a, within L (k a)) -> within L (bind c k).
Proof.
  intros Hc Hk m Hm. unfold bind. specialize (Hc m Hm).
  destruct (c m) as [[a m'] | t |]; [ apply Hk; exact Hc | exact Hc | exact I ].
Qed.

Lemma Forall_snoc {A} (P : A -> Prop) l a :
  Forall P l -> P a -> Forall P (l ++ [a]).
Proof.
  intros Hl Ha. apply Forall_app. split; [ exact Hl | ].
  constructor; [ exact Ha | constructor ].
Qed.

Lemma within_rd8 L off : off <= L -> within L (rd8 off).
Proof.
  intros Ho m Hm. unfold rd8.
  destruct (in_buf off (bytes m)); apply Forall_snoc; assumption.
Qed.

Lemma within_wr8 L off v : off <= L -> within L (wr8 off v).
Proof.
  intros Ho m Hm. unfold wr8.
  destruct (in_buf off (bytes m)); apply Forall_snoc; assumption.
Qed.

Lemma within_bind_rd8 {B} L off (k : Z -> M B) :
  off <= L -> (forall b, within L (k b)) -> within L (bind (rd8 off) k).
Proof. intros Ho Hk. apply within_bind; [ apply within_rd8; exact Ho | exact Hk ]. Qed.

Lemma within_nop_fill L n opt i :
  opt + i + Z.of_nat n - 1 <= L -> within L (nop_fill n opt i).
Proof.
  revert i. induction n as [| n IH]; intros i Hb.
  - apply within_ret.
  - cbn [nop_fill]. apply within_bind.
    + apply within_wr8. lia.
    + intros _. apply IH. lia.
Qed.

Lemma adjust_mss_loop_within L fuel ptr length :
  ptr + length <= L -> within L (adjust_mss_loop fuel ptr length).
Proof.
  revert ptr length. induction fuel as [| fuel IH]; intros ptr length Hb.
  - simpl. destruct (length <=? 0); [ apply within_ret | intros m _; exact I ].
  - simpl. destruct (Z.leb_spec length 0); [ apply within_ret | ].
    apply within_bind_rd8; [ lia | intros opcode ].
    destruct (opcode =? TCPOPT_EOL); [ apply within_ret | ].
    destruct (opcode =? TCPOPT_NOP); [ apply IH; lia | ].
    apply within_bind_rd8; [ lia | intros opsize ].
    destruct (Z.ltb_spec opsize 2); [ apply within_ret | ].
    destruct (Z.gtb_spec opsize length); [ apply within_ret | ].
    destruct ((opcode =? TCPOPT_MSS) && (opsize =? TCPOLEN_MSS)) eqn:E.
    + apply andb_prop in E. destruct E as [_ E]. apply Z.eqb_eq in E.
      unfold TCPOLEN_MSS in E.
      unfold rd16, wr16.
      repeat first [ apply within_ret
                   | apply within_rd8; lia
                   | apply within_wr8; lia
                   | apply within_bind; [ | intro ] ].
    + apply IH. lia.
Qed.

Lemma remove_timestamp_loop_within L fuel ptr length :
  ptr + length <= L -> within L (remove_timestamp_loop fuel ptr length).
Proof.
  revert ptr length. induction fuel as [| fuel IH]; intros ptr length Hb.
  - simpl. destruct (length <=? 0); [ apply within_ret | intros m _; exact I ].
  - cbn [remove_timestamp_loop].
    destruct (Z.leb_spec length 0); [ apply within_ret | ].
    apply within_bind_rd8; [ lia | intros opcode ].
    destruct (opcode =? TCPOPT_EOL); [ apply within_ret | ].
    destruct (opcode =? TCPOPT_NOP); [ apply IH; lia | ].
    apply within_bind_rd8; [ lia | intros opsize ].
    destruct (Z.ltb_spec opsize 2); [ apply within_ret | ].
    destruct (Z.gtb_spec opsize length); [ apply within_ret | ].
    destruct ((opcode =? TCPOPT_TIMESTAMP) && (opsize =? TCPOLEN_TIMESTAMP))
      eqn:E.
    + apply andb_prop in E. destruct E as [_ E]. apply Z.eqb_eq in E.
      unfold TCPOLEN_TIMESTAMP in E.
      apply within_nop_fill. unfold TCPOLEN_TIMESTAMP.
      change (Z.of_nat (Z.to_nat 10)) with 10. lia.
    + apply IH. lia.
Qed.

(** The MSS adjustment and the timestamp erasure touch no offset beyond
    [L], the length of the option area: they read at most the one byte
    that follows it, and write inside it. *)
Lemma mss_and_timestamp_walkers_reach_at_most_L cfg tcph buf :
  let L := doff tcph * 4 - sizeof_tcphdr in
  0 <= L ->
  Forall (fun o => o <= L) (touched (run (tcp_opt_adjust_mss cfg tcph) buf))
  /\ Forall (fun o => o <= L)
       (touched (run (tcp_opt_remove_timestamp cfg tcph) buf)).
Proof.
  cbv zeta. intros HL.
  assert (T : forall (c : M unit),
             within (doff tcph * 4 - sizeof_tcphdr) c ->
             Forall (fun o => o <= doff tcph * 4 - sizeof_tcphdr)
               (touched (run c buf))).
  { intros c Hc. unfold run, touched.
    specialize (Hc (mk_optmem buf []) (Forall_nil _)).
    destruct (c (mk_optmem buf [])) as [[u m] | t |].
    - apply Forall_map. exact Hc.
    - apply Forall_map. exact Hc.
    - constructor. }
  split; apply T.
  - unfold tcp_opt_adjust_mss.
    destruct (_ =? 0); [ apply within_ret | ].
    apply adjust_mss_loop_within. lia.
  - unfold tcp_opt_remove_timestamp.
    destruct (_ =? 0); [ apply within_ret | ].
    apply remove_timestamp_loop_within. lia.
Qed.

(* ===================================================================== *)
(** ** Option walkers: no result only outside the buffer                  *)
(* ===================================================================== *)

Lemma length_set_nth n v l : length (set_nth n v l) = length l.
Proof.
  revert n. induction l as [| a l IH]; intros n; [ destruct n; reflexivity | ].
  destruct n; simpl; [ reflexivity | rewrite IH; reflexivity ].
Qed.

Lemma in_buf_false_outside off l :
  in_buf off l = false -> off < 0 \/ Z.of_nat (length l) <= off.
Proof.
  unfold in_buf. intros E. apply andb_false_iff in E. destruct E as [E | E].
  - left. apply Z.leb_gt. exact E.
  - right. apply Z.ltb_ge. exact E.
Qed.

Lemma faults_outside_ret {A} (a : A) : faults_outside (ret a).
Proof. intros m. reflexivity. Qed.

Lemma faults_outside_out_of_fuel {A} : faults_outside (@out_of_fuel A).
Proof. intros m. exact I. Qed.

Lemma faults_outside_bind {A B} (c : M A) (k : A -> M B) :
  faults_outside c -> (forall a, faults_outside (k a)) ->
  faults_outside (bind c k).
Proof.
  intros Hc Hk m. unfold bind. specialize (Hc m).
  destruct (c m) as [[a m'] | t |]; [ | exact Hc | exact I ].
  specialize (Hk a m'). rewrite Hc in Hk.
  destruct (k a m') as [[b m''] | t |]; exact Hk.
Qed.

Lemma faults_outside_rd8 off : faults_outside (rd8 off).
Proof.
  intros m. unfold rd8. destruct (in_buf off (bytes m)) eqn:E.
  - reflexivity.
  - exists (trace m), (Rd off). split; [ reflexivity | ].
    apply in_buf_false_outside. exact E.
Qed.

Lemma faults_outside_wr8 off v : faults_outside (wr8 off v).
Proof.
  intros m. unfold wr8. destruct (in_buf off (bytes m)) eqn:E.
  - cbn [bytes]. apply length_set_nth.
  - exists (trace m), (Wr off). split; [ reflexivity | ].
    apply in_buf_false_outside. exact E.
Qed.

Ltac outside_step :=
  repeat first
    [ apply faults_outside_ret | apply faults_outside_rd8
    | apply faults_outside_wr8
    | apply faults_outside_bind; [ | intros ? ] ].

Lemma faults_outside_rd16 off : faults_outside (rd16 off).
Proof. unfold rd16. outside_step. Qed.

Lemma faults_outside_wr16 off v : faults_outside (wr16 off v).
Proof. unfold wr16. outside_step. Qed.

Lemma faults_outside_rd32 off : faults_outside (rd32 off).
Proof. unfold rd32. outside_step. Qed.

Lemma faults_outside_wr32 off v : faults_outside (wr32 off v).
Proof. unfold wr32. outside_step. Qed.

Lemma faults_outside_nop_fill n opt i : faults_outside (nop_fill n opt i).
Proof.
  revert i. induction n as [| n IH]; intros i; cbn [nop_fill].
  - apply faults_outside_ret.
  - apply faults_outside_bind; [ apply faults_outside_wr8 | intros _; apply IH ].
Qed.

Lemma faults_outside_adjust_mss_loop fuel ptr length :
  faults_outside (adjust_mss_loop fuel ptr length).
Proof.
  revert ptr length. induction fuel as [| fuel IH]; intros ptr length;
    cbn [adjust_mss_loop].
  - destruct (length <=? 0);
      [ apply faults_outside_ret | apply faults_outside_out_of_fuel ].
  - destruct (length <=? 0); [ apply faults_outside_ret | ].
    apply faults_outside_bind; [ apply faults_outside_rd8 | intros opcode ].
    destruct (opcode =? TCPOPT_EOL); [ apply faults_outside_ret | ].
    destruct (opcode =? TCPOPT_NOP); [ apply IH | ].
    apply faults_outside_bind; [ apply faults_outside_rd8 | intros opsize ].
    destruct (opsize <? 2); [ apply faults_outside_ret | ].
    destruct (opsize >? length); [ apply faults_outside_ret | ].
    destruct ((opcode =? TCPOPT_MSS) && (opsize =? TCPOLEN_MSS)); [ | apply IH ].
    apply faults_outside_bind; [ apply faults_outside_rd16 | intros v ].
    apply faults_outside_wr16.
Qed.

Lemma faults_outside_remove_timestamp_loop fuel ptr length :
  faults_outside (remove_timestamp_loop fuel ptr length).
Proof.
  revert ptr length. induction fuel as [| fuel IH]; intros ptr length;
    cbn [remove_timestamp_loop].
  - destruct (length <=? 0);
      [ apply faults_outside_ret | apply faults_outside_out_of_fuel ].
  - destruct (length <=? 0); [ apply faults_outside_ret | ].
    apply faults_outside_bind; [ apply faults_outside_rd8 | intros opcode ].
    destruct (opcode =? TCPOPT_EOL); [ apply faults_outside_ret | ].
    destruct (opcode =? TCPOPT_NOP); [ apply IH | ].
    apply faults_outside_bind; [ apply faults_outside_rd8 | intros opsize ].
    destruct (opsize <? 2); [ apply faults_outside_ret | ].
    destruct (opsize >? length); [ apply faults_outside_ret | ].
    destruct ((opcode =? TCPOPT_TIMESTAMP) && (opsize =? TCPOLEN_TIMESTAMP));
      [ apply faults_outside_nop_fill | apply IH ].
Qed.

Lemma faults_outside_sack_loop fuel ptr opsize delta i :
  faults_outside (sack_loop fuel ptr opsize delta i).
Proof.
  revert i. induction fuel as [| fuel IH]; intros i; cbn [sack_loop].
  - destruct (i <? opsize - TCPOLEN_SACK_BASE);
      [ apply faults_outside_out_of_fuel | apply faults_outside_ret ].
  - destruct (i <? opsize - TCPOLEN_SACK_BASE); [ | apply faults_outside_ret ].
    apply faults_outside_bind; [ apply faults_outside_rd32 | intros v ].
    apply faults_outside_bind; [ apply faults_outside_wr32 | intros _ ].
    apply IH.
Qed.

Lemma faults_outside_out_adjust_loop fuel delta ptr length :
  faults_outside (out_adjust_loop fuel delta ptr length).
Proof.
  revert ptr length. induction fuel as [| fuel IH]; intros ptr length;
    cbn [out_adjust_loop].
  - destruct (length <=? 0);
      [ apply faults_outside_ret | apply faults_outside_out_of_fuel ].
  - destruct (length <=? 0); [ apply faults_outside_ret | ].
    apply faults_outside_bind; [ apply faults_outside_rd8 | intros opcode ].
    destruct (opcode =? TCPOPT_EOL); [ apply faults_outside_ret | ].
    destruct (opcode =? TCPOPT_NOP); [ apply IH | ].
    apply faults_outside_bind; [ apply faults_outside_rd8 | intros opsize ].
    destruct (opsize <? 2); [ apply faults_outside_ret | ].
    destruct (opsize >? length); [ apply faults_outside_ret | ].
    match goal with
    | |- faults_outside (if ?c then _ else _) => destruct c
    end; [ apply faults_outside_sack_loop | apply IH ].
Qed.

Lemma faults_outside_tcp_opt_adjust_mss cfg tcph :
  faults_outside (tcp_opt_adjust_mss cfg tcph).
Proof.
  unfold tcp_opt_adjust_mss.
  destruct (sysctl_ip_vs_mss_adjust_entry cfg =? 0);
    [ apply faults_outside_ret | apply faults_outside_adjust_mss_loop ].
Qed.

Lemma faults_outside_tcp_opt_remove_timestamp cfg tcph :
  faults_outside (tcp_opt_remove_timestamp cfg tcph).
Proof.
  unfold tcp_opt_remove_timestamp.
  destruct (sysctl_ip_vs_timestamp_remove_entry cfg =? 0);
    [ apply faults_outside_ret | apply faults_outside_remove_timestamp_loop ].
Qed.

(* ===================================================================== *)
(** ** Sequence numbers through the FullNAT handlers                      *)
(* ===================================================================== *)

Section HandlerFacts.
Context `{Framework}.

Lemma tcp_opt_add_toa_frame cp skb ok :
  fnat_seq (fst (fst (tcp_opt_add_toa cp skb ok))) = fnat_seq cp
  /\ seq (tcp_hdr (snd (fst (tcp_opt_add_toa cp skb ok)))) = seq (tcp_hdr skb).
Proof.
  unfold tcp_opt_add_toa.
  destruct (negb (af cp =? AF_INET)); [ split; reflexivity | ].
  destruct (after _ _); [ split; reflexivity | ].
  destruct (len skb >? _); [ split; reflexivity | ].
  destruct (negb ok); split; reflexivity.
Qed.

Lemma full_csum_seq a s d p off skb :
  seq (tcp_hdr (full_csum a s d p off skb)) = seq (tcp_hdr skb)
  /\ ack_seq (tcp_hdr (full_csum a s d p off skb)) = ack_seq (tcp_hdr skb).
Proof. split; reflexivity. Qed.

(** The ingress handler as a whole: a segment it keeps leaves with its
    sequence number raised by the delta the flow has after the segment
    (for a SYN without ACK, the delta just initialised).  The handler has
    no result only when the timestamp walk leaves the buffer. *)
Lemma tcp_fnat_in_handler_seq cfg skb cp o :
  (forall th bs s,
      seq (fst (ip_vs_synproxy_dnat_handler th bs s)) = seq th) ->
  app cp = None ->
  match tcp_fnat_in_handler cfg skb cp o with
  | Ok (r, cp', skb', _) =>
    r = 0
    \/ seq (tcp_hdr skb') = u32 (seq (tcp_hdr skb) + delta (fnat_seq cp'))
  | Fault _ => True
  | Fuel => False
  end.
Proof.
  intros Hdnat Happ. unfold tcp_fnat_in_handler, app_stage. rewrite Happ.
  destruct (negb (writable o)); [ left; reflexivity | ].
  set (skb1 := set_th (set_dest (dport cp) (set_source (lport cp) (tcp_hdr skb))) skb).
  assert (S1 : seq (tcp_hdr skb1) = seq (tcp_hdr skb)) by reflexivity.
  assert (K : forall cp1 skb2 ev1,
             seq (tcp_hdr skb2) = seq (tcp_hdr skb) ->
             match
               (let '(cp2, skb3, ev2) :=
                  if (sysctl_ip_vs_toa_entry cfg =? 1)
                     && (Z.land (flags cp1) IP_VS_CONN_F_CIP_INSERTED =? 0)
                     && negb (rst (tcp_hdr skb2)) && negb (fin (tcp_hdr skb2))
                  then tcp_opt_add_toa cp1 skb2 (copy_ok o)
                  else (cp1, skb2, []) in
                let '(tcph, bs) :=
                  tcp_in_adjust_seq cp2 (tcp_hdr skb3) (data skb3) in
                let skb4 := set_data bs (set_th tcph skb3) in
                let skb5 := full_csum (af cp2) (laddr cp2) (daddr_rs cp2)
                              (conn_protocol cp2)
                              (if af cp =? AF_INET6 then sizeof_ipv6hdr
                               else ip_hdrlen skb) skb4 in
                let skb6 := set_ip_summed CHECKSUM_UNNECESSARY skb5 in
                @Ok handled (1, cp2, skb6, ev1 ++ ev2))
             with
             | Ok (r, cp', skb', _) =>
               r = 0
               \/ seq (tcp_hdr skb')
                  = u32 (seq (tcp_hdr skb) + delta (fnat_seq cp'))
             | Fault _ => True
             | Fuel => False
             end).
  { intros cp1 skb2 ev1 S2.
    assert (T : exists cp2 skb3 ev2,
               (if (sysctl_ip_vs_toa_entry cfg =? 1)
                   && (Z.land (flags cp1) IP_VS_CONN_F_CIP_INSERTED =? 0)
                   && negb (rst (tcp_hdr skb2)) && negb (fin (tcp_hdr skb2))
                then tcp_opt_add_toa cp1 skb2 (copy_ok o)
                else (cp1, skb2, [])) = (cp2, skb3, ev2)
               /\ seq (tcp_hdr skb3) = seq (tcp_hdr skb2)).
    { destruct (_ && _).
      - pose proof (tcp_opt_add_toa_frame cp1 skb2 (copy_ok o)) as [_ F].
        destruct (tcp_opt_add_toa cp1 skb2 (copy_ok o)) as [[cp2 skb3] ev2].
        exists cp2, skb3, ev2. split; [ reflexivity | exact F ].
      - exists cp1, skb2, []. split; reflexivity. }
    destruct T as (cp2 & skb3 & ev2 & E & S3). rewrite E.
    unfold tcp_in_adjust_seq.
    pose proof (Hdnat (set_seq (u32 (seq (tcp_hdr skb3) + delta (fnat_seq cp2)))
                         (tcp_hdr skb3)) (data skb3) (syn_proxy_seq cp2)) as D.
    destruct (ip_vs_synproxy_dnat_handler _ _ _) as [tcph bs].
    right. cbn [fst] in D. cbv zeta.
    change (seq tcph = u32 (seq (tcp_hdr skb) + delta (fnat_seq cp2))).
    rewrite D. cbn [seq set_seq]. rewrite S3, S2. reflexivity. }
  destruct (syn (tcp_hdr skb1) && negb (ack (tcp_hdr skb1))).
  - pose proof (tcp_opt_remove_timestamp_terminates cfg (tcp_hdr skb1)
                  (mk_optmem (data skb1) [])) as T.
    unfold run.
    destruct (tcp_opt_remove_timestamp cfg (tcp_hdr skb1)
                (mk_optmem (data skb1) [])) as [[u m] | t |];
      [ | exact I | apply T; reflexivity ].
    destruct (tcp_in_init_seq cfg cp _) as [cp1 ev1].
    exact (K cp1 (set_data (bytes m) skb1) ev1 eq_refl).
  - exact (K cp skb1 [] eq_refl).
Qed.

(** The egress handler as a whole: a segment it keeps leaves with its
    acknowledgement number lowered by the flow's delta.  The handler has
    no result only when an option walk leaves the buffer. *)
Lemma tcp_fnat_out_handler_ack_seq cfg skb cp w :
  (forall th bs c,
      ack_seq (fst (snd (ip_vs_synproxy_snat_handler th bs c))) = ack_seq th) ->
  app cp = None ->
  match tcp_fnat_out_handler cfg skb cp w with
  | Ok (r, cp', skb', _) =>
    r = 0
    \/ ack_seq (tcp_hdr skb')
       = u32 (ack_seq (tcp_hdr skb) - delta (fnat_seq cp))
  | Fault _ => True
  | Fuel => False
  end.
Proof.
  intros Hsnat Happ. unfold tcp_fnat_out_handler, app_stage. rewrite Happ.
  destruct (negb w); [ left; reflexivity | ].
  set (cp1 := tcp_save_out_seq cfg skb cp (tcp_hdr skb) _).
  assert (F1 : fnat_seq cp1 = fnat_seq cp).
  { unfold cp1, tcp_save_out_seq.
    destruct (_ && _); [ destruct (_ && _) | ]; reflexivity. }
  set (skb1 := set_th (set_dest (cport cp1) (set_source (vport cp1) (tcp_hdr skb))) skb).
  assert (K : forall m,
             match tcp_out_adjust_seq cp1 (tcp_hdr skb1) m with
             | Ok (r, tcph, _) =>
               r = 0 \/ ack_seq tcph
                        = u32 (ack_seq (tcp_hdr skb) - delta (fnat_seq cp))
             | Fault _ => True
             | Fuel => False
             end).
  { intros m.
    pose proof (tcp_out_adjust_seq_terminates cp1 (tcp_hdr skb1) m) as T.
    revert T. unfold tcp_out_adjust_seq.
    specialize (Hsnat (tcp_hdr skb1) (bytes m) cp1).
    destruct (ip_vs_synproxy_snat_handler (tcp_hdr skb1) (bytes m) cp1)
      as [r [th' bs']].
    cbn [fst snd] in Hsnat.
    destruct (Z.eqb_spec r 0) as [E | E]; [ intros _; left; reflexivity | ].
    unfold bind.
    destruct (out_adjust_loop _ _ _ _ _) as [[u m'] | t |]; intros T.
    - right. cbn [ack_seq set_ack_seq ret]. rewrite Hsnat, F1. reflexivity.
    - exact I.
    - apply T. reflexivity. }
  assert (K2 : forall m,
             match
               match tcp_out_adjust_seq cp1 (tcp_hdr skb1) m with
               | Ok (r, tcph, m0) =>
                 let skb2 := set_data (bytes m0) (set_th tcph skb1) in
                 if r =? 0 then @Ok handled (0, cp1, skb2, [])
                 else Ok (1, cp1,
                          full_csum (af cp1) (vaddr cp1) (caddr cp1)
                            (conn_protocol cp1)
                            (if af cp =? AF_INET6 then sizeof_ipv6hdr
                             else ip_hdrlen skb) skb2, [])
               | Fault t => Fault t
               | Fuel => Fuel
               end
             with
             | Ok (r, cp', skb', _) =>
               r = 0
               \/ ack_seq (tcp_hdr skb')
                  = u32 (ack_seq (tcp_hdr skb) - delta (fnat_seq cp))
             | Fault _ => True
             | Fuel => False
             end).
  { intros m. specialize (K m).
    destruct (tcp_out_adjust_seq cp1 (tcp_hdr skb1) m)
      as [[[r tcph] m0] | t |]; [ | exact I | exact K ].
    cbv zeta. destruct (Z.eqb_spec r 0) as [E | E]; [ left; reflexivity | ].
    destruct K as [K | K]; [ contradiction | right; exact K ]. }
  destruct (syn (tcp_hdr skb1) && ack (tcp_hdr skb1)).
  - pose proof (tcp_opt_adjust_mss_terminates cfg (tcp_hdr skb1)
                  (mk_optmem (data skb1) [])) as T.
    unfold run.
    destruct (tcp_opt_adjust_mss cfg (tcp_hdr skb1) (mk_optmem (data skb1) []))
      as [[u m] | t |]; [ exact (K2 m) | exact I | apply T; reflexivity ].
  - exact (K2 (mk_optmem (data skb1) [])).
Qed.

(** [tcp_out_adjust_seq] by the answer of the SYN-proxy hook: 0 is handed
    on with the header as the hook left it; any other answer gives 1 and
    the acknowledgement number lowered by the delta.  There is no result
    only when the option walk accesses a byte outside the buffer the hook
    handed on. *)
Lemma tcp_out_adjust_seq_by_answer cp tcph m :
  let answer := ip_vs_synproxy_snat_handler tcph (bytes m) cp in
  match tcp_out_adjust_seq cp tcph m with
  | Ok ((r, tcph'), m') =>
    length (bytes m') = length (snd (snd answer))
    /\ if fst answer =? 0
       then r = 0 /\ tcph' = fst (snd answer)
       else r = 1
            /\ tcph' = set_ack_seq
                         (u32 (ack_seq (fst (snd answer)) - delta (fnat_seq cp)))
                         (fst (snd answer))
  | Fault t => fst answer <> 0 /\ left_buffer (length (snd (snd answer))) t
  | Fuel => False
  end.
Proof.
  cbv zeta.
  pose proof (tcp_out_adjust_seq_terminates cp tcph m) as T. revert T.
  unfold tcp_out_adjust_seq.
  destruct (ip_vs_synproxy_snat_handler tcph (bytes m) cp) as [r [th' bs]].
  cbn [fst snd].
  destruct (Z.eqb_spec r 0) as [E | E].
  - intros _. cbn [bytes]. split; [ reflexivity | split; reflexivity ].
  - unfold bind.
    match goal with
    | |- context [out_adjust_loop ?a ?b ?c ?d ?mm] =>
      pose proof (faults_outside_out_adjust_loop a b c d mm) as F;
      destruct (out_adjust_loop a b c d mm) as [[u m'] | t |]
    end; intros T.
    + cbn [ret bytes] in *. split; [ exact F | split; reflexivity ].
    + split; [ exact E | exact F ].
    + apply T. reflexivity.
Qed.

(** The ingress handler, buffer writable, flow without helper: the segment
    is kept and leaves with its sequence number raised by the delta the
    flow has after it, which for a segment that is not a SYN without ACK
    is the delta it had before.  The handler has no result only when the
    timestamp walk of a SYN accesses a byte outside the buffer. *)
Lemma tcp_fnat_in_handler_seq_exact cfg skb cp o :
  (forall th bs s,
      seq (fst (ip_vs_synproxy_dnat_handler th bs s)) = seq th) ->
  app cp = None -> writable o = true ->
  match tcp_fnat_in_handler cfg skb cp o with
  | Ok (r, cp', skb', _) =>
    r = 1
    /\ seq (tcp_hdr skb') = u32 (seq (tcp_hdr skb) + delta (fnat_seq cp'))
    /\ (syn (tcp_hdr skb) && negb (ack (tcp_hdr skb)) = false ->
        fnat_seq cp' = fnat_seq cp)
  | Fault t =>
    syn (tcp_hdr skb) && negb (ack (tcp_hdr skb)) = true
    /\ left_buffer (length (data skb)) t
  | Fuel => False
  end.
Proof.
  intros Hdnat Happ Hw. unfold tcp_fnat_in_handler, app_stage.
  rewrite Happ, Hw. cbn [negb].
  set (skb1 := set_th (set_dest (dport cp) (set_source (lport cp) (tcp_hdr skb))) skb).
  assert (K : forall cp1 skb2 ev1,
             seq (tcp_hdr skb2) = seq (tcp_hdr skb) ->
             (syn (tcp_hdr skb) && negb (ack (tcp_hdr skb)) = false ->
              fnat_seq cp1 = fnat_seq cp) ->
             match
               (let '(cp2, skb3, ev2) :=
                  if (sysctl_ip_vs_toa_entry cfg =? 1)
                     && (Z.land (flags cp1) IP_VS_CONN_F_CIP_INSERTED =? 0)
                     && negb (rst (tcp_hdr skb2)) && negb (fin (tcp_hdr skb2))
                  then tcp_opt_add_toa cp1 skb2 (copy_ok o)
                  else (cp1, skb2, []) in
                let '(tcph, bs) :=
                  tcp_in_adjust_seq cp2 (tcp_hdr skb3) (data skb3) in
                let skb4 := set_data bs (set_th tcph skb3) in
                let skb5 := full_csum (af cp2) (laddr cp2) (daddr_rs cp2)
                              (conn_protocol cp2)
                              (if af cp =? AF_INET6 then sizeof_ipv6hdr
                               else ip_hdrlen skb) skb4 in
                let skb6 := set_ip_summed CHECKSUM_UNNECESSARY skb5 in
                @Ok handled (1, cp2, skb6, ev1 ++ ev2))
             with
             | Ok (r, cp', skb', _) =>
               r = 1
               /\ seq (tcp_hdr skb')
                  = u32 (seq (tcp_hdr skb) + delta (fnat_seq cp'))
               /\ (syn (tcp_hdr skb) && negb (ack (tcp_hdr skb)) = false ->
                   fnat_seq cp' = fnat_seq cp)
             | Fault t =>
               syn (tcp_hdr skb) && negb (ack (tcp_hdr skb)) = true
               /\ left_buffer (length (data skb)) t
             | Fuel => False
             end).
  { intros cp1 skb2 ev1 S2 F1.
    assert (T : exists cp2 skb3 ev2,
               (if (sysctl_ip_vs_toa_entry cfg =? 1)
                   && (Z.land (flags cp1) IP_VS_CONN_F_CIP_INSERTED =? 0)
                   && negb (rst (tcp_hdr skb2)) && negb (fin (tcp_hdr skb2))
                then tcp_opt_add_toa cp1 skb2 (copy_ok o)
                else (cp1, skb2, [])) = (cp2, skb3, ev2)
               /\ seq (tcp_hdr skb3) = seq (tcp_hdr skb2)
               /\ fnat_seq cp2 = fnat_seq cp1).
    { destruct ((sysctl_ip_vs_toa_entry cfg =? 1)
                && (Z.land (flags cp1) IP_VS_CONN_F_CIP_INSERTED =? 0)
                && negb (rst (tcp_hdr skb2)) && negb (fin (tcp_hdr skb2))).
      - pose proof (tcp_opt_add_toa_frame cp1 skb2 (copy_ok o)) as [F S3].
        destruct (tcp_opt_add_toa cp1 skb2 (copy_ok o)) as [[cp2 skb3] ev2].
        exists cp2, skb3, ev2. split; [ reflexivity | split; [ exact S3 | exact F ] ].
      - exists cp1, skb2, []. repeat split; reflexivity. }
    destruct T as (cp2 & skb3 & ev2 & E & S3 & F2). rewrite E.
    unfold tcp_in_adjust_seq.
    pose proof (Hdnat (set_seq (u32 (seq (tcp_hdr skb3) + delta (fnat_seq cp2)))
                         (tcp_hdr skb3)) (data skb3) (syn_proxy_seq cp2)) as D.
    destruct (ip_vs_synproxy_dnat_handler _ _ _) as [tcph bs].
    cbn [fst] in D. cbv zeta.
    split; [ reflexivity | split ].
    - change (seq tcph = u32 (seq (tcp_hdr skb) + delta (fnat_seq cp2))).
      rewrite D. cbn [seq set_seq]. rewrite S3, S2. reflexivity.
    - intros L. rewrite F2. apply F1. exact L. }
  change (syn (tcp_hdr skb1)) with (syn (tcp_hdr skb)).
  change (ack (tcp_hdr skb1)) with (ack (tcp_hdr skb)).
  destruct (syn (tcp_hdr skb) && negb (ack (tcp_hdr skb))) eqn:S.
  - pose proof (tcp_opt_remove_timestamp_terminates cfg (tcp_hdr skb1)
                  (mk_optmem (data skb1) [])) as T.
    pose proof (faults_outside_tcp_opt_remove_timestamp cfg (tcp_hdr skb1)
                  (mk_optmem (data skb1) [])) as FO.
    unfold run.
    destruct (tcp_opt_remove_timestamp cfg (tcp_hdr skb1)
                (mk_optmem (data skb1) [])) as [[u m] | t |];
      [ | split; [ reflexivity | exact FO ] | apply T; reflexivity ].
    destruct (tcp_in_init_seq cfg cp _) as [cp1 ev1].
    apply (K cp1 (set_data (bytes m) skb1) ev1 eq_refl).
    intros L. discriminate L.
  - apply (K cp skb1 [] eq_refl). intros _. reflexivity.
Qed.

(** The egress handler, buffer writable, flow without helper, for a
    segment that the SYN-proxy hook does not drop: the segment is kept
    and leaves with its acknowledgement number lowered by the flow's
    delta.  The handler has no result only when an option walk accesses a
    byte outside the buffer. *)
Lemma tcp_fnat_out_handler_ack_seq_exact cfg skb cp :
  (forall th bs c,
      ack_seq (fst (snd (ip_vs_synproxy_snat_handler th bs c))) = ack_seq th) ->
  app cp = None ->
  (forall bs c,
      let answer :=
        ip_vs_synproxy_snat_handler
          (set_dest (cport cp) (set_source (vport cp) (tcp_hdr skb))) bs c in
      fst answer <> 0 /\ length (snd (snd answer)) = length bs) ->
  match tcp_fnat_out_handler cfg skb cp true with
  | Ok (r, cp', skb', _) =>
    r = 1
    /\ ack_seq (tcp_hdr skb')
       = u32 (ack_seq (tcp_hdr skb) - delta (fnat_seq cp))
  | Fault t => left_buffer (length (data skb)) t
  | Fuel => False
  end.
Proof.
  intros Hsnat Happ Hhook. cbv zeta in Hhook.
  unfold tcp_fnat_out_handler, app_stage. rewrite Happ. cbn [negb].
  set (cp1 := tcp_save_out_seq cfg skb cp (tcp_hdr skb) _).
  assert (F1 : fnat_seq cp1 = fnat_seq cp
               /\ cport cp1 = cport cp /\ vport cp1 = vport cp).
  { unfold cp1, tcp_save_out_seq.
    destruct (_ && _); [ destruct (_ && _) | ]; repeat split; reflexivity. }
  destruct F1 as (F1 & Pc & Pv).
  set (skb1 := set_th (set_dest (cport cp1) (set_source (vport cp1) (tcp_hdr skb))) skb).
  assert (Eth : tcp_hdr skb1
                = set_dest (cport cp) (set_source (vport cp) (tcp_hdr skb))).
  { unfold skb1. cbn [tcp_hdr set_th]. rewrite Pc, Pv. reflexivity. }
  assert (K2 : forall m,
             length (bytes m) = length (data skb) ->
             match
               match tcp_out_adjust_seq cp1 (tcp_hdr skb1) m with
               | Ok (r, tcph, m0) =>
                 let skb2 := set_data (bytes m0) (set_th tcph skb1) in
                 if r =? 0 then @Ok handled (0, cp1, skb2, [])
                 else Ok (1, cp1,
                          full_csum (af cp1) (vaddr cp1) (caddr cp1)
                            (conn_protocol cp1)
                            (if af cp =? AF_INET6 then sizeof_ipv6hdr
                             else ip_hdrlen skb) skb2, [])
               | Fault t => Fault t
               | Fuel => Fuel
               end
             with
             | Ok (r, cp', skb', _) =>
               r = 1
               /\ ack_seq (tcp_hdr skb')
                  = u32 (ack_seq (tcp_hdr skb) - delta (fnat_seq cp))
             | Fault t => left_buffer (length (data skb)) t
             | Fuel => False
             end).
  { intros m Hm.
    pose proof (tcp_out_adjust_seq_by_answer cp1 (tcp_hdr skb1) m) as R.
    cbv zeta in R.
    specialize (Hhook (bytes m) cp1). rewrite <- Eth in Hhook.
    destruct Hhook as [Hne Hlen].
    specialize (Hsnat (tcp_hdr skb1) (bytes m) cp1).
    destruct (tcp_out_adjust_seq cp1 (tcp_hdr skb1) m)
      as [[[r tcph] m0] | t |].
    - destruct R as [_ R]. apply Z.eqb_neq in Hne. rewrite Hne in R.
      destruct R as [Er Et]. subst r. cbv zeta. cbn [Z.eqb].
      split; [ reflexivity | ].
      rewrite (proj2 (full_csum_seq _ _ _ _ _ _)).
      cbn [tcp_hdr set_data set_th]. rewrite Et. cbn [ack_seq set_ack_seq].
      rewrite Hsnat, F1. reflexivity.
    - destruct R as [_ R]. rewrite Hlen, Hm in R. exact R.
    - exact R. }
  destruct (syn (tcp_hdr skb1) && ack (tcp_hdr skb1)).
  - pose proof (tcp_opt_adjust_mss_terminates cfg (tcp_hdr skb1)
                  (mk_optmem (data skb1) [])) as T.
    pose proof (faults_outside_tcp_opt_adjust_mss cfg (tcp_hdr skb1)
                  (mk_optmem (data skb1) [])) as FO.
    unfold run.
    destruct (tcp_opt_adjust_mss cfg (tcp_hdr skb1) (mk_optmem (data skb1) []))
      as [[u m] | t |]; [ apply K2; exact FO | exact FO | apply T; reflexivity ].
  - apply K2. reflexivity.
Qed.

End HandlerFacts.

(* ===================================================================== *)
(** ** Sequence linearity                                                 *)
(* ===================================================================== *)

(** C6: on ingress the sequence number leaves [tcp_in_adjust_seq] as the
    incoming one plus the flow's FullNAT delta, modulo 2^32.  On egress
    [tcp_out_adjust_seq] returns 0 when the SYN-proxy hook answers 0 (a
    drop) and otherwise returns 1 with the acknowledgement number the
    incoming one minus the delta, modulo 2^32.  The same holds of whole
    segments through the two handlers, for a writable buffer and a flow
    without helper: an ingress segment is kept and leaves with its
    sequence number raised by the delta the flow has after it (for a SYN
    without ACK the delta just initialised, for any other segment the
    delta the flow had), and an egress segment that the hook does not drop
    is kept and leaves with its acknowledgement number lowered by the
    delta.  None of the functions runs on without end, and one has no
    result only when an option walk accesses a byte outside the buffer.
    The two SYN-proxy hooks are not part of this file; what is assumed of
    them is that the ingress hook leaves [seq] alone and the egress hook
    leaves [ack_seq] alone, and for the egress handler that the hook hands
    on as many bytes as it was given. *)
Theorem C6_sequence_linearity `{Framework} :
  (forall th bs s,
      seq (fst (ip_vs_synproxy_dnat_handler th bs s)) = seq th) ->
  (forall th bs cp,
      ack_seq (fst (snd (ip_vs_synproxy_snat_handler th bs cp))) = ack_seq th) ->
  forall (cfg : sysctl) (cp : ip_vs_conn) (skb : sk_buff),
    (forall tcph bs,
        seq (fst (tcp_in_adjust_seq cp tcph bs))
        = u32 (seq tcph + delta (fnat_seq cp)))
    /\ (forall tcph bs,
          let answer := ip_vs_synproxy_snat_handler tcph bs cp in
          match run (tcp_out_adjust_seq cp tcph) bs with
          | Ok ((r, tcph'), _) =>
            if fst answer =? 0 then r = 0
            else r = 1
                 /\ ack_seq tcph' = u32 (ack_seq tcph - delta (fnat_seq cp))
          | Fault t =>
            fst answer <> 0 /\ left_buffer (length (snd (snd answer))) t
          | Fuel => False
          end)
    /\ (app cp = None -> forall o, writable o = true ->
          match tcp_fnat_in_handler cfg skb cp o with
          | Ok (r, cp', skb', _) =>
            r = 1
            /\ seq (tcp_hdr skb')
               = u32 (seq (tcp_hdr skb) + delta (fnat_seq cp'))
            /\ (syn (tcp_hdr skb) && negb (ack (tcp_hdr skb)) = false ->
                fnat_seq cp' = fnat_seq cp)
          | Fault t =>
            syn (tcp_hdr skb) && negb (ack (tcp_hdr skb)) = true
            /\ left_buffer (length (data skb)) t
          | Fuel => False
          end)
    /\ (app cp = None ->
        (forall bs c,
            let answer :=
              ip_vs_synproxy_snat_handler
                (set_dest (cport cp) (set_source (vport cp) (tcp_hdr skb)))
                bs c in
            fst answer <> 0 /\ length (snd (snd answer)) = length bs) ->
        match tcp_fnat_out_handler cfg skb cp true with
        | Ok (r, cp', skb', _) =>
          r = 1
          /\ ack_seq (tcp_hdr skb')
             = u32 (ack_seq (tcp_hdr skb) - delta (fnat_seq cp))
        | Fault t => left_buffer (length (data skb)) t
        | Fuel => False
        end).
Proof.
  intros Hdnat Hsnat cfg cp skb.
  split; [ | split; [ | split ] ].
  - intros tcph bs. unfold tcp_in_adjust_seq. rewrite Hdnat. reflexivity.
  - intros tcph bs. cbv zeta.
    pose proof (tcp_out_adjust_seq_by_answer cp tcph (mk_optmem bs [])) as R.
    cbv zeta in R. cbn [bytes] in R. unfold run.
    specialize (Hsnat tcph bs cp).
    destruct (tcp_out_adjust_seq cp tcph (mk_optmem bs []))
      as [[[r tcph'] m'] | t |]; [ | exact R | exact R ].
    destruct R as [_ R].
    destruct (fst (ip_vs_synproxy_snat_handler tcph bs cp) =? 0).
    + apply R.
    + destruct R as [Er Et]. split; [ exact Er | ].
      rewrite Et. cbn [ack_seq set_ack_seq]. rewrite Hsnat. reflexivity.
  - intros Happ o Hw. apply tcp_fnat_in_handler_seq_exact; assumption.
  - intros Happ Hhook. apply tcp_fnat_out_handler_ack_seq_exact; assumption.
Qed.

(** A SYN with sequence number 100 on a fresh FullNAT flow is kept and
    leaves the ingress handler with sequence number 1000, the [init_seq]
    drawn for the flow, and the flow with delta 900.  An acknowledgement
    of 1001 from the backend, carrying NOP, NOP and one SACK block in
    front of 12 bytes of payload, is kept and leaves the egress handler
    with acknowledgement number 101. *)
Lemma C6_sequence_linearity_witness :
  (exists cp' skb' ev,
      tcp_fnat_in_handler (H := plain_framework) all_on
        (skb4 (hdr 100 0 5 false true false false) [])
        (flow4 0x0005 IP_VS_TCP_S_NONE (mk_seq 0 0 0))
        (mk_in_oracle true true)
      = Ok (1, cp', skb', ev)
      /\ seq (tcp_hdr skb') = u32 (100 + delta (fnat_seq cp'))
      /\ delta (fnat_seq cp') = 900)
  /\ (exists cp' skb' ev,
        tcp_fnat_out_handler (H := plain_framework) all_on
          (skb4 (hdr 900 1001 8 false false false true)
             [1; 1; 5; 10; 0; 0; 0; 100; 0; 0; 0; 200;
              0; 0; 0; 0; 0; 0; 0; 0; 0; 0; 1; 44])
          (established 900) true
        = Ok (1, cp', skb', ev)
        /\ ack_seq (tcp_hdr skb') = u32 (1001 - 900)).
Proof.
  split.
  - pose proof (C6_sequence_linearity (H := plain_framework)
                  ltac:(intros; reflexivity) ltac:(intros; reflexivity)
                  all_on (flow4 0x0005 IP_VS_TCP_S_NONE (mk_seq 0 0 0))
                  (skb4 (hdr 100 0 5 false true false false) []))
      as (_ & _ & W & _).
    specialize (W eq_refl (mk_in_oracle true true) eq_refl).
    destruct (tcp_fnat_in_handler (H := plain_framework) all_on
                (skb4 (hdr 100 0 5 false true false false) [])
                (flow4 0x0005 IP_VS_TCP_S_NONE (mk_seq 0 0 0))
                (mk_in_oracle true true))
      as [[[[r cp'] skb'] ev] | t |] eqn:E.
    + destruct W as (Er & Es & _). subst r.
      exists cp', skb', ev. split; [ reflexivity | split; [ exact Es | ] ].
      vm_compute in E. injection E as <- _ _. reflexivity.
    + vm_compute in E. discriminate E.
    + vm_compute in E. discriminate E.
  - pose proof (C6_sequence_linearity (H := plain_framework)
                  ltac:(intros; reflexivity) ltac:(intros; reflexivity)
                  all_on (established 900)
                  (skb4 (hdr 900 1001 8 false false false true)
                     [1; 1; 5; 10; 0; 0; 0; 100; 0; 0; 0; 200;
                      0; 0; 0; 0; 0; 0; 0; 0; 0; 0; 1; 44]))
      as (_ & _ & _ & W).
    specialize (W eq_refl
                  ltac:(intros bs c; split; [ discriminate | reflexivity ])).
    destruct (tcp_fnat_out_handler (H := plain_framework) all_on
                (skb4 (hdr 900 1001 8 false false false true)
                   [1; 1; 5; 10; 0; 0; 0; 100; 0; 0; 0; 200;
                    0; 0; 0; 0; 0; 0; 0; 0; 0; 0; 1; 44])
                (established 900) true)
      as [[[[r cp'] skb'] ev] | t |] eqn:E.
    + destruct W as (Er & Ea). subst r.
      exists cp', skb', ev. split; [ reflexivity | exact Ea ].
    + vm_compute in E. discriminate E.
    + vm_compute in E. discriminate E.
Defined.

(* ===================================================================== *)
(** ** Option walkers on concrete option areas                            *)
(* ===================================================================== *)

(** C1 does not hold of the code.  An ACK carries NOP, NOP and one SACK
    block [100, 200] (12 bytes of options) in front of 12 bytes of payload;
    the flow's delta is 1.  The left edge leaves as 99, the right edge
    leaves as 200 and not as 199, and the last four bytes of the payload,
    16 bytes further on, are decremented instead: the loop steps a
    [__u32 *] by [i], so it changes every fourth word. *)
Lemma C1_sack_right_edge_not_rewritten :
  let opts := [1; 1; 5; 10; 0; 0; 0; 100; 0; 0; 0; 200] in
  let payload := [11; 12; 13; 14; 15; 16; 17; 18; 0; 0; 1; 44] in
  run (tcp_out_adjust_seq (H := plain_framework) (established 1)
         (hdr 900 1001 8 false false false true)) (opts ++ payload)
  = Ok ((1, hdr 900 1000 8 false false false true),
        mk_optmem
          ([1; 1; 5; 10; 0; 0; 0; 99; 0; 0; 0; 200]
           ++ [11; 12; 13; 14; 15; 16; 17; 18; 0; 0; 1; 43])
          [Rd 0; Rd 1; Rd 2; Rd 3;
           Rd 4; Rd 5; Rd 6; Rd 7; Wr 4; Wr 5; Wr 6; Wr 7;
           Rd 20; Rd 21; Rd 22; Rd 23; Wr 20; Wr 21; Wr 22; Wr 23])
  /\ u32 (200 - 1) <> 200.
Proof.
  cbv zeta. split; [ vm_compute; reflexivity | vm_compute; discriminate ].
Qed.

(** C4 does not hold of the code.  With four bytes of options, three NOPs
    and then a kind byte that is neither EOL nor NOP, each walker reads the
    size byte at offset 4, one past the option area; when nothing follows
    the options in the buffer that read is outside the buffer.  The SACK
    rewrite also goes 16 bytes beyond the edge it rewrites: with 12 bytes
    of options, NOP, NOP and one SACK block, it touches offsets 20 to 23. *)
Lemma C4_walkers_read_past_the_option_area :
  let L := 4 in
  let opts := [1; 1; 1; 8] in
  touched (run (tcp_opt_adjust_mss all_on (synack_with_options L))
             (opts ++ [77]))
  = [0; 1; 2; 3; 4]
  /\ touched (run (tcp_opt_remove_timestamp all_on (synack_with_options L))
                (opts ++ [77]))
     = [0; 1; 2; 3; 4]
  /\ touched (run (tcp_out_adjust_seq (H := plain_framework) (established 1)
                     (synack_with_options L)) (opts ++ [77]))
     = [0; 1; 2; 3; 4]
  /\ run (tcp_opt_adjust_mss all_on (synack_with_options L)) opts
     = Fault [Rd 0; Rd 1; Rd 2; Rd 3; Rd 4]
  /\ run (tcp_opt_remove_timestamp all_on (synack_with_options L)) opts
     = Fault [Rd 0; Rd 1; Rd 2; Rd 3; Rd 4]
  /\ run (tcp_out_adjust_seq (H := plain_framework) (established 1)
            (synack_with_options L)) opts
     = Fault [Rd 0; Rd 1; Rd 2; Rd 3; Rd 4]
  /\ touched (run (tcp_out_adjust_seq (H := plain_framework) (established 1)
                     (synack_with_options 12))
                [1; 1; 5; 10; 0; 0; 0; 100; 0; 0; 0; 200])
     = [0; 1; 2; 3; 4; 5; 6; 7; 4; 5; 6; 7; 20].
Proof.
  cbv zeta. repeat split; vm_compute; reflexivity.
Qed.

(* ===================================================================== *)
(** ** Scheduling gate                                                    *)
(* ===================================================================== *)

(** Close a goal from a membership [H] in a list of calls that has no
    call of the kind looked for. *)
Ltac not_called H :=
  simpl in H;
  repeat match type of H with
         | _ \/ _ => destruct H as [H | H]
         | False => contradiction
         | _ = _ => discriminate H
         end.

(** C9: take an ingress packet whose TCP header can be read and that the
    SYN-proxy ACK hook does not claim (it returns non-zero).  If the gate
    hands the packet to the scheduler then the segment is a pure SYN, a
    virtual service matches it, the balancer is not overloaded, and the
    flow the caller gets is the one the scheduler made.  If the segment is
    not a pure SYN, or no service matches, the scheduler is not called and
    the caller's flow pointer is as the hook left it. *)
Theorem C9_flow_created_only_for_pure_syn_on_service `{Framework}
    (cfg : sysctl) (af : Z) (skb : sk_buff) (verdict : Z)
    (cpp : option ip_vs_conn) :
  sizeof_tcphdr
  <= len skb - (if af =? AF_INET6 then sizeof_ipv6hdr else ip_hdrlen skb) ->
  fst (fst (ip_vs_synproxy_ack_rcv af skb cpp verdict)) <> 0 ->
  let r := tcp_conn_schedule cfg af skb verdict cpp in
  (forall s c, In (Schedule s c) (sched_calls r) ->
     pure_syn (tcp_hdr skb) = true
     /\ matching_service af skb = Some s
     /\ ip_vs_todrop = false
     /\ c = ip_vs_schedule s skb 0
     /\ sched_cpp r = c)
  /\ (pure_syn (tcp_hdr skb) = false \/ matching_service af skb = None ->
      (forall s c, ~ In (Schedule s c) (sched_calls r))
      /\ sched_cpp r = snd (fst (ip_vs_synproxy_ack_rcv af skb cpp verdict))).
Proof.
  intros Hlen Hhook. cbv zeta.
  unfold tcp_conn_schedule, matching_service, pure_syn.
  destruct (Z.ltb_spec
              (len skb - (if af =? AF_INET6 then sizeof_ipv6hdr else ip_hdrlen skb))
              sizeof_tcphdr) as [L | _]; [ lia | ].
  destruct (ip_vs_synproxy_ack_rcv af skb cpp verdict) as [[r c'] v'].
  simpl in Hhook. apply Z.eqb_neq in Hhook. rewrite Hhook. simpl.
  destruct (syn (tcp_hdr skb) && negb (ack (tcp_hdr skb))
            && negb (fin (tcp_hdr skb)) && negb (rst (tcp_hdr skb))) eqn:P.
  - destruct (ip_vs_service_get af (mark skb) (protocol (iph skb))
                (daddr (iph skb)) (dest (tcp_hdr skb))) as [s |] eqn:S.
    + destruct ip_vs_todrop eqn:T.
      * split.
        -- simpl. intros s0 c [E | [E | []]]; discriminate E.
        -- intros [E | E]; discriminate E.
      * destruct (ip_vs_schedule s skb 0) as [c |] eqn:C; simpl; split.
        -- intros s0 c0 [E | [E | [E | []]]]; try discriminate E.
           inversion E; subst. rewrite C. repeat split; reflexivity.
        -- intros [E | E]; discriminate E.
        -- intros s0 c0 [E | [E | [E | []]]]; try discriminate E.
           inversion E; subst. rewrite C. repeat split; reflexivity.
        -- intros [E | E]; discriminate E.
    + destruct (negb (sysctl_ip_vs_tcp_drop_entry cfg =? 0));
        [ destruct (ip_vs_lookup_vip af (protocol (iph skb)) (daddr (iph skb))) | ];
        simpl; (split; [ intros s c Hin; not_called Hin
                       | intros _; split; [ intros s c Hin; not_called Hin
                                          | reflexivity ] ]).
  - destruct (negb (sysctl_ip_vs_tcp_drop_entry cfg =? 0));
      [ destruct (ip_vs_lookup_vip af (protocol (iph skb)) (daddr (iph skb))) | ];
      simpl; (split; [ intros s c Hin; not_called Hin
                     | intros _; split; [ intros s c Hin; not_called Hin
                                        | reflexivity ] ]).
Qed.

(** A pure SYN to the service is scheduled; the caller gets the new flow. *)
Lemma C9_flow_created_only_for_pure_syn_on_service_witness :
  let skb := skb4 (hdr 100 0 5 false true false false) [] in
  let r := tcp_conn_schedule (H := serving_framework) all_on AF_INET skb
             NF_ACCEPT None in
  sched_calls r
  = [Service_get (Some 7);
     Schedule 7 (Some (flow4 0x0005 IP_VS_TCP_S_NONE (mk_seq 0 0 0)));
     Service_put 7]
  /\ (pure_syn (tcp_hdr skb) = true
      /\ matching_service (H := serving_framework) AF_INET skb = Some 7
      /\ ip_vs_todrop (Framework := serving_framework) = false
      /\ Some (flow4 0x0005 IP_VS_TCP_S_NONE (mk_seq 0 0 0))
         = ip_vs_schedule (Framework := serving_framework) 7 skb 0
      /\ sched_cpp r = Some (flow4 0x0005 IP_VS_TCP_S_NONE (mk_seq 0 0 0))).
Proof.
  cbv zeta. split; [ reflexivity | ].
  apply (proj1 (C9_flow_created_only_for_pure_syn_on_service
                  (H := serving_framework) all_on AF_INET
                  (skb4 (hdr 100 0 5 false true false false) [])
                  NF_ACCEPT None
                  ltac:(vm_compute; discriminate)
                  ltac:(vm_compute; discriminate)) 7).
  vm_compute. right. left. reflexivity.
Defined.

(* ===================================================================== *)
(** ** Application helpers: one per port                                  *)
(* ===================================================================== *)

Lemma tcp_app_hashkey_range p : 0 <= tcp_app_hashkey p < 16.
Proof.
  unfold tcp_app_hashkey, TCP_APP_TAB_MASK, TCP_APP_TAB_SIZE, TCP_APP_TAB_BITS.
  change (Z.shiftl 1 4 - 1) with (Z.ones 4).
  rewrite Z.land_ones by lia. apply Z.mod_pos_bound. reflexivity.
Qed.

Lemma nth_set_bucket n b l k :
  (n < length l)%nat ->
  nth k (set_bucket n b l) [] = if Nat.eqb k n then b else nth k l [].
Proof.
  revert n k. induction l as [| h t IH]; intros n k Hn; simpl in Hn.
  - lia.
  - destruct n as [| n]; destruct k as [| k]; simpl; try reflexivity.
    apply IH. lia.
Qed.

Lemma length_set_bucket n b l : length (set_bucket n b l) = length l.
Proof.
  revert n. induction l as [| h t IH]; intros n.
  - destruct n; reflexivity.
  - destruct n; simpl; [ reflexivity | rewrite IH; reflexivity ].
Qed.

Lemma filter_concat_set_bucket (f : ip_vs_app -> bool) x l n :
  (n < length l)%nat ->
  length (filter f (concat (set_bucket n (x :: nth n l []) l)))
  = (length (filter f (concat l)) + (if f x then 1 else 0))%nat.
Proof.
  revert n. induction l as [| h t IH]; intros n Hn; simpl in Hn.
  - lia.
  - destruct n as [| n]; simpl.
    + destruct (f x); simpl; lia.
    + rewrite !filter_app, !length_app, IH by lia. lia.
Qed.

Lemma filter_none {A} (f : A -> bool) l :
  (forall a, In a l -> f a = false) -> filter f l = [].
Proof.
  induction l as [| h t IH]; intros Hf; simpl.
  - reflexivity.
  - rewrite (Hf h) by (left; reflexivity). apply IH.
    intros a Ha. apply Hf. right. exact Ha.
Qed.

Lemma filter_concat_map_le (f g : ip_vs_app -> bool) l :
  (length (filter f (concat (map (filter g) l)))
   <= length (filter f (concat l)))%nat.
Proof.
  induction l as [| h t IH]; simpl.
  - lia.
  - rewrite !filter_app, !length_app.
    assert (length (filter f (filter g h)) <= length (filter f h))%nat.
    { clear. induction h as [| a h IH]; simpl; [ lia | ].
      destruct (g a); simpl; destruct (f a); simpl; lia. }
    lia.
Qed.

(** A helper of the table is in the bucket its port hashes to. *)
Lemma in_table_in_bucket t a :
  placed (tcp_apps t) -> In a (concat (tcp_apps t)) ->
  In a (bucket t (tcp_app_hashkey (app_port a))).
Proof.
  intros Hp Ha. apply in_concat in Ha. destruct Ha as [b [Hb Hab]].
  destruct (In_nth _ _ [] Hb) as [n [Hn E]].
  unfold bucket. rewrite <- E in Hab.
  rewrite (Hp n a Hab), Nat2Z.id. exact Hab.
Qed.

Lemma table_inv_init : table_inv ip_vs_tcp_init.
Proof.
  repeat split.
  - intros n a. simpl.
    do 16 (destruct n as [| n]; [ intros [] | ]). destruct n; intros [].
  - intros p. vm_compute. lia.
Qed.

Lemma table_inv_register t inc :
  table_inv t -> table_inv (snd (tcp_register_app t inc)).
Proof.
  intros (Hlen & Hpl & Hone). unfold tcp_register_app.
  destruct (existsb _ _) eqn:E; simpl; [ repeat split; assumption | ].
  pose proof (tcp_app_hashkey_range (app_port inc)) as Hr.
  assert (Hn : (Z.to_nat (tcp_app_hashkey (app_port inc))
                < length (tcp_apps t))%nat) by lia.
  repeat split; simpl.
  - rewrite length_set_bucket. exact Hlen.
  - intros n a. rewrite nth_set_bucket by exact Hn.
    destruct (Nat.eqb_spec n (Z.to_nat (tcp_app_hashkey (app_port inc))))
      as [-> | Hne].
    + intros [<- | Ha]; [ lia | ]. apply Hpl. exact Ha.
    + apply Hpl.
  - intros p. unfold helpers_on. simpl. unfold bucket.
    rewrite filter_concat_set_bucket by exact Hn.
    destruct (Z.eqb_spec (app_port inc) p) as [<- | Hne];
      [ | specialize (Hone p); unfold helpers_on in Hone; lia ].
    rewrite filter_none; [ simpl; lia | ].
    intros a Ha. apply Z.eqb_neq. intros Heq.
    pose proof (in_table_in_bucket t a Hpl Ha) as Hb. rewrite Heq in Hb.
    assert (X : existsb (fun i => app_port i =? app_port inc)
                  (bucket t (tcp_app_hashkey (app_port inc))) = true).
    { apply existsb_exists. exists a. split; [ exact Hb | ].
      apply Z.eqb_eq. exact Heq. }
    congruence.
Qed.

Lemma table_inv_unregister t inc :
  table_inv t -> table_inv (tcp_unregister_app t inc).
Proof.
  intros (Hlen & Hpl & Hone). unfold tcp_unregister_app.
  repeat split; simpl.
  - rewrite length_map. exact Hlen.
  - intros n a Ha.
    change (@nil ip_vs_app)
      with (filter (fun i => negb (app_ptr i =? app_ptr inc)) []) in Ha.
    rewrite map_nth in Ha. apply filter_In in Ha. apply Hpl. apply Ha.
  - intros p. unfold helpers_on. simpl.
    eapply Nat.le_trans; [ apply filter_concat_map_le | apply Hone ].
Qed.

Lemma reachable_inv t : reachable t -> table_inv t.
Proof.
  induction 1.
  - apply table_inv_init.
  - apply table_inv_register. assumption.
  - apply table_inv_unregister. assumption.
Qed.

(** C10: when the port of [inc] already has a helper in the table,
    [tcp_register_app] returns [-EEXIST] and hands back the table and the
    count as they were; and in every table that registrations and
    unregistrations can produce there is at most one helper on any port. *)
Theorem C10_register_refuses_second_helper_on_port
    (t : app_table) (inc : ip_vs_app) :
  reachable t ->
  (exists a, In a (concat (tcp_apps t)) /\ app_port a = app_port inc) ->
  tcp_register_app t inc = (- EEXIST, t)
  /\ (forall p, (length (helpers_on p t) <= 1)%nat)
  /\ (forall p, (length (helpers_on p (snd (tcp_register_app t inc))) <= 1)%nat).
Proof.
  intros Hr [a [Ha Hp]].
  pose proof (reachable_inv t Hr) as (Hlen & Hpl & Hone).
  assert (E : tcp_register_app t inc = (- EEXIST, t)).
  { unfold tcp_register_app.
    assert (X : existsb (fun i => app_port i =? app_port inc)
                  (bucket t (tcp_app_hashkey (app_port inc))) = true).
    { apply existsb_exists. exists a. split.
      - rewrite <- Hp. apply in_table_in_bucket; assumption.
      - apply Z.eqb_eq. exact Hp. }
    rewrite X. reflexivity. }
  split; [ exact E | ]. split; [ exact Hone | ].
  rewrite E. exact Hone.
Qed.

(** A helper on port 21 is registered; a second one on port 21 is refused. *)
Lemma C10_register_refuses_second_helper_on_port_witness :
  let t := snd (tcp_register_app ip_vs_tcp_init (mk_app 1 21)) in
  tcp_register_app t (mk_app 2 21) = (- EEXIST, t)
  /\ (forall p, (length (helpers_on p t) <= 1)%nat)
  /\ (forall p,
        (length (helpers_on p (snd (tcp_register_app t (mk_app 2 21)))) <= 1)%nat).
Proof.
  cbv zeta.
  apply (C10_register_refuses_second_helper_on_port
           (snd (tcp_register_app ip_vs_tcp_init (mk_app 1 21))) (mk_app 2 21)).
  - apply reach_register. apply reach_init.
  - exists (mk_app 1 21). split; [ vm_compute; tauto | reflexivity ].
Defined.

(* ===================================================================== *)
(** ** The client-address option                                          *)
(* ===================================================================== *)

Section ToaFacts.
Context `{Framework}.

Lemma tcp_opt_add_toa_appends cp skb ok :
  toa_fits cp skb ok = true ->
  tcp_opt_add_toa cp skb ok
  = (cp,
     mk_skb
       (ip_send_check
          (set_tot_len (u16 (tot_len (iph skb) + sizeof_ip_vs_tcpo_addr))
             (iph skb)))
       (set_doff ((doff (tcp_hdr skb) + 2) mod 16) (tcp_hdr skb))
       (toa_option cp ++ data skb)
       (len skb + sizeof_ip_vs_tcpo_addr)
       (ip_summed skb) (csum skb) (mark skb) (dst_mtu skb),
     [FULLNAT_ADD_TOA_OK]).
Proof.
  unfold toa_fits, tcp_opt_add_toa. intros F.
  apply andb_prop in F. destruct F as [F Hok].
  apply andb_prop in F. destruct F as [F Hlen].
  apply andb_prop in F. destruct F as [Haf Hafter].
  rewrite Haf, Hok. simpl.
  apply negb_true_iff in Hafter. rewrite Hafter.
  apply Z.leb_le in Hlen.
  destruct (Z.gtb_spec (len skb) (u64 (u32 (dst_mtu skb) - sizeof_ip_vs_tcpo_addr)));
    [ lia | reflexivity ].
Qed.

(** When one of its checks fails, [tcp_opt_add_toa] hands the buffer back
    as it came and does not count an append; it sets the flag when the
    failed check is the one on the sequence number. *)
Lemma tcp_opt_add_toa_declines cp skb ok :
  toa_fits cp skb ok = false ->
  exists ev,
    tcp_opt_add_toa cp skb ok
    = (if (af cp =? AF_INET)
          && after (seq (tcp_hdr skb)) (fdata_seq (fnat_seq cp))
       then set_flags (Z.lor (flags cp) IP_VS_CONN_F_CIP_INSERTED) cp
       else cp,
       skb, ev)
    /\ ~ In FULLNAT_ADD_TOA_OK ev.
Proof.
  unfold toa_fits, tcp_opt_add_toa. intros F.
  destruct (af cp =? AF_INET); cbn [negb andb] in *;
    [ | eexists; split; [ reflexivity | intros [D | []]; discriminate D ] ].
  destruct (after _ _); cbn [negb andb] in *;
    [ eexists; split; [ reflexivity | intros [] ] | ].
  destruct (Z.gtb_spec (len skb) (u64 (u32 (dst_mtu skb) - sizeof_ip_vs_tcpo_addr)));
    [ eexists; split; [ reflexivity | intros [D | []]; discriminate D ] | ].
  destruct (Z.leb_spec (len skb) (u64 (u32 (dst_mtu skb) - sizeof_ip_vs_tcpo_addr)));
    [ | lia ].
  cbn [andb] in F. rewrite F. cbn [negb].
  eexists; split; [ reflexivity | intros [D | []]; discriminate D ].
Qed.

Lemma tcp_in_init_seq_counts_no_append cfg cp tcph :
  ~ In FULLNAT_ADD_TOA_OK (snd (tcp_in_init_seq cfg cp tcph)).
Proof.
  unfold tcp_in_init_seq.
  destruct (_ || _); cbn [snd]; [ | intros [] ].
  match goal with |- ~ In _ (if ?c then _ else _) => destruct c end;
    [ | intros [] ].
  unfold reused_category. cbn [old_state set_flags].
  destruct (old_state cp); cbn [In];
    intros D; repeat (destruct D as [D | D]; try discriminate D); exact D.
Qed.

Lemma tcp_in_init_seq_toa_option cfg cp tcph :
  toa_option (fst (tcp_in_init_seq cfg cp tcph)) = toa_option cp
  /\ af (fst (tcp_in_init_seq cfg cp tcph)) = af cp.
Proof.
  unfold tcp_in_init_seq. destruct (_ || _); split; reflexivity.
Qed.

(** What [tcp_fnat_in_handler] does about the option, for every segment
    on a writable buffer and a flow without helper. *)
Lemma tcp_fnat_in_handler_toa cfg skb cp o :
  app cp = None -> writable o = true ->
  let th := tcp_hdr skb in
  let cp1 := flow_at_toa cfg cp th in
  match tcp_fnat_in_handler cfg skb cp o with
  | Ok (r, cp', skb', ev) =>
    r = 1
    /\ if toa_tried cfg cp1 th && toa_fits cp1 skb (copy_ok o)
       then cp' = cp1
            /\ In FULLNAT_ADD_TOA_OK ev
            /\ len skb' = len skb + sizeof_ip_vs_tcpo_addr
            /\ tot_len (iph skb')
               = u16 (tot_len (iph skb) + sizeof_ip_vs_tcpo_addr)
            /\ ((forall h bs s, snd (ip_vs_synproxy_dnat_handler h bs s) = bs) ->
                exists d,
                  data skb' = toa_option cp ++ d
                  /\ length d = length (data skb)
                  /\ (later_segment (skb, o) -> d = data skb))
       else cp' = (if toa_tried cfg cp1 th
                      && (af cp =? AF_INET)
                      && after (seq th) (fdata_seq (fnat_seq cp1))
                   then set_flags
                          (Z.lor (flags cp1) IP_VS_CONN_F_CIP_INSERTED) cp1
                   else cp1)
            /\ ~ In FULLNAT_ADD_TOA_OK ev
            /\ len skb' = len skb
            /\ tot_len (iph skb') = tot_len (iph skb)
            /\ ((forall h bs s, snd (ip_vs_synproxy_dnat_handler h bs s) = bs) ->
                length (data skb') = length (data skb)
                /\ (later_segment (skb, o) -> data skb' = data skb))
  | Fault t =>
    syn th && negb (ack th) = true /\ left_buffer (length (data skb)) t
  | Fuel => False
  end.
Proof.
  intros Happ Hw. cbv zeta. unfold tcp_fnat_in_handler, app_stage.
  rewrite Happ, Hw. cbn [negb].
  set (skb1 := set_th (set_dest (dport cp) (set_source (lport cp) (tcp_hdr skb))) skb).
  assert (K : forall cpx skb2 ev1,
             tcp_hdr skb2 = tcp_hdr skb1 -> iph skb2 = iph skb ->
             len skb2 = len skb -> dst_mtu skb2 = dst_mtu skb ->
             length (data skb2) = length (data skb) ->
             (later_segment (skb, o) -> data skb2 = data skb) ->
             ~ In FULLNAT_ADD_TOA_OK ev1 ->
             toa_option cpx = toa_option cp -> af cpx = af cp ->
             match
               (let '(cp2, skb3, ev2) :=
                  if (sysctl_ip_vs_toa_entry cfg =? 1)
                     && (Z.land (flags cpx) IP_VS_CONN_F_CIP_INSERTED =? 0)
                     && negb (rst (tcp_hdr skb2)) && negb (fin (tcp_hdr skb2))
                  then tcp_opt_add_toa cpx skb2 (copy_ok o)
                  else (cpx, skb2, []) in
                let '(tcph, bs) :=
                  tcp_in_adjust_seq cp2 (tcp_hdr skb3) (data skb3) in
                let skb4 := set_data bs (set_th tcph skb3) in
                let skb5 := full_csum (af cp2) (laddr cp2) (daddr_rs cp2)
                              (conn_protocol cp2)
                              (if af cp =? AF_INET6 then sizeof_ipv6hdr
                               else ip_hdrlen skb) skb4 in
                let skb6 := set_ip_summed CHECKSUM_UNNECESSARY skb5 in
                @Ok handled (1, cp2, skb6, ev1 ++ ev2))
             with
             | Ok (r, cp', skb', ev) =>
               r = 1
               /\ if toa_tried cfg cpx (tcp_hdr skb)
                     && toa_fits cpx skb (copy_ok o)
                  then cp' = cpx
                       /\ In FULLNAT_ADD_TOA_OK ev
                       /\ len skb' = len skb + sizeof_ip_vs_tcpo_addr
                       /\ tot_len (iph skb')
                          = u16 (tot_len (iph skb) + sizeof_ip_vs_tcpo_addr)
                       /\ ((forall h bs s,
                               snd (ip_vs_synproxy_dnat_handler h bs s) = bs) ->
                           exists d,
                             data skb' = toa_option cp ++ d
                             /\ length d = length (data skb)
                             /\ (later_segment (skb, o) -> d = data skb))
                  else cp' = (if toa_tried cfg cpx (tcp_hdr skb)
                                 && (af cp =? AF_INET)
                                 && after (seq (tcp_hdr skb))
                                      (fdata_seq (fnat_seq cpx))
                              then set_flags
                                     (Z.lor (flags cpx)
                                        IP_VS_CONN_F_CIP_INSERTED) cpx
                              else cpx)
                       /\ ~ In FULLNAT_ADD_TOA_OK ev
                       /\ len skb' = len skb
                       /\ tot_len (iph skb') = tot_len (iph skb)
                       /\ ((forall h bs s,
                               snd (ip_vs_synproxy_dnat_handler h bs s) = bs) ->
                           length (data skb') = length (data skb)
                           /\ (later_segment (skb, o) ->
                               data skb' = data skb))
             | Fault t =>
               syn (tcp_hdr skb) && negb (ack (tcp_hdr skb)) = true
               /\ left_buffer (length (data skb)) t
             | Fuel => False
             end).
  { intros cpx skb2 ev1 Hth Hih Hlen Hmtu Hdl Hdd Hev Hopt Haf.
    assert (Etried :
              (sysctl_ip_vs_toa_entry cfg =? 1)
              && (Z.land (flags cpx) IP_VS_CONN_F_CIP_INSERTED =? 0)
              && negb (rst (tcp_hdr skb2)) && negb (fin (tcp_hdr skb2))
              = toa_tried cfg cpx (tcp_hdr skb))
      by (unfold toa_tried; rewrite Hth; reflexivity).
    assert (Efits : toa_fits cpx skb2 (copy_ok o) = toa_fits cpx skb (copy_ok o))
      by (unfold toa_fits; rewrite Hth, Hlen, Hmtu; reflexivity).
    assert (Eseq : seq (tcp_hdr skb2) = seq (tcp_hdr skb))
      by (rewrite Hth; reflexivity).
    rewrite Etried.
    destruct (toa_tried cfg cpx (tcp_hdr skb)) eqn:Tr; cbn [andb].
    - destruct (toa_fits cpx skb (copy_ok o)) eqn:Fi.
      + rewrite (tcp_opt_add_toa_appends cpx skb2 (copy_ok o))
          by exact Efits.
        cbv zeta. unfold tcp_in_adjust_seq.
        match goal with
        | |- context [ip_vs_synproxy_dnat_handler ?h ?b ?q] =>
          destruct (ip_vs_synproxy_dnat_handler h b q) as [tcph bs] eqn:Eh
        end.
        split; [ reflexivity | ].
        split; [ reflexivity | ].
        split; [ apply in_or_app; right; left; reflexivity | ].
        split; [ change (len skb2 + sizeof_ip_vs_tcpo_addr
                         = len skb + sizeof_ip_vs_tcpo_addr);
                 rewrite Hlen; reflexivity | ].
        split; [ change (u16 (tot_len (iph skb2) + sizeof_ip_vs_tcpo_addr)
                         = u16 (tot_len (iph skb) + sizeof_ip_vs_tcpo_addr));
                 rewrite Hih; reflexivity | ].
        intros Hb. exists (data skb2).
        split; [ | split; [ exact Hdl | exact Hdd ] ].
        change (bs = toa_option cp ++ data skb2).
        rewrite <- Hopt.
        match type of Eh with
        | ip_vs_synproxy_dnat_handler ?h ?b ?q = _ =>
          pose proof (Hb h b q) as Hb'
        end.
        rewrite Eh in Hb'. exact Hb'.
      + destruct (tcp_opt_add_toa_declines cpx skb2 (copy_ok o))
          as [ev2 [E N]]; [ exact Efits | ].
        rewrite E. cbv zeta. unfold tcp_in_adjust_seq.
        match goal with
        | |- context [ip_vs_synproxy_dnat_handler ?h ?b ?q] =>
          destruct (ip_vs_synproxy_dnat_handler h b q) as [tcph bs] eqn:Eh
        end.
        split; [ reflexivity | ].
        split; [ rewrite Eseq, Haf; reflexivity | ].
        split; [ intros D; apply in_app_or in D; destruct D; contradiction | ].
        split; [ exact Hlen | ].
        split; [ change (tot_len (iph skb2) = tot_len (iph skb));
                 rewrite Hih; reflexivity | ].
        intros Hb.
        match type of Eh with
        | ip_vs_synproxy_dnat_handler ?h ?b ?q = _ =>
          pose proof (Hb h b q) as Hb'
        end.
        rewrite Eh in Hb'. cbn [snd] in Hb'.
        change (length bs = length (data skb)
                /\ (later_segment (skb, o) -> bs = data skb)).
        rewrite Hb'. split; [ exact Hdl | exact Hdd ].
    - cbv zeta. unfold tcp_in_adjust_seq.
      match goal with
      | |- context [ip_vs_synproxy_dnat_handler ?h ?b ?q] =>
        destruct (ip_vs_synproxy_dnat_handler h b q) as [tcph bs] eqn:Eh
      end.
      split; [ reflexivity | ].
      split; [ reflexivity | ].
      split; [ rewrite app_nil_r; exact Hev | ].
      split; [ exact Hlen | ].
      split; [ change (tot_len (iph skb2) = tot_len (iph skb));
               rewrite Hih; reflexivity | ].
      intros Hb.
      match type of Eh with
      | ip_vs_synproxy_dnat_handler ?h ?b ?q = _ =>
        pose proof (Hb h b q) as Hb'
      end.
      rewrite Eh in Hb'. cbn [snd] in Hb'.
      change (length bs = length (data skb)
              /\ (later_segment (skb, o) -> bs = data skb)).
      rewrite Hb'. split; [ exact Hdl | exact Hdd ]. }
  change (syn (tcp_hdr skb1)) with (syn (tcp_hdr skb)).
  change (ack (tcp_hdr skb1)) with (ack (tcp_hdr skb)).
  unfold flow_at_toa.
  destruct (syn (tcp_hdr skb) && negb (ack (tcp_hdr skb))) eqn:Hs.
  - pose proof (tcp_opt_remove_timestamp_terminates cfg (tcp_hdr skb1)
                  (mk_optmem (data skb1) [])) as T.
    pose proof (faults_outside_tcp_opt_remove_timestamp cfg (tcp_hdr skb1)
                  (mk_optmem (data skb1) [])) as FO.
    unfold run.
    destruct (tcp_opt_remove_timestamp cfg (tcp_hdr skb1)
                (mk_optmem (data skb1) [])) as [[u m] | t |];
      [ | split; [ reflexivity | exact FO ] | apply T; reflexivity ].
    rewrite (tcp_in_init_seq_seq_only cfg cp
               (tcp_hdr (set_data (bytes m) skb1)) (tcp_hdr skb) eq_refl).
    pose proof (tcp_in_init_seq_counts_no_append cfg cp (tcp_hdr skb)) as Hev.
    pose proof (tcp_in_init_seq_toa_option cfg cp (tcp_hdr skb)) as [Hopt Haf].
    destruct (tcp_in_init_seq cfg cp (tcp_hdr skb)) as [cpx ev1].
    cbn [fst snd] in *.
    apply K; try reflexivity; try assumption.
    intros L. unfold later_segment in L. cbn [fst] in L. congruence.
  - apply (K cp skb1 []); try reflexivity. intros [].
Qed.

(** While the flag is set the handler appends nothing to a segment that
    is not a SYN without ACK and leaves the flow alone, whether or not
    the buffer is writable. *)
Lemma tcp_fnat_in_handler_flag_set cfg skb cp o :
  app cp = None ->
  Z.land (flags cp) IP_VS_CONN_F_CIP_INSERTED <> 0 ->
  later_segment (skb, o) ->
  left_without_option cp (skb, o) (tcp_fnat_in_handler cfg skb cp o).
Proof.
  intros Happ Hset Hsyn. pose proof Hsyn as L.
  unfold later_segment in Hsyn. cbn [fst] in Hsyn.
  destruct (writable o) eqn:W.
  - pose proof (tcp_fnat_in_handler_toa cfg skb cp o Happ W) as R.
    cbv zeta in R. unfold flow_at_toa in R. rewrite Hsyn in R.
    assert (Tr : toa_tried cfg cp (tcp_hdr skb) = false).
    { unfold toa_tried. apply Z.eqb_neq in Hset. rewrite Hset.
      rewrite andb_false_r. reflexivity. }
    rewrite Tr in R. cbn [andb] in R.
    destruct (tcp_fnat_in_handler cfg skb cp o) as [[[[r cp'] skb'] ev] | t |].
    + destruct R as (_ & Ecp & Hev & Hlen & _). subst cp'.
      exists r, skb', ev. split; [ reflexivity | split; [ exact Hev | exact Hlen ] ].
    + destruct R as [R _]. discriminate R.
    + destruct R.
  - unfold tcp_fnat_in_handler. rewrite W. cbn [negb].
    exists 0, skb, []. split; [ reflexivity | split; [ intros [] | reflexivity ] ].
Qed.

Lemma fnat_in_run_flag_set cfg cp pkts :
  app cp = None ->
  Z.land (flags cp) IP_VS_CONN_F_CIP_INSERTED <> 0 ->
  Forall later_segment pkts ->
  Forall2 (left_without_option cp) pkts (fnat_in_run cfg cp pkts).
Proof.
  intros Happ Hset Hl. induction Hl as [| [skb o] rest Hp Hrest IH].
  - constructor.
  - cbn [fnat_in_run].
    pose proof (tcp_fnat_in_handler_flag_set cfg skb cp o Happ Hset Hp) as R.
    destruct R as (ret & skb' & ev & E & R).
    rewrite E. constructor; [ | exact IH ].
    exists ret, skb', ev. split; [ reflexivity | exact R ].
Qed.

End ToaFacts.

Lemma land_lor_same f c : Z.land (Z.lor f c) c = c.
Proof.
  apply Z.bits_inj'. intros n _. rewrite Z.land_spec, Z.lor_spec.
  destruct (Z.testbit f n), (Z.testbit c n); reflexivity.
Qed.

Lemma land_clear_same f c : Z.land (Z.land f (Z.lnot c)) c = 0.
Proof.
  apply Z.bits_inj'. intros n Hn.
  rewrite !Z.land_spec, Z.lnot_spec, Z.bits_0 by exact Hn.
  destruct (Z.testbit f n), (Z.testbit c n); reflexivity.
Qed.

(** C2, as the claim states it, fails: a SYN with sequence number 100 and
    the ACK that follows it with sequence number 101 both leave the handler
    with the client-address option in front of their options, and after the
    first append [IP_VS_CONN_F_CIP_INSERTED] is not set. *)
Lemma C2_option_appended_to_two_segments :
  let cp0 := flow4 0x0005 IP_VS_TCP_S_NONE (mk_seq 0 0 0) in
  let o := mk_in_oracle true true in
  let toa := [200; 8; 19; 136; 1; 1; 1; 1] in
  exists cp1 skb1 skb2,
    tcp_fnat_in_handler (H := plain_framework) all_on
      (skb4 (hdr 100 0 6 false true false false) [2; 4; 5; 180]) cp0 o
    = Ok (1, cp1, skb1, [FULLNAT_ADD_TOA_OK])
    /\ data skb1 = toa ++ [2; 4; 5; 180]
    /\ Z.land (flags cp1) (IP_VS_CONN_F_CIP_INSERTED (Framework := plain_framework))
       = 0
    /\ tcp_fnat_in_handler (H := plain_framework) all_on
         (skb4 (hdr 101 901 5 false false false true) []) cp1 o
       = Ok (1, cp1, skb2, [FULLNAT_ADD_TOA_OK])
    /\ data skb2 = toa.
Proof.
  cbv zeta. do 3 eexists.
  split; [ vm_compute; reflexivity | ].
  split; [ reflexivity | ].
  split; [ reflexivity | ].
  split; [ vm_compute; reflexivity | reflexivity ].
Qed.

(** C2, amended: for every ingress segment on a writable buffer and a
    flow without helper.  The option code sees the flow as
    [tcp_in_init_seq] left it if the segment is a SYN without ACK (flag
    cleared, [fdata_seq] one past the sequence number), and as it came
    otherwise.  (a) When the append is tried on that flow ([toa_entry] is
    1, the flag is clear, the segment is neither RST nor FIN) and goes
    through (IPv4, the sequence number not after [fdata_seq], the length
    within the MTU less 8, the copy succeeded), the segment is kept, the
    append is counted, the buffer and the IP total length are 8 bytes
    longer and, the SYN-proxy hook leaving the bytes alone, the buffer
    holds the option followed by what it held; the flow, its flag
    included, stays as the option code found it, so the next such segment
    gets the option as well.  (b) In every other case the segment is
    kept, no append is counted, the lengths stay and so do the bytes; the
    flag is set exactly when the append was tried on an IPv4 flow and the
    sequence number was after [fdata_seq], nothing else of the flow
    changes.  (c) A SYN without ACK clears the flag and puts [fdata_seq]
    one past its sequence number before the test, so its own sequence
    number is never after [fdata_seq]; and while the flag is set, no run
    of segments that are not SYNs without ACK gets the option or changes
    the flow.  The handler has no result only when the timestamp walk of
    a SYN accesses a byte outside the buffer. *)
Theorem C2_option_appended_until_seq_passes_fdata_seq `{Framework}
    (cfg : sysctl) (skb : sk_buff) (cp : ip_vs_conn) (o : in_oracle) :
  app cp = None -> writable o = true ->
  let th := tcp_hdr skb in
  let cp1 := flow_at_toa cfg cp th in
  match tcp_fnat_in_handler cfg skb cp o with
  | Ok (r, cp', skb', ev) =>
    r = 1
    /\ if toa_tried cfg cp1 th && toa_fits cp1 skb (copy_ok o)
       then cp' = cp1
            /\ In FULLNAT_ADD_TOA_OK ev
            /\ len skb' = len skb + sizeof_ip_vs_tcpo_addr
            /\ tot_len (iph skb')
               = u16 (tot_len (iph skb) + sizeof_ip_vs_tcpo_addr)
            /\ ((forall h bs s, snd (ip_vs_synproxy_dnat_handler h bs s) = bs) ->
                exists d,
                  data skb' = toa_option cp ++ d
                  /\ length d = length (data skb)
                  /\ (later_segment (skb, o) -> d = data skb))
       else cp' = (if toa_tried cfg cp1 th
                      && (af cp =? AF_INET)
                      && after (seq th) (fdata_seq (fnat_seq cp1))
                   then set_flags
                          (Z.lor (flags cp1) IP_VS_CONN_F_CIP_INSERTED) cp1
                   else cp1)
            /\ ~ In FULLNAT_ADD_TOA_OK ev
            /\ len skb' = len skb
            /\ tot_len (iph skb') = tot_len (iph skb)
            /\ ((forall h bs s, snd (ip_vs_synproxy_dnat_handler h bs s) = bs) ->
                length (data skb') = length (data skb)
                /\ (later_segment (skb, o) -> data skb' = data skb))
  | Fault t =>
    syn th && negb (ack th) = true /\ left_buffer (length (data skb)) t
  | Fuel => False
  end
  /\ (syn th && negb (ack th) = true ->
      Z.land (flags cp1) IP_VS_CONN_F_CIP_INSERTED = 0
      /\ fdata_seq (fnat_seq cp1) = u32 (seq th + 1)
      /\ after (seq th) (fdata_seq (fnat_seq cp1)) = false)
  /\ Z.land (Z.lor (flags cp1) IP_VS_CONN_F_CIP_INSERTED)
        IP_VS_CONN_F_CIP_INSERTED = IP_VS_CONN_F_CIP_INSERTED
  /\ (Z.land (flags cp) IP_VS_CONN_F_CIP_INSERTED <> 0 ->
      forall pkts,
        Forall later_segment pkts ->
        Forall2 (left_without_option cp) pkts (fnat_in_run cfg cp pkts)).
Proof.
  intros Happ Hw. cbv zeta.
  split; [ exact (tcp_fnat_in_handler_toa cfg skb cp o Happ Hw) | ].
  split; [ | split ].
  - intros Hs. unfold flow_at_toa. rewrite Hs.
    rewrite tcp_in_init_seq_flags, tcp_in_init_seq_fdata.
    split; [ apply land_clear_same | split; [ reflexivity | apply after_next ] ].
  - apply land_lor_same.
  - intros Hset pkts Hl. apply fnat_in_run_flag_set; assumption.
Qed.

(** A SYN with sequence number 100 and an MSS option, on a flow whose
    flag is still set from an earlier life: the flag is cleared, the SYN
    is kept and gets the option, 8 bytes in front of its 4 option bytes,
    and the flag is clear afterwards. *)
Lemma C2_option_appended_until_seq_passes_fdata_seq_witness :
  exists cp' skb' ev d,
    tcp_fnat_in_handler (H := plain_framework) all_on
      (skb4 (hdr 100 0 6 false true false false) [2; 4; 5; 180])
      (flow4 0x2005 IP_VS_TCP_S_NONE (mk_seq 0 0 0))
      (mk_in_oracle true true)
    = Ok (1, cp', skb', ev)
    /\ In FULLNAT_ADD_TOA_OK ev
    /\ len skb' = 44 + 8
    /\ data skb' = [200; 8; 19; 136; 1; 1; 1; 1] ++ d
    /\ length d = 4%nat
    /\ Z.land (flags cp') 0x2000 = 0.
Proof.
  pose proof (C2_option_appended_until_seq_passes_fdata_seq
                (H := plain_framework) all_on
                (skb4 (hdr 100 0 6 false true false false) [2; 4; 5; 180])
                (flow4 0x2005 IP_VS_TCP_S_NONE (mk_seq 0 0 0))
                (mk_in_oracle true true) eq_refl eq_refl)
    as (W & Hclear & _).
  destruct (Hclear eq_refl) as (Hflag & _).
  destruct (tcp_fnat_in_handler (H := plain_framework) all_on
              (skb4 (hdr 100 0 6 false true false false) [2; 4; 5; 180])
              (flow4 0x2005 IP_VS_TCP_S_NONE (mk_seq 0 0 0))
              (mk_in_oracle true true))
    as [[[[r cp'] skb'] ev] | t |] eqn:E.
  - destruct W as (Er & W). subst r.
    match type of W with
    | if ?c then _ else _ => change c with true in W
    end.
    destruct W as (Ecp & Hev & Hlen & _ & Hd).
    destruct (Hd (fun _ _ _ => eq_refl)) as (d & Ed & Ld & _).
    exists cp', skb', ev, d.
    split; [ reflexivity | ].
    split; [ exact Hev | ].
    split; [ exact Hlen | ].
    split; [ exact Ed | ].
    split; [ exact Ld | ].
    rewrite Ecp. exact Hflag.
  - vm_compute in E. discriminate E.
  - vm_compute in E. discriminate E.
Defined.

(* ===================================================================== *)
(** ** Checksums of the synthesised RST                                   *)
(* ===================================================================== *)

Lemma csum_add_spec a b :
  0 <= a < 2 ^ 32 -> 0 <= b < 2 ^ 32 ->
  0 <= csum_add a b < 2 ^ 32 /\ cong (csum_add a b) (a + b)
  /\ (0 < a + b -> 0 < csum_add a b).
Proof.
  intros Ha Hb. unfold csum_add, u32, cong.
  change (2 ^ 32) with 4294967296 in *.
  destruct (Z_lt_ge_dec (a + b) 4294967296) as [L | G].
  - rewrite Z.mod_small, Z.div_small by lia.
    split; [ lia | split; [ exists 0; lia | lia ] ].
  - assert (E : (a + b) / 4294967296 = 1).
    { symmetry. apply Z.div_unique with (r := a + b - 4294967296); lia. }
    assert (E' : (a + b) mod 4294967296 = a + b - 4294967296).
    { symmetry. apply Z.mod_unique with (q := 1); lia. }
    rewrite E, E'. split; [ lia | split; [ exists (-65537); lia | lia ] ].
Qed.

Lemma fold_csum_add_spec ws : forall s,
  0 <= s < 2 ^ 32 -> Forall (fun w => 0 <= w < 2 ^ 32) ws ->
  0 <= fold_left csum_add ws s < 2 ^ 32
  /\ cong (fold_left csum_add ws s) (s + wsum ws)
  /\ (0 < s -> 0 < fold_left csum_add ws s).
Proof.
  induction ws as [| w ws IH]; intros s Hs Hw; simpl.
  - split; [ lia | split; [ exists 0; lia | lia ] ].
  - inversion Hw as [| ? ? Hw1 Hw2]; subst.
    destruct (csum_add_spec s w Hs Hw1) as (R & [k C] & P).
    destruct (IH (csum_add s w) R Hw2) as (R' & [k' C'] & P').
    split; [ lia | split ].
    + exists (k + k'). lia.
    + intros Hpos. apply P'. apply P. lia.
Qed.

Lemma csum_fold_spec x :
  0 <= x < 2 ^ 32 ->
  exists f, csum_fold x = 65535 - f /\ 0 <= f <= 65535 /\ cong f x
            /\ (f = 0 -> x = 0).
Proof.
  intros Hx. unfold csum_fold, u32, u16.
  change (2 ^ 32) with 4294967296 in *. change (2 ^ 16) with 65536.
  rewrite (Z.mod_small x) by lia.
  assert (Hland : forall a, Z.land a 65535 = a mod 65536).
  { intros a. change 65535 with (Z.ones 16). apply Z.land_ones. lia. }
  rewrite !Hland, !Z.shiftr_div_pow2 by lia. clear Hland.
  change (2 ^ 16) with 65536.
  set (s1 := x mod 65536 + x / 65536).
  assert (Hs1 : 0 <= s1 < 131071).
  { unfold s1. pose proof (Z.mod_pos_bound x 65536 ltac:(lia)).
    assert (0 <= x / 65536 < 65536).
    { split; [ apply Z.div_pos; lia | apply Z.div_lt_upper_bound; lia ]. }
    lia. }
  assert (C1 : cong s1 x).
  { unfold s1, cong. exists (- (x / 65536)).
    pose proof (Z.div_mod x 65536 ltac:(lia)). lia. }
  assert (Z1 : s1 = 0 -> x = 0).
  { unfold s1. pose proof (Z.mod_pos_bound x 65536 ltac:(lia)).
    assert (0 <= x / 65536) by (apply Z.div_pos; lia).
    pose proof (Z.div_mod x 65536 ltac:(lia)). lia. }
  clearbody s1.
  exists (s1 mod 65536 + s1 / 65536).
  destruct (Z_lt_ge_dec s1 65536) as [L | G].
  - rewrite (Z.mod_small s1), (Z.div_small s1) by lia.
    rewrite Z.add_0_r. split; [ | split; [ lia | split; [ exact C1 | exact Z1 ] ] ].
    unfold Z.lnot. symmetry. apply Z.mod_unique with (q := -1); lia.
  - assert (E : s1 / 65536 = 1).
    { symmetry. apply Z.div_unique with (r := s1 - 65536); lia. }
    assert (E' : s1 mod 65536 = s1 - 65536).
    { symmetry. apply Z.mod_unique with (q := 1); lia. }
    rewrite E, E'. split; [ | split; [ lia | split; [ | lia ] ] ].
    + unfold Z.lnot. symmetry. apply Z.mod_unique with (q := -1); lia.
    + destruct C1 as [k C1]. exists (k - 1). lia.
Qed.

Lemma csum_fold_zero y :
  0 < y < 2 ^ 32 -> cong y 0 -> csum_fold y = 0.
Proof.
  intros Hy [k C]. destruct (csum_fold_spec y ltac:(lia)) as (f & E & R & [k' C'] & Z0).
  rewrite E. assert (f <> 0) by (intro; lia).
  assert (f = 65535); [ | lia ].
  assert (f = 65535 * (k + k')) by lia. nia.
Qed.

Lemma be16_join c : 0 <= c < 65536 -> u8 (c / 2 ^ 8) * 2 ^ 8 + u8 c = c.
Proof.
  intros Hc. unfold u8. change (2 ^ 8) with 256.
  rewrite (Z.mod_small (c / 256)).
  - pose proof (Z.div_mod c 256 ltac:(lia)). lia.
  - split; [ apply Z.div_pos; lia | apply Z.div_lt_upper_bound; lia ].
Qed.

Lemma be16_word_range a b : 0 <= u8 a * 2 ^ 8 + u8 b < 2 ^ 32.
Proof.
  pose proof (u8_range a). pose proof (u8_range b).
  change (2 ^ 8) with 256 in *. change (2 ^ 32) with 4294967296. lia.
Qed.

Lemma tcphdr_words h :
  be16_words (tcphdr_bytes h) =
  [ u8 (source h / 2 ^ 8) * 2 ^ 8 + u8 (source h);
    u8 (dest h / 2 ^ 8) * 2 ^ 8 + u8 (dest h);
    u8 (seq h / 2 ^ 24) * 2 ^ 8 + u8 (seq h / 2 ^ 16);
    u8 (seq h / 2 ^ 8) * 2 ^ 8 + u8 (seq h);
    u8 (ack_seq h / 2 ^ 24) * 2 ^ 8 + u8 (ack_seq h / 2 ^ 16);
    u8 (ack_seq h / 2 ^ 8) * 2 ^ 8 + u8 (ack_seq h);
    u8 (doff h mod 16 * 16 + res1 h mod 16) * 2 ^ 8
    + (b2z (cwr h) * 128 + b2z (ece h) * 64 + b2z (urg h) * 32
       + b2z (ack h) * 16 + b2z (psh h) * 8 + b2z (rst h) * 4
       + b2z (syn h) * 2 + b2z (fin h));
    u8 (window h / 2 ^ 8) * 2 ^ 8 + u8 (window h);
    u8 (check h / 2 ^ 8) * 2 ^ 8 + u8 (check h);
    u8 (urg_ptr h / 2 ^ 8) * 2 ^ 8 + u8 (urg_ptr h) ].
Proof. reflexivity. Qed.

Lemma tcphdr_words_range h :
  Forall (fun w => 0 <= w < 2 ^ 32) (be16_words (tcphdr_bytes h)).
Proof.
  rewrite tcphdr_words.
  repeat (apply Forall_cons; [ try apply be16_word_range | ]); try apply Forall_nil.
  pose proof (u8_range (doff h mod 16 * 16 + res1 h mod 16)).
  change (2 ^ 8) with 256 in *. change (2 ^ 32) with 4294967296.
  destruct (cwr h), (ece h), (urg h), (ack h), (psh h), (rst h), (syn h), (fin h);
    simpl; lia.
Qed.

Lemma tcphdr_wsum_check c h :
  0 <= c < 65536 ->
  wsum (be16_words (tcphdr_bytes (set_check c h)))
  = wsum (be16_words (tcphdr_bytes (set_check 0 h))) + c.
Proof.
  intros Hc. rewrite !tcphdr_words. unfold set_check, wsum, fold_right.
  cbn [source dest seq ack_seq doff res1 cwr ece urg ack psh rst syn fin window check urg_ptr].
  rewrite (be16_join c Hc), (be16_join 0) by lia. lia.
Qed.

Lemma csum_tcpudp_nofold_spec s d len proto sum :
  0 <= sum < 2 ^ 32 ->
  let t := csum_tcpudp_nofold s d len proto sum in
  0 <= t < 2 ^ 32
  /\ cong t (sum + u32 s + u32 d + u32 (proto + len))
  /\ (0 < u32 (proto + len) -> 0 < t).
Proof.
  intros Hs. cbv zeta. unfold csum_tcpudp_nofold.
  destruct (csum_add_spec sum (u32 s) Hs (u32_range s)) as (R1 & [k1 C1] & _).
  destruct (csum_add_spec _ (u32 d) R1 (u32_range d)) as (R2 & [k2 C2] & _).
  destruct (csum_add_spec _ (u32 (proto + len)) R2 (u32_range (proto + len)))
    as (R3 & [k3 C3] & P3).
  split; [ exact R3 | split ].
  - exists (k1 + k2 + k3). lia.
  - intros Hp. apply P3. lia.
Qed.

(** A TCP header whose check field is the complemented folded sum over
    the pseudo-header and the header with the field zeroed verifies: the
    same sum taken with the field in place folds to zero. *)
Lemma tcp_header_csum_verifies s d th :
  let c := csum_tcpudp_magic s d sizeof_tcphdr IPPROTO_TCP
             (csum_partial (tcphdr_bytes (set_check 0 th)) 0) in
  csum_tcpudp_magic s d sizeof_tcphdr IPPROTO_TCP
    (csum_partial (tcphdr_bytes (set_check c th)) 0) = 0.
Proof.
  cbv zeta. unfold csum_tcpudp_magic, csum_partial.
  assert (Z0 : 0 <= 0 < 2 ^ 32) by (change (2 ^ 32) with 4294967296; lia).
  destruct (fold_csum_add_spec _ 0 Z0 (tcphdr_words_range (set_check 0 th)))
    as (R0 & [k0 C0] & _).
  destruct (csum_tcpudp_nofold_spec s d sizeof_tcphdr IPPROTO_TCP _ R0)
    as (RT0 & [kt0 CT0] & _).
  destruct (csum_fold_spec _ RT0) as (f & Ef & Rf & [kf Cf] & _).
  set (c := csum_fold _) in *.
  assert (Hc : 0 <= c < 65536) by lia.
  destruct (fold_csum_add_spec _ 0 Z0 (tcphdr_words_range (set_check c th)))
    as (R1 & [k1 C1] & _).
  destruct (csum_tcpudp_nofold_spec s d sizeof_tcphdr IPPROTO_TCP _ R1)
    as (RT1 & [kt1 CT1] & PT1).
  rewrite (tcphdr_wsum_check c th Hc) in C1.
  apply csum_fold_zero.
  - split; [ apply PT1; vm_compute; reflexivity | apply RT1 ].
  - exists (kt1 + k1 - kt0 - k0 - kf + 1). lia.
Qed.

Lemma wsum_cons a l : wsum (a :: l) = a + wsum l.
Proof. reflexivity. Qed.

Lemma fold_left_cons {A B} (f : A -> B -> A) b l a :
  fold_left f (b :: l) a = fold_left f l (f a b).
Proof. reflexivity. Qed.

Lemma iphdr_words h :
  be16_words (iphdr_bytes h) =
  [ u8 (version h mod 16 * 16 + ihl h mod 16) * 2 ^ 8 + u8 (tos h);
    u8 (tot_len h / 2 ^ 8) * 2 ^ 8 + u8 (tot_len h);
    u8 (id h / 2 ^ 8) * 2 ^ 8 + u8 (id h);
    u8 (frag_off h / 2 ^ 8) * 2 ^ 8 + u8 (frag_off h);
    u8 (ttl h) * 2 ^ 8 + u8 (protocol h);
    u8 (ip_check h / 2 ^ 8) * 2 ^ 8 + u8 (ip_check h);
    u8 (ip (saddr h) / 2 ^ 24) * 2 ^ 8 + u8 (ip (saddr h) / 2 ^ 16);
    u8 (ip (saddr h) / 2 ^ 8) * 2 ^ 8 + u8 (ip (saddr h));
    u8 (ip (daddr h) / 2 ^ 24) * 2 ^ 8 + u8 (ip (daddr h) / 2 ^ 16);
    u8 (ip (daddr h) / 2 ^ 8) * 2 ^ 8 + u8 (ip (daddr h)) ].
Proof. reflexivity. Qed.

Lemma iphdr_words_range h :
  Forall (fun w => 0 <= w < 2 ^ 32) (be16_words (iphdr_bytes h)).
Proof.
  rewrite iphdr_words.
  repeat (apply Forall_cons; [ apply be16_word_range | ]). apply Forall_nil.
Qed.

Lemma iphdr_wsum_check c h :
  0 <= c < 65536 ->
  wsum (be16_words (iphdr_bytes (set_ip_check c h)))
  = wsum (be16_words (iphdr_bytes (set_ip_check 0 h))) + c.
Proof.
  intros Hc. rewrite !iphdr_words. unfold set_ip_check, wsum, fold_right.
  cbn [version ihl tos tot_len id frag_off ttl protocol ip_check saddr daddr].
  rewrite (be16_join c Hc), (be16_join 0) by lia. lia.
Qed.

(** [ip_send_check] leaves a 20-byte header whose checksum verifies:
    [ip_fast_csum] over it is zero. *)
Lemma ip_send_check_verifies h :
  ihl h = 5 -> ip_fast_csum (ip_send_check h) = 0.
Proof.
  intros Hihl. unfold ip_send_check, ip_fast_csum.
  assert (Hl : forall c,
             firstn (Z.to_nat (ihl (set_ip_check c (set_ip_check 0 h)) * 4))
               (iphdr_bytes (set_ip_check c (set_ip_check 0 h)))
             = iphdr_bytes (set_ip_check c h)).
  { intros c. unfold set_ip_check.
    cbn [version ihl tos tot_len id frag_off ttl protocol ip_check saddr daddr].
    rewrite Hihl. reflexivity. }
  assert (Hl0 : firstn (Z.to_nat (ihl (set_ip_check 0 h) * 4))
                  (iphdr_bytes (set_ip_check 0 h))
                = iphdr_bytes (set_ip_check 0 h)).
  { unfold set_ip_check.
    cbn [version ihl tos tot_len id frag_off ttl protocol ip_check saddr daddr].
    rewrite Hihl. reflexivity. }
  rewrite Hl0, Hl. unfold csum_partial.
  assert (Z0 : 0 <= 0 < 2 ^ 32) by (change (2 ^ 32) with 4294967296; lia).
  destruct (fold_csum_add_spec _ 0 Z0 (iphdr_words_range (set_ip_check 0 h)))
    as (R0 & [k0 C0] & _).
  destruct (csum_fold_spec _ R0) as (f & Ef & Rf & [kf Cf] & _).
  set (c := csum_fold _) in *.
  assert (Hc : 0 <= c < 65536) by lia.
  pose proof (iphdr_words_range (set_ip_check c h)) as Hr.
  pose proof (iphdr_wsum_check c h Hc) as Hsum.
  rewrite iphdr_words in Hr, Hsum |- *.
  set (w0 := u8 (version (set_ip_check c h) mod 16 * 16
                 + ihl (set_ip_check c h) mod 16) * 2 ^ 8
             + u8 (tos (set_ip_check c h))) in *.
  assert (Hw0 : 0 < w0 < 2 ^ 32).
  { unfold w0, set_ip_check.
    cbn [version ihl tos tot_len id frag_off ttl protocol ip_check saddr daddr].
    rewrite Hihl. change (5 mod 16) with 5. pose proof (u8_range (tos h)).
    pose proof (Z.mod_pos_bound (version h) 16 ltac:(lia)).
    assert (E : u8 (version h mod 16 * 16 + 5) = version h mod 16 * 16 + 5).
    { unfold u8. apply Z.mod_small. change (2 ^ 8) with 256. lia. }
    rewrite E.
    change (2 ^ 8) with 256 in *. change (2 ^ 32) with 4294967296. lia. }
  pose proof (Forall_inv_tail Hr) as Hr'.
  rewrite wsum_cons in Hsum. rewrite fold_left_cons.
  clearbody w0 c. clear Hr Hl Hl0.
  assert (E0 : csum_add 0 w0 = w0).
  { unfold csum_add, u32. rewrite Z.add_0_l, Z.mod_small, Z.div_small by lia. lia. }
  rewrite E0.
  destruct (fold_csum_add_spec _ w0 (conj (Z.lt_le_incl _ _ (proj1 Hw0)) (proj2 Hw0)) Hr')
    as (R1 & [k1 C1] & P1).
  apply csum_fold_zero.
  - split; [ apply P1; exact (proj1 Hw0) | apply R1 ].
  - exists (k1 - k0 - kf + 1). lia.
Qed.

(* ===================================================================== *)
(** ** RST on expiry                                                      *)
(* ===================================================================== *)

Section RstFacts.
Context `{Framework}.

Lemma rst_build_v4_well_formed g s d th :
  rst th = true -> ack_seq th = 0 -> doff th = 5 ->
  match rst_build_v4 g s d th with
  | Rst4 ih th' => rst_well_formed ih th'
  | Rst6 _ => False
  end.
Proof.
  intros Hr Ha Hd. unfold rst_build_v4, rst_well_formed.
  match goal with
  | |- context [ip_send_check ?x] =>
    assert (Hihl : ihl (ip_send_check x) = 5) by reflexivity;
    assert (Hpr : protocol (ip_send_check x) = IPPROTO_TCP) by reflexivity;
    assert (Hck : ip_fast_csum (ip_send_check x) = 0)
      by (apply ip_send_check_verifies; reflexivity);
    set (ih := ip_send_check x) in *
  end.
  clearbody ih.
  repeat match goal with |- _ /\ _ => split end; try assumption.
  unfold tcp_csum_check, rst_skb, skb_checksum, ip_hdrlen.
  cbn [iph tcp_hdr data len ip_summed csum mark dst_mtu set_csum].
  change (AF_INET =? AF_INET6) with false. cbv iota.
  change (CHECKSUM_NONE =? CHECKSUM_NONE) with true. cbv iota.
  cbn [iph tcp_hdr data len ip_summed csum mark dst_mtu set_csum].
  rewrite app_nil_r, Hihl, Hpr.
  change (sizeof_iphdr + sizeof_tcphdr - 5 * 4) with sizeof_tcphdr.
  change (sizeof_tcphdr + sizeof_iphdr - sizeof_iphdr) with sizeof_tcphdr.
  assert (Hf : forall h, firstn (Z.to_nat sizeof_tcphdr) (tcphdr_bytes h)
                         = tcphdr_bytes h) by (intros h; reflexivity).
  rewrite !Hf.
  pose proof (tcp_header_csum_verifies (ip (saddr ih)) (ip (daddr ih)) th) as V.
  cbv zeta in V.
  assert (Hs : forall c, set_check c (set_check 0 th) = set_check c th)
    by reflexivity.
  rewrite !Hs, V. reflexivity.
Qed.

Lemma rst_header_fields th :
  rst (rst_header th) = true /\ ack_seq (rst_header th) = 0
  /\ doff (rst_header th) = 5.
Proof. repeat split. Qed.

Lemma rst_build_ok cp x g s d th :
  emitted_ok cp
    (x, if af cp =? AF_INET6 then rst_build_v6 g s d (rst_header th)
        else rst_build_v4 g s d (rst_header th)).
Proof.
  unfold emitted_ok.
  destruct (Z.eqb_spec (af cp) AF_INET6) as [E | E]; cbn [snd].
  - exact E.
  - destruct (rst_header_fields th) as (Hr & Ha & Hd).
    pose proof (rst_build_v4_well_formed g s d _ Hr Ha Hd) as W.
    destruct (rst_build_v4 g s d (rst_header th)); [ exact W | contradiction ].
Qed.

Lemma tcp_send_rst_in_length cp a :
  length (tcp_send_rst_in cp a)
  = if rst_seq_known cp then allocated a else 0%nat.
Proof.
  unfold tcp_send_rst_in, rst_seq_known.
  destruct a as [g |]; simpl;
    [ | destruct (_ || _); reflexivity ].
  destruct (tcp_state_eqb (state cp) IP_VS_TCP_S_SYN_SENT);
    destruct (ack_skb cp);
    destruct (tcp_state_eqb (state cp) IP_VS_TCP_S_ESTABLISHED);
    destruct (negb (Z.land (flags cp) IP_VS_CONN_F_FULLNAT =? 0));
    destruct (af cp =? AF_INET6); reflexivity.
Qed.

Lemma tcp_send_rst_out_length cp a :
  length (tcp_send_rst_out cp a)
  = if rst_seq_known cp then allocated a else 0%nat.
Proof.
  unfold tcp_send_rst_out, rst_seq_known.
  destruct a as [g |]; simpl;
    [ | destruct (_ || _); reflexivity ].
  destruct (tcp_state_eqb (state cp) IP_VS_TCP_S_SYN_SENT);
    destruct (ack_skb cp);
    destruct (tcp_state_eqb (state cp) IP_VS_TCP_S_ESTABLISHED);
    destruct (af cp =? AF_INET6); reflexivity.
Qed.

Lemma tcp_send_rst_in_ok cp a : Forall (emitted_ok cp) (tcp_send_rst_in cp a).
Proof.
  unfold tcp_send_rst_in. destruct a as [g |]; [ | constructor ].
  cbv zeta.
  match goal with
  | |- Forall _ (match ?so with Some _ => _ | None => _ end) =>
    destruct so as [s |]
  end; [ | constructor ].
  destruct (af cp =? AF_INET6) eqn:E; (constructor; [ | constructor ]).
  - match goal with
    | |- emitted_ok _ (?x, rst_build_v6 ?g ?s ?d (rst_header ?th)) =>
      pose proof (rst_build_ok cp x g s d th) as W
    end.
    rewrite E in W. exact W.
  - match goal with
    | |- emitted_ok _ (?x, rst_build_v4 ?g ?s ?d (rst_header ?th)) =>
      pose proof (rst_build_ok cp x g s d th) as W
    end.
    rewrite E in W. exact W.
Qed.

Lemma tcp_send_rst_out_ok cp a : Forall (emitted_ok cp) (tcp_send_rst_out cp a).
Proof.
  unfold tcp_send_rst_out. destruct a as [g |]; [ | constructor ].
  cbv zeta.
  match goal with
  | |- Forall _ (match ?so with Some _ => _ | None => _ end) =>
    destruct so as [s |]
  end; [ | constructor ].
  destruct (af cp =? AF_INET6) eqn:E; (constructor; [ | constructor ]).
  - match goal with
    | |- emitted_ok _ (?x, rst_build_v6 ?g ?s ?d (rst_header ?th)) =>
      pose proof (rst_build_ok cp x g s d th) as W
    end.
    rewrite E in W. exact W.
  - match goal with
    | |- emitted_ok _ (?x, rst_build_v4 ?g ?s ?d (rst_header ?th)) =>
      pose proof (rst_build_ok cp x g s d th) as W
    end.
    rewrite E in W. exact W.
Qed.

(** C5, as the claim states it, fails: when the first [alloc_skb] fails
    and the second succeeds, the expiry of an established FullNAT flow
    emits exactly one reset, the one to the client. *)
Lemma C5_one_reset_when_one_allocation_fails :
  let cp := set_rs_seq 5000 7000
              (flow4 0x0005 IP_VS_TCP_S_ESTABLISHED (mk_seq 1000 900 101)) in
  length (tcp_conn_expire_handler (H := plain_framework) all_on cp
            None (Some [])) = 1%nat
  /\ map fst (tcp_conn_expire_handler (H := plain_framework) all_on cp
                None (Some [])) = [Fnat_response_xmit].
Proof. cbv zeta. split; vm_compute; reflexivity. Qed.

(** C5, amended: on expiry each of the two functions emits one reset when
    its [alloc_skb] succeeds and the handler has something to send (the
    switch is on, the flags pass the test for FullNAT or NAT, and the flow
    is ESTABLISHED or is SYN_SENT with a queued ACK), and none otherwise;
    so the handler emits zero or two resets when both allocations succeed,
    and one when exactly one of them fails.  Every reset emitted for a flow
    that is not IPv6 has [rst] 1, [ack_seq] 0, [doff] 5, an IP header
    checksum that verifies and a TCP checksum that [tcp_csum_check]
    accepts. *)
Theorem C5_rst_on_expiry_one_per_successful_allocation
    (cfg : sysctl) (cp : ip_vs_conn) (alloc_in alloc_out : option (list Z)) :
  let out := tcp_conn_expire_handler cfg cp alloc_in alloc_out in
  length out
  = (if rst_wanted cfg cp then allocated alloc_in + allocated alloc_out
     else 0)%nat
  /\ (forall g_in g_out,
        let both := tcp_conn_expire_handler cfg cp (Some g_in) (Some g_out) in
        length both = 0%nat \/ length both = 2%nat)
  /\ Forall (emitted_ok cp) out.
Proof.
  cbv zeta.
  assert (L : forall a b,
             length (tcp_conn_expire_handler cfg cp a b)
             = (if rst_wanted cfg cp then allocated a + allocated b else 0)%nat).
  { intros a b. unfold tcp_conn_expire_handler, rst_wanted.
    destruct (negb (sysctl_ip_vs_conn_expire_tcp_rst cfg =? 0)
              && negb (Z.land (flags cp)
                         (Z.lor IP_VS_CONN_F_FULLNAT IP_VS_CONN_F_MASQ) =? 0));
      [ | reflexivity ].
    rewrite length_app, tcp_send_rst_in_length, tcp_send_rst_out_length.
    simpl. destruct (rst_seq_known cp); reflexivity. }
  split; [ apply L | split ].
  - intros g_in g_out. rewrite L.
    destruct (rst_wanted cfg cp); [ right | left ]; reflexivity.
  - unfold tcp_conn_expire_handler.
    destruct (_ && _); [ | constructor ].
    apply Forall_app. split;
      [ apply tcp_send_rst_in_ok | apply tcp_send_rst_out_ok ].
Qed.

End RstFacts.

(* ===================================================================== *)
(** ** The scenarios of the design document                               *)
(* ===================================================================== *)

(** FullNAT three-way, ingress: the client's SYN with sequence number 100
    leaves for the backend from the local port with sequence number
    [init_seq], carrying the client-address option {5000, 1.1.1.1}; the
    flow records [fdata_seq] 101 and delta [init_seq - 100]. *)
Example scenario_fullnat_syn_in :
  exists cp' skb',
    tcp_fnat_in_handler (H := plain_framework) all_on
      (skb4 (hdr 100 0 5 false true false false) [])
      (flow4 0x0005 IP_VS_TCP_S_NONE (mk_seq 0 0 0)) (mk_in_oracle true true)
    = Ok (1, cp', skb', [FULLNAT_ADD_TOA_OK])
    /\ source (tcp_hdr skb') = 40000 /\ dest (tcp_hdr skb') = 80
    /\ seq (tcp_hdr skb') = 1000 /\ doff (tcp_hdr skb') = 7
    /\ data skb' = [200; 8] ++ be16_bytes 5000 ++ be32_bytes 0x01010101
    /\ fnat_seq cp' = mk_seq 1000 (1000 - 100) 101.
Proof.
  do 2 eexists. split; [ vm_compute; reflexivity | ]. repeat split.
Qed.

(** FullNAT three-way, egress: the backend's SYN-ACK, acknowledging
    [init_seq + 1], leaves for the client from the virtual port with
    acknowledgement 101 and its MSS lowered by 8. *)
Example scenario_fullnat_synack_out :
  exists cp' skb',
    tcp_fnat_out_handler (H := plain_framework) all_on
      (skb4 (mk_tcphdr 80 40000 900 1001 0 6 false true false false true
               false false false 8192 0 0) (2 :: 4 :: be16_bytes 1460))
      (flow4 0x0005 IP_VS_TCP_S_SYN_RECV (mk_seq 1000 900 101)) true
    = Ok (1, cp', skb', [])
    /\ source (tcp_hdr skb') = 80 /\ dest (tcp_hdr skb') = 5000
    /\ ack_seq (tcp_hdr skb') = 101
    /\ data skb' = 2 :: 4 :: be16_bytes (1460 - 8).
Proof.
  do 2 eexists. split; [ vm_compute; reflexivity | ]. repeat split.
Qed.

(** Normal table, ingress SYN in NONE: the flow moves to SYN_RECV and gets
    entry 3 of the timeout vector. *)
Example scenario_normal_table_syn_in_none :
  let cp := set_tcp_state tcp_states (sysctl_ip_vs_tcp_timeouts 1000)
              (flow4 0x0005 IP_VS_TCP_S_NONE (mk_seq 0 0 0)) IP_VS_DIR_INPUT
              (hdr 100 0 5 false true false false) in
  state cp = IP_VS_TCP_S_SYN_RECV
  /\ old_state cp = IP_VS_TCP_S_NONE
  /\ timeout cp = nth 3 (sysctl_ip_vs_tcp_timeouts 1000) 0.
Proof. cbv zeta. repeat split. Qed.

(** Secure table, ingress SYN in SYNACK: the flow stays in SYNACK. *)
Example scenario_secure_table_syn_in_synack :
  state (set_tcp_state (tcp_timeout_change 1) (sysctl_ip_vs_tcp_timeouts 1000)
           (flow4 0x0005 IP_VS_TCP_S_SYNACK (mk_seq 0 0 0)) IP_VS_DIR_INPUT
           (hdr 100 0 5 false true false false))
  = IP_VS_TCP_S_SYNACK.
Proof. reflexivity. Qed.

(** Stray-VIP drop: a SYN to the virtual address on a port without
    service, with [tcp_drop_entry] on, is dropped and no flow is made. *)
Example scenario_stray_vip_drop :
  let r := tcp_conn_schedule (H := serving_framework) all_on AF_INET
             (skb4 (mk_tcphdr 5000 8080 100 0 0 5 false true false false
                      false false false false 8192 0 0) [])
             NF_ACCEPT None in
  sched_ret r = 0 /\ sched_verdict r = NF_DROP /\ sched_cpp r = None.
Proof. cbv zeta. repeat split. Qed.

(** RST on expiry of an established FullNAT flow with [rs_ack_seq] 7000,
    [rs_end_seq] 5000 and delta 900: the reset to the backend has sequence
    number 7000 - 900, the reset to the client has sequence number 5000. *)
Example scenario_rst_on_expiry :
  exists ih1 th1 ih2 th2,
    tcp_conn_expire_handler (H := plain_framework) all_on
      (set_rs_seq 5000 7000
         (flow4 0x0005 IP_VS_TCP_S_ESTABLISHED (mk_seq 1000 900 101)))
      (Some []) (Some [])
    = [(Packet_xmit, Rst4 ih1 th1); (Fnat_response_xmit, Rst4 ih2 th2)]
    /\ seq th1 = 7000 - 900 /\ seq th2 = 5000
    /\ source th1 = 5000 /\ dest th1 = 80
    /\ source th2 = 80 /\ dest th2 = 40000.
Proof.
  do 4 eexists. split; [ vm_compute; reflexivity | ]. repeat split.
Qed.

(** The reset built for an IPv6 flow: only 20 bytes are pushed for the
    40-byte IPv6 header, so the addresses are copied over the TCP header.
    Here the flow's client address is 1:2:3:4 and its virtual address
    5:6:7:8 (as 32-bit words); the 20 bytes where the TCP header was hold
    the last word of the one and the four words of the other, with the
    checksum written over two bytes of it. *)
Example rst_v6_header_overwritten :
  tcp_send_rst_in (H := plain_framework)
    (mk_conn AF_INET6 IPPROTO_TCP [1; 2; 3; 4] [5; 6; 7; 8] [9; 10; 11; 12]
       [13; 14; 15; 16] 5000 80 40000 80 0x0005 IP_VS_TCP_S_ESTABLISHED
       IP_VS_TCP_S_NONE 0 (mk_seq 1000 900 101) (mk_seq 0 0 0) 5000 7000
       [] None None)
    (Some [])
  = [(Packet_xmit,
      Rst6 ([96; 0; 0; 0; 0; 0; 6; 64]
            ++ [0; 0; 0; 1; 0; 0; 0; 2; 0; 0; 0; 3]
            ++ [0; 0; 0; 4; 0; 0; 0; 5; 0; 0; 0; 6; 0; 0; 0; 7; 255; 213; 0; 8]))].
Proof. vm_compute. reflexivity. Qed.

(* ===================================================================== *)
(** * Further properties of the module                                    *)
(* ===================================================================== *)

(** ** Checksum arithmetic *)

Lemma cong_iff_mod a b : cong a b <-> (a - b) mod 65535 = 0.
Proof.
  unfold cong. split.
  - intros [k E]. rewrite E, Z.mul_comm. apply Z.mod_mul. lia.
  - intros E. exists ((a - b) / 65535).
    pose proof (Z.div_mod (a - b) 65535 ltac:(lia)). lia.
Qed.

Ltac cong_solve :=
  rewrite ?cong_iff_mod in *; Z.div_mod_to_equations; lia.

Lemma cong_refl a : cong a a.
Proof. exists 0. lia. Qed.

Lemma cong_sym a b : cong a b -> cong b a.
Proof. intros [k E]. exists (- k). lia. Qed.

Lemma cong_trans a b c : cong a b -> cong b c -> cong a c.
Proof. intros [k E] [k' E']. exists (k + k'). lia. Qed.

Lemma cong_add a b c d : cong a b -> cong c d -> cong (a + c) (b + d).
Proof. intros [k E] [k' E']. exists (k + k'). lia. Qed.

Lemma csum_fold_zero_iff y :
  0 < y < 2 ^ 32 -> csum_fold y = 0 <-> cong y 0.
Proof.
  intros Hy. split.
  - intros E.
    destruct (csum_fold_spec y ltac:(lia)) as (f & Ef & R & [k C] & _).
    exists (1 - k). lia.
  - apply csum_fold_zero. exact Hy.
Qed.

Lemma be16_word_u16 v : u8 (v / 2 ^ 8) * 2 ^ 8 + u8 v = u16 v.
Proof.
  unfold u8, u16. change (2 ^ 8) with 256. change (2 ^ 16) with 65536.
  Z.div_mod_to_equations. lia.
Qed.

Lemma be32_words_u32 v :
  (u8 (v / 2 ^ 24) * 2 ^ 8 + u8 (v / 2 ^ 16)) * 65536
  + (u8 (v / 2 ^ 8) * 2 ^ 8 + u8 v) = u32 v.
Proof.
  unfold u8, u32. change (2 ^ 8) with 256. change (2 ^ 16) with 65536.
  change (2 ^ 24) with 16777216. change (2 ^ 32) with 4294967296.
  Z.div_mod_to_equations. lia.
Qed.

Lemma u16_lnot v : u16 (Z.lnot v) = 65535 - u16 v.
Proof.
  unfold u16, Z.lnot. change (2 ^ 16) with 65536.
  Z.div_mod_to_equations. lia.
Qed.

Lemma u32_lnot v : u32 (Z.lnot v) = 4294967295 - u32 v.
Proof.
  unfold u32, Z.lnot. change (2 ^ 32) with 4294967296.
  Z.div_mod_to_equations. lia.
Qed.

Lemma wsum_app l1 l2 : wsum (l1 ++ l2) = wsum l1 + wsum l2.
Proof.
  induction l1 as [| a l1 IH]; simpl; [ reflexivity | ].
  unfold wsum in *. simpl. lia.
Qed.

Lemma be16_words_tcphdr_app h d :
  be16_words (tcphdr_bytes h ++ d) = be16_words (tcphdr_bytes h) ++ be16_words d.
Proof. reflexivity. Qed.

Lemma be16_words_range_aux l :
  is_bytes l ->
  Forall (fun w => 0 <= w < 2 ^ 32) (be16_words l)
  /\ forall x, 0 <= x < 256 ->
       Forall (fun w => 0 <= w < 2 ^ 32) (be16_words (x :: l)).
Proof.
  unfold is_bytes. change (2 ^ 32) with 4294967296.
  induction l as [| b t IH]; intros Hl.
  - split; [ constructor | ]. intros x Hx. cbn [be16_words]. change (2 ^ 8) with 256.
    constructor; [ lia | constructor ].
  - pose proof (Forall_inv Hl) as Hb. pose proof (Forall_inv_tail Hl) as Ht.
    cbv beta in Hb. destruct (IH Ht) as [IH1 IH2]. split.
    + apply IH2. exact Hb.
    + intros x Hx. cbn [be16_words]. change (2 ^ 8) with 256.
      constructor; [ lia | exact IH1 ].
Qed.

Lemma be16_words_range l :
  is_bytes l -> Forall (fun w => 0 <= w < 2 ^ 32) (be16_words l).
Proof. intros Hl. apply (be16_words_range_aux l Hl). Qed.

Lemma segment_words_range h d :
  is_bytes d ->
  Forall (fun w => 0 <= w < 2 ^ 32) (be16_words (tcphdr_bytes h ++ d)).
Proof.
  intros Hd. rewrite be16_words_tcphdr_app. apply Forall_app. split.
  - apply tcphdr_words_range.
  - apply be16_words_range. exact Hd.
Qed.

Lemma length_tcphdr_bytes h : length (tcphdr_bytes h) = 20%nat.
Proof. reflexivity. Qed.

(** The sum [skb_checksum] takes over a consistent segment is the sum over
    all of its words. *)
Lemma skb_checksum_segment skb :
  len skb = ip_hdrlen skb + sizeof_tcphdr + Z.of_nat (length (data skb)) ->
  skb_checksum skb (ip_hdrlen skb)
  = csum_partial (tcphdr_bytes (tcp_hdr skb) ++ data skb) 0.
Proof.
  intros Hlen. unfold skb_checksum. f_equal. apply firstn_all2.
  rewrite length_app, length_tcphdr_bytes. unfold sizeof_tcphdr in Hlen. lia.
Qed.

Lemma u32_pos_small x : 0 < x < 2 ^ 32 -> 0 < u32 x.
Proof. intros Hx. unfold u32. rewrite Z.mod_small; lia. Qed.

(** On a consistent IPv4 segment the software check passes exactly when
    the sum over the segment and the pseudo-header is a multiple of
    0xffff. *)
Lemma csum_verifies_iff skb :
  segment4 skb -> csum_verifies AF_INET skb = true <-> cong (total4 skb) 0.
Proof.
  intros (Hihl & Hlen & Hmax & Hproto & Hbytes).
  unfold csum_verifies, tcp_csum_check.
  change (AF_INET =? AF_INET6) with false. cbv iota.
  change (ip_summed (set_ip_summed CHECKSUM_NONE skb) =? CHECKSUM_NONE) with true.
  cbv iota.
  change (ip_hdrlen (set_ip_summed CHECKSUM_NONE skb)) with (ip_hdrlen skb).
  change (skb_checksum (set_ip_summed CHECKSUM_NONE skb) (ip_hdrlen skb))
    with (skb_checksum skb (ip_hdrlen skb)).
  rewrite (skb_checksum_segment skb Hlen).
  cbn [set_csum set_ip_summed iph len csum saddr daddr protocol].
  unfold csum_tcpudp_magic, csum_partial.
  assert (Z0 : 0 <= 0 < 2 ^ 32) by (change (2 ^ 32) with 4294967296; lia).
  destruct (fold_csum_add_spec _ 0 Z0
              (segment_words_range (tcp_hdr skb) (data skb) Hbytes))
    as (R0 & C0 & _).
  destruct (csum_tcpudp_nofold_spec (ip (saddr (iph skb))) (ip (daddr (iph skb)))
              (len skb - ip_hdrlen skb) (protocol (iph skb)) _ R0)
    as (RT & CT & PT).
  assert (Hpos : 0 < u32 (protocol (iph skb) + (len skb - ip_hdrlen skb))).
  { apply u32_pos_small. rewrite Hproto, Hlen.
    unfold IPPROTO_TCP, sizeof_tcphdr, ip_hdrlen in *.
    change (2 ^ 16) with 65536 in Hmax. change (2 ^ 32) with 4294967296.
    lia. }
  specialize (PT Hpos).
  set (t := csum_tcpudp_nofold _ _ _ _ _) in *.
  assert (Hiff : csum_fold t = 0 <-> cong t 0)
    by (apply csum_fold_zero_iff; lia).
  assert (Ht : cong t (total4 skb)).
  { unfold total4. eapply cong_trans; [ exact CT | ].
    repeat apply cong_add; try apply cong_refl.
    rewrite Z.add_0_l in C0. exact C0. }
  split.
  - intros E. apply cong_trans with t; [ apply cong_sym; exact Ht | ].
    apply Hiff. destruct (csum_fold t =? 0) eqn:Ez.
    + apply Z.eqb_eq. exact Ez.
    + discriminate E.
  - intros E. assert (Ez : csum_fold t = 0).
    { apply Hiff. apply cong_trans with (total4 skb); assumption. }
    rewrite Ez. reflexivity.
Qed.

(** What the full calculation leaves: the same buffer but for the check
    field, and a sum over segment and pseudo-header that is a multiple of
    0xffff. *)
Lemma full_csum_total skb s d proto tcphoff :
  len skb = tcphoff + sizeof_tcphdr + Z.of_nat (length (data skb)) ->
  is_bytes (data skb) ->
  let skb' := full_csum AF_INET s d proto tcphoff skb in
  cong (wsum (be16_words (tcphdr_bytes (tcp_hdr skb') ++ data skb'))
        + u32 (ip s) + u32 (ip d) + u32 (proto + (len skb - tcphoff))) 0.
Proof.
  intros Hlen Hbytes. cbv zeta. unfold full_csum, skb_checksum.
  change (AF_INET =? AF_INET6) with false. cbv iota.
  cbn [set_th set_csum tcp_hdr data len csum iph].
  rewrite firstn_all2
    by (rewrite length_app, length_tcphdr_bytes; unfold sizeof_tcphdr in Hlen; lia).
  unfold csum_tcpudp_magic, csum_partial.
  assert (Z0 : 0 <= 0 < 2 ^ 32) by (change (2 ^ 32) with 4294967296; lia).
  destruct (fold_csum_add_spec _ 0 Z0
              (segment_words_range (set_check 0 (tcp_hdr skb)) (data skb) Hbytes))
    as (R0 & C0 & _).
  destruct (csum_tcpudp_nofold_spec (ip s) (ip d) (len skb - tcphoff) proto _ R0)
    as (RT & CT & _).
  destruct (csum_fold_spec _ RT) as (f & Ef & Rf & Cf & _).
  set (c := csum_fold _) in *.
  assert (Hc : 0 <= c < 65536) by lia.
  rewrite !be16_words_tcphdr_app, !wsum_app in *.
  rewrite (tcphdr_wsum_check c (set_check 0 (tcp_hdr skb)) Hc).
  change (set_check 0 (set_check 0 (tcp_hdr skb)))
    with (set_check 0 (tcp_hdr skb)).
  set (t := csum_tcpudp_nofold _ _ _ _ _) in *.
  set (S0 := fold_left csum_add _ 0) in *.
  clearbody c t S0.
  destruct C0 as [k0 C0]. destruct CT as [kt CT]. destruct Cf as [kf Cf].
  exists (1 - kf - kt - k0). lia.
Qed.

Lemma full_csum_frame a s d p off skb :
  iph (full_csum a s d p off skb) = iph skb
  /\ data (full_csum a s d p off skb) = data skb
  /\ len (full_csum a s d p off skb) = len skb.
Proof. split; [ | split ]; reflexivity. Qed.

Lemma total4_with_addrs s d skb :
  total4 (with_addrs s d skb)
  = wsum (be16_words (tcphdr_bytes (tcp_hdr skb) ++ data skb))
    + u32 (ip s) + u32 (ip d)
    + u32 (protocol (iph skb) + (len skb - ip_hdrlen skb)).
Proof. reflexivity. Qed.

Lemma segment4_with_addrs s d skb :
  segment4 skb -> segment4 (with_addrs s d skb).
Proof. intros Hs. exact Hs. Qed.

Lemma segment4_frame skb skb' :
  iph skb' = iph skb -> data skb' = data skb -> len skb' = len skb ->
  segment4 skb -> segment4 skb'.
Proof.
  unfold segment4, ip_hdrlen. intros Ei Ed El Hs.
  rewrite Ei, Ed, El. exact Hs.
Qed.

Lemma csum_verifies_set_ip_summed a v skb :
  csum_verifies a (set_ip_summed v skb) = csum_verifies a skb.
Proof. reflexivity. Qed.

Lemma with_addrs_set_ip_summed s d v skb :
  with_addrs s d (set_ip_summed v skb) = set_ip_summed v (with_addrs s d skb).
Proof. reflexivity. Qed.

(** Whatever the check field held, a consistent IPv4 segment that went
    through the full checksum calculation for a pair of addresses passes
    the software check once its IP header carries these addresses. *)
Lemma full_csum_verifies skb s d v :
  segment4 skb ->
  csum_verifies AF_INET
    (with_addrs s d
       (set_ip_summed v
          (full_csum AF_INET s d IPPROTO_TCP (ip_hdrlen skb) skb)))
  = true.
Proof.
  intros Hs.
  pose proof (full_csum_frame AF_INET s d IPPROTO_TCP (ip_hdrlen skb) skb)
    as (Fi & Fd & Fl).
  assert (T := full_csum_total skb s d IPPROTO_TCP (ip_hdrlen skb)
                 (proj1 (proj2 Hs)) (proj2 (proj2 (proj2 (proj2 Hs))))).
  cbv zeta in T.
  set (X := full_csum AF_INET s d IPPROTO_TCP (ip_hdrlen skb) skb) in *.
  clearbody X.
  rewrite with_addrs_set_ip_summed, csum_verifies_set_ip_summed.
  apply csum_verifies_iff.
  - apply segment4_with_addrs. apply (segment4_frame skb X); assumption.
  - rewrite total4_with_addrs. unfold ip_hdrlen. rewrite Fi, Fl.
    destruct Hs as (_ & _ & _ & Hp & _). rewrite Hp. exact T.
Qed.

Lemma set_check_check h : set_check (check h) h = h.
Proof. destruct h. reflexivity. Qed.

Lemma full_csum_check_range a s d p off skb :
  0 <= check (tcp_hdr (full_csum a s d p off skb)) < 2 ^ 16.
Proof.
  unfold full_csum. cbn [tcp_hdr set_th check set_check].
  destruct (a =? AF_INET6); unfold csum_ipv6_magic, csum_tcpudp_magic, csum_fold;
    apply u16_range.
Qed.

Lemma tcphdr_wsum_check_self h :
  0 <= check h < 65536 ->
  wsum (be16_words (tcphdr_bytes h))
  = wsum (be16_words (tcphdr_bytes (set_check 0 h))) + check h.
Proof.
  intros Hc. rewrite <- (tcphdr_wsum_check (check h) h Hc).
  rewrite set_check_check. reflexivity.
Qed.

(** The sum over a segment whose check field has been replaced. *)
Lemma total4_set_check s d c skb :
  0 <= c < 65536 -> 0 <= check (tcp_hdr skb) < 65536 ->
  total4 (with_addrs s d (set_th (set_check c (tcp_hdr skb)) skb))
  = total4 (with_addrs s d skb) + c - check (tcp_hdr skb).
Proof.
  intros Hc Hk. rewrite !total4_with_addrs.
  change (tcp_hdr (set_th (set_check c (tcp_hdr skb)) skb))
    with (set_check c (tcp_hdr skb)).
  change (data (set_th (set_check c (tcp_hdr skb)) skb)) with (data skb).
  change (iph (set_th (set_check c (tcp_hdr skb)) skb)) with (iph skb).
  change (len (set_th (set_check c (tcp_hdr skb)) skb)) with (len skb).
  change (ip_hdrlen (set_th (set_check c (tcp_hdr skb)) skb))
    with (ip_hdrlen skb).
  rewrite !be16_words_tcphdr_app, !wsum_app.
  rewrite (tcphdr_wsum_check c (tcp_hdr skb) Hc).
  rewrite (tcphdr_wsum_check_self (tcp_hdr skb) Hk). lia.
Qed.

Lemma full_csum_total4 skb s d :
  segment4 skb ->
  cong (total4 (with_addrs s d
                  (full_csum AF_INET s d IPPROTO_TCP (ip_hdrlen skb) skb))) 0.
Proof.
  intros Hs.
  pose proof (full_csum_frame AF_INET s d IPPROTO_TCP (ip_hdrlen skb) skb)
    as (Fi & Fd & Fl).
  assert (T := full_csum_total skb s d IPPROTO_TCP (ip_hdrlen skb)
                 (proj1 (proj2 Hs)) (proj2 (proj2 (proj2 (proj2 Hs))))).
  cbv zeta in T.
  set (X := full_csum AF_INET s d IPPROTO_TCP (ip_hdrlen skb) skb) in *.
  clearbody X.
  rewrite total4_with_addrs. unfold ip_hdrlen. rewrite Fi, Fl.
  destruct Hs as (_ & _ & _ & Hp & _). rewrite Hp. exact T.
Qed.

Lemma csum_verifies_set_check s d c' skb good :
  segment4 skb ->
  iph good = iph skb -> data good = data skb -> len good = len skb ->
  0 <= c' < 65536 -> 0 <= check (tcp_hdr good) < 65536 ->
  cong (total4 (with_addrs s d good)) 0 ->
  csum_verifies AF_INET
    (with_addrs s d (set_th (set_check c' (tcp_hdr good)) good)) = true
  <-> cong c' (check (tcp_hdr good)).
Proof.
  intros Hs Fi Fd Fl Hc' Hc [kt T].
  assert (Hseg : segment4
                   (with_addrs s d
                      (set_th (set_check c' (tcp_hdr good)) good))).
  { apply segment4_with_addrs.
    apply (segment4_frame skb (set_th (set_check c' (tcp_hdr good)) good));
      [ exact Fi | exact Fd | exact Fl | exact Hs ]. }
  pose proof (csum_verifies_iff _ Hseg) as V.
  pose proof (total4_set_check s d c' good Hc' Hc) as E.
  split.
  - intros Hv. apply V in Hv. destruct Hv as [k C]. exists (k - kt). lia.
  - intros [k C]. apply V. exists (k + kt). lia.
Qed.

(** [tcp_csum_check] accepts exactly the checksum that the full
    calculation computes: put any 16-bit value in the check field of a
    consistent IPv4 segment that went through the full calculation for a
    pair of addresses, and the software check with these addresses in the
    IP header passes if and only if the value is the computed one modulo
    0xffff (one's-complement arithmetic does not tell 0 from 0xffff). *)
Theorem tcp_csum_check_accepts_exactly_the_computed_checksum
    (skb : sk_buff) (s d : nf_inet_addr) (c' : Z) :
  segment4 skb -> 0 <= c' < 2 ^ 16 ->
  let good := full_csum AF_INET s d IPPROTO_TCP (ip_hdrlen skb) skb in
  csum_verifies AF_INET
    (with_addrs s d (set_th (set_check c' (tcp_hdr good)) good)) = true
  <-> cong c' (check (tcp_hdr good)).
Proof.
  intros Hs Hc'. cbv zeta.
  pose proof (full_csum_frame AF_INET s d IPPROTO_TCP (ip_hdrlen skb) skb)
    as (Fi & Fd & Fl).
  apply (csum_verifies_set_check s d c' skb _ Hs Fi Fd Fl Hc'
           (full_csum_check_range AF_INET s d IPPROTO_TCP (ip_hdrlen skb) skb)
           (full_csum_total4 skb s d Hs)).
Qed.

(** ** Incremental checksum updates *)

Lemma u16_range_32 v : 0 <= u16 v < 2 ^ 32.
Proof.
  pose proof (u16_range v). change (2 ^ 16) with 65536 in *.
  change (2 ^ 32) with 4294967296. lia.
Qed.

Lemma ip_vs_check_diff2_spec old new s :
  0 <= s < 2 ^ 32 ->
  0 <= ip_vs_check_diff2 old new s < 2 ^ 32
  /\ cong (ip_vs_check_diff2 old new s) (s - u16 old + u16 new).
Proof.
  intros Hs. unfold ip_vs_check_diff2, csum_partial, be16_bytes.
  change (fold_left csum_add (be16_words (_ ++ _)) s)
    with (csum_add
            (csum_add s (u8 (Z.lnot old / 2 ^ 8) * 2 ^ 8 + u8 (Z.lnot old)))
            (u8 (new / 2 ^ 8) * 2 ^ 8 + u8 new)).
  rewrite !be16_word_u16, u16_lnot.
  assert (R1 : 0 <= 65535 - u16 old < 2 ^ 32).
  { pose proof (u16_range old). change (2 ^ 16) with 65536 in *.
    change (2 ^ 32) with 4294967296. lia. }
  destruct (csum_add_spec s _ Hs R1) as (Ra & [ka Ca] & _).
  destruct (csum_add_spec _ _ Ra (u16_range_32 new)) as (Rb & [kb Cb] & _).
  split; [ exact Rb | ]. exists (ka + kb + 1). lia.
Qed.

Lemma ip_vs_check_diff4_spec old new s :
  0 <= s < 2 ^ 32 ->
  0 <= ip_vs_check_diff4 old new s < 2 ^ 32
  /\ cong (ip_vs_check_diff4 old new s) (s - u32 old + u32 new).
Proof.
  intros Hs. unfold ip_vs_check_diff4, csum_partial, be32_bytes.
  change (fold_left csum_add (be16_words (_ ++ _)) s)
    with (csum_add
            (csum_add
               (csum_add
                  (csum_add s
                     (u8 (Z.lnot old / 2 ^ 24) * 2 ^ 8 + u8 (Z.lnot old / 2 ^ 16)))
                  (u8 (Z.lnot old / 2 ^ 8) * 2 ^ 8 + u8 (Z.lnot old)))
               (u8 (new / 2 ^ 24) * 2 ^ 8 + u8 (new / 2 ^ 16)))
            (u8 (new / 2 ^ 8) * 2 ^ 8 + u8 new)).
  pose proof (be32_words_u32 (Z.lnot old)) as Eo.
  pose proof (be32_words_u32 new) as En.
  rewrite u32_lnot in Eo.
  destruct (csum_add_spec s _ Hs (be16_word_range (Z.lnot old / 2 ^ 24)
                                    (Z.lnot old / 2 ^ 16)))
    as (R1 & [k1 C1] & _).
  destruct (csum_add_spec _ _ R1 (be16_word_range (Z.lnot old / 2 ^ 8)
                                    (Z.lnot old)))
    as (R2 & [k2 C2] & _).
  destruct (csum_add_spec _ _ R2 (be16_word_range (new / 2 ^ 24) (new / 2 ^ 16)))
    as (R3 & [k3 C3] & _).
  destruct (csum_add_spec _ _ R3 (be16_word_range (new / 2 ^ 8) new))
    as (R4 & [k4 C4] & _).
  split; [ exact R4 | ].
  set (oh := u8 (Z.lnot old / 2 ^ 24) * 2 ^ 8 + u8 (Z.lnot old / 2 ^ 16)) in *.
  set (ol := u8 (Z.lnot old / 2 ^ 8) * 2 ^ 8 + u8 (Z.lnot old)) in *.
  set (nh := u8 (new / 2 ^ 24) * 2 ^ 8 + u8 (new / 2 ^ 16)) in *.
  set (nl := u8 (new / 2 ^ 8) * 2 ^ 8 + u8 new) in *.
  exists (k1 + k2 + k3 + k4 - oh - nh + 65537). lia.
Qed.

(** The check field [tcp_fast_csum_update] computes for an IPv4 segment:
    together with the new port and address it weighs, modulo 0xffff, what
    the old field weighed together with the old port and address. *)
Lemma tcp_fast_csum_update_check th oldip newip oldport newport :
  let c' := check (tcp_fast_csum_update AF_INET th oldip newip oldport newport) in
  0 <= c' < 65536
  /\ cong (c' + u16 newport + u32 (ip newip))
          (u16 (check th) + u16 oldport + u32 (ip oldip)).
Proof.
  cbv zeta. unfold tcp_fast_csum_update.
  change (AF_INET =? AF_INET6) with false. cbv iota.
  cbn [check set_check]. unfold csum_unfold.
  assert (E0 : u32 (Z.lnot (u16 (check th))) = 4294967295 - u16 (check th)).
  { rewrite u32_lnot. f_equal. unfold u32. apply Z.mod_small.
    apply u16_range_32. }
  assert (R0 : 0 <= u32 (Z.lnot (u16 (check th))) < 2 ^ 32) by apply u32_range.
  set (s0 := u32 (Z.lnot (u16 (check th)))) in *.
  destruct (ip_vs_check_diff2_spec oldport newport _ R0) as (R2 & [k2 C2]).
  destruct (ip_vs_check_diff4_spec (ip oldip) (ip newip) _ R2) as (R4 & [k4 C4]).
  destruct (csum_fold_spec _ R4) as (f & Ef & Rf & [kf Cf] & _).
  rewrite Ef. split; [ lia | ].
  exists (1 - kf - k4 - k2 - 65537). lia.
Qed.

(** [tcp_partial_csum_update] on an IPv4 buffer whose checksum is left to
    the device: if the check field stood for the pseudo-header sum over
    the old address, the other address, the protocol and the old length,
    the new field stands for the pseudo-header sum with the new address
    and the new length. *)
Theorem tcp_partial_csum_update_tracks_pseudo_header
    th oldip newip other proto oldlen newlen :
  0 <= proto < 256 -> 0 <= oldlen < 2 ^ 16 -> 0 <= newlen < 2 ^ 16 ->
  cong (u16 (check th)) (pseudo4 oldip other proto oldlen) ->
  let c' := check (tcp_partial_csum_update AF_INET th oldip newip
                     oldlen newlen) in
  0 <= c' < 2 ^ 16 /\ cong c' (pseudo4 newip other proto newlen).
Proof.
  intros Hp Ho Hn [k0 C0]. cbv zeta. unfold tcp_partial_csum_update.
  change (AF_INET =? AF_INET6) with false. cbv iota.
  cbn [check set_check]. unfold csum_unfold.
  destruct (ip_vs_check_diff2_spec oldlen newlen _ (u16_range_32 (check th)))
    as (R2 & [k2 C2]).
  destruct (ip_vs_check_diff4_spec (ip oldip) (ip newip) _ R2) as (R4 & [k4 C4]).
  destruct (csum_fold_spec _ R4) as (f & Ef & Rf & [kf Cf] & _).
  rewrite Ef, u16_lnot.
  assert (E : u16 (65535 - f) = 65535 - f).
  { unfold u16. apply Z.mod_small. change (2 ^ 16) with 65536. lia. }
  rewrite E. change (2 ^ 16) with 65536 in *. split; [ lia | ].
  unfold pseudo4 in *.
  assert (Eo : u16 oldlen = oldlen) by (unfold u16; apply Z.mod_small; lia).
  assert (En : u16 newlen = newlen) by (unfold u16; apply Z.mod_small; lia).
  assert (Epo : u32 (proto + oldlen) = proto + oldlen).
  { unfold u32. apply Z.mod_small. change (2 ^ 32) with 4294967296. lia. }
  assert (Epn : u32 (proto + newlen) = proto + newlen).
  { unfold u32. apply Z.mod_small. change (2 ^ 32) with 4294967296. lia. }
  rewrite Eo, En in C2. rewrite Epo in C0. rewrite Epn.
  exists (kf + k4 + k2 + k0). lia.
Qed.

(** The words of a TCP header: those of the header with the two ports and
    the check field zeroed, and these three. *)
Lemma tcphdr_wsum_split h :
  wsum (be16_words (tcphdr_bytes h))
  = wsum (be16_words
            (tcphdr_bytes (set_check 0 (set_dest 0 (set_source 0 h)))))
    + u16 (source h) + u16 (dest h) + u16 (check h).
Proof.
  rewrite !tcphdr_words. unfold set_check, set_dest, set_source, wsum, fold_right.
  cbn [source dest seq ack_seq doff res1 cwr ece urg ack psh rst syn fin
       window check urg_ptr].
  rewrite !be16_word_u16.
  change (u16 0) with 0. lia.
Qed.

Lemma cong_zero_iff a b : cong a b -> cong a 0 <-> cong b 0.
Proof.
  intros Hab. split; intros Hz.
  - apply cong_trans with a; [ apply cong_sym; exact Hab | exact Hz ].
  - apply cong_trans with b; assumption.
Qed.

Lemma bool_eq_iff (a b : bool) : (a = true <-> b = true) -> a = b.
Proof.
  destruct a, b; intros [H1 H2]; try reflexivity.
  - symmetry. apply H1. reflexivity.
  - apply H2. reflexivity.
Qed.

(** Two consistent IPv4 segments whose sums agree modulo 0xffff pass or
    fail the software check together. *)
Lemma csum_verifies_cong skb skb' :
  segment4 skb -> segment4 skb' -> cong (total4 skb') (total4 skb) ->
  csum_verifies AF_INET skb' = csum_verifies AF_INET skb.
Proof.
  intros Hs Hs' Hc. apply bool_eq_iff.
  rewrite (csum_verifies_iff skb Hs), (csum_verifies_iff skb' Hs').
  apply cong_zero_iff. exact Hc.
Qed.

Section NatFacts.
Context `{Framework}.

Lemma tcp_save_out_seq_frame cfg skb cp th ihl :
  let cp' := tcp_save_out_seq cfg skb cp th ihl in
  af cp' = af cp /\ app cp' = app cp /\ vport cp' = vport cp
  /\ dport cp' = dport cp /\ cport cp' = cport cp
  /\ vaddr cp' = vaddr cp /\ daddr_rs cp' = daddr_rs cp
  /\ caddr cp' = caddr cp /\ conn_protocol cp' = conn_protocol cp
  /\ fnat_seq cp' = fnat_seq cp /\ flags cp' = flags cp.
Proof.
  cbv zeta. unfold tcp_save_out_seq.
  destruct (_ && _); [ destruct (_ && _) | ]; repeat split; reflexivity.
Qed.

(** A segment of a plain NAT flow (IPv4, no helper, SYN proxy leaving it
    alone, checksum not left to the device) that comes from the real
    server's address and port leaves [tcp_snat_handler] with the virtual
    port as its source, and the fast update keeps the checksum as good or
    as bad as it was: once the transmit path has put the virtual address
    in the IP header, the segment passes [tcp_csum_check] exactly when it
    passed on arrival. *)
Theorem tcp_snat_handler_keeps_checksum cfg skb cp :
  (forall th bs c, ip_vs_synproxy_snat_handler th bs c = (1, (th, bs))) ->
  af cp = AF_INET -> app cp = None ->
  ip_summed skb <> CHECKSUM_PARTIAL ->
  segment4 skb ->
  source (tcp_hdr skb) = dport cp ->
  saddr (iph skb) = daddr_rs cp ->
  let '(r, _, skb') := tcp_snat_handler cfg skb cp true in
  r = 1
  /\ source (tcp_hdr skb') = vport cp
  /\ csum_verifies AF_INET (with_addrs (vaddr cp) (daddr (iph skb)) skb')
     = csum_verifies AF_INET skb.
Proof.
  intros Hhook Haf Happ Hsum Hseg Hport Haddr.
  unfold tcp_snat_handler, app_stage. rewrite Happ. cbn [negb].
  cbv iota beta.
  pose proof (tcp_save_out_seq_frame cfg skb cp (tcp_hdr skb)
                (if af cp =? AF_INET6 then sizeof_ipv6hdr else ip_hdrlen skb))
    as F.
  cbv zeta in F.
  set (cp1 := tcp_save_out_seq cfg skb cp (tcp_hdr skb) _) in *.
  destruct F as (Faf & Fapp & Fvp & Fdp & _ & Fva & Fda & _).
  clearbody cp1. rewrite Hhook.
  change (1 =? 0) with false. cbv iota.
  change (ip_summed (set_data (data skb)
                       (set_th (set_source (vport cp1) (tcp_hdr skb)) skb)))
    with (ip_summed skb).
  destruct (Z.eqb_spec (ip_summed skb) CHECKSUM_PARTIAL) as [E | _];
    [ contradiction | ].
  rewrite Fapp, Happ, Faf, Haf, Fvp, Fdp, Fva, Fda.
  set (th1 := tcp_fast_csum_update AF_INET _ _ _ _ _).
  assert (K : forall skb2,
             tcp_hdr skb2 = th1 -> iph skb2 = iph skb -> data skb2 = data skb ->
             len skb2 = len skb ->
             1 = 1 /\ source (tcp_hdr skb2) = vport cp
             /\ csum_verifies AF_INET
                  (with_addrs (vaddr cp) (daddr (iph skb)) skb2)
                = csum_verifies AF_INET skb).
  { intros skb2 Eth Eih Ed El. split; [ reflexivity | ].
    split; [ rewrite Eth; reflexivity | ].
    apply csum_verifies_cong.
    - exact Hseg.
    - apply segment4_with_addrs. apply (segment4_frame skb skb2); assumption.
    - rewrite total4_with_addrs. unfold total4, ip_hdrlen.
      rewrite Eth, Eih, Ed, El, !be16_words_tcphdr_app, !wsum_app.
      rewrite (tcphdr_wsum_split th1), (tcphdr_wsum_split (tcp_hdr skb)).
      pose proof (tcp_fast_csum_update_check
                    (set_source (vport cp) (tcp_hdr skb))
                    (daddr_rs cp) (vaddr cp) (dport cp) (vport cp))
        as (Rc & [k C]).
      change (check (tcp_fast_csum_update _ _ _ _ _ _)) with (check th1)
        in Rc, C.
      change (check (set_source (vport cp) (tcp_hdr skb)))
        with (check (tcp_hdr skb)) in C.
      change (set_check 0 (set_dest 0 (set_source 0 th1)))
        with (set_check 0 (set_dest 0 (set_source 0 (tcp_hdr skb)))).
      change (source th1) with (vport cp).
      change (dest th1) with (dest (tcp_hdr skb)).
      rewrite Hport, Haddr.
      assert (Ec : u16 (check th1) = check th1).
      { unfold u16. apply Z.mod_small. change (2 ^ 16) with 65536. lia. }
      rewrite Ec. exists k. lia. }
  destruct (_ =? CHECKSUM_COMPLETE); apply K; reflexivity.
Qed.

(** The same on the way in: a segment of a plain NAT flow addressed to
    the virtual address and port leaves [tcp_dnat_handler] with the real
    server's port as its destination, and passes [tcp_csum_check] with
    the real server's address in the IP header exactly when it passed on
    arrival. *)
Theorem tcp_dnat_handler_keeps_checksum skb cp :
  (forall th bs s, ip_vs_synproxy_dnat_handler th bs s = (th, bs)) ->
  af cp = AF_INET -> app cp = None ->
  ip_summed skb <> CHECKSUM_PARTIAL ->
  segment4 skb ->
  dest (tcp_hdr skb) = vport cp ->
  daddr (iph skb) = vaddr cp ->
  let '(r, _, skb') := tcp_dnat_handler skb cp true in
  r = 1
  /\ dest (tcp_hdr skb') = dport cp
  /\ csum_verifies AF_INET (with_addrs (saddr (iph skb)) (daddr_rs cp) skb')
     = csum_verifies AF_INET skb.
Proof.
  intros Hhook Haf Happ Hsum Hseg Hport Haddr.
  unfold tcp_dnat_handler, app_stage. rewrite Happ. cbn [negb].
  cbv iota beta. rewrite Hhook.
  change (ip_summed (set_data (data skb)
                       (set_th (set_dest (dport cp) (tcp_hdr skb)) skb)))
    with (ip_summed skb).
  destruct (Z.eqb_spec (ip_summed skb) CHECKSUM_PARTIAL) as [E | _];
    [ contradiction | ].
  rewrite Happ, Haf.
  set (th1 := tcp_fast_csum_update AF_INET _ _ _ _ _).
  assert (K : forall skb2,
             tcp_hdr skb2 = th1 -> iph skb2 = iph skb -> data skb2 = data skb ->
             len skb2 = len skb ->
             1 = 1 /\ dest (tcp_hdr skb2) = dport cp
             /\ csum_verifies AF_INET
                  (with_addrs (saddr (iph skb)) (daddr_rs cp) skb2)
                = csum_verifies AF_INET skb).
  { intros skb2 Eth Eih Ed El. split; [ reflexivity | ].
    split; [ rewrite Eth; reflexivity | ].
    apply csum_verifies_cong.
    - exact Hseg.
    - apply segment4_with_addrs. apply (segment4_frame skb skb2); assumption.
    - rewrite total4_with_addrs. unfold total4, ip_hdrlen.
      rewrite Eth, Eih, Ed, El, !be16_words_tcphdr_app, !wsum_app.
      rewrite (tcphdr_wsum_split th1), (tcphdr_wsum_split (tcp_hdr skb)).
      pose proof (tcp_fast_csum_update_check
                    (set_dest (dport cp) (tcp_hdr skb))
                    (vaddr cp) (daddr_rs cp) (vport cp) (dport cp))
        as (Rc & [k C]).
      change (check (tcp_fast_csum_update _ _ _ _ _ _)) with (check th1)
        in Rc, C.
      change (check (set_dest (dport cp) (tcp_hdr skb)))
        with (check (tcp_hdr skb)) in C.
      change (set_check 0 (set_dest 0 (set_source 0 th1)))
        with (set_check 0 (set_dest 0 (set_source 0 (tcp_hdr skb)))).
      change (source th1) with (source (tcp_hdr skb)).
      change (dest th1) with (dport cp).
      rewrite Hport, Haddr.
      assert (Ec : u16 (check th1) = check th1).
      { unfold u16. apply Z.mod_small. change (2 ^ 16) with 65536. lia. }
      rewrite Ec. exists k. lia. }
  destruct (_ =? CHECKSUM_COMPLETE); apply K; reflexivity.
Qed.

End NatFacts.

(** ** The option walkers keep the buffer a buffer *)

Lemma is_bytes_set_nth n v l :
  0 <= v < 256 -> is_bytes l -> is_bytes (set_nth n v l).
Proof.
  unfold is_bytes. intros Hv. revert n.
  induction l as [| a l IH]; intros n Hl; [ destruct n; constructor | ].
  pose proof (Forall_inv Hl) as Ha. pose proof (Forall_inv_tail Hl) as Ht.
  destruct n; simpl; constructor; auto.
Qed.

Lemma keeps_shape_ret {A} (a : A) : keeps_shape (ret a).
Proof. intros m Hm. simpl. split; [ reflexivity | exact Hm ]. Qed.

Lemma keeps_shape_bind {A B} (c : M A) (k : A -> M B) :
  keeps_shape c -> (forall a, keeps_shape (k a)) -> keeps_shape (bind c k).
Proof.
  intros Hc Hk m Hm. unfold bind. specialize (Hc m Hm).
  destruct (c m) as [[a m'] | t |]; [ | exact I | exact I ].
  destruct Hc as [L B']. specialize (Hk a m' B').
  destruct (k a m') as [[b m''] | t |]; [ | exact I | exact I ].
  destruct Hk as [L' B'']. split; [ congruence | exact B'' ].
Qed.

Lemma keeps_shape_rd8 off : keeps_shape (rd8 off).
Proof.
  intros m Hm. unfold rd8. destruct (in_buf off (bytes m)); [ | exact I ].
  simpl. split; [ reflexivity | exact Hm ].
Qed.

Lemma keeps_shape_wr8 off v : keeps_shape (wr8 off v).
Proof.
  intros m Hm. unfold wr8. destruct (in_buf off (bytes m)); [ | exact I ].
  cbn [bytes]. split; [ apply length_set_nth | ].
  apply is_bytes_set_nth; [ | exact Hm ].
  pose proof (u8_range v) as R. change (2 ^ 8) with 256 in R. exact R.
Qed.

Ltac shape_step :=
  repeat first
    [ apply keeps_shape_ret | apply keeps_shape_rd8 | apply keeps_shape_wr8
    | apply keeps_shape_bind; [ | intros ? ] ].

Lemma keeps_shape_rd16 off : keeps_shape (rd16 off).
Proof. unfold rd16. shape_step. Qed.

Lemma keeps_shape_wr16 off v : keeps_shape (wr16 off v).
Proof. unfold wr16. shape_step. Qed.

Lemma keeps_shape_rd32 off : keeps_shape (rd32 off).
Proof. unfold rd32. shape_step. Qed.

Lemma keeps_shape_wr32 off v : keeps_shape (wr32 off v).
Proof. unfold wr32. shape_step. Qed.

Lemma keeps_shape_out_of_fuel {A} : keeps_shape (@out_of_fuel A).
Proof. intros m Hm. exact I. Qed.

Lemma keeps_shape_nop_fill n opt i : keeps_shape (nop_fill n opt i).
Proof.
  revert i. induction n as [| n IH]; intros i; cbn [nop_fill].
  - apply keeps_shape_ret.
  - apply keeps_shape_bind; [ apply keeps_shape_wr8 | intros _; apply IH ].
Qed.

Lemma keeps_shape_adjust_mss_loop fuel ptr length :
  keeps_shape (adjust_mss_loop fuel ptr length).
Proof.
  revert ptr length. induction fuel as [| fuel IH]; intros ptr length;
    cbn [adjust_mss_loop].
  - destruct (length <=? 0);
      [ apply keeps_shape_ret | apply keeps_shape_out_of_fuel ].
  - destruct (length <=? 0); [ apply keeps_shape_ret | ].
    apply keeps_shape_bind; [ apply keeps_shape_rd8 | intros opcode ].
    destruct (opcode =? TCPOPT_EOL); [ apply keeps_shape_ret | ].
    destruct (opcode =? TCPOPT_NOP); [ apply IH | ].
    apply keeps_shape_bind; [ apply keeps_shape_rd8 | intros opsize ].
    destruct (opsize <? 2); [ apply keeps_shape_ret | ].
    destruct (opsize >? length); [ apply keeps_shape_ret | ].
    destruct (_ && _); [ | apply IH ].
    apply keeps_shape_bind; [ apply keeps_shape_rd16 | intros v ].
    apply keeps_shape_wr16.
Qed.

Lemma keeps_shape_remove_timestamp_loop fuel ptr length :
  keeps_shape (remove_timestamp_loop fuel ptr length).
Proof.
  revert ptr length. induction fuel as [| fuel IH]; intros ptr length;
    cbn [remove_timestamp_loop].
  - destruct (length <=? 0);
      [ apply keeps_shape_ret | apply keeps_shape_out_of_fuel ].
  - destruct (length <=? 0); [ apply keeps_shape_ret | ].
    apply keeps_shape_bind; [ apply keeps_shape_rd8 | intros opcode ].
    destruct (opcode =? TCPOPT_EOL); [ apply keeps_shape_ret | ].
    destruct (opcode =? TCPOPT_NOP); [ apply IH | ].
    apply keeps_shape_bind; [ apply keeps_shape_rd8 | intros opsize ].
    destruct (opsize <? 2); [ apply keeps_shape_ret | ].
    destruct (opsize >? length); [ apply keeps_shape_ret | ].
    destruct (_ && _); [ apply keeps_shape_nop_fill | apply IH ].
Qed.

Lemma keeps_shape_sack_loop fuel ptr opsize delta i :
  keeps_shape (sack_loop fuel ptr opsize delta i).
Proof.
  revert i. induction fuel as [| fuel IH]; intros i; cbn [sack_loop].
  - destruct (i <? _);
      [ apply keeps_shape_out_of_fuel | apply keeps_shape_ret ].
  - destruct (i <? _); [ | apply keeps_shape_ret ].
    apply keeps_shape_bind; [ apply keeps_shape_rd32 | intros v ].
    apply keeps_shape_bind; [ apply keeps_shape_wr32 | intros _ ].
    apply IH.
Qed.

Lemma keeps_shape_out_adjust_loop fuel delta ptr length :
  keeps_shape (out_adjust_loop fuel delta ptr length).
Proof.
  revert ptr length. induction fuel as [| fuel IH]; intros ptr length;
    cbn [out_adjust_loop].
  - destruct (length <=? 0);
      [ apply keeps_shape_ret | apply keeps_shape_out_of_fuel ].
  - destruct (length <=? 0); [ apply keeps_shape_ret | ].
    apply keeps_shape_bind; [ apply keeps_shape_rd8 | intros opcode ].
    destruct (opcode =? TCPOPT_EOL); [ apply keeps_shape_ret | ].
    destruct (opcode =? TCPOPT_NOP); [ apply IH | ].
    apply keeps_shape_bind; [ apply keeps_shape_rd8 | intros opsize ].
    destruct (opsize <? 2); [ apply keeps_shape_ret | ].
    destruct (opsize >? length); [ apply keeps_shape_ret | ].
    destruct (_ && _); [ apply keeps_shape_sack_loop | apply IH ].
Qed.

Lemma keeps_shape_tcp_opt_adjust_mss cfg tcph :
  keeps_shape (tcp_opt_adjust_mss cfg tcph).
Proof.
  unfold tcp_opt_adjust_mss.
  destruct (_ =? 0); [ apply keeps_shape_ret | apply keeps_shape_adjust_mss_loop ].
Qed.

Lemma keeps_shape_tcp_opt_remove_timestamp cfg tcph :
  keeps_shape (tcp_opt_remove_timestamp cfg tcph).
Proof.
  unfold tcp_opt_remove_timestamp.
  destruct (_ =? 0);
    [ apply keeps_shape_ret | apply keeps_shape_remove_timestamp_loop ].
Qed.

(** ** Checksums of the segments the FullNAT handlers pass on *)

Lemma segment4_set skb h d :
  segment4 skb -> length d = length (data skb) -> is_bytes d ->
  segment4 (set_data d (set_th h skb)).
Proof.
  unfold segment4, ip_hdrlen. cbn [set_data set_th iph len data].
  intros (Hi & Hl & Hm & Hp & _) El Hd. rewrite El. auto.
Qed.

Lemma is_bytes_u8 v : 0 <= u8 v < 256.
Proof. pose proof (u8_range v) as R. change (2 ^ 8) with 256 in R. exact R. Qed.

Section FnatChecksums.
Context `{Framework}.

Lemma tcp_in_init_seq_frame cfg cp tcph :
  let cp' := fst (tcp_in_init_seq cfg cp tcph) in
  af cp' = af cp /\ laddr cp' = laddr cp /\ daddr_rs cp' = daddr_rs cp
  /\ conn_protocol cp' = conn_protocol cp.
Proof.
  cbv zeta. unfold tcp_in_init_seq.
  destruct (_ || _); repeat split; reflexivity.
Qed.

Lemma tcp_opt_add_toa_cp_frame cp skb ok :
  let cp' := fst (fst (tcp_opt_add_toa cp skb ok)) in
  af cp' = af cp /\ laddr cp' = laddr cp /\ daddr_rs cp' = daddr_rs cp
  /\ conn_protocol cp' = conn_protocol cp.
Proof.
  cbv zeta. unfold tcp_opt_add_toa.
  destruct (negb (af cp =? AF_INET)); [ repeat split; reflexivity | ].
  destruct (after _ _); [ repeat split; reflexivity | ].
  destruct (len skb >? _); [ repeat split; reflexivity | ].
  destruct (negb ok); repeat split; reflexivity.
Qed.

Lemma is_bytes_toa_option cp : is_bytes (toa_option cp).
Proof.
  unfold toa_option, be16_bytes, be32_bytes, is_bytes. cbn [app].
  repeat (apply Forall_cons; [ apply is_bytes_u8 | ]). apply Forall_nil.
Qed.

(** The buffer [tcp_opt_add_toa] returns is a consistent segment with the
    same IP header length, whether it appended the option or not. *)
Lemma tcp_opt_add_toa_segment cp skb ok :
  segment4 skb -> len skb + sizeof_ip_vs_tcpo_addr < 2 ^ 16 ->
  let skb' := snd (fst (tcp_opt_add_toa cp skb ok)) in
  segment4 skb' /\ ihl (iph skb') = ihl (iph skb).
Proof.
  intros Hs Hroom. cbv zeta. unfold tcp_opt_add_toa.
  destruct (negb (af cp =? AF_INET)); [ split; [ exact Hs | reflexivity ] | ].
  destruct (after _ _); [ split; [ exact Hs | reflexivity ] | ].
  destruct (len skb >? _); [ split; [ exact Hs | reflexivity ] | ].
  destruct (negb ok); [ split; [ exact Hs | reflexivity ] | ].
  cbn [fst snd]. split; [ | reflexivity ].
  destruct Hs as (Hi & Hl & Hm & Hp & Hb).
  unfold segment4, ip_hdrlen in *.
  cbn [iph len data ihl protocol ip_send_check set_ip_check set_tot_len].
  split; [ exact Hi | ]. split.
  - rewrite length_app.
    change (length (toa_option cp)) with 8%nat.
    unfold sizeof_ip_vs_tcpo_addr. lia.
  - split; [ exact Hroom | ]. split; [ exact Hp | ].
    apply Forall_app. split; [ apply is_bytes_toa_option | exact Hb ].
Qed.

(** Every segment of an IPv4 flow without helper that
    [tcp_fnat_in_handler] passes on carries a TCP checksum that is good
    for the addresses it is sent with, local address to real server:
    whatever the handler did to ports, options and sequence number, and
    whether or not it appended the client-address option.  Of the SYN-proxy
    hook it is assumed that it keeps the bytes after the header bytes, and
    as many.  The handler has no result only when the timestamp walk
    leaves the buffer. *)
Theorem tcp_fnat_in_handler_checksum cfg skb cp o :
  (forall th bs s, is_bytes bs ->
      length (snd (ip_vs_synproxy_dnat_handler th bs s)) = length bs
      /\ is_bytes (snd (ip_vs_synproxy_dnat_handler th bs s))) ->
  af cp = AF_INET -> app cp = None -> conn_protocol cp = IPPROTO_TCP ->
  segment4 skb -> len skb + sizeof_ip_vs_tcpo_addr < 2 ^ 16 ->
  match tcp_fnat_in_handler cfg skb cp o with
  | Ok (r, _, skb', _) =>
    r = 0
    \/ csum_verifies AF_INET (with_addrs (laddr cp) (daddr_rs cp) skb') = true
  | Fault _ => True
  | Fuel => False
  end.
Proof.
  intros Hdnat Haf Happ Hproto Hseg Hroom.
  unfold tcp_fnat_in_handler, app_stage. rewrite Happ, Haf.
  change (AF_INET =? AF_INET6) with false. cbv iota.
  destruct (negb (writable o)); [ left; reflexivity | ].
  set (skb1 := set_th (set_dest (dport cp) (set_source (lport cp) (tcp_hdr skb))) skb).
  assert (S1 : segment4 skb1) by exact Hseg.
  assert (K : forall cp1 skb2 ev1,
             (af cp1 = af cp /\ laddr cp1 = laddr cp
              /\ daddr_rs cp1 = daddr_rs cp
              /\ conn_protocol cp1 = conn_protocol cp) ->
             segment4 skb2 -> len skb2 = len skb ->
             ihl (iph skb2) = ihl (iph skb) ->
             match
               (let '(cp2, skb3, ev2) :=
                  if (sysctl_ip_vs_toa_entry cfg =? 1)
                     && (Z.land (flags cp1) IP_VS_CONN_F_CIP_INSERTED =? 0)
                     && negb (rst (tcp_hdr skb2)) && negb (fin (tcp_hdr skb2))
                  then tcp_opt_add_toa cp1 skb2 (copy_ok o)
                  else (cp1, skb2, []) in
                let '(tcph, bs) :=
                  tcp_in_adjust_seq cp2 (tcp_hdr skb3) (data skb3) in
                let skb4 := set_data bs (set_th tcph skb3) in
                let skb5 := full_csum (af cp2) (laddr cp2) (daddr_rs cp2)
                              (conn_protocol cp2) (ip_hdrlen skb) skb4 in
                let skb6 := set_ip_summed CHECKSUM_UNNECESSARY skb5 in
                @Ok handled (1, cp2, skb6, ev1 ++ ev2))
             with
             | Ok (r, _, skb', _) =>
               r = 0
               \/ csum_verifies AF_INET
                    (with_addrs (laddr cp) (daddr_rs cp) skb') = true
             | Fault _ => True
             | Fuel => False
             end).
  { intros cp1 skb2 ev1 (F1 & F2 & F3 & F4) S2 L2 I2.
    assert (T : exists cp2 skb3 ev2,
               (if (sysctl_ip_vs_toa_entry cfg =? 1)
                   && (Z.land (flags cp1) IP_VS_CONN_F_CIP_INSERTED =? 0)
                   && negb (rst (tcp_hdr skb2)) && negb (fin (tcp_hdr skb2))
                then tcp_opt_add_toa cp1 skb2 (copy_ok o)
                else (cp1, skb2, [])) = (cp2, skb3, ev2)
               /\ (af cp2 = af cp /\ laddr cp2 = laddr cp
                   /\ daddr_rs cp2 = daddr_rs cp
                   /\ conn_protocol cp2 = conn_protocol cp)
               /\ segment4 skb3 /\ ihl (iph skb3) = ihl (iph skb)).
    { destruct (_ && _).
      - pose proof (tcp_opt_add_toa_cp_frame cp1 skb2 (copy_ok o)) as G.
        pose proof (tcp_opt_add_toa_segment cp1 skb2 (copy_ok o) S2
                      ltac:(rewrite L2; exact Hroom)) as G'.
        cbv zeta in G, G'.
        destruct (tcp_opt_add_toa cp1 skb2 (copy_ok o)) as [[cp2 skb3] ev2].
        cbn [fst snd] in G, G'. destruct G as (G1 & G2 & G3 & G4).
        destruct G' as (G5 & G6).
        exists cp2, skb3, ev2. split; [ reflexivity | ].
        split; [ | split; [ exact G5 | congruence ] ].
        repeat split; congruence.
      - exists cp1, skb2, []. split; [ reflexivity | ].
        split; [ repeat split; assumption | split; assumption ]. }
    destruct T as (cp2 & skb3 & ev2 & E & (A1 & A2 & A3 & A4) & S3 & I3).
    rewrite E. unfold tcp_in_adjust_seq.
    pose proof (Hdnat (set_seq (u32 (seq (tcp_hdr skb3) + delta (fnat_seq cp2)))
                         (tcp_hdr skb3)) (data skb3) (syn_proxy_seq cp2)
                  (proj2 (proj2 (proj2 (proj2 S3))))) as [D1 D2].
    destruct (ip_vs_synproxy_dnat_handler _ _ _) as [tcph bs].
    cbn [snd] in D1, D2. right. cbv zeta.
    rewrite A1, A2, A3, A4, Haf, Hproto.
    pose proof (segment4_set skb3 tcph bs S3 D1 D2) as S4.
    set (skb4 := set_data bs (set_th tcph skb3)) in *.
    assert (E4 : ip_hdrlen skb = ip_hdrlen skb4).
    { unfold ip_hdrlen. change (iph skb4) with (iph skb3). rewrite I3.
      reflexivity. }
    rewrite E4. clearbody skb4.
    apply full_csum_verifies. exact S4. }
  destruct (syn (tcp_hdr skb1) && negb (ack (tcp_hdr skb1))).
  - pose proof (tcp_opt_remove_timestamp_terminates cfg (tcp_hdr skb1)
                  (mk_optmem (data skb1) [])) as T.
    pose proof (keeps_shape_tcp_opt_remove_timestamp cfg (tcp_hdr skb1)
                  (mk_optmem (data skb1) [])
                  (proj2 (proj2 (proj2 (proj2 S1))))) as Sh.
    unfold run.
    destruct (tcp_opt_remove_timestamp cfg (tcp_hdr skb1)
                (mk_optmem (data skb1) [])) as [[u m] | t |];
      [ | exact I | apply T; reflexivity ].
    cbn [bytes] in Sh. destruct Sh as [Sl Sb].
    pose proof (tcp_in_init_seq_frame cfg cp (tcp_hdr (set_data (bytes m) skb1)))
      as G.
    cbv zeta in G.
    destruct (tcp_in_init_seq cfg cp _) as [cp1 ev1]. cbn [fst] in G.
    apply (K cp1 (set_data (bytes m) skb1) ev1 G).
    + apply (segment4_set skb1 (tcp_hdr skb1) (bytes m) S1 Sl Sb).
    + reflexivity.
    + reflexivity.
  - apply (K cp skb1 []); [ repeat split | exact S1 | | ]; reflexivity.
Qed.

Lemma tcp_out_adjust_seq_shape cp tcph m :
  (forall th bs c, is_bytes bs ->
      length (snd (snd (ip_vs_synproxy_snat_handler th bs c))) = length bs
      /\ is_bytes (snd (snd (ip_vs_synproxy_snat_handler th bs c)))) ->
  is_bytes (bytes m) ->
  match tcp_out_adjust_seq cp tcph m with
  | Ok (_, m') => length (bytes m') = length (bytes m) /\ is_bytes (bytes m')
  | Fault _ => True
  | Fuel => False
  end.
Proof.
  intros Hsnat Hm.
  pose proof (tcp_out_adjust_seq_terminates cp tcph m) as T.
  revert T. unfold tcp_out_adjust_seq.
  specialize (Hsnat tcph (bytes m) cp Hm).
  destruct (ip_vs_synproxy_snat_handler tcph (bytes m) cp) as [r [th' bs']].
  cbn [snd] in Hsnat. destruct Hsnat as [L B].
  destruct (r =? 0); [ intros _; cbn [bytes]; split; assumption | ].
  set (tcph2 := set_ack_seq _ th').
  pose proof (keeps_shape_out_adjust_loop
                (Z.to_nat (doff tcph2 * 4 - sizeof_tcphdr))
                (delta (fnat_seq cp)) 0 (doff tcph2 * 4 - sizeof_tcphdr)
                (mk_optmem bs' (trace m)) B) as Sh.
  unfold bind.
  destruct (out_adjust_loop _ _ _ _ _) as [[u m'] | t |]; intros T.
  - cbn [ret bytes] in *. destruct Sh as [L' B']. split; [ congruence | exact B' ].
  - exact I.
  - apply T. reflexivity.
Qed.

(** Every segment of an IPv4 flow without helper that
    [tcp_fnat_out_handler] passes on carries a TCP checksum that is good
    for the addresses it is sent with, virtual address to client.  Of the
    SYN-proxy hook it is assumed that it keeps the bytes after the header
    bytes, and as many.  The handler has no result only when an option
    walk leaves the buffer. *)
Theorem tcp_fnat_out_handler_checksum cfg skb cp w :
  (forall th bs c, is_bytes bs ->
      length (snd (snd (ip_vs_synproxy_snat_handler th bs c))) = length bs
      /\ is_bytes (snd (snd (ip_vs_synproxy_snat_handler th bs c)))) ->
  af cp = AF_INET -> app cp = None -> conn_protocol cp = IPPROTO_TCP ->
  segment4 skb ->
  match tcp_fnat_out_handler cfg skb cp w with
  | Ok (r, _, skb', _) =>
    r = 0
    \/ csum_verifies AF_INET (with_addrs (vaddr cp) (caddr cp) skb') = true
  | Fault _ => True
  | Fuel => False
  end.
Proof.
  intros Hsnat Haf Happ Hproto Hseg.
  unfold tcp_fnat_out_handler, app_stage. rewrite Happ, Haf.
  change (AF_INET =? AF_INET6) with false. cbv iota.
  destruct (negb w); [ left; reflexivity | ].
  pose proof (tcp_save_out_seq_frame cfg skb cp (tcp_hdr skb) (ip_hdrlen skb))
    as F.
  cbv zeta in F.
  set (cp1 := tcp_save_out_seq cfg skb cp (tcp_hdr skb) _) in *.
  destruct F as (Faf & _ & _ & _ & _ & Fva & _ & Fca & Fpr & _).
  clearbody cp1.
  set (skb1 := set_th (set_dest (cport cp1) (set_source (vport cp1) (tcp_hdr skb))) skb).
  assert (S1 : segment4 skb1) by exact Hseg.
  assert (K : forall m,
             is_bytes (bytes m) -> length (bytes m) = length (data skb1) ->
             match
               match tcp_out_adjust_seq cp1 (tcp_hdr skb1) m with
               | Ok (r, tcph, m0) =>
                 let skb2 := set_data (bytes m0) (set_th tcph skb1) in
                 if r =? 0 then @Ok handled (0, cp1, skb2, [])
                 else Ok (1, cp1,
                          full_csum (af cp1) (vaddr cp1) (caddr cp1)
                            (conn_protocol cp1) (ip_hdrlen skb) skb2, [])
               | Fault t => Fault t
               | Fuel => Fuel
               end
             with
             | Ok (r, _, skb', _) =>
               r = 0
               \/ csum_verifies AF_INET
                    (with_addrs (vaddr cp) (caddr cp) skb') = true
             | Fault _ => True
             | Fuel => False
             end).
  { intros m Bm Lm.
    pose proof (tcp_out_adjust_seq_shape cp1 (tcp_hdr skb1) m Hsnat Bm) as Sh.
    destruct (tcp_out_adjust_seq cp1 (tcp_hdr skb1) m)
      as [[[r tcph] m0] | t |]; [ | exact I | exact Sh ].
    destruct Sh as [L0 B0]. cbv zeta.
    destruct (r =? 0); [ left; reflexivity | right ].
    rewrite Faf, Fva, Fca, Fpr, Haf, Hproto.
    pose proof (segment4_set skb1 tcph (bytes m0) S1
                  ltac:(congruence) B0) as S2.
    set (skb2 := set_data (bytes m0) (set_th tcph skb1)) in *.
    change (ip_hdrlen skb) with (ip_hdrlen skb2). clearbody skb2.
    rewrite <- (csum_verifies_set_ip_summed AF_INET (ip_summed skb2)).
    rewrite <- with_addrs_set_ip_summed.
    apply full_csum_verifies. exact S2. }
  destruct (syn (tcp_hdr skb1) && ack (tcp_hdr skb1)).
  - pose proof (tcp_opt_adjust_mss_terminates cfg (tcp_hdr skb1)
                  (mk_optmem (data skb1) [])) as T.
    pose proof (keeps_shape_tcp_opt_adjust_mss cfg (tcp_hdr skb1)
                  (mk_optmem (data skb1) [])
                  (proj2 (proj2 (proj2 (proj2 S1))))) as Sh.
    unfold run.
    destruct (tcp_opt_adjust_mss cfg (tcp_hdr skb1) (mk_optmem (data skb1) []))
      as [[u m] | t |]; [ | exact I | apply T; reflexivity ].
    cbn [bytes] in Sh. destruct Sh as [Sl Sb]. exact (K m Sb Sl).
  - apply (K (mk_optmem (data skb1) [])); [ | reflexivity ].
    exact (proj2 (proj2 (proj2 (proj2 S1)))).
Qed.

End FnatChecksums.

(* ===================================================================== *)
(** ** State machine                                                      *)
(* ===================================================================== *)

Lemma tcp_timeout_change_cases flagsw :
  tcp_timeout_change flagsw = tcp_states
  \/ tcp_timeout_change flagsw = tcp_states_dos.
Proof.
  unfold tcp_timeout_change. destruct (negb _); [ right | left ]; reflexivity.
Qed.

Lemma effective_off_cases cp d :
  effective_off cp d = TCP_DIR_INPUT \/ effective_off cp d = TCP_DIR_OUTPUT
  \/ effective_off cp d = TCP_DIR_INPUT_ONLY.
Proof.
  unfold effective_off.
  destruct (negb _); destruct d; cbn; auto.
Qed.

Lemma tcp_state_idx_cases th :
  tcp_state_idx th = -1 \/ tcp_state_idx th = 0 \/ tcp_state_idx th = 1
  \/ tcp_state_idx th = 2 \/ tcp_state_idx th = 3.
Proof.
  unfold tcp_state_idx. destruct (rst th), (syn th), (fin th), (ack th); auto.
Qed.

(** No transition leads to NONE, and none leads into LISTEN: after
    [tcp_state_transition], under either table, a flow is in NONE only if
    it was in NONE and the header could not be read, and it is in LISTEN
    only if it was in LISTEN before. *)
Theorem tcp_state_transition_never_enters_none_or_listen
    (flagsw : Z) (tt : list Z) (cp : ip_vs_conn) (d : direction)
    (skb : sk_buff) :
  let r := tcp_state_transition (tcp_timeout_change flagsw) tt cp d skb in
  (state (snd r) = IP_VS_TCP_S_NONE ->
   state cp = IP_VS_TCP_S_NONE /\ fst r = 0)
  /\ (state (snd r) = IP_VS_TCP_S_LISTEN -> state cp = IP_VS_TCP_S_LISTEN).
Proof.
  cbv zeta. unfold tcp_state_transition.
  destruct (_ <? sizeof_tcphdr); cbn [fst snd].
  - split; auto.
  - rewrite set_tcp_state_state.
    destruct (tcp_timeout_change_cases flagsw) as [Et | Et]; rewrite Et;
      destruct (effective_off_cases cp d) as [Eo | [Eo | Eo]]; rewrite Eo;
      destruct (tcp_state_idx_cases (tcp_hdr skb))
        as [Ei | [Ei | [Ei | [Ei | Ei]]]]; rewrite Ei;
      destruct (state cp); cbn; split; intros E; try discriminate E;
      try reflexivity.
Qed.

(** A closed flow is revived only by a SYN: from CLOSE, under either table
    and in every direction, [tcp_state_transition] leaves the flow in
    CLOSE unless the header could be read and has SYN set and RST clear. *)
Theorem closed_flow_is_revived_only_by_syn
    (flagsw : Z) (tt : list Z) (cp : ip_vs_conn) (d : direction)
    (skb : sk_buff) :
  state cp = IP_VS_TCP_S_CLOSE ->
  let r := tcp_state_transition (tcp_timeout_change flagsw) tt cp d skb in
  state (snd r) <> IP_VS_TCP_S_CLOSE
  <-> fst r = 1 /\ syn (tcp_hdr skb) = true /\ rst (tcp_hdr skb) = false.
Proof.
  intros Hst. cbv zeta. unfold tcp_state_transition.
  destruct (_ <? sizeof_tcphdr); cbn [fst snd].
  - split; [ intros N; contradiction | intros (E & _); discriminate E ].
  - rewrite set_tcp_state_state, Hst. unfold tcp_state_idx.
    destruct (tcp_timeout_change_cases flagsw) as [Et | Et]; rewrite Et;
      destruct (effective_off_cases cp d) as [Eo | [Eo | Eo]]; rewrite Eo;
      destruct (rst (tcp_hdr skb)), (syn (tcp_hdr skb)), (fin (tcp_hdr skb)),
        (ack (tcp_hdr skb)); cbn;
      (split;
       [ intros N;
         first [ exfalso; apply N; reflexivity | repeat split; reflexivity ]
       | intros (_ & E1 & E2) E;
         first [ discriminate E1 | discriminate E2 | discriminate E ] ]).
Qed.

(** An established flow stays established exactly on the segments that
    are classified SYN or ACK: from ESTABLISHED, under either table and in
    every direction, the flow is still in ESTABLISHED after
    [tcp_state_transition] if and only if the header could not be read, or
    RST is clear and either SYN is set or ACK is set with FIN clear. *)
Theorem established_flow_left_only_by_fin_or_rst
    (flagsw : Z) (tt : list Z) (cp : ip_vs_conn) (d : direction)
    (skb : sk_buff) :
  state cp = IP_VS_TCP_S_ESTABLISHED ->
  let r := tcp_state_transition (tcp_timeout_change flagsw) tt cp d skb in
  state (snd r) = IP_VS_TCP_S_ESTABLISHED
  <-> fst r = 0
      \/ (rst (tcp_hdr skb) = false
          /\ (syn (tcp_hdr skb) = true
              \/ (fin (tcp_hdr skb) = false /\ ack (tcp_hdr skb) = true))).
Proof.
  intros Hst. cbv zeta. unfold tcp_state_transition.
  destruct (_ <? sizeof_tcphdr); cbn [fst snd].
  - split; [ intros _; left; reflexivity | intros _; exact Hst ].
  - rewrite set_tcp_state_state, Hst. unfold tcp_state_idx.
    destruct (tcp_timeout_change_cases flagsw) as [Et | Et]; rewrite Et;
      destruct (effective_off_cases cp d) as [Eo | [Eo | Eo]]; rewrite Eo;
      destruct (rst (tcp_hdr skb)), (syn (tcp_hdr skb)), (fin (tcp_hdr skb)),
        (ack (tcp_hdr skb)); cbn;
      (split;
       [ intros E;
         first [ discriminate E
               | right; split; [ reflexivity | left; reflexivity ]
               | right; split; [ reflexivity | right; split; reflexivity ] ]
       | intros [E | (E1 & [E2 | (E2 & E3)])];
         first [ discriminate E | discriminate E1 | discriminate E2
               | discriminate E3 | reflexivity ] ]).
Qed.

Lemma land_lor_other f : Z.land (Z.lor f 256) 128 = Z.land f 128.
Proof.
  rewrite Z.land_lor_distr_l. change (Z.land 256 128) with 0.
  apply Z.lor_0_r.
Qed.

Lemma land_clear_other f : Z.land (Z.land f (Z.lnot 256)) 128 = Z.land f 128.
Proof.
  rewrite <- Z.land_assoc. change (Z.land (Z.lnot 256) 128) with 128.
  reflexivity.
Qed.

Lemma land_clear_nooutput f : Z.land (Z.land f (Z.lnot 128)) 256 = Z.land f 256.
Proof.
  rewrite <- Z.land_assoc. change (Z.land (Z.lnot 128) 256) with 256.
  reflexivity.
Qed.

(** [set_tcp_state] keeps the two counters of the destination in step
    with [IP_VS_CONN_F_INACTIVE]: the flow is counted in [activeconns]
    while the flag is clear and in [inactconns] while it is set, so what
    the other flows contribute to the two counters is left as it was; and
    after a change of state the flag is clear exactly when the new state
    is ESTABLISHED. *)
Theorem set_tcp_state_counts_the_flow_once
    (tbl : list tcp_states_t) (tt : list Z) (cp : ip_vs_conn)
    (d : direction) (th : tcphdr) (dest : ip_vs_dest) :
  conn_dest cp = Some dest ->
  let cp' := set_tcp_state tbl tt cp d th in
  exists dest',
    conn_dest cp' = Some dest'
    /\ activeconns dest' - active_share cp'
       = activeconns dest - active_share cp
    /\ inactconns dest' + active_share cp'
       = inactconns dest + active_share cp
    /\ (state cp' <> state cp ->
        (active_share cp' = 1 <-> state cp' = IP_VS_TCP_S_ESTABLISHED)).
Proof.
  intros Hd. cbv zeta.
  assert (Ens : forall ns cp0,
             flags cp0 = flags cp
             \/ flags cp0 = Z.land (flags cp) (Z.lnot IP_VS_CONN_F_NOOUTPUT) ->
             state cp0 = state cp -> conn_dest cp0 = Some dest ->
             let cp1 :=
               if negb (tcp_state_eqb ns (state cp0)) then
                 match conn_dest cp0 with
                 | Some dest0 =>
                   if (Z.land (flags cp0) IP_VS_CONN_F_INACTIVE =? 0)
                      && negb (tcp_state_eqb ns IP_VS_TCP_S_ESTABLISHED)
                   then set_conn_dest
                          (Some (mk_dest (activeconns dest0 - 1)
                                   (inactconns dest0 + 1)))
                          (set_flags
                             (Z.lor (flags cp0) IP_VS_CONN_F_INACTIVE) cp0)
                   else if negb (Z.land (flags cp0) IP_VS_CONN_F_INACTIVE =? 0)
                           && tcp_state_eqb ns IP_VS_TCP_S_ESTABLISHED
                   then set_conn_dest
                          (Some (mk_dest (activeconns dest0 + 1)
                                   (inactconns dest0 - 1)))
                          (set_flags
                             (Z.land (flags cp0)
                                (Z.lnot IP_VS_CONN_F_INACTIVE)) cp0)
                   else cp0
                 | None => cp0
                 end
               else cp0 in
             exists dest',
               conn_dest cp1 = Some dest'
               /\ activeconns dest' - active_share cp1
                  = activeconns dest - active_share cp
               /\ inactconns dest' + active_share cp1
                  = inactconns dest + active_share cp
               /\ (ns <> state cp ->
                   (active_share cp1 = 1 <-> ns = IP_VS_TCP_S_ESTABLISHED))).
  { intros ns cp0 Hf Hs Hd0. cbv zeta. rewrite Hs, Hd0.
    assert (Hland : Z.land (flags cp0) IP_VS_CONN_F_INACTIVE
                    = Z.land (flags cp) IP_VS_CONN_F_INACTIVE).
    { destruct Hf as [-> | ->]; [ reflexivity | ].
      unfold IP_VS_CONN_F_INACTIVE, IP_VS_CONN_F_NOOUTPUT.
      apply land_clear_nooutput. }
    assert (Hsh : active_share cp0 = active_share cp).
    { unfold active_share. rewrite Hland. reflexivity. }
    destruct (tcp_state_eqb ns (state cp)) eqn:Eeq; cbn [negb].
    - apply tcp_state_eqb_eq in Eeq. exists dest.
      rewrite Hd0, Hsh. repeat split; try reflexivity; contradiction.
    - assert (Nes : ns = IP_VS_TCP_S_ESTABLISHED
                    <-> tcp_state_eqb ns IP_VS_TCP_S_ESTABLISHED = true)
        by (symmetry; apply tcp_state_eqb_eq).
      unfold active_share in *. rewrite Hland in *.
      destruct (Z.land (flags cp) IP_VS_CONN_F_INACTIVE =? 0) eqn:Ef;
        destruct (tcp_state_eqb ns IP_VS_TCP_S_ESTABLISHED) eqn:Ee;
        cbn [negb andb].
      + exists dest. rewrite Hd0, Hland, Ef.
        repeat split; try reflexivity; intros; apply Nes; reflexivity.
      + eexists. cbn [conn_dest set_conn_dest set_flags flags].
        split; [ reflexivity | ]. cbn [activeconns inactconns].
        unfold IP_VS_CONN_F_INACTIVE. rewrite land_lor_same.
        change (256 =? 0) with false. cbv iota.
        repeat split; try lia; intros E; try discriminate E.
        apply Nes in E. discriminate E.
      + eexists. cbn [conn_dest set_conn_dest set_flags flags].
        split; [ reflexivity | ]. cbn [activeconns inactconns].
        unfold IP_VS_CONN_F_INACTIVE. rewrite land_clear_same.
        change (0 =? 0) with true. cbv iota.
        repeat split; try lia; intros; apply Nes; reflexivity.
      + exists dest. rewrite Hd0, Hland, Ef.
        repeat split; try reflexivity; intros E; try discriminate E.
        apply Nes in E. discriminate E. }
  unfold set_tcp_state.
  destruct (negb (Z.land (flags cp) IP_VS_CONN_F_NOOUTPUT =? 0));
    [ destruct (tcp_state_off d =? TCP_DIR_OUTPUT) | ];
    cbv zeta beta iota;
    match goal with
    | |- context [set_state ?ns (state ?c1) _ ?c1] =>
      match c1 with
      | context [negb (tcp_state_eqb ns (state ?c0))] =>
        exact (Ens ns c0 ltac:(first [ left; reflexivity | right; reflexivity ])
                 eq_refl Hd)
      end
    end.
Qed.


Lemma set_tcp_state_keeps_nooutput_clear tbl tt cp d th :
  Z.land (flags cp) IP_VS_CONN_F_NOOUTPUT = 0 ->
  Z.land (flags (set_tcp_state tbl tt cp d th)) IP_VS_CONN_F_NOOUTPUT = 0.
Proof.
  intros Hn. unfold set_tcp_state. rewrite Hn.
  change (negb (0 =? 0)) with false. cbv iota zeta beta.
  cbn [flags set_state].
  destruct (negb (tcp_state_eqb _ (state cp))); [ | exact Hn ].
  destruct (conn_dest cp) as [dest |]; [ | exact Hn ].
  destruct (_ && _).
  - cbn [flags set_conn_dest set_flags].
    unfold IP_VS_CONN_F_INACTIVE, IP_VS_CONN_F_NOOUTPUT in *.
    rewrite land_lor_other. exact Hn.
  - destruct (_ && _); [ | exact Hn ].
    cbn [flags set_conn_dest set_flags].
    unfold IP_VS_CONN_F_INACTIVE, IP_VS_CONN_F_NOOUTPUT in *.
    rewrite land_clear_other. exact Hn.
Qed.

Lemma secure_input_step tt cp skb :
  unanswered (state cp) = true ->
  Z.land (flags cp) IP_VS_CONN_F_NOOUTPUT = 0 ->
  let cp' := snd (tcp_state_transition tcp_states_dos tt cp
                    IP_VS_DIR_INPUT skb) in
  unanswered (state cp') = true
  /\ Z.land (flags cp') IP_VS_CONN_F_NOOUTPUT = 0.
Proof.
  intros Hu Hn. cbv zeta. unfold tcp_state_transition.
  destruct (_ <? sizeof_tcphdr); cbn [snd]; [ split; assumption | ].
  split; [ | apply set_tcp_state_keeps_nooutput_clear; exact Hn ].
  rewrite set_tcp_state_state. unfold effective_off. rewrite Hn.
  change (negb (0 =? 0)) with false. cbv iota.
  destruct (tcp_state_idx_cases (tcp_hdr skb))
    as [Ei | [Ei | [Ei | [Ei | Ei]]]]; rewrite Ei;
    destruct (state cp); try discriminate Hu; reflexivity.
Qed.

(** Under the secure table the client cannot establish a flow on its own:
    a flow that starts in NONE with [IP_VS_CONN_F_NOOUTPUT] clear and sees
    only INPUT segments, whatever their flags and however many, is never
    in ESTABLISHED; it stays among NONE, SYN_RECV, TIME_WAIT and CLOSE. *)
Theorem secure_table_input_alone_never_establishes
    (tt : list Z) (cp : ip_vs_conn) (skbs : list sk_buff) :
  state cp = IP_VS_TCP_S_NONE ->
  Z.land (flags cp) IP_VS_CONN_F_NOOUTPUT = 0 ->
  Forall (fun cp' => unanswered (state cp') = true
                     /\ state cp' <> IP_VS_TCP_S_ESTABLISHED)
    (transition_run tcp_states_dos tt IP_VS_DIR_INPUT cp skbs).
Proof.
  intros Hst Hn.
  assert (Hu : unanswered (state cp) = true) by (rewrite Hst; reflexivity).
  clear Hst. revert cp Hu Hn.
  induction skbs as [| skb rest IH]; intros cp Hu Hn; cbn [transition_run].
  - constructor.
  - destruct (secure_input_step tt cp skb Hu Hn) as [Hu' Hn'].
    constructor.
    + split; [ exact Hu' | ]. intros E. rewrite E in Hu'. discriminate Hu'.
    + apply IH; assumption.
Qed.

(** Under the normal table two segments of the client are enough: a SYN
    and then an ACK bring a fresh flow to ESTABLISHED. *)
Example normal_table_input_alone_establishes :
  map state
    (transition_run tcp_states (sysctl_ip_vs_tcp_timeouts 1000) IP_VS_DIR_INPUT
       (flow4 0 IP_VS_TCP_S_NONE (mk_seq 0 0 0))
       [ skb4 (hdr 100 0 5 false true false false) [];
         skb4 (hdr 101 1 5 false false false true) [] ])
  = [IP_VS_TCP_S_SYN_RECV; IP_VS_TCP_S_ESTABLISHED].
Proof. reflexivity. Qed.

Module StateNameFacts.
Import String.

(** [tcp_state_name] tells the states apart: the names of the eleven
    states are pairwise different, none of them is one of the three
    placeholders, and every number from [IP_VS_TCP_S_LAST] on is named
    ["ERR!"]. *)
Theorem tcp_state_name_tells_states_apart :
  (forall a b : tcp_state,
      StateNames.tcp_state_name (Z.of_nat (state_index a))
      = StateNames.tcp_state_name (Z.of_nat (state_index b)) -> a = b)
  /\ (forall a : tcp_state,
         let n := StateNames.tcp_state_name (Z.of_nat (state_index a)) in
         n <> "ERR!"%string /\ n <> "BUG!"%string /\ n <> "?"%string)
  /\ (forall s : Z,
         IP_VS_TCP_S_LAST <= s -> StateNames.tcp_state_name s = "ERR!"%string).
Proof.
  split; [ | split ].
  - intros a b E. destruct a, b; try reflexivity; cbv in E; discriminate E.
  - intros a. cbv zeta. destruct a; cbv; repeat split; intros E; discriminate E.
  - intros s Hs. unfold StateNames.tcp_state_name.
    destruct (Z.geb_spec s IP_VS_TCP_S_LAST) as [_ | N]; [ reflexivity | lia ].
Qed.

End StateNameFacts.

(* ===================================================================== *)
(** ** Scheduling gate                                                    *)
(* ===================================================================== *)

Section GateFacts.
Context `{Framework}.

(** [tcp_conn_schedule] hands back every service it gets: on every path
    the services handed to [ip_vs_service_put] or [ip_vs_leave] are the
    services [ip_vs_service_get] returned, each once, and there is at most
    one. *)
Theorem tcp_conn_schedule_hands_back_the_service
    (cfg : sysctl) (af : Z) (skb : sk_buff) (verdict : Z)
    (cpp : option ip_vs_conn) :
  let calls := sched_calls (tcp_conn_schedule cfg af skb verdict cpp) in
  handed_back calls = acquired calls /\ (length (acquired calls) <= 1)%nat.
Proof.
  cbv zeta. unfold tcp_conn_schedule.
  destruct (_ <? sizeof_tcphdr); [ split; [ reflexivity | cbn; lia ] | ].
  destruct (ip_vs_synproxy_ack_rcv af skb cpp verdict) as [[r cpp'] v'].
  destruct (r =? 0); [ split; [ reflexivity | cbn; lia ] | ].
  destruct (syn (tcp_hdr skb) && negb (ack (tcp_hdr skb))
            && negb (fin (tcp_hdr skb)) && negb (rst (tcp_hdr skb))).
  - destruct (ip_vs_service_get _ _ _ _ _) as [svc |].
    + destruct ip_vs_todrop; [ split; [ reflexivity | cbn; lia ] | ].
      destruct (ip_vs_schedule svc skb 0);
        split; try reflexivity; cbn; lia.
    + destruct (negb _); [ | split; [ reflexivity | cbn; lia ] ].
      destruct (ip_vs_lookup_vip _ _ _); split; try reflexivity; cbn; lia.
  - destruct (negb _); [ | split; [ reflexivity | cbn; lia ] ].
    destruct (ip_vs_lookup_vip _ _ _); split; try reflexivity; cbn; lia.
Qed.

(** A return value of 0 always comes with a verdict: when
    [tcp_conn_schedule] returns 0, either the SYN-proxy hook returned 0
    and the verdict is what the hook left, or the verdict is [NF_DROP], or
    it is the answer of [ip_vs_leave] for the service that matched.  When
    it returns anything else it returns 1 and the verdict is as the hook
    left it. *)
Theorem tcp_conn_schedule_verdict
    (cfg : sysctl) (af : Z) (skb : sk_buff) (verdict : Z)
    (cpp : option ip_vs_conn) :
  let r := tcp_conn_schedule cfg af skb verdict cpp in
  let hook := ip_vs_synproxy_ack_rcv af skb cpp verdict in
  (sched_ret r = 0 ->
   (fst (fst hook) = 0 /\ sched_verdict r = snd hook)
   \/ sched_verdict r = NF_DROP
   \/ exists svc, In (Leave svc) (sched_calls r)
                  /\ sched_verdict r = ip_vs_leave svc skb)
  /\ (sched_ret r <> 0 -> sched_ret r = 1 /\ sched_verdict r = snd hook).
Proof.
  cbv zeta. unfold tcp_conn_schedule.
  destruct (_ <? sizeof_tcphdr);
    [ split; [ intros _; right; left; reflexivity | intros N; now elim N ] | ].
  destruct (ip_vs_synproxy_ack_rcv af skb cpp verdict) as [[r cpp'] v'].
  cbn [fst snd].
  destruct (Z.eqb_spec r 0) as [E | E];
    [ split; [ intros _; left; split; [ exact E | reflexivity ]
             | intros N; now elim N ] | ].
  destruct (syn (tcp_hdr skb) && negb (ack (tcp_hdr skb))
            && negb (fin (tcp_hdr skb)) && negb (rst (tcp_hdr skb))).
  - destruct (ip_vs_service_get _ _ _ _ _) as [svc |].
    + destruct ip_vs_todrop;
        [ split; [ intros _; right; left; reflexivity | intros N; now elim N ] | ].
      destruct (ip_vs_schedule svc skb 0); cbn [sched_ret sched_verdict sched_calls].
      * split; [ intros N; discriminate N | intros _; split; reflexivity ].
      * split; [ | intros N; now elim N ].
        intros _. right. right. exists svc. split; [ | reflexivity ].
        cbn. auto.
    + destruct (negb _);
        [ | split; [ intros N; discriminate N | intros _; split; reflexivity ] ].
      destruct (ip_vs_lookup_vip _ _ _); cbn [sched_ret sched_verdict].
      * split; [ intros _; right; left; reflexivity | intros N; now elim N ].
      * split; [ intros N; discriminate N | intros _; split; reflexivity ].
  - destruct (negb _);
      [ | split; [ intros N; discriminate N | intros _; split; reflexivity ] ].
    destruct (ip_vs_lookup_vip _ _ _); cbn [sched_ret sched_verdict].
    + split; [ intros _; right; left; reflexivity | intros N; now elim N ].
    + split; [ intros N; discriminate N | intros _; split; reflexivity ].
Qed.

End GateFacts.

(* ===================================================================== *)
(** ** Binding a flow to its helper                                       *)
(* ===================================================================== *)

Lemma in_short_list_eq {A} (l : list A) a b :
  (length l <= 1)%nat -> In a l -> In b l -> a = b.
Proof.
  destruct l as [| x [| y l]]; simpl; intros Hl Ha Hb.
  - contradiction.
  - destruct Ha as [<- | []]. destruct Hb as [<- | []]. reflexivity.
  - lia.
Qed.

Lemma in_bucket_in_table t n a :
  In a (bucket t n) -> In a (concat (tcp_apps t)).
Proof.
  unfold bucket. intros Ha. apply in_concat.
  exists (nth (Z.to_nat n) (tcp_apps t) []). split; [ | exact Ha ].
  destruct (Nat.lt_ge_cases (Z.to_nat n) (length (tcp_apps t))) as [L | G].
  - apply nth_In. exact L.
  - rewrite nth_overflow in Ha by exact G. contradiction.
Qed.

(** The walk over a bucket stops at the one helper on the port. *)
Lemma app_bind_walk_finds inc_get init_conn cp a l :
  In a l -> app_port a = vport cp ->
  (forall b, In b l -> app_port b = vport cp -> b = a) ->
  app_bind_walk inc_get init_conn cp l =
  if inc_get a
  then match init_conn a with
       | Some f => f (set_app (Some a) cp)
       | None => (0, set_app (Some a) cp)
       end
  else (0, cp).
Proof.
  intros Ha Hp Hu. induction l as [| x l IH]; [ contradiction | ].
  cbn [app_bind_walk].
  destruct (Z.eqb_spec (app_port x) (vport cp)) as [E | E].
  - rewrite (Hu x (or_introl eq_refl) E).
    destruct (inc_get a); reflexivity.
  - destruct Ha as [-> | Ha]; [ contradiction | ].
    apply IH; [ exact Ha | ]. intros b Hb. apply Hu. right. exact Hb.
Qed.

Lemma app_bind_walk_misses inc_get init_conn cp l :
  (forall b, In b l -> app_port b <> vport cp) ->
  app_bind_walk inc_get init_conn cp l = (0, cp).
Proof.
  intros Hn. induction l as [| x l IH]; [ reflexivity | ].
  cbn [app_bind_walk].
  destruct (Z.eqb_spec (app_port x) (vport cp)) as [E | E].
  - elim (Hn x (or_introl eq_refl) E).
  - apply IH. intros b Hb. apply Hn. right. exact Hb.
Qed.

(** [tcp_app_conn_bind] looks the helper up by the virtual port of the
    flow, in any table that registrations and unregistrations can
    produce: a flow that is not forwarded by NAT is never bound; a NAT
    flow is bound to the helper registered on its virtual port, wherever
    that sits in its bucket, provided [ip_vs_app_inc_get] grants it, and
    the result is then the one of the helper's [init_conn], or 0 without
    one; with no helper on the port the flow is left as it was and the
    result is 0. *)
Theorem tcp_app_conn_bind_finds_the_helper_of_the_port
    (t : app_table) (inc_get : ip_vs_app -> bool)
    (init_conn : ip_vs_app -> option (ip_vs_conn -> Z * ip_vs_conn))
    (cp : ip_vs_conn) :
  reachable t ->
  let r := tcp_app_conn_bind t inc_get init_conn cp in
  (IP_VS_FWD_METHOD cp <> IP_VS_CONN_F_MASQ -> r = (0, cp))
  /\ (IP_VS_FWD_METHOD cp = IP_VS_CONN_F_MASQ ->
      (forall a, In a (concat (tcp_apps t)) -> app_port a = vport cp ->
         r = if inc_get a
             then match init_conn a with
                  | Some f => f (set_app (Some a) cp)
                  | None => (0, set_app (Some a) cp)
                  end
             else (0, cp))
      /\ ((forall a, In a (concat (tcp_apps t)) -> app_port a <> vport cp) ->
          r = (0, cp))).
Proof.
  intros Hr. cbv zeta.
  pose proof (reachable_inv t Hr) as (Hlen & Hpl & Hone).
  unfold tcp_app_conn_bind. split.
  - intros N. destruct (Z.eqb_spec (IP_VS_FWD_METHOD cp) IP_VS_CONN_F_MASQ);
      [ contradiction | reflexivity ].
  - intros E. rewrite E. change (negb (IP_VS_CONN_F_MASQ =? IP_VS_CONN_F_MASQ))
      with false. cbv iota. split.
    + intros a Ha Hp. apply app_bind_walk_finds.
      * rewrite <- Hp. apply in_table_in_bucket; assumption.
      * exact Hp.
      * intros b Hb Hpb.
        apply (in_short_list_eq (helpers_on (vport cp) t)).
        -- apply Hone.
        -- apply filter_In. split.
           ++ eapply in_bucket_in_table. exact Hb.
           ++ apply Z.eqb_eq. exact Hpb.
        -- apply filter_In. split; [ exact Ha | apply Z.eqb_eq; exact Hp ].
    + intros Hn. apply app_bind_walk_misses.
      intros b Hb. apply Hn. eapply in_bucket_in_table. exact Hb.
Qed.

Lemma filter_all_kept {A} (g : A -> bool) (l : list A) :
  (forall a, In a l -> g a = true) -> filter g l = l.
Proof.
  induction l as [| a l IH]; intros Hg; simpl; [ reflexivity | ].
  rewrite (Hg a (or_introl eq_refl)). f_equal.
  apply IH. intros b Hb. apply Hg. right. exact Hb.
Qed.

Lemma map_filter_all_kept {A} (g : A -> bool) (l : list (list A)) :
  (forall a, In a (concat l) -> g a = true) -> map (filter g) l = l.
Proof.
  induction l as [| h t IH]; intros Hg; simpl; [ reflexivity | ].
  f_equal.
  - apply filter_all_kept. intros a Ha. apply Hg. simpl.
    apply in_or_app. left. exact Ha.
  - apply IH. intros a Ha. apply Hg. simpl. apply in_or_app. right. exact Ha.
Qed.

Lemma map_filter_set_bucket (g : ip_vs_app -> bool) x l n :
  (n < length l)%nat -> g x = false ->
  (forall a, In a (concat l) -> g a = true) ->
  map (filter g) (set_bucket n (x :: nth n l []) l) = l.
Proof.
  intros Hn Hx. revert n Hn.
  induction l as [| h t IH]; intros n Hn Hall; simpl in Hn; [ lia | ].
  assert (Hh : filter g h = h).
  { apply filter_all_kept. intros a Ha. apply Hall. simpl.
    apply in_or_app. left. exact Ha. }
  assert (Ht : forall a, In a (concat t) -> g a = true)
    by (intros a Ha; apply Hall; simpl; apply in_or_app; right; exact Ha).
  destruct n as [| n]; simpl.
  - rewrite Hx, Hh. f_equal. apply map_filter_all_kept. exact Ht.
  - rewrite Hh. f_equal. apply IH; [ lia | exact Ht ].
Qed.

(** Registering a helper and unregistering it again gives back the table
    and the count as they were, in any table that registrations and
    unregistrations can produce, provided the registration succeeded and
    the object was not on a list of the table before. *)
Theorem tcp_unregister_app_undoes_tcp_register_app
    (t : app_table) (inc : ip_vs_app) :
  reachable t ->
  fst (tcp_register_app t inc) = 0 ->
  (forall a, In a (concat (tcp_apps t)) -> app_ptr a <> app_ptr inc) ->
  tcp_unregister_app (snd (tcp_register_app t inc)) inc = t.
Proof.
  intros Hr Hok Hfresh.
  pose proof (reachable_inv t Hr) as (Hlen & _ & _).
  pose proof (tcp_app_hashkey_range (app_port inc)) as Hrange.
  revert Hok. unfold tcp_register_app.
  destruct (existsb _ _); cbn [fst snd]; [ intros E; discriminate E | intros _ ].
  unfold tcp_unregister_app. cbn [tcp_apps appcnt]. unfold bucket.
  rewrite map_filter_set_bucket.
  - destruct t as [apps cnt]. cbn [tcp_apps appcnt]. f_equal. lia.
  - lia.
  - rewrite Z.eqb_refl. reflexivity.
  - intros a Ha. apply negb_true_iff. apply Z.eqb_neq. apply Hfresh. exact Ha.
Qed.

(* ===================================================================== *)
(** ** Sequence numbers of the two resets                                 *)
(* ===================================================================== *)

Section RstSeqFacts.
Context `{Framework}.

Lemma rst_build_v4_seq g s d th :
  exists ih th', rst_build_v4 g s d th = Rst4 ih th' /\ seq th' = seq th.
Proof. unfold rst_build_v4. eexists. eexists. split; reflexivity. Qed.

(** The reset that [tcp_send_rst_in] builds for the real server of an
    established IPv4 flow reaches it with the sequence number the server
    acknowledged last: for a FullNAT flow the number put in the header is
    [rs_ack_seq] less the FullNAT delta, which the ingress translation
    adds again on the way; for a NAT flow it is [rs_ack_seq] itself.  The
    reset that [tcp_send_rst_out] builds for the client carries
    [rs_end_seq], the end of what the server sent last.  Of the SYN-proxy
    ingress hook it is assumed that it leaves [seq] alone. *)
Theorem resets_carry_the_sequence_numbers_saved_from_the_server
    (cp : ip_vs_conn) (g g' : list Z) :
  (forall th bs s,
      seq (fst (ip_vs_synproxy_dnat_handler th bs s)) = seq th) ->
  af cp = AF_INET -> state cp = IP_VS_TCP_S_ESTABLISHED ->
  (exists ih th,
      tcp_send_rst_in cp (Some g) = [(Packet_xmit, Rst4 ih th)]
      /\ if Z.land (flags cp) IP_VS_CONN_F_FULLNAT =? 0
         then seq th = rs_ack_seq cp
         else forall bs,
             seq (fst (tcp_in_adjust_seq cp th bs)) = u32 (rs_ack_seq cp))
  /\ (exists x ih th,
         tcp_send_rst_out cp (Some g') = [(x, Rst4 ih th)]
         /\ seq th = rs_end_seq cp).
Proof.
  intros Hdnat Haf Hst. split.
  - unfold tcp_send_rst_in. rewrite Hst, Haf.
    change (tcp_state_eqb IP_VS_TCP_S_ESTABLISHED IP_VS_TCP_S_SYN_SENT)
      with false.
    change (tcp_state_eqb IP_VS_TCP_S_ESTABLISHED IP_VS_TCP_S_ESTABLISHED)
      with true.
    change (AF_INET =? AF_INET6) with false. cbv iota.
    destruct (Z.land (flags cp) IP_VS_CONN_F_FULLNAT =? 0); cbn [negb];
      cbv iota;
      match goal with
      | |- context [rst_build_v4 ?a ?b ?c ?d] =>
        destruct (rst_build_v4_seq a b c d) as (ih & th' & E & S)
      end;
      rewrite E; exists ih, th'; (split; [ reflexivity | ]).
    + rewrite S. reflexivity.
    + intros bs. unfold tcp_in_adjust_seq. rewrite Hdnat.
      cbn [seq set_seq]. rewrite S. cbn [seq rst_header set_rst set_doff
                                           set_ack_seq set_seq].
      unfold u32. rewrite Zplus_mod_idemp_l. f_equal. lia.
  - unfold tcp_send_rst_out. rewrite Hst, Haf.
    change (tcp_state_eqb IP_VS_TCP_S_ESTABLISHED IP_VS_TCP_S_SYN_SENT)
      with false.
    change (tcp_state_eqb IP_VS_TCP_S_ESTABLISHED IP_VS_TCP_S_ESTABLISHED)
      with true.
    change (AF_INET =? AF_INET6) with false. cbv iota zeta.
    match goal with
    | |- context [rst_build_v4 ?a ?b ?c ?d] =>
      destruct (rst_build_v4_seq a b c d) as (ih & th' & E & S)
    end.
    rewrite E. eexists. exists ih, th'. split; [ reflexivity | ].
    rewrite S. reflexivity.
Qed.

End RstSeqFacts.

(* ===================================================================== *)
(** ** Sequence numbers across the two FullNAT handlers                   *)
(* ===================================================================== *)

Section SeqFacts.
Context `{Framework}.

Lemma tcp_in_init_seq_app cfg cp tcph :
  app (fst (tcp_in_init_seq cfg cp tcph)) = app cp.
Proof. unfold tcp_in_init_seq. destruct (_ || _); reflexivity. Qed.

Lemma tcp_opt_add_toa_app cp skb ok :
  app (fst (fst (tcp_opt_add_toa cp skb ok))) = app cp.
Proof.
  unfold tcp_opt_add_toa.
  destruct (negb (af cp =? AF_INET)); [ reflexivity | ].
  destruct (after _ _); [ reflexivity | ].
  destruct (len skb >? _); [ reflexivity | ].
  destruct (negb ok); reflexivity.
Qed.

(** The flow the ingress handler leaves behind: still without helper, and
    with the sequence record that [tcp_in_init_seq] made of it if the
    segment is a SYN without ACK, the old one otherwise. *)
Lemma tcp_fnat_in_handler_flow cfg skb cp o :
  app cp = None ->
  match tcp_fnat_in_handler cfg skb cp o with
  | Ok (r, cp', _, _) =>
    r = 0
    \/ (app cp' = None
        /\ fnat_seq cp'
           = fnat_seq (if syn (tcp_hdr skb) && negb (ack (tcp_hdr skb))
                       then fst (tcp_in_init_seq cfg cp (tcp_hdr skb))
                       else cp))
  | Fault _ => True
  | Fuel => True
  end.
Proof.
  intros Happ. unfold tcp_fnat_in_handler, app_stage. rewrite Happ.
  destruct (negb (writable o)); [ left; reflexivity | ].
  set (skb1 := set_th (set_dest (dport cp) (set_source (lport cp) (tcp_hdr skb))) skb).
  change (syn (tcp_hdr skb1)) with (syn (tcp_hdr skb)).
  change (ack (tcp_hdr skb1)) with (ack (tcp_hdr skb)).
  assert (K : forall cp1 skb2 ev1 fs,
             app cp1 = None -> fnat_seq cp1 = fs ->
             match
               (let '(cp2, skb3, ev2) :=
                  if (sysctl_ip_vs_toa_entry cfg =? 1)
                     && (Z.land (flags cp1) IP_VS_CONN_F_CIP_INSERTED =? 0)
                     && negb (rst (tcp_hdr skb2)) && negb (fin (tcp_hdr skb2))
                  then tcp_opt_add_toa cp1 skb2 (copy_ok o)
                  else (cp1, skb2, []) in
                let '(tcph, bs) :=
                  tcp_in_adjust_seq cp2 (tcp_hdr skb3) (data skb3) in
                let skb4 := set_data bs (set_th tcph skb3) in
                let skb5 := full_csum (af cp2) (laddr cp2) (daddr_rs cp2)
                              (conn_protocol cp2)
                              (if af cp =? AF_INET6 then sizeof_ipv6hdr
                               else ip_hdrlen skb) skb4 in
                let skb6 := set_ip_summed CHECKSUM_UNNECESSARY skb5 in
                @Ok handled (1, cp2, skb6, ev1 ++ ev2))
             with
             | Ok (r, cp', _, _) =>
               r = 0 \/ (app cp' = None /\ fnat_seq cp' = fs)
             | Fault _ => True
             | Fuel => True
             end).
  { intros cp1 skb2 ev1 fs A1 F1.
    assert (T : exists cp2 skb3 ev2,
               (if (sysctl_ip_vs_toa_entry cfg =? 1)
                   && (Z.land (flags cp1) IP_VS_CONN_F_CIP_INSERTED =? 0)
                   && negb (rst (tcp_hdr skb2)) && negb (fin (tcp_hdr skb2))
                then tcp_opt_add_toa cp1 skb2 (copy_ok o)
                else (cp1, skb2, [])) = (cp2, skb3, ev2)
               /\ app cp2 = None /\ fnat_seq cp2 = fs).
    { destruct (_ && _).
      - pose proof (tcp_opt_add_toa_frame cp1 skb2 (copy_ok o)) as [G _].
        pose proof (tcp_opt_add_toa_app cp1 skb2 (copy_ok o)) as G'.
        destruct (tcp_opt_add_toa cp1 skb2 (copy_ok o)) as [[cp2 skb3] ev2].
        cbn [fst] in G, G'.
        exists cp2, skb3, ev2. repeat split; congruence.
      - exists cp1, skb2, []. repeat split; assumption. }
    destruct T as (cp2 & skb3 & ev2 & E & A2 & F2). rewrite E.
    destruct (tcp_in_adjust_seq cp2 (tcp_hdr skb3) (data skb3)) as [tcph bs].
    right. split; assumption. }
  destruct (syn (tcp_hdr skb) && negb (ack (tcp_hdr skb))).
  - unfold run.
    destruct (tcp_opt_remove_timestamp cfg (tcp_hdr skb1)
                (mk_optmem (data skb1) [])) as [[u m] | t |];
      [ | exact I | exact I ].
    rewrite (tcp_in_init_seq_seq_only cfg cp
               (tcp_hdr (set_data (bytes m) skb1)) (tcp_hdr skb) eq_refl).
    pose proof (tcp_in_init_seq_app cfg cp (tcp_hdr skb)) as A.
    destruct (tcp_in_init_seq cfg cp (tcp_hdr skb)) as [cp1 ev1].
    cbn [fst] in *. apply K; [ congruence | reflexivity ].
  - apply K; [ exact Happ | reflexivity ].
Qed.

Lemma u32_add_sub a d n : u32 (u32 (u32 (a + d) + n) - d) = u32 (a + n).
Proof.
  unfold u32. change (2 ^ 32) with 4294967296.
  Z.div_mod_to_equations. lia.
Qed.

(** What the real server acknowledges, the client is told in its own
    numbering: if a segment leaves [tcp_fnat_in_handler] and the server
    then acknowledges the sequence number it arrived with plus [n], that
    acknowledgement leaves [tcp_fnat_out_handler] as the sequence number
    the client sent plus [n], modulo 2^32.  Of the SYN-proxy hooks it is
    assumed that the ingress one leaves [seq] alone and the egress one
    leaves [ack_seq] alone. *)
Theorem acknowledgement_of_a_translated_segment_translates_back
    (cfg : sysctl) (skb : sk_buff) (cp : ip_vs_conn) (o : in_oracle)
    (reply : sk_buff) (w : bool) (n : Z) :
  (forall th bs s,
      seq (fst (ip_vs_synproxy_dnat_handler th bs s)) = seq th) ->
  (forall th bs c,
      ack_seq (fst (snd (ip_vs_synproxy_snat_handler th bs c))) = ack_seq th) ->
  app cp = None ->
  match tcp_fnat_in_handler cfg skb cp o with
  | Ok (r, cp', skb', _) =>
    r = 0
    \/ (ack_seq (tcp_hdr reply) = u32 (seq (tcp_hdr skb') + n) ->
        match tcp_fnat_out_handler cfg reply cp' w with
        | Ok (r', _, reply', _) =>
          r' = 0 \/ ack_seq (tcp_hdr reply') = u32 (seq (tcp_hdr skb) + n)
        | Fault _ => True
        | Fuel => False
        end)
  | Fault _ => True
  | Fuel => False
  end.
Proof.
  intros Hdnat Hsnat Happ.
  pose proof (tcp_fnat_in_handler_seq cfg skb cp o Hdnat Happ) as S.
  pose proof (tcp_fnat_in_handler_flow cfg skb cp o Happ) as F.
  destruct (tcp_fnat_in_handler cfg skb cp o) as [[[[r cp'] skb'] ev] | t |];
    [ | exact I | exact S ].
  destruct S as [S | S]; [ left; exact S | ].
  destruct F as [F | [A _]]; [ left; exact F | ].
  right. intros Hack.
  pose proof (tcp_fnat_out_handler_ack_seq cfg reply cp' w Hsnat A) as O.
  destruct (tcp_fnat_out_handler cfg reply cp' w)
    as [[[[r' cp''] reply'] ev'] | t |]; [ | exact I | exact O ].
  destruct O as [O | O]; [ left; exact O | right ].
  rewrite O, Hack, S. apply u32_add_sub.
Qed.

Lemma u32_add_u32_sub f s : u32 (s + u32 (u32 f - s)) = u32 f.
Proof.
  unfold u32. change (2 ^ 32) with 4294967296.
  Z.div_mod_to_equations. lia.
Qed.

(** A SYN for which [tcp_in_init_seq] draws an initial sequence number
    (the first SYN of a flow, or a SYN that reuses a flow in SYN_SENT or
    SYN_RECV with [conn_reused_entry] on) leaves [tcp_fnat_in_handler]
    with exactly that number as its sequence number, whatever number the
    client chose, and the flow remembers it in [init_seq].  Of the
    SYN-proxy ingress hook it is assumed that it leaves [seq] alone. *)
Theorem syn_leaves_with_the_initial_sequence_number_drawn
    (cfg : sysctl) (skb : sk_buff) (cp : ip_vs_conn) (o : in_oracle) :
  (forall th bs s,
      seq (fst (ip_vs_synproxy_dnat_handler th bs s)) = seq th) ->
  app cp = None ->
  syn (tcp_hdr skb) = true -> ack (tcp_hdr skb) = false ->
  init_seq (fnat_seq cp) = 0 \/ reuse_allowed cfg cp = true ->
  match tcp_fnat_in_handler cfg skb cp o with
  | Ok (r, cp', skb', _) =>
    r = 0
    \/ (seq (tcp_hdr skb') = fresh_init_seq cp
        /\ init_seq (fnat_seq cp') = fresh_init_seq cp)
  | Fault _ => True
  | Fuel => False
  end.
Proof.
  intros Hdnat Happ Hsyn Hack Hdraw.
  pose proof (tcp_fnat_in_handler_seq cfg skb cp o Hdnat Happ) as S.
  pose proof (tcp_fnat_in_handler_flow cfg skb cp o Happ) as F.
  rewrite Hsyn, Hack in F. cbn [negb andb] in F.
  assert (I0 : fnat_seq (fst (tcp_in_init_seq cfg cp (tcp_hdr skb)))
               = mk_seq (fresh_init_seq cp)
                   (u32 (fresh_init_seq cp - seq (tcp_hdr skb)))
                   (u32 (seq (tcp_hdr skb) + 1))).
  { destruct Hdraw as [Z0 | R].
    - rewrite (tcp_in_init_seq_first cfg cp (tcp_hdr skb) Z0). reflexivity.
    - unfold tcp_in_init_seq, fresh_init_seq. unfold reuse_allowed in R.
      cbn [fdata_seq init_seq delta state flags set_flags].
      apply andb_true_iff in R. destruct R as [R1 R2].
      rewrite R1. rewrite (orb_comm _ (tcp_state_eqb (state cp) IP_VS_TCP_S_SYN_SENT)).
      rewrite R2. rewrite andb_true_r. cbn [andb].
      destruct (init_seq (fnat_seq cp) =? 0); reflexivity. }
  destruct (tcp_fnat_in_handler cfg skb cp o) as [[[[r cp'] skb'] ev] | t |];
    [ | exact I | exact S ].
  destruct S as [S | S]; [ left; exact S | ].
  destruct F as [F | [_ F]]; [ left; exact F | ].
  right. rewrite S, F, I0. cbn [delta init_seq]. split; [ | reflexivity ].
  assert (E : fresh_init_seq cp = u32 (fresh_init_seq cp)).
  { unfold fresh_init_seq. destruct (af cp =? AF_INET6);
      unfold u32; rewrite Z.mod_mod by lia; reflexivity. }
  rewrite E at 2. rewrite E at 1. apply u32_add_u32_sub.
Qed.

End SeqFacts.

(* ===================================================================== *)
(** ** The buffer with the client-address option                          *)
(* ===================================================================== *)

Section ToaFrame.
Context `{Framework}.

(** When [tcp_opt_add_toa] appends the option, the buffer it returns is 8
    bytes longer in [skb->len] and in the IP total length, has the 8
    bytes of the option right after the fixed TCP header with everything
    that was there behind them, and an IP header checksum that verifies
    (for a header without IP options).  The data offset is raised by two
    words in its 4-bit field: the TCP header is 8 bytes longer exactly
    when the old offset was at most 13, and with 14 or 15 the field wraps
    to 0 or 1. *)
Theorem tcp_opt_add_toa_makes_room_for_the_option
    (cp : ip_vs_conn) (skb : sk_buff) (ok : bool) :
  toa_fits cp skb ok = true ->
  let skb' := snd (fst (tcp_opt_add_toa cp skb ok)) in
  len skb' = len skb + 8
  /\ firstn 8 (data skb') = toa_option cp
  /\ skipn 8 (data skb') = data skb
  /\ tot_len (iph skb') = u16 (tot_len (iph skb) + 8)
  /\ (ihl (iph skb) = 5 -> ip_fast_csum (iph skb') = 0)
  /\ doff (tcp_hdr skb') = (doff (tcp_hdr skb) + 2) mod 16
  /\ (0 <= doff (tcp_hdr skb) <= 15 ->
      (doff (tcp_hdr skb') * 4 = doff (tcp_hdr skb) * 4 + 8
       <-> doff (tcp_hdr skb) <= 13)).
Proof.
  intros Hfits. cbv zeta. rewrite (tcp_opt_add_toa_appends cp skb ok Hfits).
  cbn [fst snd len data iph tcp_hdr].
  split; [ reflexivity | ]. split; [ reflexivity | ]. split; [ reflexivity | ].
  split; [ reflexivity | ]. split.
  - intros Hihl. apply ip_send_check_verifies. exact Hihl.
  - cbn [doff set_doff]. split; [ reflexivity | ].
    intros Hd. Z.div_mod_to_equations. lia.
Qed.

End ToaFrame.

(* ===================================================================== *)
(** ** The option walks come to an end                                    *)
(* ===================================================================== *)

(** The three option walks end on every header and every buffer, however
    malformed the options: each round of the [while] loops uses up at
    least one byte of the option area, and the SACK loop, whose counter is
    a [__u8] stepped by 4, is entered only with [opsize - 2] a multiple of
    8 and so stops before the counter wraps. *)
Theorem option_walks_come_to_an_end `{Framework}
    (cfg : sysctl) (cp : ip_vs_conn) (tcph : tcphdr) :
  terminates (tcp_opt_adjust_mss cfg tcph)
  /\ terminates (tcp_opt_remove_timestamp cfg tcph)
  /\ terminates (tcp_out_adjust_seq cp tcph).
Proof.
  split; [ apply tcp_opt_adjust_mss_terminates | ].
  split; [ apply tcp_opt_remove_timestamp_terminates | ].
  apply tcp_out_adjust_seq_terminates.
Qed.

(* ===================================================================== *)
(** ** The option walks on well-formed option areas                       *)
(* ===================================================================== *)

Lemma set_nth_middle (A : list Z) x v B :
  set_nth (length A) v (A ++ x :: B) = A ++ v :: B.
Proof. induction A as [| a A IH]; simpl; [ reflexivity | rewrite IH; reflexivity ]. Qed.

Lemma in_buf_middle (A : list Z) x B :
  in_buf (Z.of_nat (length A)) (A ++ x :: B) = true.
Proof.
  unfold in_buf. rewrite length_app. cbn [length].
  apply andb_true_iff. split; [ apply Z.leb_le | apply Z.ltb_lt ]; lia.
Qed.

Lemma rd8_at A x B t :
  rd8 (Z.of_nat (length A)) (mk_optmem (A ++ x :: B) t)
  = Ok (u8 x, mk_optmem (A ++ x :: B) (t ++ [Rd (Z.of_nat (length A))])).
Proof.
  unfold rd8. cbn [bytes trace]. rewrite in_buf_middle, Nat2Z.id, nth_middle.
  reflexivity.
Qed.

Lemma wr8_at A x B t v :
  wr8 (Z.of_nat (length A)) v (mk_optmem (A ++ x :: B) t)
  = Ok (tt, mk_optmem (A ++ u8 v :: B) (t ++ [Wr (Z.of_nat (length A))])).
Proof.
  unfold wr8. cbn [bytes trace]. rewrite in_buf_middle, Nat2Z.id, set_nth_middle.
  reflexivity.
Qed.

Lemma u8_small x : 0 <= x < 256 -> u8 x = x.
Proof. intros Hx. unfold u8. apply Z.mod_small. change (2 ^ 8) with 256. lia. Qed.

Lemma length_opt_bytes o : Z.of_nat (length (opt_bytes o)) = opt_size o.
Proof. destruct o as [| k b]; cbn [opt_bytes opt_size length]; lia. Qed.

Lemma opt_size_pos o : 1 <= opt_size o.
Proof. destruct o; cbn [opt_size]; lia. Qed.

Lemma length_opts_bytes_cons o l :
  Z.of_nat (length (opts_bytes (o :: l)))
  = opt_size o + Z.of_nat (length (opts_bytes l)).
Proof.
  unfold opts_bytes. cbn [flat_map]. rewrite length_app, Nat2Z.inj_add.
  rewrite length_opt_bytes. reflexivity.
Qed.

(** The overwriting loop on the bytes of an option: [n] bytes from the
    offset on become NOPs. *)
Lemma nop_fill_at n : forall A X B t opt i,
  length X = n -> opt + i = Z.of_nat (length A) ->
  exists t',
    nop_fill n opt i (mk_optmem (A ++ X ++ B) t)
    = Ok (tt, mk_optmem (A ++ repeat TCPOPT_NOP n ++ B) t').
Proof.
  induction n as [| n IH]; intros A X B t opt i HX HA.
  - destruct X; [ | discriminate HX ]. exists t. reflexivity.
  - destruct X as [| x X]; [ discriminate HX | ]. cbn [nop_fill].
    unfold bind. rewrite HA.
    change ((x :: X) ++ B) with (x :: X ++ B). rewrite wr8_at.
    destruct (IH (A ++ [u8 TCPOPT_NOP]) X B
                (t ++ [Wr (Z.of_nat (length A))]) opt (i + 1))
      as [t' E].
    + injection HX as HX. exact HX.
    + rewrite length_app. cbn [length]. lia.
    + exists t'. rewrite <- app_assoc in E.
      change ([u8 TCPOPT_NOP] ++ X ++ B) with (u8 TCPOPT_NOP :: X ++ B) in E.
      rewrite E. rewrite <- app_assoc. reflexivity.
Qed.

Lemma rd8_in bs A x B ptr t :
  bs = A ++ x :: B -> ptr = Z.of_nat (length A) ->
  rd8 ptr (mk_optmem bs t) = Ok (u8 x, mk_optmem bs (t ++ [Rd ptr])).
Proof. intros -> ->. apply rd8_at. Qed.

Lemma wr8_in bs A x B ptr t v :
  bs = A ++ x :: B -> ptr = Z.of_nat (length A) ->
  wr8 ptr v (mk_optmem bs t)
  = Ok (tt, mk_optmem (A ++ u8 v :: B) (t ++ [Wr ptr])).
Proof. intros -> ->. apply wr8_at. Qed.

(** The timestamp walk steps over well-formed options that are not the
    timestamp option, leaving the bytes alone. *)
Lemma remove_timestamp_loop_skips : forall pre A B fuel ptr n bs t,
  Forall opt_wf pre -> Forall (fun o => is_timestamp o = false) pre ->
  bs = A ++ opts_bytes pre ++ B -> ptr = Z.of_nat (length A) ->
  Z.of_nat (length (opts_bytes pre)) <= n -> n <= Z.of_nat fuel ->
  exists fuel' t',
    n - Z.of_nat (length (opts_bytes pre)) <= Z.of_nat fuel'
    /\ remove_timestamp_loop fuel ptr n (mk_optmem bs t)
       = remove_timestamp_loop fuel'
           (ptr + Z.of_nat (length (opts_bytes pre)))
           (n - Z.of_nat (length (opts_bytes pre))) (mk_optmem bs t').
Proof.
  induction pre as [| o pre IH]; intros A B fuel ptr n bs t Hwf Hno Hbs Hptr Hn Hf.
  - exists fuel, t. cbn [opts_bytes flat_map length].
    rewrite Z.add_0_r, Z.sub_0_r. split; [ exact Hf | reflexivity ].
  - pose proof (Forall_inv Hwf) as Wo. pose proof (Forall_inv_tail Hwf) as Wp.
    pose proof (Forall_inv Hno) as No. pose proof (Forall_inv_tail Hno) as Np.
    cbv beta in No. rewrite length_opts_bytes_cons in *.
    pose proof (opt_size_pos o) as Ho.
    destruct fuel as [| fuel]; [ cbn in Hf; lia | ].
    cbn [remove_timestamp_loop].
    destruct (Z.leb_spec n 0) as [Hz | _]; [ lia | ].
    unfold opts_bytes in Hbs. cbn [flat_map] in Hbs. fold (opts_bytes pre) in Hbs.
    rewrite <- app_assoc in Hbs.
    destruct o as [| k b].
    + cbn [opt_bytes app] in Hbs. unfold bind at 1.
      rewrite (rd8_in bs A TCPOPT_NOP _ ptr t Hbs Hptr).
      change (u8 TCPOPT_NOP =? TCPOPT_EOL) with false.
      change (u8 TCPOPT_NOP =? TCPOPT_NOP) with true. cbv iota.
      destruct (IH (A ++ [TCPOPT_NOP]) B fuel (ptr + 1) (n - 1) bs
                  (t ++ [Rd ptr]) Wp Np) as (fuel' & t' & Hf' & E).
      * rewrite <- app_assoc. exact Hbs.
      * rewrite length_app. cbn [length]. lia.
      * cbn [opt_size] in Hn. lia.
      * lia.
      * exists fuel', t'. cbn [opt_size]. split; [ lia | ].
        rewrite E. f_equal; lia.
    + cbn [opt_wf] in Wo. destruct Wo as [Wk Ws].
      cbn [is_timestamp] in No. cbn [opt_bytes app] in Hbs.
      set (sz := opt_size (Opt k b)) in *.
      assert (Hsz : 2 <= sz) by (unfold sz; cbn [opt_size]; lia).
      unfold bind at 1.
      rewrite (rd8_in bs A k _ ptr t Hbs Hptr), (u8_small k) by lia.
      destruct (Z.eqb_spec k TCPOPT_EOL) as [E0 | _];
        [ unfold TCPOPT_EOL in E0; lia | ].
      destruct (Z.eqb_spec k TCPOPT_NOP) as [E1 | _];
        [ unfold TCPOPT_NOP in E1; lia | ].
      unfold bind at 1.
      rewrite (rd8_in bs (A ++ [k]) sz (b ++ opts_bytes pre ++ B) (ptr + 1)
                 (t ++ [Rd ptr]));
        [ | rewrite <- app_assoc; exact Hbs
          | rewrite length_app; cbn [length]; lia ].
      rewrite (u8_small sz) by lia.
      destruct (Z.ltb_spec sz 2) as [Hlt | _]; [ lia | ].
      destruct (Z.gtb_spec sz n) as [Hgt | _]; [ lia | ].
      rewrite No.
      destruct (IH (A ++ k :: sz :: b) B fuel (ptr + 1 + 1 + (sz - 2)) (n - sz)
                  bs ((t ++ [Rd ptr]) ++ [Rd (ptr + 1)]) Wp Np)
        as (fuel' & t' & Hf' & E).
      * rewrite <- app_assoc. exact Hbs.
      * rewrite length_app. cbn [length]. unfold sz. cbn [opt_size]. lia.
      * lia.
      * lia.
      * exists fuel', t'. split; [ lia | ].
        rewrite E. f_equal; lia.
Qed.

(** On an option area that starts with well-formed options,
    [tcp_opt_remove_timestamp] (switched on) does what its comment says:
    the first timestamp option, if it lies inside the option area, is
    overwritten by ten NOPs and nothing else changes, neither the options
    before it nor whatever follows it; and if the options fill the option
    area and none is a timestamp, no byte changes. *)
Theorem tcp_opt_remove_timestamp_blanks_the_timestamp
    (cfg : sysctl) (tcph : tcphdr) (pre : list tcp_option) (rest : list Z) :
  sysctl_ip_vs_timestamp_remove_entry cfg <> 0 ->
  Forall opt_wf pre -> Forall (fun o => is_timestamp o = false) pre ->
  let L := doff tcph * 4 - sizeof_tcphdr in
  (forall ts,
      length ts = 8%nat ->
      Z.of_nat (length (opts_bytes pre)) + TCPOLEN_TIMESTAMP <= L ->
      exists t,
        run (tcp_opt_remove_timestamp cfg tcph)
          (opts_bytes pre ++ opt_bytes (Opt TCPOPT_TIMESTAMP ts) ++ rest)
        = Ok (tt, mk_optmem
                    (opts_bytes pre ++ repeat TCPOPT_NOP 10 ++ rest) t))
  /\ (Z.of_nat (length (opts_bytes pre)) = L ->
      exists t,
        run (tcp_opt_remove_timestamp cfg tcph) (opts_bytes pre ++ rest)
        = Ok (tt, mk_optmem (opts_bytes pre ++ rest) t)).
Proof.
  intros Hon Hwf Hno. cbv zeta.
  unfold run, tcp_opt_remove_timestamp.
  destruct (Z.eqb_spec (sysctl_ip_vs_timestamp_remove_entry cfg) 0) as [E | _];
    [ contradiction | ].
  set (L := doff tcph * 4 - sizeof_tcphdr). split.
  - intros ts Hts HL. unfold TCPOLEN_TIMESTAMP in HL.
    destruct (remove_timestamp_loop_skips pre [] (opt_bytes (Opt TCPOPT_TIMESTAMP ts) ++ rest)
                (Z.to_nat L) 0 L
                (opts_bytes pre ++ opt_bytes (Opt TCPOPT_TIMESTAMP ts) ++ rest)
                [] Hwf Hno eq_refl eq_refl ltac:(lia) ltac:(lia))
      as (fuel' & t' & Hf' & Eskip).
    rewrite Eskip. clear Eskip.
    destruct fuel' as [| fuel']; [ cbn in Hf'; lia | ].
    cbn [remove_timestamp_loop].
    destruct (Z.leb_spec (L - Z.of_nat (length (opts_bytes pre))) 0)
      as [Hz | _]; [ lia | ].
    cbn [opt_bytes opt_size]. rewrite Hts.
    change (2 + Z.of_nat 8) with 10.
    unfold bind at 1.
    rewrite (rd8_in _ (opts_bytes pre) TCPOPT_TIMESTAMP ((10 :: ts) ++ rest)
               (0 + Z.of_nat (length (opts_bytes pre))) t');
      [ | reflexivity | lia ].
    change (u8 TCPOPT_TIMESTAMP =? TCPOPT_EOL) with false.
    change (u8 TCPOPT_TIMESTAMP =? TCPOPT_NOP) with false. cbv iota.
    unfold bind at 1.
    rewrite (rd8_in _ (opts_bytes pre ++ [TCPOPT_TIMESTAMP]) 10 (ts ++ rest)
               (0 + Z.of_nat (length (opts_bytes pre)) + 1));
      [ | rewrite <- app_assoc; reflexivity
        | rewrite length_app; cbn [length]; lia ].
    change (u8 10 <? 2) with false. cbv iota.
    destruct (Z.gtb_spec (u8 10) (L - Z.of_nat (length (opts_bytes pre))))
      as [Hgt | _]; [ change (u8 10) with 10 in Hgt; lia | ].
    change ((u8 TCPOPT_TIMESTAMP =? TCPOPT_TIMESTAMP)
            && (u8 10 =? TCPOLEN_TIMESTAMP)) with true. cbv iota.
    change (Z.to_nat TCPOLEN_TIMESTAMP) with 10%nat.
    destruct (nop_fill_at 10 (opts_bytes pre) (TCPOPT_TIMESTAMP :: 10 :: ts) rest
                ((t' ++ [Rd (0 + Z.of_nat (length (opts_bytes pre)))])
                 ++ [Rd (0 + Z.of_nat (length (opts_bytes pre)) + 1)])
                (0 + Z.of_nat (length (opts_bytes pre)) + 1 + 1 - 2) 0)
      as [t'' Efill].
    + cbn [length]. rewrite Hts. reflexivity.
    + lia.
    + exists t''. exact Efill.
  - intros HL.
    destruct (remove_timestamp_loop_skips pre [] rest (Z.to_nat L) 0 L
                (opts_bytes pre ++ rest) [] Hwf Hno eq_refl eq_refl
                ltac:(lia) ltac:(lia))
      as (fuel' & t' & Hf' & Eskip).
    rewrite Eskip. exists t'.
    replace (L - Z.of_nat (length (opts_bytes pre))) with 0 by lia.
    destruct fuel'; reflexivity.
Qed.

(** The MSS walk steps over well-formed options that are not the MSS
    option, leaving the bytes alone. *)
Lemma adjust_mss_loop_skips : forall pre A B fuel ptr n bs t,
  Forall opt_wf pre -> Forall (fun o => is_mss o = false) pre ->
  bs = A ++ opts_bytes pre ++ B -> ptr = Z.of_nat (length A) ->
  Z.of_nat (length (opts_bytes pre)) <= n -> n <= Z.of_nat fuel ->
  exists fuel' t',
    n - Z.of_nat (length (opts_bytes pre)) <= Z.of_nat fuel'
    /\ adjust_mss_loop fuel ptr n (mk_optmem bs t)
       = adjust_mss_loop fuel'
           (ptr + Z.of_nat (length (opts_bytes pre)))
           (n - Z.of_nat (length (opts_bytes pre))) (mk_optmem bs t').
Proof.
  induction pre as [| o pre IH]; intros A B fuel ptr n bs t Hwf Hno Hbs Hptr Hn Hf.
  - exists fuel, t. cbn [opts_bytes flat_map length].
    rewrite Z.add_0_r, Z.sub_0_r. split; [ exact Hf | reflexivity ].
  - pose proof (Forall_inv Hwf) as Wo. pose proof (Forall_inv_tail Hwf) as Wp.
    pose proof (Forall_inv Hno) as No. pose proof (Forall_inv_tail Hno) as Np.
    cbv beta in No. rewrite length_opts_bytes_cons in *.
    pose proof (opt_size_pos o) as Ho.
    destruct fuel as [| fuel]; [ cbn in Hf; lia | ].
    cbn [adjust_mss_loop].
    destruct (Z.leb_spec n 0) as [Hz | _]; [ lia | ].
    unfold opts_bytes in Hbs. cbn [flat_map] in Hbs. fold (opts_bytes pre) in Hbs.
    rewrite <- app_assoc in Hbs.
    destruct o as [| k b].
    + cbn [opt_bytes app] in Hbs. unfold bind at 1.
      rewrite (rd8_in bs A TCPOPT_NOP _ ptr t Hbs Hptr).
      change (u8 TCPOPT_NOP =? TCPOPT_EOL) with false.
      change (u8 TCPOPT_NOP =? TCPOPT_NOP) with true. cbv iota.
      destruct (IH (A ++ [TCPOPT_NOP]) B fuel (ptr + 1) (n - 1) bs
                  (t ++ [Rd ptr]) Wp Np) as (fuel' & t' & Hf' & E).
      * rewrite <- app_assoc. exact Hbs.
      * rewrite length_app. cbn [length]. lia.
      * cbn [opt_size] in Hn. lia.
      * lia.
      * exists fuel', t'. cbn [opt_size]. split; [ lia | ].
        rewrite E. f_equal; lia.
    + cbn [opt_wf] in Wo. destruct Wo as [Wk Ws].
      cbn [is_mss] in No. cbn [opt_bytes app] in Hbs.
      set (sz := opt_size (Opt k b)) in *.
      assert (Hsz : 2 <= sz) by (unfold sz; cbn [opt_size]; lia).
      unfold bind at 1.
      rewrite (rd8_in bs A k _ ptr t Hbs Hptr), (u8_small k) by lia.
      destruct (Z.eqb_spec k TCPOPT_EOL) as [E0 | _];
        [ unfold TCPOPT_EOL in E0; lia | ].
      destruct (Z.eqb_spec k TCPOPT_NOP) as [E1 | _];
        [ unfold TCPOPT_NOP in E1; lia | ].
      unfold bind at 1.
      rewrite (rd8_in bs (A ++ [k]) sz (b ++ opts_bytes pre ++ B) (ptr + 1)
                 (t ++ [Rd ptr]));
        [ | rewrite <- app_assoc; exact Hbs
          | rewrite length_app; cbn [length]; lia ].
      rewrite (u8_small sz) by lia.
      destruct (Z.ltb_spec sz 2) as [Hlt | _]; [ lia | ].
      destruct (Z.gtb_spec sz n) as [Hgt | _]; [ lia | ].
      rewrite No.
      destruct (IH (A ++ k :: sz :: b) B fuel (ptr + 1 + 1 + (sz - 2)) (n - sz)
                  bs ((t ++ [Rd ptr]) ++ [Rd (ptr + 1)]) Wp Np)
        as (fuel' & t' & Hf' & E).
      * rewrite <- app_assoc. exact Hbs.
      * rewrite length_app. cbn [length]. unfold sz. cbn [opt_size]. lia.
      * lia.
      * lia.
      * exists fuel', t'. split; [ lia | ].
        rewrite E. f_equal; lia.
Qed.

(** On an option area that starts with well-formed options,
    [tcp_opt_adjust_mss] (switched on) lowers the value of the first MSS
    option by the eight bytes of the client-address option, modulo 2^16
    (a value below 8 wraps around), and changes nothing else; and if the
    options fill the option area and none is an MSS option, no byte
    changes. *)
Theorem tcp_opt_adjust_mss_lowers_the_mss
    (cfg : sysctl) (tcph : tcphdr) (pre : list tcp_option) (rest : list Z) :
  sysctl_ip_vs_mss_adjust_entry cfg <> 0 ->
  Forall opt_wf pre -> Forall (fun o => is_mss o = false) pre ->
  let L := doff tcph * 4 - sizeof_tcphdr in
  (forall hi lo,
      0 <= hi < 256 -> 0 <= lo < 256 ->
      Z.of_nat (length (opts_bytes pre)) + TCPOLEN_MSS <= L ->
      exists t,
        run (tcp_opt_adjust_mss cfg tcph)
          (opts_bytes pre ++ opt_bytes (Opt TCPOPT_MSS [hi; lo]) ++ rest)
        = Ok (tt, mk_optmem
                    (opts_bytes pre ++ [TCPOPT_MSS; TCPOLEN_MSS]
                     ++ be16_bytes (u16 (hi * 2 ^ 8 + lo - TCPOLEN_ADDR))
                     ++ rest) t))
  /\ (Z.of_nat (length (opts_bytes pre)) = L ->
      exists t,
        run (tcp_opt_adjust_mss cfg tcph) (opts_bytes pre ++ rest)
        = Ok (tt, mk_optmem (opts_bytes pre ++ rest) t)).
Proof.
  intros Hon Hwf Hno. cbv zeta.
  unfold run, tcp_opt_adjust_mss.
  destruct (Z.eqb_spec (sysctl_ip_vs_mss_adjust_entry cfg) 0) as [E | _];
    [ contradiction | ].
  set (L := doff tcph * 4 - sizeof_tcphdr). split.
  - intros hi lo Hhi Hlo HL. unfold TCPOLEN_MSS in HL.
    destruct (adjust_mss_loop_skips pre [] (opt_bytes (Opt TCPOPT_MSS [hi; lo]) ++ rest)
                (Z.to_nat L) 0 L
                (opts_bytes pre ++ opt_bytes (Opt TCPOPT_MSS [hi; lo]) ++ rest)
                [] Hwf Hno eq_refl eq_refl ltac:(lia) ltac:(lia))
      as (fuel' & t' & Hf' & Eskip).
    rewrite Eskip. clear Eskip.
    destruct fuel' as [| fuel']; [ cbn in Hf'; lia | ].
    cbn [adjust_mss_loop].
    destruct (Z.leb_spec (L - Z.of_nat (length (opts_bytes pre))) 0)
      as [Hz | _]; [ lia | ].
    cbn [opt_bytes opt_size length].
    change (2 + Z.of_nat 2) with 4.
    set (p := 0 + Z.of_nat (length (opts_bytes pre))).
    assert (Hp : p = Z.of_nat (length (opts_bytes pre))) by (unfold p; lia).
    unfold bind at 1.
    rewrite (rd8_in _ (opts_bytes pre) TCPOPT_MSS ((4 :: [hi; lo]) ++ rest) p t');
      [ | reflexivity | exact Hp ].
    change (u8 TCPOPT_MSS =? TCPOPT_EOL) with false.
    change (u8 TCPOPT_MSS =? TCPOPT_NOP) with false. cbv iota.
    unfold bind at 1.
    rewrite (rd8_in _ (opts_bytes pre ++ [TCPOPT_MSS]) 4 ([hi; lo] ++ rest)
               (p + 1));
      [ | rewrite <- ?app_assoc; reflexivity
        | rewrite length_app; cbn [length]; lia ].
    change (u8 4 <? 2) with false. cbv iota.
    destruct (Z.gtb_spec (u8 4) (L - Z.of_nat (length (opts_bytes pre))))
      as [Hgt | _]; [ change (u8 4) with 4 in Hgt; lia | ].
    change ((u8 TCPOPT_MSS =? TCPOPT_MSS) && (u8 4 =? TCPOLEN_MSS)) with true.
    cbv iota. unfold rd16, wr16.
    unfold bind at 1. unfold bind at 1.
    rewrite (rd8_in _ (opts_bytes pre ++ [TCPOPT_MSS; 4]) hi (lo :: rest)
               (p + 1 + 1));
      [ | rewrite <- ?app_assoc; reflexivity
        | rewrite length_app; cbn [length]; lia ].
    unfold bind at 1.
    rewrite (rd8_in _ (opts_bytes pre ++ [TCPOPT_MSS; 4; hi]) lo rest
               (p + 1 + 1 + 1));
      [ | rewrite <- ?app_assoc; reflexivity
        | rewrite length_app; cbn [length]; lia ].
    cbn [ret]. rewrite (u8_small hi), (u8_small lo) by lia.
    set (v := u16 (hi * 2 ^ 8 + lo - TCPOLEN_ADDR)).
    unfold bind at 1.
    rewrite (wr8_in _ (opts_bytes pre ++ [TCPOPT_MSS; 4]) hi (lo :: rest)
               (p + 1 + 1));
      [ | rewrite <- ?app_assoc; reflexivity
        | rewrite length_app; cbn [length]; lia ].
    rewrite (wr8_in _ ((opts_bytes pre ++ [TCPOPT_MSS; 4]) ++ [u8 (v / 2 ^ 8)])
               lo rest (p + 1 + 1 + 1));
      [ | rewrite <- ?app_assoc; reflexivity
        | rewrite !length_app; cbn [length]; lia ].
    eexists. rewrite <- !app_assoc. reflexivity.
  - intros HL.
    destruct (adjust_mss_loop_skips pre [] rest (Z.to_nat L) 0 L
                (opts_bytes pre ++ rest) [] Hwf Hno eq_refl eq_refl
                ltac:(lia) ltac:(lia))
      as (fuel' & t' & Hf' & Eskip).
    rewrite Eskip. exists t'.
    replace (L - Z.of_nat (length (opts_bytes pre))) with 0 by lia.
    destruct fuel'; reflexivity.
Qed.

(** The egress walk steps over well-formed options that are not a SACK
    option it rewrites, leaving the bytes alone. *)
Lemma out_adjust_loop_skips delta : forall pre A B fuel ptr n bs t,
  Forall opt_wf pre -> Forall (fun o => is_sack o = false) pre ->
  bs = A ++ opts_bytes pre ++ B -> ptr = Z.of_nat (length A) ->
  Z.of_nat (length (opts_bytes pre)) <= n -> n <= Z.of_nat fuel ->
  exists fuel' t',
    n - Z.of_nat (length (opts_bytes pre)) <= Z.of_nat fuel'
    /\ out_adjust_loop fuel delta ptr n (mk_optmem bs t)
       = out_adjust_loop fuel' delta
           (ptr + Z.of_nat (length (opts_bytes pre)))
           (n - Z.of_nat (length (opts_bytes pre))) (mk_optmem bs t').
Proof.
  induction pre as [| o pre IH]; intros A B fuel ptr n bs t Hwf Hno Hbs Hptr Hn Hf.
  - exists fuel, t. cbn [opts_bytes flat_map length].
    rewrite Z.add_0_r, Z.sub_0_r. split; [ exact Hf | reflexivity ].
  - pose proof (Forall_inv Hwf) as Wo. pose proof (Forall_inv_tail Hwf) as Wp.
    pose proof (Forall_inv Hno) as No. pose proof (Forall_inv_tail Hno) as Np.
    cbv beta in No. rewrite length_opts_bytes_cons in *.
    pose proof (opt_size_pos o) as Ho.
    destruct fuel as [| fuel]; [ cbn in Hf; lia | ].
    cbn [out_adjust_loop].
    destruct (Z.leb_spec n 0) as [Hz | _]; [ lia | ].
    unfold opts_bytes in Hbs. cbn [flat_map] in Hbs. fold (opts_bytes pre) in Hbs.
    rewrite <- app_assoc in Hbs.
    destruct o as [| k b].
    + cbn [opt_bytes app] in Hbs. unfold bind at 1.
      rewrite (rd8_in bs A TCPOPT_NOP _ ptr t Hbs Hptr).
      change (u8 TCPOPT_NOP =? TCPOPT_EOL) with false.
      change (u8 TCPOPT_NOP =? TCPOPT_NOP) with true. cbv iota.
      destruct (IH (A ++ [TCPOPT_NOP]) B fuel (ptr + 1) (n - 1) bs
                  (t ++ [Rd ptr]) Wp Np) as (fuel' & t' & Hf' & E).
      * rewrite <- app_assoc. exact Hbs.
      * rewrite length_app. cbn [length]. lia.
      * cbn [opt_size] in Hn. lia.
      * lia.
      * exists fuel', t'. cbn [opt_size]. split; [ lia | ].
        rewrite E. f_equal; lia.
    + cbn [opt_wf] in Wo. destruct Wo as [Wk Ws].
      cbn [is_sack] in No. cbn [opt_bytes app] in Hbs.
      set (sz := opt_size (Opt k b)) in *.
      assert (Hsz : 2 <= sz) by (unfold sz; cbn [opt_size]; lia).
      unfold bind at 1.
      rewrite (rd8_in bs A k _ ptr t Hbs Hptr), (u8_small k) by lia.
      destruct (Z.eqb_spec k TCPOPT_EOL) as [E0 | _];
        [ unfold TCPOPT_EOL in E0; lia | ].
      destruct (Z.eqb_spec k TCPOPT_NOP) as [E1 | _];
        [ unfold TCPOPT_NOP in E1; lia | ].
      unfold bind at 1.
      rewrite (rd8_in bs (A ++ [k]) sz (b ++ opts_bytes pre ++ B) (ptr + 1)
                 (t ++ [Rd ptr]));
        [ | rewrite <- app_assoc; exact Hbs
          | rewrite length_app; cbn [length]; lia ].
      rewrite (u8_small sz) by lia.
      destruct (Z.ltb_spec sz 2) as [Hlt | _]; [ lia | ].
      destruct (Z.gtb_spec sz n) as [Hgt | _]; [ lia | ].
      rewrite No.
      destruct (IH (A ++ k :: sz :: b) B fuel (ptr + 1 + 1 + (sz - 2)) (n - sz)
                  bs ((t ++ [Rd ptr]) ++ [Rd (ptr + 1)]) Wp Np)
        as (fuel' & t' & Hf' & E).
      * rewrite <- app_assoc. exact Hbs.
      * rewrite length_app. cbn [length]. unfold sz. cbn [opt_size]. lia.
      * lia.
      * lia.
      * exists fuel', t'. split; [ lia | ].
        rewrite E. f_equal; lia.
Qed.

Section EgressWalk.
Context `{Framework}.

(** When the options the SYN-proxy hook hands on are well-formed, fill
    the option area and hold no SACK option with whole blocks,
    [tcp_out_adjust_seq] changes the acknowledgement number and nothing
    else: it returns 1, [ack_seq] is lowered by the FullNAT delta modulo
    2^32, and no byte after the header changes. *)
Theorem tcp_out_adjust_seq_without_sack_changes_ack_seq_only
    (cp : ip_vs_conn) (tcph : tcphdr) (bs : list Z)
    (r : Z) (tcph' : tcphdr) (opts : list tcp_option) (rest : list Z) :
  ip_vs_synproxy_snat_handler tcph bs cp = (r, (tcph', opts_bytes opts ++ rest)) ->
  r <> 0 ->
  Forall opt_wf opts -> Forall (fun o => is_sack o = false) opts ->
  Z.of_nat (length (opts_bytes opts)) = doff tcph' * 4 - sizeof_tcphdr ->
  exists t,
    run (tcp_out_adjust_seq cp tcph) bs
    = Ok ((1, set_ack_seq (u32 (ack_seq tcph' - delta (fnat_seq cp))) tcph'),
          mk_optmem (opts_bytes opts ++ rest) t).
Proof.
  intros Hhook Hr Hwf Hno HL. unfold run, tcp_out_adjust_seq.
  cbn [bytes trace]. rewrite Hhook.
  destruct (Z.eqb_spec r 0) as [E | _]; [ contradiction | ].
  cbn [doff set_ack_seq].
  set (L := doff tcph' * 4 - sizeof_tcphdr) in *.
  destruct (out_adjust_loop_skips (delta (fnat_seq cp)) opts [] rest
              (Z.to_nat L) 0 L (opts_bytes opts ++ rest) [] Hwf Hno
              eq_refl eq_refl ltac:(lia) ltac:(lia))
    as (fuel' & t' & Hf' & Eskip).
  unfold bind. rewrite Eskip.
  replace (L - Z.of_nat (length (opts_bytes opts))) with 0 by lia.
  exists t'. destruct fuel'; reflexivity.
Qed.

End EgressWalk.

(* ===================================================================== *)
(** ** The further properties on concrete inputs                          *)
(* ===================================================================== *)

(** A concrete buffer is a consistent segment, by evaluation. *)
Ltac concrete_segment :=
  split;
  [ vm_compute; split; discriminate
  | split;
    [ reflexivity
    | split;
      [ reflexivity
      | split; [ reflexivity | repeat constructor; lia ] ] ] ].

(** A SYN rewritten for 10.0.2.1 to 10.0.1.1: the check field that the
    full calculation leaves is accepted, and so is no other value that
    differs from it modulo 0xffff; here the value 0 is tried. *)
Lemma tcp_csum_check_accepts_exactly_the_computed_checksum_witness :
  let good := full_csum AF_INET [0x0a000201] [0x0a000101] IPPROTO_TCP 20
                (skb4 (hdr 100 0 5 false true false false) []) in
  csum_verifies AF_INET
    (with_addrs [0x0a000201] [0x0a000101]
       (set_th (set_check 0 (tcp_hdr good)) good)) = true
  <-> cong 0 (check (tcp_hdr good)).
Proof.
  apply (tcp_csum_check_accepts_exactly_the_computed_checksum
           (skb4 (hdr 100 0 5 false true false false) [])
           [0x0a000201] [0x0a000101] 0).
  - concrete_segment.
  - vm_compute. split; [ discriminate | reflexivity ].
Defined.

(** A segment of the backend with a good checksum leaves the egress NAT
    handler with port 80 as its source and a checksum that is good for
    the virtual address. *)
Lemma tcp_snat_handler_keeps_checksum_witness :
  let skb := from_backend 19409 [] in
  csum_verifies AF_INET skb = true
  /\ let '(r, _, skb') :=
       tcp_snat_handler (H := plain_framework) all_on skb
         (nat_flow IP_VS_TCP_S_ESTABLISHED) true in
     r = 1
     /\ source (tcp_hdr skb') = 80
     /\ csum_verifies AF_INET
          (with_addrs [0x0a000001] [0x01010101] skb')
        = csum_verifies AF_INET skb.
Proof.
  split; [ reflexivity | ].
  apply (tcp_snat_handler_keeps_checksum (H := plain_framework) all_on
           (from_backend 19409 []) (nat_flow IP_VS_TCP_S_ESTABLISHED)).
  - intros th bs c. reflexivity.
  - reflexivity.
  - reflexivity.
  - discriminate.
  - concrete_segment.
  - reflexivity.
  - reflexivity.
Defined.

(** A segment of the client with a good checksum, carrying three bytes,
    leaves the ingress NAT handler with port 8080 as its destination and a
    checksum that is good for the address of the backend. *)
Lemma tcp_dnat_handler_keeps_checksum_witness :
  let skb := full_csum AF_INET [0x01010101] [0x0a000001] IPPROTO_TCP 20
               (skb4 (hdr 101 901 5 false false false true) [1; 2; 3]) in
  csum_verifies AF_INET skb = true
  /\ let '(r, _, skb') :=
       tcp_dnat_handler (H := plain_framework) skb
         (nat_flow IP_VS_TCP_S_ESTABLISHED) true in
     r = 1
     /\ dest (tcp_hdr skb') = 8080
     /\ csum_verifies AF_INET
          (with_addrs [0x01010101] [0x0a000101] skb')
        = csum_verifies AF_INET skb.
Proof.
  split; [ reflexivity | ].
  apply (tcp_dnat_handler_keeps_checksum (H := plain_framework)
           (full_csum AF_INET [0x01010101] [0x0a000001] IPPROTO_TCP 20
              (skb4 (hdr 101 901 5 false false false true) [1; 2; 3]))
           (nat_flow IP_VS_TCP_S_ESTABLISHED)).
  - intros th bs s. reflexivity.
  - reflexivity.
  - reflexivity.
  - discriminate.
  - concrete_segment.
  - reflexivity.
  - reflexivity.
Defined.

(** A check field holding the pseudo-header sum for 10.0.1.1 to 1.1.1.1
    holds the one for 10.0.0.1 to 1.1.1.1 after the update. *)
Lemma tcp_partial_csum_update_tracks_pseudo_header_witness :
  let th := set_check 3357 (hdr 900 101 5 false false false true) in
  let c' := check (tcp_partial_csum_update AF_INET th [0x0a000101]
                     [0x0a000001] 20 20) in
  0 <= c' < 2 ^ 16 /\ cong c' (pseudo4 [0x0a000001] [0x01010101] 6 20).
Proof.
  apply (tcp_partial_csum_update_tracks_pseudo_header
           (set_check 3357 (hdr 900 101 5 false false false true))
           [0x0a000101] [0x0a000001] [0x01010101] 6 20 20).
  - lia.
  - lia.
  - lia.
  - exists (-2817). reflexivity.
Defined.

(** The SYN of a new FullNAT flow leaves the ingress handler with a good
    checksum for the local address and the backend. *)
Lemma tcp_fnat_in_handler_checksum_witness :
  match tcp_fnat_in_handler (H := plain_framework) all_on
          (skb4 (hdr 100 0 5 false true false false) [])
          (flow4 0x0005 IP_VS_TCP_S_NONE (mk_seq 0 0 0))
          (mk_in_oracle true true) with
  | Ok (r, _, skb', _) =>
    r = 0
    \/ csum_verifies AF_INET (with_addrs [0x0a000201] [0x0a000101] skb') = true
  | Fault _ => True
  | Fuel => False
  end.
Proof.
  apply (tcp_fnat_in_handler_checksum (H := plain_framework) all_on
           (skb4 (hdr 100 0 5 false true false false) [])
           (flow4 0x0005 IP_VS_TCP_S_NONE (mk_seq 0 0 0))
           (mk_in_oracle true true)).
  - intros th bs s Hb. split; [ reflexivity | exact Hb ].
  - reflexivity.
  - reflexivity.
  - reflexivity.
  - concrete_segment.
  - reflexivity.
Defined.

(** The SYN-ACK of the backend, with an MSS option, leaves the egress
    handler with a good checksum for the virtual address and the client. *)
Lemma tcp_fnat_out_handler_checksum_witness :
  match tcp_fnat_out_handler (H := plain_framework) all_on
          (skb4 (synack_with_options 4) [2; 4; 5; 180])
          (established 900) true with
  | Ok (r, _, skb', _) =>
    r = 0
    \/ csum_verifies AF_INET (with_addrs [0x0a000001] [0x01010101] skb') = true
  | Fault _ => True
  | Fuel => False
  end.
Proof.
  apply (tcp_fnat_out_handler_checksum (H := plain_framework) all_on
           (skb4 (synack_with_options 4) [2; 4; 5; 180])
           (established 900) true).
  - intros th bs s Hb. split; [ reflexivity | exact Hb ].
  - reflexivity.
  - reflexivity.
  - reflexivity.
  - concrete_segment.
Defined.

(** A SYN of the client on a flow in CLOSE. *)
Lemma closed_flow_is_revived_only_by_syn_witness :
  let r := tcp_state_transition (tcp_timeout_change 0)
             (sysctl_ip_vs_tcp_timeouts 1000)
             (flow4 0 IP_VS_TCP_S_CLOSE (mk_seq 0 0 0)) IP_VS_DIR_INPUT
             (skb4 (hdr 100 0 5 false true false false) []) in
  state (snd r) <> IP_VS_TCP_S_CLOSE
  <-> fst r = 1
      /\ syn (tcp_hdr (skb4 (hdr 100 0 5 false true false false) [])) = true
      /\ rst (tcp_hdr (skb4 (hdr 100 0 5 false true false false) [])) = false.
Proof.
  apply (closed_flow_is_revived_only_by_syn 0 (sysctl_ip_vs_tcp_timeouts 1000)
           (flow4 0 IP_VS_TCP_S_CLOSE (mk_seq 0 0 0)) IP_VS_DIR_INPUT
           (skb4 (hdr 100 0 5 false true false false) [])).
  reflexivity.
Defined.

(** A FIN of the client on an established flow. *)
Lemma established_flow_left_only_by_fin_or_rst_witness :
  let skb := skb4 (hdr 101 901 5 true false false true) [] in
  let r := tcp_state_transition (tcp_timeout_change 0)
             (sysctl_ip_vs_tcp_timeouts 1000)
             (flow4 0 IP_VS_TCP_S_ESTABLISHED (mk_seq 0 0 0)) IP_VS_DIR_INPUT
             skb in
  state (snd r) = IP_VS_TCP_S_ESTABLISHED
  <-> fst r = 0
      \/ (rst (tcp_hdr skb) = false
          /\ (syn (tcp_hdr skb) = true
              \/ (fin (tcp_hdr skb) = false /\ ack (tcp_hdr skb) = true))).
Proof.
  apply (established_flow_left_only_by_fin_or_rst 0
           (sysctl_ip_vs_tcp_timeouts 1000)
           (flow4 0 IP_VS_TCP_S_ESTABLISHED (mk_seq 0 0 0)) IP_VS_DIR_INPUT
           (skb4 (hdr 101 901 5 true false false true) [])).
  reflexivity.
Defined.

(** The ACK that establishes a flow in SYN_RECV moves it from the inactive
    to the active count of its destination. *)
Lemma set_tcp_state_counts_the_flow_once_witness :
  let cp := set_conn_dest (Some (mk_dest 0 1))
              (flow4 IP_VS_CONN_F_INACTIVE IP_VS_TCP_S_SYN_RECV
                 (mk_seq 0 0 0)) in
  let cp' := set_tcp_state tcp_states (sysctl_ip_vs_tcp_timeouts 1000) cp
               IP_VS_DIR_INPUT (hdr 101 901 5 false false false true) in
  exists dest',
    conn_dest cp' = Some dest'
    /\ activeconns dest' - active_share cp' = 0 - active_share cp
    /\ inactconns dest' + active_share cp' = 1 + active_share cp
    /\ (state cp' <> state cp ->
        (active_share cp' = 1 <-> state cp' = IP_VS_TCP_S_ESTABLISHED)).
Proof.
  apply (set_tcp_state_counts_the_flow_once tcp_states
           (sysctl_ip_vs_tcp_timeouts 1000)
           (set_conn_dest (Some (mk_dest 0 1))
              (flow4 IP_VS_CONN_F_INACTIVE IP_VS_TCP_S_SYN_RECV
                 (mk_seq 0 0 0)))
           IP_VS_DIR_INPUT (hdr 101 901 5 false false false true)
           (mk_dest 0 1)).
  reflexivity.
Defined.

(** A SYN and an ACK of the client, with nothing heard from the backend. *)
Lemma secure_table_input_alone_never_establishes_witness :
  Forall (fun cp' => unanswered (state cp') = true
                     /\ state cp' <> IP_VS_TCP_S_ESTABLISHED)
    (transition_run tcp_states_dos (sysctl_ip_vs_tcp_timeouts 1000)
       IP_VS_DIR_INPUT (flow4 0 IP_VS_TCP_S_NONE (mk_seq 0 0 0))
       [ skb4 (hdr 100 0 5 false true false false) [];
         skb4 (hdr 101 1 5 false false false true) [] ]).
Proof.
  apply (secure_table_input_alone_never_establishes
           (sysctl_ip_vs_tcp_timeouts 1000)
           (flow4 0 IP_VS_TCP_S_NONE (mk_seq 0 0 0))
           [ skb4 (hdr 100 0 5 false true false false) [];
             skb4 (hdr 101 1 5 false false false true) [] ]).
  - reflexivity.
  - reflexivity.
Defined.

(** A NAT flow to port 80 and a table with one helper, on port 80. *)
Lemma tcp_app_conn_bind_finds_the_helper_of_the_port_witness :
  let t := snd (tcp_register_app ip_vs_tcp_init (mk_app 1 80)) in
  let cp := nat_flow IP_VS_TCP_S_NONE in
  let inc_get := fun _ : ip_vs_app => true in
  let init_conn := fun _ : ip_vs_app =>
                     @None (ip_vs_conn -> Z * ip_vs_conn) in
  let r := tcp_app_conn_bind t inc_get init_conn cp in
  (IP_VS_FWD_METHOD cp <> IP_VS_CONN_F_MASQ -> r = (0, cp))
  /\ (IP_VS_FWD_METHOD cp = IP_VS_CONN_F_MASQ ->
      (forall a, In a (concat (tcp_apps t)) -> app_port a = vport cp ->
         r = if inc_get a
             then match init_conn a with
                  | Some f => f (set_app (Some a) cp)
                  | None => (0, set_app (Some a) cp)
                  end
             else (0, cp))
      /\ ((forall a, In a (concat (tcp_apps t)) -> app_port a <> vport cp) ->
          r = (0, cp))).
Proof.
  apply (tcp_app_conn_bind_finds_the_helper_of_the_port
           (snd (tcp_register_app ip_vs_tcp_init (mk_app 1 80)))
           (fun _ => true) (fun _ => None) (nat_flow IP_VS_TCP_S_NONE)).
  apply reach_register. apply reach_init.
Defined.

(** A helper for port 21 registered in the empty table and unregistered. *)
Lemma tcp_unregister_app_undoes_tcp_register_app_witness :
  tcp_unregister_app (snd (tcp_register_app ip_vs_tcp_init (mk_app 1 21)))
    (mk_app 1 21)
  = ip_vs_tcp_init.
Proof.
  apply (tcp_unregister_app_undoes_tcp_register_app ip_vs_tcp_init
           (mk_app 1 21)).
  - apply reach_init.
  - reflexivity.
  - intros a Ha. vm_compute in Ha. contradiction.
Defined.

(** An established FullNAT flow that has saved 5000 and 901 from the last
    segment of the backend. *)
Lemma resets_carry_the_sequence_numbers_saved_from_the_server_witness :
  let cp := set_rs_seq 5000 901 (established 900) in
  (exists ih th,
      tcp_send_rst_in (H := plain_framework) cp (Some []) = [(Packet_xmit, Rst4 ih th)]
      /\ forall bs,
           seq (fst (tcp_in_adjust_seq (H := plain_framework) cp th bs))
           = u32 (rs_ack_seq cp))
  /\ (exists x ih th,
         tcp_send_rst_out (H := plain_framework) cp (Some []) = [(x, Rst4 ih th)]
         /\ seq th = rs_end_seq cp).
Proof.
  apply (resets_carry_the_sequence_numbers_saved_from_the_server
           (H := plain_framework) (set_rs_seq 5000 901 (established 900))
           [] []).
  - intros th bs s. reflexivity.
  - reflexivity.
  - reflexivity.
Defined.

(** Three bytes of the client on an established FullNAT flow, and the
    acknowledgement of the backend. *)
Lemma acknowledgement_of_a_translated_segment_translates_back_witness :
  let skb := skb4 (hdr 101 901 5 false false false true) [1; 2; 3] in
  let reply := skb4 (hdr 901 1004 5 false false false true) [] in
  match tcp_fnat_in_handler (H := plain_framework) all_on skb
          (established 900) (mk_in_oracle true true) with
  | Ok (r, cp', skb', _) =>
    r = 0
    \/ (ack_seq (tcp_hdr reply) = u32 (seq (tcp_hdr skb') + 3) ->
        match tcp_fnat_out_handler (H := plain_framework) all_on reply cp'
                true with
        | Ok (r', _, reply', _) =>
          r' = 0 \/ ack_seq (tcp_hdr reply') = u32 (seq (tcp_hdr skb) + 3)
        | Fault _ => True
        | Fuel => False
        end)
  | Fault _ => True
  | Fuel => False
  end.
Proof.
  apply (acknowledgement_of_a_translated_segment_translates_back
           (H := plain_framework) all_on
           (skb4 (hdr 101 901 5 false false false true) [1; 2; 3])
           (established 900) (mk_in_oracle true true)
           (skb4 (hdr 901 1004 5 false false false true) []) true 3).
  - intros th bs s. reflexivity.
  - intros th bs c. reflexivity.
  - reflexivity.
Defined.

(** The SYN of a new FullNAT flow. *)
Lemma syn_leaves_with_the_initial_sequence_number_drawn_witness :
  let cp := flow4 0x0005 IP_VS_TCP_S_NONE (mk_seq 0 0 0) in
  match tcp_fnat_in_handler (H := plain_framework) all_on
          (skb4 (hdr 100 0 5 false true false false) []) cp
          (mk_in_oracle true true) with
  | Ok (r, cp', skb', _) =>
    r = 0
    \/ (seq (tcp_hdr skb') = fresh_init_seq (H := plain_framework) cp
        /\ init_seq (fnat_seq cp') = fresh_init_seq (H := plain_framework) cp)
  | Fault _ => True
  | Fuel => False
  end.
Proof.
  apply (syn_leaves_with_the_initial_sequence_number_drawn
           (H := plain_framework) all_on
           (skb4 (hdr 100 0 5 false true false false) [])
           (flow4 0x0005 IP_VS_TCP_S_NONE (mk_seq 0 0 0))
           (mk_in_oracle true true)).
  - intros th bs s. reflexivity.
  - reflexivity.
  - reflexivity.
  - reflexivity.
  - left. reflexivity.
Defined.

(** The first ACK of the client on a FullNAT flow in SYN_RECV. *)
Lemma tcp_opt_add_toa_makes_room_for_the_option_witness :
  let cp := flow4 0x0005 IP_VS_TCP_S_SYN_RECV (mk_seq 1000 900 101) in
  let skb := skb4 (hdr 101 901 5 false false false true) [] in
  let skb' := snd (fst (tcp_opt_add_toa (H := plain_framework) cp skb true)) in
  len skb' = len skb + 8
  /\ firstn 8 (data skb') = toa_option (H := plain_framework) cp
  /\ skipn 8 (data skb') = data skb
  /\ tot_len (iph skb') = u16 (tot_len (iph skb) + 8)
  /\ (ihl (iph skb) = 5 -> ip_fast_csum (iph skb') = 0)
  /\ doff (tcp_hdr skb') = (doff (tcp_hdr skb) + 2) mod 16
  /\ (0 <= doff (tcp_hdr skb) <= 15 ->
      (doff (tcp_hdr skb') * 4 = doff (tcp_hdr skb) * 4 + 8
       <-> doff (tcp_hdr skb) <= 13)).
Proof.
  apply (tcp_opt_add_toa_makes_room_for_the_option (H := plain_framework)
           (flow4 0x0005 IP_VS_TCP_S_SYN_RECV (mk_seq 1000 900 101))
           (skb4 (hdr 101 901 5 false false false true) []) true).
  reflexivity.
Defined.

(** A SYN-ACK whose four option bytes hold an MSS option. *)
Lemma mss_and_timestamp_walkers_reach_at_most_L_witness :
  Forall (fun o => o <= 4)
    (touched (run (tcp_opt_adjust_mss all_on (synack_with_options 4))
                [2; 4; 5; 180]))
  /\ Forall (fun o => o <= 4)
       (touched (run (tcp_opt_remove_timestamp all_on
                        (synack_with_options 4)) [2; 4; 5; 180])).
Proof.
  apply (mss_and_timestamp_walkers_reach_at_most_L all_on
           (synack_with_options 4) [2; 4; 5; 180]).
  vm_compute. discriminate.
Defined.

(** Two NOPs and a timestamp option in an option area of twelve bytes. *)
Lemma tcp_opt_remove_timestamp_blanks_the_timestamp_witness :
  exists t,
    run (tcp_opt_remove_timestamp all_on (synack_with_options 12))
      [1; 1; 8; 10; 0; 0; 0; 1; 0; 0; 0; 2]
    = Ok (tt, mk_optmem [1; 1; 1; 1; 1; 1; 1; 1; 1; 1; 1; 1] t).
Proof.
  apply (proj1 (tcp_opt_remove_timestamp_blanks_the_timestamp all_on
                  (synack_with_options 12) [Opt_nop; Opt_nop] []
                  ltac:(discriminate)
                  ltac:(repeat constructor)
                  ltac:(repeat constructor))
           [0; 0; 0; 1; 0; 0; 0; 2]).
  - reflexivity.
  - vm_compute. discriminate.
Defined.

(** An MSS of 1460 becomes 1452. *)
Lemma tcp_opt_adjust_mss_lowers_the_mss_witness :
  exists t,
    run (tcp_opt_adjust_mss all_on (synack_with_options 4)) [2; 4; 5; 180]
    = Ok (tt, mk_optmem [2; 4; 5; 172] t).
Proof.
  apply (proj1 (tcp_opt_adjust_mss_lowers_the_mss all_on
                  (synack_with_options 4) [] []
                  ltac:(discriminate)
                  ltac:(repeat constructor)
                  ltac:(repeat constructor))
           5 180).
  - lia.
  - lia.
  - vm_compute. discriminate.
Defined.

(** A SYN-ACK with an MSS option on a flow whose delta is 900. *)
Lemma tcp_out_adjust_seq_without_sack_changes_ack_seq_only_witness :
  exists t,
    run (tcp_out_adjust_seq (H := plain_framework) (established 900)
           (synack_with_options 4)) [2; 4; 5; 180]
    = Ok ((1, set_ack_seq (u32 (1001 - 900)) (synack_with_options 4)),
          mk_optmem [2; 4; 5; 180] t).
Proof.
  apply (tcp_out_adjust_seq_without_sack_changes_ack_seq_only
           (H := plain_framework) (established 900) (synack_with_options 4)
           [2; 4; 5; 180] 1 (synack_with_options 4)
           [Opt TCPOPT_MSS [5; 180]] []).
  - reflexivity.
  - discriminate.
  - repeat constructor; vm_compute; try discriminate; reflexivity.
  - repeat constructor.
  - reflexivity.
Defined.
